(** * Prompt rewriter: request orchestration and response normalization

    A shallow embedding of the two API routes of the prompt rewriter
    ([src/app/api/rewrite/route.ts] and the self-improve route) together
    with the properties of their token budget check, retry loop, search
    augmentation and response cleaning.  The health endpoint, the later
    revision of the rewrite route and the parts of the page that call the
    routes and display their answers are embedded as well.

    JavaScript strings are sequences of UTF-16 code units; they are
    modelled as lists of code units ([N]).  Token counts and delays are
    integers ([Z]).  Network effects are recorded in an explicit trace. *)

From Stdlib Require Import List ZArith NArith Bool Lia Arith.
From Stdlib Require Import Strings.String Strings.Ascii.
From Stdlib Require Import QArith.
Import ListNotations.

Set Implicit Arguments.
Local Close Scope Q_scope.
Local Open Scope nat_scope.
Local Open Scope list_scope.
Local Open Scope bool_scope.

(* ================================================================== *)
(** ** JavaScript strings *)
(* ================================================================== *)

Module JsString.

Definition jsstring := list N.

(** A literal whose characters are all ASCII. *)
Definition js (s : string) : jsstring :=
  map N_of_ascii (list_ascii_of_string s).

Definition nl : jsstring := [10%N].
Definition dquote : jsstring := [34%N].
Definition squote : jsstring := [39%N].
Definition bullet : jsstring := [8226%N].

Definition eqs (a b : jsstring) : bool :=
  if list_eq_dec N.eq_dec a b then true else false.

(** LineTerminator: LF, CR, LS, PS. *)
Definition isLineTerminator (c : N) : bool :=
  ((c =? 10) || (c =? 13) || (c =? 8232) || (c =? 8233))%N.

(** WhiteSpace or LineTerminator: what [trim] strips and [\s] matches. *)
Definition isSpace (c : N) : bool :=
  ((c =? 9) || (c =? 11) || (c =? 12) || (c =? 32) || (c =? 160)
   || (c =? 5760) || ((8192 <=? c) && (c <=? 8202))
   || (c =? 8239) || (c =? 8287) || (c =? 12288) || (c =? 65279))%N
  || isLineTerminator c.

Fixpoint dropWhile (p : N -> bool) (s : jsstring) : jsstring :=
  match s with
  | [] => []
  | c :: s' => if p c then dropWhile p s' else s
  end.

Definition trimStart (s : jsstring) : jsstring := dropWhile isSpace s.
Definition trimEnd (s : jsstring) : jsstring := rev (dropWhile isSpace (rev s)).
Definition trim (s : jsstring) : jsstring := trimEnd (trimStart s).

Fixpoint startsWith (s p : jsstring) : bool :=
  match p, s with
  | [], _ => true
  | _ :: _, [] => false
  | a :: p', b :: s' => (a =? b)%N && startsWith s' p'
  end.

Definition endsWith (s p : jsstring) : bool := startsWith (rev s) (rev p).

Fixpoint includes (s p : jsstring) : bool :=
  startsWith s p ||
  match s with
  | [] => false
  | _ :: s' => includes s' p
  end.

(** [s.slice(b, e)]: negative indices count from the end. *)
Definition sliceIndex (len i : Z) : Z :=
  if (i <? 0)%Z then Z.max (len + i) 0 else Z.min i len.

Definition slice (s : jsstring) (b e : Z) : jsstring :=
  let len := Z.of_nat (List.length s) in
  let from := sliceIndex len b in
  let to := sliceIndex len e in
  firstn (Z.to_nat (to - from)) (skipn (Z.to_nat from) s).

(** [s.substring(i)] for an index [i >= 0]. *)
Definition substring (s : jsstring) (i : nat) : jsstring := skipn i s.

(** [s.split(sep)] for a one-character separator. *)
Fixpoint split (sep : N) (s : jsstring) : list jsstring :=
  match s with
  | [] => [[]]
  | c :: s' =>
      if (c =? sep)%N then [] :: split sep s'
      else match split sep s' with
           | [] => [[c]]
           | w :: ws => (c :: w) :: ws
           end
  end.

Fixpoint join (sep : jsstring) (parts : list jsstring) : jsstring :=
  match parts with
  | [] => []
  | [p] => p
  | p :: ps => p ++ sep ++ join sep ps
  end.

(** [toLowerCase] restricted to the letters A-Z; it agrees with the
    runtime's function on every string whose characters are ASCII. *)
Definition asciiToLower (s : jsstring) : jsstring :=
  map (fun c => if ((65 <=? c) && (c <=? 90))%N then (c + 32)%N else c) s.

(** Truthiness of a string: non-empty. *)
Definition truthy (s : jsstring) : bool :=
  match s with [] => false | _ => true end.

End JsString.
Import JsString.

(* ================================================================== *)
(** ** The regular expressions of the routes *)
(* ================================================================== *)

(** The fragment of ECMAScript regular expressions that the routes use,
    with the backtracking order of the language: alternatives left to
    right, greedy quantifiers, leftmost match. *)
Module Regex.

Inductive cclass : Type :=
| CChar (c : N)                          (* a literal character *)
| CSpace                                 (* \s *)
| CNotSpace                              (* \S *)
| COneOf (cs : list N) (orSpace : bool). (* [...], possibly with \s *)

Inductive regex : Type :=
| RChars (cl : cclass)
| REps
| RSeq (r1 r2 : regex)
| RAlt (r1 r2 : regex)
| ROpt (r : regex)                (* r?  *)
| RStar (cl : cclass)             (* c*  *)
| RPlus (cl : cclass)             (* c+  *)
| RRepeat (n : nat) (cl : cclass) (* c{n} *)
| RGroup (i : nat) (r : regex)    (* the i-th capturing group *)
| RBol                            (* ^ *)
| REol.                           (* $ *)

Record flags := { ignoreCase : bool; multiline : bool }.

Definition noFlags := {| ignoreCase := false; multiline := false |}.
Definition flagI := {| ignoreCase := true; multiline := false |}.
Definition flagM := {| ignoreCase := false; multiline := true |}.

(** Canonicalize of the [i] flag.  Every literal of the patterns below is
    ASCII, and a code unit outside ASCII never canonicalizes to an ASCII
    one, so upper-casing a-z decides every comparison. *)
Definition canonicalize (c : N) : N :=
  if ((97 <=? c) && (c <=? 122))%N then (c - 32)%N else c.

Definition matchChar (fl : flags) (cl : cclass) (c : N) : bool :=
  match cl with
  | CChar a =>
      if ignoreCase fl then (canonicalize a =? canonicalize c)%N
      else (a =? c)%N
  | CSpace => isSpace c
  | CNotSpace => negb (isSpace c)
  | COneOf cs sp => existsb (N.eqb c) cs || (sp && isSpace c)
  end.

Record mstate := {
  ms_prev : option N;               (* the character before the position *)
  ms_rest : jsstring;               (* the input from the position on *)
  ms_pos : nat;                     (* the position *)
  ms_caps : list (nat * jsstring)   (* captures, most recent first *)
}.

Definition advance (st : mstate) (c : N) (rest : jsstring) : mstate :=
  {| ms_prev := Some c; ms_rest := rest; ms_pos := S (ms_pos st);
     ms_caps := ms_caps st |}.

Fixpoint starK (test : N -> bool) (k : mstate -> option mstate)
    (caps : list (nat * jsstring)) (prev : option N) (rest : jsstring)
    (pos : nat) : option mstate :=
  let here := {| ms_prev := prev; ms_rest := rest; ms_pos := pos;
                 ms_caps := caps |} in
  match rest with
  | c :: rest' =>
      if test c then
        match starK test k caps (Some c) rest' (S pos) with
        | Some r => Some r
        | None => k here
        end
      else k here
  | [] => k here
  end.

Fixpoint repeatK (test : N -> bool) (n : nat) (k : mstate -> option mstate)
    (st : mstate) : option mstate :=
  match n with
  | O => k st
  | S n' =>
      match ms_rest st with
      | c :: rest' =>
          if test c then repeatK test n' k (advance st c rest') else None
      | [] => None
      end
  end.

Definition atLineStart (fl : flags) (st : mstate) : bool :=
  match ms_prev st with
  | None => true
  | Some c => multiline fl && isLineTerminator c
  end.

Definition atLineEnd (fl : flags) (st : mstate) : bool :=
  match ms_rest st with
  | [] => true
  | c :: _ => multiline fl && isLineTerminator c
  end.

Definition setCapture (i : nat) (from : mstate) (to : mstate) : mstate :=
  {| ms_prev := ms_prev to; ms_rest := ms_rest to; ms_pos := ms_pos to;
     ms_caps := (i, firstn (ms_pos to - ms_pos from) (ms_rest from))
                  :: ms_caps to |}.

Fixpoint mtch (fl : flags) (r : regex) (st : mstate)
    (k : mstate -> option mstate) : option mstate :=
  match r with
  | RChars cl =>
      match ms_rest st with
      | c :: rest' => if matchChar fl cl c then k (advance st c rest') else None
      | [] => None
      end
  | REps => k st
  | RSeq r1 r2 => mtch fl r1 st (fun st1 => mtch fl r2 st1 k)
  | RAlt r1 r2 =>
      match mtch fl r1 st k with
      | Some x => Some x
      | None => mtch fl r2 st k
      end
  | ROpt r1 =>
      match mtch fl r1 st k with
      | Some x => Some x
      | None => k st
      end
  | RStar cl =>
      starK (matchChar fl cl) k (ms_caps st) (ms_prev st) (ms_rest st) (ms_pos st)
  | RPlus cl =>
      match ms_rest st with
      | c :: rest' =>
          if matchChar fl cl c
          then starK (matchChar fl cl) k (ms_caps st) (Some c) rest' (S (ms_pos st))
          else None
      | [] => None
      end
  | RRepeat n cl => repeatK (matchChar fl cl) n k st
  | RGroup i r1 => mtch fl r1 st (fun st1 => k (setCapture i st st1))
  | RBol => if atLineStart fl st then k st else None
  | REol => if atLineEnd fl st then k st else None
  end.

(** One attempt to match at a given position. *)
Definition matchAt (fl : flags) (r : regex) (prev : option N)
    (rest : jsstring) (pos : nat) : option mstate :=
  mtch fl r {| ms_prev := prev; ms_rest := rest; ms_pos := pos; ms_caps := [] |}
       Some.

Fixpoint capture (i : nat) (caps : list (nat * jsstring)) : jsstring :=
  match caps with
  | [] => []
  | (j, s) :: caps' => if Nat.eqb i j then s else capture i caps'
  end.

(** Leftmost match: the start index and the final state. *)
Fixpoint execFrom (fl : flags) (r : regex) (prev : option N)
    (rest : jsstring) (pos : nat) : option (nat * mstate) :=
  match matchAt fl r prev rest pos with
  | Some st => Some (pos, st)
  | None =>
      match rest with
      | [] => None
      | c :: rest' => execFrom fl r (Some c) rest' (S pos)
      end
  end.

Definition exec (fl : flags) (r : regex) (s : jsstring) : option (nat * mstate) :=
  execFrom fl r None s 0.

(** [s.search(re)]: the index of the leftmost match, or -1. *)
Definition search (fl : flags) (r : regex) (s : jsstring) : Z :=
  match exec fl r s with
  | Some (i, _) => Z.of_nat i
  | None => (-1)%Z
  end.

(** [s.match(re)[i]] for a regular expression without the [g] flag. *)
Definition matchGroup (fl : flags) (r : regex) (i : nat) (s : jsstring)
  : option jsstring :=
  match exec fl r s with
  | Some (_, st) => Some (capture i (ms_caps st))
  | None => None
  end.

(** Replacement strings: literal text and [$n] references. *)
Inductive titem : Type :=
| TLit (s : jsstring)
| TGroup (i : nat).

Fixpoint expand (tpl : list titem) (caps : list (nat * jsstring)) : jsstring :=
  match tpl with
  | [] => []
  | TLit s :: tpl' => s ++ expand tpl' caps
  | TGroup i :: tpl' => capture i caps ++ expand tpl' caps
  end.

(** [s.replace(re, tpl)] without the [g] flag: the leftmost match only. *)
Fixpoint replaceFirstFrom (fl : flags) (r : regex) (tpl : list titem)
    (prev : option N) (rest : jsstring) (pos : nat) : jsstring :=
  match matchAt fl r prev rest pos with
  | Some st => expand tpl (ms_caps st) ++ ms_rest st
  | None =>
      match rest with
      | [] => []
      | c :: rest' => c :: replaceFirstFrom fl r tpl (Some c) rest' (S pos)
      end
  end.

Definition replaceFirst (fl : flags) (r : regex) (tpl : list titem)
    (s : jsstring) : jsstring :=
  replaceFirstFrom fl r tpl None s 0.

(** [s.replace(re, tpl)] with the [g] flag: every match, left to right,
    each search resuming where the previous match ended (one character
    further after an empty match).  [skip] counts the characters of the
    current match that are still to be dropped. *)
Fixpoint replaceAllFrom (fl : flags) (r : regex) (tpl : list titem)
    (skip : nat) (prev : option N) (rest : jsstring) (pos : nat) : jsstring :=
  match skip with
  | S n =>
      match rest with
      | [] => []
      | c :: rest' => replaceAllFrom fl r tpl n (Some c) rest' (S pos)
      end
  | O =>
      match matchAt fl r prev rest pos with
      | Some st =>
          expand tpl (ms_caps st) ++
          match rest with
          | [] => []
          | c :: rest' =>
              match ms_pos st - pos with
              | O => c :: replaceAllFrom fl r tpl 0 (Some c) rest' (S pos)
              | S n => replaceAllFrom fl r tpl n (Some c) rest' (S pos)
              end
          end
      | None =>
          match rest with
          | [] => []
          | c :: rest' => c :: replaceAllFrom fl r tpl 0 (Some c) rest' (S pos)
          end
      end
  end.

Definition replaceAll (fl : flags) (r : regex) (tpl : list titem)
    (s : jsstring) : jsstring :=
  replaceAllFrom fl r tpl 0 None s 0.

(** Pattern construction. *)
Fixpoint seqs (rs : list regex) : regex :=
  match rs with
  | [] => REps
  | [r] => r
  | r :: rs' => RSeq r (seqs rs')
  end.

Fixpoint alts (rs : list regex) : regex :=
  match rs with
  | [] => REps
  | [r] => r
  | r :: rs' => RAlt r (alts rs')
  end.

Definition chr (s : string) : cclass :=
  match js s with
  | c :: _ => CChar c
  | [] => COneOf [] false
  end.

Definition lit (s : string) : regex :=
  seqs (map (fun c => RChars (CChar c)) (js s)).

End Regex.
Import Regex.

(* ================================================================== *)
(** ** Response cleaning ([cleanResponse]) *)
(* ================================================================== *)

Module Normalizer.

Definition ch (c : N) : regex := RChars (CChar c).
Definition optColon : regex := ROpt (lit ":").
Definition spaces : regex := RStar CSpace.

(** [for (const pattern of patterns) cleaned = cleaned.replace(pattern, '')] *)
Definition removePatterns (patterns : list regex) (cleaned : jsstring) : jsstring :=
  fold_left (fun cleaned pattern => replaceFirst flagI pattern [] cleaned)
            patterns cleaned.

(** Remove quotes if the entire response is wrapped in them. *)
Definition removeQuotes (cleaned : jsstring) : jsstring :=
  if (startsWith cleaned dquote && endsWith cleaned dquote)
     || (startsWith cleaned squote && endsWith cleaned squote)
  then trim (slice cleaned 1 (-1))
  else cleaned.

Definition componentNames : list string :=
  ["Role"; "Context"; "Task"; "Format"; "Rules"; "Examples"]%string.

(** [(Role|Context|Task|Format|Rules|Examples)] as the first group. *)
Definition componentGroup : regex := RGroup 1 (alts (map lit componentNames)).

(** [/^(Role|Context|Task|Format|Rules|Examples):/] *)
Definition componentRe : regex := seqs [RBol; componentGroup; lit ":"].

(** [trimmedLine.match(/^(Role|...):/)], giving [componentMatch[1]]. *)
Definition componentMatch (trimmedLine : jsstring) : option jsstring :=
  matchGroup noFlags componentRe 1 trimmedLine.

Definition isSome {A} (o : option A) : bool :=
  match o with Some _ => true | None => false end.

(** [foundComponents.has(component)] *)
Definition has (foundComponents : list jsstring) (component : jsstring) : bool :=
  existsb (eqs component) foundComponents.

Definition push (lines : list jsstring) (line : jsstring) : list jsstring :=
  lines ++ [line].

(** The loop over the lines of a framework reply.  The state is the
    lines kept so far, the set of components found and the current
    component; a [break] returns the lines kept so far. *)
Fixpoint walk (lines : list jsstring) (frameworkLines : list jsstring)
    (foundComponents : list jsstring) (currentComponent : jsstring)
  : list jsstring :=
  match lines with
  | [] => frameworkLines
  | line :: lines' =>
      let trimmedLine := trim line in
      match componentMatch trimmedLine with
      | Some component =>
          if has foundComponents component then frameworkLines
          else
            let separated :=
              if 0 <? List.length frameworkLines
              then push frameworkLines [] else frameworkLines in
            walk lines' (push separated line)
                 (component :: foundComponents) component
      | None =>
          if truthy currentComponent
             && (eqs trimmedLine [] || startsWith trimmedLine (js " ")
                 || startsWith trimmedLine (js "-")
                 || startsWith trimmedLine bullet)
          then walk lines' (push frameworkLines line)
                    foundComponents currentComponent
          else if truthy currentComponent
                  && (0 <? List.length trimmedLine)
                  && negb (isSome (componentMatch trimmedLine))
          then walk lines' (push frameworkLines line)
                    foundComponents currentComponent
          else if (0 <? List.length trimmedLine)
                  && negb (isSome (componentMatch trimmedLine))
          then
            if has foundComponents (js "Role") then frameworkLines
            else walk lines' frameworkLines foundComponents currentComponent
          else walk lines' frameworkLines foundComponents currentComponent
      end
  end.

(** [/\n\n\n+/g] *)
Definition blankRunRe : regex := seqs [ch 10; ch 10; RPlus (CChar 10)].

Definition collapseBlankLines (cleaned : jsstring) : jsstring :=
  replaceAll noFlags blankRunRe [TLit (nl ++ nl)] cleaned.

(** [new RegExp(`(\\S)\\s*(${component}:)`, 'g')] *)
Definition separatorRe (component : string) : regex :=
  seqs [RGroup 1 (RChars CNotSpace); spaces;
        RGroup 2 (RSeq (lit component) (lit ":"))].

Definition separateComponent (cleaned : jsstring) (component : string) : jsstring :=
  replaceAll noFlags (separatorRe component)
             [TGroup 1; TLit (nl ++ nl); TGroup 2] cleaned.

(** The body of [if (mode === 'framework-optimization')]. *)
Definition frameworkStage (cleaned0 : jsstring) : jsstring :=
  let firstRoleIndex := search flagM (seqs [RBol; lit "Role:"]) cleaned0 in
  let cleaned1 :=
    if (0 <? firstRoleIndex)%Z
    then substring cleaned0 (Z.to_nat firstRoleIndex) else cleaned0 in
  let lines := split 10 cleaned1 in
  let frameworkLines := walk lines [] [] [] in
  let cleaned2 := join nl frameworkLines in
  let cleaned3 := collapseBlankLines cleaned2 in
  let cleaned4 :=
    replaceAll flagM componentRe [TLit nl; TGroup 1; TLit (js ":")] cleaned3 in
  let cleaned5 :=
    replaceFirst noFlags (seqs [RBol; RPlus (CChar 10)]) [] cleaned4 in
  fold_left separateComponent (tl componentNames) cleaned5.

(** [new RegExp(`([.!?])\\s*(${section}[:\\s])`, 'g')] *)
Definition sectionRe (section : string) : regex :=
  seqs [RGroup 1 (RChars (COneOf (js ".!?") false)); spaces;
        RGroup 2 (RSeq (lit section) (RChars (COneOf (js ":") true)))].

Definition separateSection (cleaned : jsstring) (section : string) : jsstring :=
  replaceAll noFlags (sectionRe section)
             [TGroup 1; TLit (nl ++ nl); TGroup 2] cleaned.

(** [/([.!?])\s*[-•]\s*/g] *)
Definition inlineBulletRe : regex :=
  seqs [RGroup 1 (RChars (COneOf (js ".!?") false)); spaces;
        RChars (COneOf (js "-" ++ bullet) false); spaces].

(** The body of [if (mode === 'report-writing')]. *)
Definition reportStage (reportSections : list string) (cleaned0 : jsstring)
  : jsstring :=
  let cleaned1 := fold_left separateSection reportSections cleaned0 in
  let cleaned2 :=
    replaceAll noFlags inlineBulletRe [TGroup 1; TLit (nl ++ js "- ")] cleaned1 in
  collapseBlankLines cleaned2.

(** What the two routes' [cleanResponse] differ in. *)
Record catalogue := {
  prefixPatterns : list regex;
  suffixPatterns : list regex;
  reportSections : list string;
}.

(** Stages 1 to 3: trim, strip prefixes and suffixes, unwrap quotes. *)
Definition stripStage (cat : catalogue) (response : jsstring) : jsstring :=
  let cleaned := trim response in
  let cleaned := removePatterns (prefixPatterns cat) cleaned in
  let cleaned := removePatterns (suffixPatterns cat) cleaned in
  removeQuotes cleaned.

Definition cleanResponseWith (cat : catalogue) (response mode : jsstring)
  : jsstring :=
  let cleaned := stripStage cat response in
  let cleaned :=
    if eqs mode (js "framework-optimization")
    then frameworkStage cleaned else cleaned in
  let cleaned :=
    if eqs mode (js "report-writing")
    then reportStage (reportSections cat) cleaned else cleaned in
  trim cleaned.

Definition improvedAlt : regex :=
  RGroup 1 (alts [lit "improved"; lit "optimized"; lit "rewritten"]).

Definition enhancedAlt : regex :=
  RGroup 1 (alts [lit "enhanced"; lit "improved"; lit "optimized"]).

End Normalizer.
Import Normalizer.

(** The rewrite route's catalogue of patterns. *)
Module RewriteCatalogue.

Definition prefixes : list regex :=
  [ seqs [RBol; lit "Here is the rewritten prompt"; optColon; spaces];
    seqs [RBol; lit "The rewritten prompt is"; optColon; spaces];
    seqs [RBol; lit "Rewritten prompt"; optColon; spaces];
    seqs [RBol; lit "Here's the rewritten prompt"; optColon; spaces];
    seqs [RBol; lit "Here's a rewritten version"; optColon; spaces];
    seqs [RBol; lit "Rewritten version"; optColon; spaces];
    seqs [RBol; lit "Here is a"; ROpt (lit "n"); lit " "; improvedAlt;
          optColon; spaces];
    seqs [RBol; lit "The "; improvedAlt; lit " prompt"; optColon; spaces] ].

Definition suffixes : list regex :=
  [ seqs [spaces; lit "This rewritten prompt"; RRepeat 3 (chr "."); REol];
    seqs [spaces; lit "I hope this helps"; ROpt (lit "!"); ROpt (lit "."); REol];
    seqs [spaces; lit "Let me know if you need any adjustments";
          ROpt (lit "."); REol] ].

Definition sections : list string :=
  [ "Executive Summary"; "Methodology"; "Background"; "Analysis"; "Findings";
    "Recommendations"; "Conclusion"; "Appendices"; "References";
    "Data Sources"; "Research Approach"; "Target Audience"; "Deliverables";
    "Timeline"; "Success Metrics" ]%string.

Definition cat : catalogue :=
  {| prefixPatterns := prefixes; suffixPatterns := suffixes;
     reportSections := sections |}.

End RewriteCatalogue.

(** The self-improve route's catalogue of patterns. *)
Module ImproveCatalogue.

Definition prefixes : list regex :=
  [ seqs [RBol; lit "Here is the improved version"; optColon; spaces];
    seqs [RBol; lit "The improved version is"; optColon; spaces];
    seqs [RBol; lit "Improved version"; optColon; spaces];
    seqs [RBol; lit "Here's the improved version"; optColon; spaces];
    seqs [RBol; lit "Here's an improved version"; optColon; spaces];
    seqs [RBol; lit "Enhanced version"; optColon; spaces];
    seqs [RBol; lit "Here is a"; ROpt (lit "n"); lit " "; enhancedAlt;
          optColon; spaces];
    seqs [RBol; lit "The "; enhancedAlt; lit " version"; optColon; spaces] ].

Definition suffixes : list regex :=
  [ seqs [spaces; lit "This improved version"; RRepeat 3 (chr "."); REol];
    seqs [spaces; lit "I hope this enhanced version helps"; ROpt (lit "!");
          ROpt (lit "."); REol];
    seqs [spaces; lit "Let me know if you need further improvements";
          ROpt (lit "."); REol] ].

Definition sections : list string :=
  [ "Executive Summary"; "Methodology"; "Background"; "Analysis"; "Findings";
    "Recommendations"; "Conclusion"; "Appendices"; "References";
    "Data Sources"; "Research Approach"; "Target Audience"; "Deliverables";
    "Timeline"; "Success Metrics"; "Quality Assurance";
    "Stakeholder Communication"; "Risk Assessment"; "Implementation";
    "Follow-up" ]%string.

Definition cat : catalogue :=
  {| prefixPatterns := prefixes; suffixPatterns := suffixes;
     reportSections := sections |}.

End ImproveCatalogue.

(* ================================================================== *)
(** ** The completion invoker ([callGroqWithRetry]) *)
(* ================================================================== *)

Module Invoker.

(** [MODEL_CONFIG] *)
Definition modelName : jsstring := js "llama-3.3-70b-versatile".
Definition maxContextTokens : Z := 131072.
Definition maxCompletionTokens : Z := 32768.
Definition charToTokenRatio : Z := 4.

(** [ERROR_MESSAGES]; the two routes differ in [PAYLOAD_TOO_LARGE]. *)
Record errorMessages := {
  RATE_LIMIT : jsstring;
  PAYLOAD_TOO_LARGE : jsstring;
  NETWORK_TIMEOUT : jsstring;
  INVALID_API_KEY : jsstring;
  SERVICE_UNAVAILABLE : jsstring;
  GENERIC_ERROR : jsstring;
}.

(** [Math.ceil(text.length / MODEL_CONFIG.charToTokenRatio)] *)
Definition estimateTokenCount (text : jsstring) : Z :=
  (Z.of_nat (List.length text) + (charToTokenRatio - 1)) / charToTokenRatio.

(** The double nearest to 0.8 is [3602879701896397 / 2^52]; multiplying
    it by [maxContextTokens], a power of two, is exact.  A token count is
    an integer below 2^53 and converts exactly, so
    [total <= MODEL_CONFIG.maxContextTokens * 0.8] is the comparison of
    [total * 2^52] with [maxContextTokens * 3602879701896397]. *)
Definition double_0_8_mantissa : Z := 3602879701896397.

Definition withinInputBudget (totalInputTokens : Z) : bool :=
  (totalInputTokens * 2 ^ 52 <=? maxContextTokens * double_0_8_mantissa)%Z.

(** What the provider client throws: [error.status], [error.code],
    [error.message]. *)
Record apiError := {
  status : option Z;
  code : option jsstring;
  message : option jsstring;
}.

(** [completion.choices], each choice reduced to its [message?.content]. *)
Record completion := { choices : list (option jsstring) }.

Inductive outcome : Type :=
| Resolved (c : completion)
| Rejected (error : apiError).

Record chatMessage := { role : jsstring; content : jsstring }.

Record completionRequest := {
  messages : list chatMessage;
  model : jsstring;
  temperature : Q;
  max_tokens : Z;
}.

(** The external effects of a request, in the order they happen. *)
Inductive event : Type :=
| Search (query : jsstring)             (* the call of the search API *)
| Create (attempt : nat) (req : completionRequest)
                                        (* one completion call *)
| Sleep (ms : option Z).                (* [setTimeout]; [None] is NaN *)

Inductive invocation : Type :=
| Returned (c : completion)
| Thrown (msg : jsstring)
| Fallthrough.                          (* the loop ended: [undefined] *)

Definition delays : list Z := [1000; 2000; 4000]%Z.

(** [delays[attempt]] *)
Definition delayAt (attempt : nat) : option Z := nth_error delays attempt.

Definition statusIs (error : apiError) (n : Z) : bool :=
  match status error with
  | Some s => (s =? n)%Z
  | None => false
  end.

(** [error.code === 'ECONNABORTED' || error.message?.includes('timeout')] *)
Definition isTimeout (error : apiError) : bool :=
  match code error with
  | Some c => eqs c (js "ECONNABORTED")
  | None => false
  end
  || match message error with
     | Some m => includes m (js "timeout")
     | None => false
     end.

(** [error.status >= 500] *)
Definition isServerError (error : apiError) : bool :=
  match status error with
  | Some s => (500 <=? s)%Z
  | None => false
  end.

Section Retry.

Variable msgs : errorMessages.
(** [groq.chat.completions.create], as a function of the request and of
    the number of calls made before. *)
Variable create : completionRequest -> nat -> outcome.
Variable req : completionRequest.
Variable retries : nat.

(** [for (let attempt = 0; attempt < retries; attempt++)]: [remaining]
    is [retries - attempt], the number of iterations still to run. *)
Fixpoint retryLoop (remaining attempt : nat) : list event * invocation :=
  match remaining with
  | O => ([], Fallthrough)
  | S remaining' =>
      let next (ms : option Z) :=
        let (evs, r) := retryLoop remaining' (S attempt) in
        (Create attempt req :: Sleep ms :: evs, r) in
      let throw (msg : jsstring) := ([Create attempt req], Thrown msg) in
      match create req attempt with
      | Resolved c => ([Create attempt req], Returned c)
      | Rejected error =>
          let isLastAttempt := Nat.eqb attempt (retries - 1) in
          if statusIs error 429 then
            if negb isLastAttempt
            then next (option_map (fun d => d * 2)%Z (delayAt attempt))
            else throw (RATE_LIMIT msgs)
          else if statusIs error 413 then throw (PAYLOAD_TOO_LARGE msgs)
          else if isTimeout error then
            if negb isLastAttempt then next (delayAt attempt)
            else throw (NETWORK_TIMEOUT msgs)
          else if statusIs error 401 || statusIs error 403
          then throw (INVALID_API_KEY msgs)
          else if isServerError error then
            if negb isLastAttempt then next (delayAt attempt)
            else throw (SERVICE_UNAVAILABLE msgs)
          else if isLastAttempt then throw (GENERIC_ERROR msgs)
          else next (delayAt attempt)
      end
  end.

End Retry.

(** [callGroqWithRetry(messages, temperature, maxTokens, retries = 3)] *)
Definition callGroqWithRetry (msgs : errorMessages)
    (create : completionRequest -> nat -> outcome)
    (messages : list chatMessage) (temperature : Q) (maxTokens : Z)
    (retries : nat) : list event * invocation :=
  let req := {| messages := messages; model := modelName;
                temperature := temperature;
                max_tokens := Z.min maxTokens maxCompletionTokens |} in
  retryLoop msgs create req retries retries 0.

End Invoker.
Import Invoker.

(* ================================================================== *)
(** ** Requests, responses and the environment of a route *)
(* ================================================================== *)

Module Http.

(** The values a JSON body can hold, as far as the routes look. *)
Inductive jsvalue : Type :=
| JUndefined
| JNull
| JBool (b : bool)
| JNumber (n : Z)
| JString (s : jsstring)
| JObject.                      (* an object or an array *)

Definition valueTruthy (v : jsvalue) : bool :=
  match v with
  | JUndefined | JNull => false
  | JBool b => b
  | JNumber n => negb (n =? 0)%Z
  | JString s => truthy s
  | JObject => true
  end.

(** [!v || typeof v !== 'string'] fails: [v] is a non-empty string. *)
Definition nonEmptyString (v : jsvalue) : option jsstring :=
  match v with
  | JString (c :: s) => Some (c :: s)
  | _ => None
  end.

(** [VALID_MODES.includes(mode)] compares with [===]. *)
Definition validMode (validModes : list jsstring) (mode : jsvalue)
  : option jsstring :=
  match mode with
  | JString s => if existsb (eqs s) validModes then Some s else None
  | _ => None
  end.

(** A destructuring default: used when the property is [undefined]. *)
Definition withDefault (v d : jsvalue) : jsvalue :=
  match v with
  | JUndefined => d
  | _ => v
  end.

(** [process.env.X] is set and not empty. *)
Definition configured (key : option jsstring) : bool :=
  match key with
  | Some k => truthy k
  | None => false
  end.

Record rewriteResult := {
  rewrittenPrompt : jsstring;
  r_mode : jsstring;
  r_modeName : jsstring;
  isContentGeneration : bool;
  webAccessUsed : bool;
  webSources : list jsstring;
}.

Record improveResult := {
  improvedOutput : jsstring;
  i_mode : jsstring;
  i_modeName : jsstring;
}.

Inductive responseBody : Type :=
| ErrorBody (error : jsstring)
| RewriteBody (r : rewriteResult)
| ImproveBody (r : improveResult).

(** [NextResponse.json(body, { status })]; the status defaults to 200. *)
Record response := { statusCode : Z; body : responseBody }.

Definition json (st : Z) (b : responseBody) : response :=
  {| statusCode := st; body := b |}.

(** The outer [catch] of a route, for an error that has a message and no
    [status]: [error.message || GENERIC_ERROR] with status 500. *)
Definition caught (msgs : errorMessages) (message : jsstring) : response :=
  json 500 (ErrorBody (if truthy message then message else GENERIC_ERROR msgs)).

(** Reading [.choices] of [undefined]. *)
Definition undefinedChoices : jsstring :=
  js "Cannot read properties of undefined (reading 'choices')".

(** [completion.choices[0]?.message?.content] *)
Definition firstContent (c : completion) : option jsstring :=
  match choices c with
  | [] => None
  | ch :: _ => ch
  end.

Definition lookup (table : list (jsstring * jsstring)) (key : jsstring)
  : option jsstring :=
  match find (fun kv => eqs key (fst kv)) table with
  | Some kv => Some (snd kv)
  | None => None
  end.

End Http.
Import Http.

(* ================================================================== *)
(** ** The rewrite route *)
(* ================================================================== *)

Module Rewrite.

Definition ERROR_MESSAGES : errorMessages :=
  {| RATE_LIMIT :=
       js "Service is experiencing high demand. Please wait a moment and try again.";
     PAYLOAD_TOO_LARGE :=
       js "Your prompt is too long. Please shorten it and try again.";
     NETWORK_TIMEOUT :=
       js "Request timed out. Please check your connection and try again.";
     INVALID_API_KEY :=
       js "Service configuration error. Please contact support.";
     SERVICE_UNAVAILABLE :=
       js "Service temporarily unavailable. Please try again in a few minutes.";
     GENERIC_ERROR := js "An unexpected error occurred. Please try again." |}.

(** [validateTokenLimits(systemInstructions, userMessage, webData = '')] *)
Definition validateTokenLimits (systemInstructions userMessage webData : jsstring)
  : bool :=
  let systemTokens := estimateTokenCount systemInstructions in
  let userTokens := estimateTokenCount userMessage in
  let webTokens := estimateTokenCount webData in
  let totalInputTokens := (systemTokens + userTokens + webTokens)%Z in
  withinInputBudget totalInputTokens.

(** [SYSTEM_INSTRUCTIONS], each text as its lines. *)
Definition SYSTEM_INSTRUCTIONS : list (jsstring * jsstring) :=
  [ (js "question-research",
     join nl
      [ js "You are a prompt rewriting specialist. Take the user's input and rewrite it as an optimized research prompt. Focus on:";
        js "- Adding research methodology requirements";
        js "- Including source verification requests  ";
        js "- Structuring for evidence-based analysis";
        js "- Keeping the original topic/intent intact";
        js "";
        js "CRITICAL: Rewrite their specific prompt, don't generate generic templates. Keep under 200 words.";
        js "Do not include prefixes like 'Here is...' or 'The rewritten prompt is...'. Output only the rewritten prompt." ]);
    (js "report-writing",
     join nl
      [ js "You are a Professional Business Report Writing Specialist with expertise in creating comprehensive, structured documents that meet enterprise standards. Your task is to transform user prompts into detailed, professional report writing instructions.";
        js "";
        js "Transform the user's input into a comprehensive report writing prompt that includes:";
        js "";
        js "STRUCTURE REQUIREMENTS:";
        js "- Executive Summary specifications (key findings, recommendations, scope)";
        js "- Methodology section requirements (research approach, data sources, analysis methods)";
        js "- Main content organization (logical flow, section headers, subsections)";
        js "- Conclusion and recommendations format";
        js "- Appendices and supporting materials";
        js "";
        js "PROFESSIONAL STANDARDS:";
        js "- Specify target audience and stakeholder considerations";
        js "- Include data visualization requirements (charts, graphs, tables)";
        js "- Define citation and reference standards";
        js "- Establish tone and writing style guidelines";
        js "- Set word count and formatting specifications";
        js "";
        js "QUALITY ASSURANCE:";
        js "- Require fact-checking and source verification";
        js "- Include review and approval processes";
        js "- Specify deliverable formats and timelines";
        js "- Define success metrics and evaluation criteria";
        js "";
        js "CRITICAL: Transform their specific topic into a detailed, professional report writing brief. Keep under 300 words but be comprehensive. Do not include prefixes like 'Here is...' or 'The rewritten prompt is...'. Output only the rewritten prompt." ]);
    (js "coding-agent",
     join nl
      [ js "You are a prompt rewriting specialist. Take the user's input and rewrite it as an optimized coding prompt. Focus on:";
        js "- Adding technology stack specifications";
        js "- Including testing and documentation requirements";
        js "- Specifying best practices and error handling";
        js "- Keeping the original functionality/intent intact";
        js "";
        js "CRITICAL: Rewrite their specific prompt, don't generate generic templates. Keep under 200 words.";
        js "Do not include prefixes like 'Here is...' or 'The rewritten prompt is...'. Output only the rewritten prompt." ]);
    (js "multi-tool-agent",
     join nl
      [ js "You are a prompt rewriting specialist. Take the user's input and rewrite it as an optimized multi-tool workflow prompt. Focus on:";
        js "- Adding tool integration specifications";
        js "- Including error handling strategies";
        js "- Defining workflow orchestration steps";
        js "- Keeping the original goal/intent intact";
        js "";
        js "CRITICAL: Rewrite their specific prompt, don't generate generic templates. Keep under 200 words.";
        js "Do not include prefixes like 'Here is...' or 'The rewritten prompt is...'. Output only the rewritten prompt." ]);
    (js "document-rewriting",
     join nl
      [ js "You are a Professional Document Transformation Specialist. Your task is to directly transform the user's input content into polished, professional documents. You do NOT create prompts - you transform actual content.";
        js "";
        js "Transform the provided content by:";
        js "- Converting informal language to professional tone";
        js "- Improving structure and clarity with proper sequential order";
        js "- Enhancing readability and flow";
        js "- Maintaining original intent and key information";
        js "- Following business communication standards";
        js "- Correcting grammar and improving sentence structure";
        js "";
        js "Output the transformed document directly. Do not create prompts or instructions about transformation." ]);
    (js "framework-optimization",
     join nl
      [ js "You are a Prompt Engineering Framework Specialist with expertise in 2025 RACE and CRISP methodologies. Your function is to transform existing prompts into optimized versions that maximize AI performance through structured framework application.";
        js "";
        js "Transform the user's input into a comprehensive 6-part framework structure. Each component must be detailed and specific to their request.";
        js "";
        js "CRITICAL FORMATTING REQUIREMENTS:";
        js "- Start each component on a new line with the component name followed by a colon";
        js "- Use double line breaks between each component for clear separation";
        js "- Provide substantial content for each section (2-4 sentences minimum)";
        js "- Maintain the exact order: Role, Context, Task, Format, Rules, Examples";
        js "";
        js "OUTPUT STRUCTURE (follow exactly):";
        js "";
        js "Role: [Define the AI's specific role, expertise, and capabilities relevant to the user's request]";
        js "";
        js "Context: [Provide detailed background, constraints, and situational factors]";
        js "";
        js "Task: [Specify the exact deliverable, objectives, and success criteria]";
        js "";
        js "Format: [Define precise output structure, style, and presentation requirements]";
        js "";
        js "Rules: [List specific guidelines, limitations, and quality standards]";
        js "";
        js "Examples: [Provide concrete examples or templates when helpful]";
        js "";
        js "Transform their specific request using this framework. Keep under 400 words total but ensure each section is comprehensive." ]);
    (js "content-generation",
     join nl
      [ js "You are a Professional Content Creator specializing in producing publication-ready materials. Your task is to create complete, engaging content based on the user's request.";
        js "";
        js "Create comprehensive content that includes:";
        js "- Compelling headlines and structure";
        js "- Well-researched information and insights";
        js "- Professional writing style appropriate for the medium";
        js "- Engaging introduction and strong conclusion";
        js "- Proper formatting and organization";
        js "";
        js "Generate the final content directly. Do not create prompts or instructions about content creation." ]) ].

(** [Object.keys(SYSTEM_INSTRUCTIONS)] *)
Definition VALID_MODES : list jsstring := map fst SYSTEM_INSTRUCTIONS.

(** [getModeDisplayName] *)
Definition displayNames : list (jsstring * jsstring) :=
  [ (js "question-research", js "Question/Research Mode");
    (js "report-writing", js "Report Writing Mode");
    (js "coding-agent", js "Coding Agent Mode");
    (js "multi-tool-agent", js "Multi-Tool Agent Mode");
    (js "document-rewriting", js "Document Rewriting Mode");
    (js "framework-optimization", js "Framework Optimization Mode");
    (js "content-generation", js "Content Generation Mode") ].

Definition getModeDisplayName (mode : jsstring) : jsstring :=
  match lookup displayNames mode with
  | Some name => if truthy name then name else mode
  | None => mode
  end.

Definition cleanResponse (response mode : jsstring) : jsstring :=
  cleanResponseWith RewriteCatalogue.cat response mode.

(** One organic result of the search API. *)
Record searchResult := {
  title : option jsstring;
  snippet : option jsstring;
  link : option jsstring;
}.

(** What [axios.get] does: it throws (network error, timeout, error
    status, no usable body) or resolves with [data.organic_results]. *)
Inductive searchOutcome : Type :=
| SearchThrows
| SearchResolves (organic_results : option (list searchResult)).

Record env := {
  GROQ_API_KEY : option jsstring;
  SERPAPI_API_KEY : option jsstring;
  axios_get : jsstring -> searchOutcome;          (* by the query [q] *)
  groq_create : completionRequest -> nat -> outcome;
}.

(** The parsed request: [request.json()] fails, or the body's three
    properties ([undefined] when absent). *)
Inductive requestBody : Type :=
| BodyInvalid (message : jsstring)
| BodyFields (userPrompt mode enableWebAccess : jsvalue).

Record webResult := { data : jsstring; sources : list jsstring }.

Definition noWebResult : webResult := {| data := []; sources := [] |}.

Section Pipeline.

(** [String.prototype.toLowerCase], a function of the runtime. *)
Variable toLowerCase : jsstring -> jsstring.

(** [/write\s+(a\s+)?(blog|article)\s+about\s+/i] *)
Definition writeAboutRe : regex :=
  seqs [lit "write"; RPlus CSpace;
        ROpt (RGroup 1 (RSeq (lit "a") (RPlus CSpace)));
        RGroup 2 (alts [lit "blog"; lit "article"]);
        RPlus CSpace; lit "about"; RPlus CSpace].

Definition extractSearchTerms (userPrompt : jsstring) : option jsstring :=
  let prompt := toLowerCase userPrompt in
  if includes prompt (js "ai") || includes prompt (js "artificial intelligence")
  then Some (js "latest AI developments 2025 artificial intelligence trends")
  else if includes prompt (js "blog") || includes prompt (js "article")
  then
    let topic := trim (replaceFirst flagI writeAboutRe [] prompt) in
    Some (topic ++ js " latest news 2025 current developments")
  else if includes prompt (js "technology") || includes prompt (js "tech")
  then Some (js "latest technology trends 2025 tech developments")
  else if includes prompt (js "business") || includes prompt (js "marketing")
  then Some (js "business trends 2025 marketing strategies")
  else if includes prompt (js "health") || includes prompt (js "medical")
  then Some (js "health trends 2025 medical developments")
  else
    let words := filter (fun word => 3 <? List.length word) (split 32 prompt) in
    if 0 <? List.length words
    then Some (join (js " ") (firstn 3 words) ++ js " 2025 latest developments")
    else None.

Definition orEmpty (o : option jsstring) : jsstring :=
  match o with Some s => s | None => [] end.

Definition performWebSearch (e : env) (userPrompt : jsstring)
  : list event * webResult :=
  if negb (configured (SERPAPI_API_KEY e)) then ([], noWebResult)
  else
    match extractSearchTerms userPrompt with
    | None => ([], noWebResult)
    | Some searchTerms =>
        if negb (truthy searchTerms) then ([], noWebResult)
        else
          match axios_get e searchTerms with
          | SearchThrows => ([Search searchTerms], noWebResult)
          | SearchResolves organic_results =>
              let results :=
                match organic_results with Some rs => rs | None => [] end in
              if Nat.eqb (List.length results) 0
              then ([Search searchTerms], noWebResult)
              else
                let searchData :=
                  filter (fun item => truthy (fst (fst item))
                                      && truthy (snd (fst item)))
                         (map (fun result =>
                                 (orEmpty (title result),
                                  orEmpty (snippet result),
                                  orEmpty (link result))) results) in
                let data :=
                  join (nl ++ nl)
                       (map (fun item =>
                               fst (fst item) ++ js ": " ++ snd (fst item))
                            searchData) in
                let sources := map snd searchData in
                ([Search searchTerms], {| data := data; sources := sources |})
          end
    end.

Definition isDirectContent (mode : jsstring) : bool :=
  eqs mode (js "content-generation") || eqs mode (js "document-rewriting").

(** The user message, by mode family and with or without web data. *)
Definition buildUserMessage (mode userPrompt : jsstring)
    (webAccessUsed : bool) (webData : jsstring) : jsstring :=
  if eqs mode (js "content-generation") then
    if webAccessUsed
    then js "Use this current information to enhance your content: " ++ webData
         ++ nl ++ nl
         ++ js "Generate complete, publication-ready content for: " ++ userPrompt
    else js "Generate complete, publication-ready content for: " ++ userPrompt
  else if eqs mode (js "document-rewriting") then
    if webAccessUsed
    then js "Context for enhancement: " ++ webData ++ nl ++ nl
         ++ js "Transform this content into a professional document:"
         ++ nl ++ nl ++ userPrompt
    else js "Transform this content into a professional document:"
         ++ nl ++ nl ++ userPrompt
  else
    let task :=
      js "REWRITE THIS SPECIFIC PROMPT for " ++ getModeDisplayName mode
      ++ js ":" ++ nl ++ dquote ++ userPrompt ++ dquote ++ nl ++ nl
      ++ js "Apply your mode's specialization to THEIR specific request. Do not create generic examples." in
    if webAccessUsed
    then js "Context: " ++ webData ++ nl ++ nl ++ task
    else task.

(** What the route has in hand when it reaches the token check. *)
Record prepared := {
  p_mode : jsstring;
  p_systemInstructions : jsstring;
  p_userMessage : jsstring;
  p_webData : jsstring;
  p_webSources : list jsstring;
  p_webAccessUsed : bool;
}.

(** From the parsed body to the token check: input validation, the
    credential check, the optional search, the user message. *)
Definition prepare (e : env) (b : requestBody)
  : list event * (response + prepared) :=
  match b with
  | BodyInvalid message => ([], inl (caught ERROR_MESSAGES message))
  | BodyFields userPromptV modeV enableV =>
      let modeV := withDefault modeV (JString (js "question-research")) in
      let enableWebAccess := withDefault enableV (JBool false) in
      match nonEmptyString userPromptV with
      | None =>
          ([], inl (json 400 (ErrorBody
                 (js "userPrompt is required and must be a string"))))
      | Some userPrompt =>
          match validMode VALID_MODES modeV with
          | None =>
              ([], inl (json 400 (ErrorBody
                     (js "Invalid mode. Valid modes are: "
                      ++ join (js ", ") VALID_MODES))))
          | Some mode =>
              if negb (configured (GROQ_API_KEY e))
                 || eqs (orEmpty (GROQ_API_KEY e)) (js "your-key-here")
              then ([], inl (json 500 (ErrorBody (INVALID_API_KEY ERROR_MESSAGES))))
              else
                match lookup SYSTEM_INSTRUCTIONS mode with
                | None => ([], inl (caught ERROR_MESSAGES
                                      (js "Cannot read properties of undefined (reading 'length')")))
                | Some systemInstructions =>
                    let (evs, webResult) :=
                      if valueTruthy enableWebAccess || isDirectContent mode
                      then performWebSearch e userPrompt
                      else ([], noWebResult) in
                    let used :=
                      truthy (data webResult)
                      && (0 <? List.length (sources webResult)) in
                    let webData := if used then data webResult else [] in
                    let webSources := if used then sources webResult else [] in
                    (evs, inr {| p_mode := mode;
                                 p_systemInstructions := systemInstructions;
                                 p_userMessage :=
                                   buildUserMessage mode userPrompt used webData;
                                 p_webData := webData;
                                 p_webSources := webSources;
                                 p_webAccessUsed := used |})
                end
          end
      end
  end.

(** From the token check to the response. *)
Definition complete (e : env) (p : prepared) : list event * response :=
  if negb (validateTokenLimits (p_systemInstructions p) (p_userMessage p)
                               (p_webData p))
  then ([], json 413 (ErrorBody (PAYLOAD_TOO_LARGE ERROR_MESSAGES)))
  else
    let messages :=
      [ {| role := js "system"; content := p_systemInstructions p |};
        {| role := js "user"; content := p_userMessage p |} ] in
    let direct := isDirectContent (p_mode p) in
    let (evs, result) :=
      callGroqWithRetry ERROR_MESSAGES (groq_create e) messages
        (if direct then 8 # 10 else 4 # 10)%Q
        (if direct then 3000 else 500)%Z 3 in
    match result with
    | Thrown msg => (evs, caught ERROR_MESSAGES msg)
    | Fallthrough => (evs, caught ERROR_MESSAGES undefinedChoices)
    | Returned completion =>
        match firstContent completion with
        | None | Some [] =>
            (evs, json 500 (ErrorBody (GENERIC_ERROR ERROR_MESSAGES)))
        | Some raw =>
            (evs, json 200 (RewriteBody
               {| rewrittenPrompt := cleanResponse raw (p_mode p);
                  r_mode := p_mode p;
                  r_modeName := getModeDisplayName (p_mode p);
                  isContentGeneration := direct;
                  webAccessUsed := p_webAccessUsed p;
                  webSources := p_webSources p |}))
        end
    end.

(** [export async function POST(request)] *)
Definition POST (e : env) (b : requestBody) : list event * response :=
  match prepare e b with
  | (evs, inl resp) => (evs, resp)
  | (evs, inr p) =>
      let (evs', resp) := complete e p in
      (evs ++ evs', resp)
  end.

End Pipeline.

End Rewrite.

(* ================================================================== *)
(** ** The self-improve route *)
(* ================================================================== *)

Module SelfImprove.

Definition ERROR_MESSAGES : errorMessages :=
  {| RATE_LIMIT :=
       js "Service is experiencing high demand. Please wait a moment and try again.";
     PAYLOAD_TOO_LARGE :=
       js "Your content is too long. Please shorten it and try again.";
     NETWORK_TIMEOUT :=
       js "Request timed out. Please check your connection and try again.";
     INVALID_API_KEY :=
       js "Service configuration error. Please contact support.";
     SERVICE_UNAVAILABLE :=
       js "Service temporarily unavailable. Please try again in a few minutes.";
     GENERIC_ERROR := js "An unexpected error occurred. Please try again." |}.

(** [validateTokenLimits(systemInstructions, userMessage)] *)
Definition validateTokenLimits (systemInstructions userMessage : jsstring) : bool :=
  let systemTokens := estimateTokenCount systemInstructions in
  let userTokens := estimateTokenCount userMessage in
  let totalInputTokens := (systemTokens + userTokens)%Z in
  withinInputBudget totalInputTokens.

(** [SYSTEM_INSTRUCTIONS], each text as its lines. *)
Definition SYSTEM_INSTRUCTIONS : list (jsstring * jsstring) :=
  [ (js "question-research",
     join nl
      [ js "You are a Research Analysis Specialist optimized for synthesizing information and answering complex questions. Your primary function is to analyze queries, conduct targeted research, and deliver evidence-based responses that reduce ambiguity by 80% or more.";
        js "";
        js "Take the provided output and create an improved version that enhances clarity, completeness, and effectiveness. Focus on better research methodology, source verification, and evidence-based analysis while maintaining the original topic.";
        js "";
        js "Output only the improved version without explanatory text or critique." ]);
    (js "report-writing",
     join nl
      [ js "You are a Senior Business Report Writing Specialist with 15+ years of experience in creating executive-level documents for Fortune 500 companies. Your expertise includes strategic analysis, data visualization, stakeholder communication, and regulatory compliance reporting.";
        js "";
        js "Take the provided report writing prompt and create a significantly enhanced version that includes:";
        js "";
        js "ENHANCED STRUCTURE:";
        js "- More detailed executive summary requirements with specific KPI metrics";
        js "- Comprehensive methodology section with data collection protocols";
        js "- Advanced analysis frameworks and evaluation criteria";
        js "- Professional formatting standards and visual design specifications";
        js "- Detailed appendices and supporting documentation requirements";
        js "";
        js "PROFESSIONAL EXCELLENCE:";
        js "- Stakeholder-specific communication strategies";
        js "- Risk assessment and mitigation planning";
        js "- Compliance and regulatory considerations";
        js "- Quality assurance and peer review processes";
        js "- Distribution and presentation guidelines";
        js "";
        js "STRATEGIC DEPTH:";
        js "- Market context and competitive analysis requirements";
        js "- Financial impact assessments and ROI calculations";
        js "- Implementation roadmaps and timeline specifications";
        js "- Success measurement and KPI tracking systems";
        js "- Follow-up and monitoring protocols";
        js "";
        js "Transform the provided prompt into a comprehensive, enterprise-grade report writing brief that would meet the standards of top-tier consulting firms. Output only the improved version without explanatory text or critique." ]);
    (js "coding-agent",
     join nl
      [ js "You are a Senior Software Engineering Specialist with expertise in full-stack development, system architecture, and best practices implementation. Your function is to provide technical solutions that are production-ready, well-documented, and maintainable.";
        js "";
        js "Take the provided output and create an improved version that enhances clarity, completeness, and effectiveness. Focus on better technical specifications, testing requirements, and best practices while maintaining the original functionality.";
        js "";
        js "Output only the improved version without explanatory text or critique." ]);
    (js "multi-tool-agent",
     join nl
      [ js "You are an AI Agent Command Optimizer that refines and enhances direct executable instructions for AI agents managing complex multi-tool workflows. Your function is to take existing agent commands and make them more precise, efficient, and robust.";
        js "";
        js "Take the provided AI agent commands and create an improved version that enhances precision, error handling, and execution efficiency. Focus on clearer tool invocations, better coordination protocols, and more robust error handling while maintaining the direct command structure.";
        js "";
        js "Ensure the output remains in imperative command format suitable for AI agent execution. Use action verbs like " ++ dquote ++ js "Execute" ++ dquote ++ js ", " ++ dquote ++ js "Initialize" ++ dquote ++ js ", " ++ dquote ++ js "Coordinate" ++ dquote ++ js ", " ++ dquote ++ js "Monitor" ++ dquote ++ js ", " ++ dquote ++ js "Validate" ++ dquote ++ js ".";
        js "";
        js "Output only the improved agent commands without explanatory text or critique." ]);
    (js "document-rewriting",
     join nl
      [ js "You are a Professional Document Transformation Specialist. Your expertise lies in converting informal, unstructured communication into polished, professional documents. You specialize in restructuring emails, reports, memos, and business correspondence while preserving original intent and enhancing clarity through formal document standards.";
        js "";
        js "Take the provided content and create an improved version that enhances professionalism, clarity, and structure. Focus on better tone, organization, sequential order, and business communication standards while maintaining the original intent.";
        js "";
        js "Output only the improved version without explanatory text or critique." ]);
    (js "framework-optimization",
     join nl
      [ js "You are a Master Prompt Engineering Framework Specialist with expertise in advanced 2025 RACE, CRISP, and Chain-of-Thought methodologies. Your function is to create optimized framework structures that maximize AI performance through precise constraint specification and measurable outcome definition.";
        js "";
        js "Take the provided framework-structured output and create a significantly enhanced version. Each component must be more detailed, specific, and actionable.";
        js "";
        js "ENHANCEMENT REQUIREMENTS:";
        js "- Role: More specific expertise areas, capabilities, and behavioral parameters";
        js "- Context: Deeper background analysis, constraints, and environmental factors";
        js "- Task: More precise objectives, deliverables, and success criteria with measurable outcomes";
        js "- Format: Detailed output specifications, structure requirements, and presentation standards";
        js "- Rules: Comprehensive guidelines, quality standards, and constraint definitions";
        js "- Examples: More relevant, detailed examples with specific use cases";
        js "";
        js "FORMATTING REQUIREMENTS:";
        js "- Each component must start on a new line with proper spacing";
        js "- Use double line breaks between components for visual separation";
        js "- Provide substantial, detailed content for each section (3-5 sentences minimum)";
        js "- Maintain logical flow and coherence across all components";
        js "";
        js "Structure your enhanced output exactly as:";
        js "";
        js "Role: [enhanced content with specific expertise and capabilities]";
        js "";
        js "Context: [enhanced content with detailed background and constraints]";
        js "";
        js "Task: [enhanced content with precise objectives and success criteria]";
        js "";
        js "Format: [enhanced content with detailed output specifications]";
        js "";
        js "Rules: [enhanced content with comprehensive guidelines and standards]";
        js "";
        js "Examples: [enhanced content with specific, relevant examples]";
        js "";
        js "Output only the improved framework structure without explanatory text or critique." ]);
    (js "content-generation",
     join nl
      [ js "You are a Master Content Creator with expertise in producing publication-ready materials across multiple formats and industries. Your specialization includes engaging storytelling, SEO optimization, and audience-specific communication strategies.";
        js "";
        js "Take the provided content and create an improved version that enhances engagement, clarity, and professional quality. Focus on better structure, more compelling narrative, improved readability, and stronger audience connection while maintaining the original message.";
        js "";
        js "Output only the improved version without explanatory text or critique." ]) ].

(** [Object.keys(SYSTEM_INSTRUCTIONS)] *)
Definition VALID_MODES : list jsstring := map fst SYSTEM_INSTRUCTIONS.

(** [getModeDisplayName] *)
Definition displayNames : list (jsstring * jsstring) :=
  [ (js "question-research", js "Question/Research Mode");
    (js "report-writing", js "Report Writing Mode");
    (js "coding-agent", js "Coding Agent Mode");
    (js "multi-tool-agent", js "Multi-Tool Agent Mode");
    (js "document-rewriting", js "Document Rewriting Mode");
    (js "framework-optimization", js "Framework Optimization Mode");
    (js "content-generation", js "Content Generation Mode");
    (js "context-engineering", js "Context Engineering Mode");
    (js "ultimate-mode", js "Ultimate Mode") ].

Definition getModeDisplayName (mode : jsstring) : jsstring :=
  match lookup displayNames mode with
  | Some name => if truthy name then name else mode
  | None => mode
  end.

Definition cleanResponse (response mode : jsstring) : jsstring :=
  cleanResponseWith ImproveCatalogue.cat response mode.

Record env := {
  GROQ_API_KEY : option jsstring;
  groq_create : completionRequest -> nat -> outcome;
}.

(** The parsed request: [request.json()] fails, or the body's two
    properties ([undefined] when absent). *)
Inductive requestBody : Type :=
| BodyInvalid (message : jsstring)
| BodyFields (currentOutput mode : jsvalue).

Definition refinementPrompt (currentOutput : jsstring) : jsstring :=
  js "Improve this output following your mode instructions. Enhance clarity, completeness, and effectiveness while maintaining the original intent."
  ++ nl ++ nl ++ js "Current Output:" ++ nl ++ currentOutput ++ nl ++ nl
  ++ js "Provide only the improved version.".

(** [export async function POST(request)] *)
Definition POST (e : env) (b : requestBody) : list event * response :=
  match b with
  | BodyInvalid message => ([], caught ERROR_MESSAGES message)
  | BodyFields currentOutputV modeV =>
      match nonEmptyString currentOutputV with
      | None =>
          ([], json 400 (ErrorBody
                 (js "currentOutput is required and must be a string")))
      | Some currentOutput =>
          match (if valueTruthy modeV then validMode VALID_MODES modeV
                 else None) with
          | None =>
              ([], json 400 (ErrorBody
                     (js "mode is required and must be one of: "
                      ++ join (js ", ") VALID_MODES)))
          | Some mode =>
              if negb (configured (GROQ_API_KEY e))
                 || eqs (match GROQ_API_KEY e with Some k => k | None => [] end)
                        (js "your-key-here")
              then ([], json 500 (ErrorBody (INVALID_API_KEY ERROR_MESSAGES)))
              else
                match lookup SYSTEM_INSTRUCTIONS mode with
                | None => ([], caught ERROR_MESSAGES
                                 (js "Cannot read properties of undefined (reading 'length')"))
                | Some systemInstructions =>
                    let prompt := refinementPrompt currentOutput in
                    if negb (validateTokenLimits systemInstructions prompt)
                    then ([], json 413 (ErrorBody (PAYLOAD_TOO_LARGE ERROR_MESSAGES)))
                    else
                      let messages :=
                        [ {| role := js "system"; content := systemInstructions |};
                          {| role := js "user"; content := prompt |} ] in
                      let (evs, result) :=
                        callGroqWithRetry ERROR_MESSAGES (groq_create e)
                          messages (7 # 10)%Q 2000%Z 3 in
                      match result with
                      | Thrown msg => (evs, caught ERROR_MESSAGES msg)
                      | Fallthrough => (evs, caught ERROR_MESSAGES undefinedChoices)
                      | Returned completion =>
                          match firstContent completion with
                          | None | Some [] =>
                              (evs, json 500 (ErrorBody (GENERIC_ERROR ERROR_MESSAGES)))
                          | Some raw =>
                              (evs, json 200 (ImproveBody
                                 {| improvedOutput := cleanResponse raw mode;
                                    i_mode := mode;
                                    i_modeName := getModeDisplayName mode |}))
                          end
                      end
                end
          end
      end
  end.

End SelfImprove.

Unset Implicit Arguments.

(* ================================================================== *)
(** ** The health endpoint ([src/app/api/health/route.ts]) *)
(* ================================================================== *)

Module Health.

(** The environment of a health check: the two keys, the provider's
    answer to the test call, and the readings of [Date.now()] in the
    order they are made. *)
Record env := {
  GROQ_API_KEY : option jsstring;
  SERPAPI_API_KEY : option jsstring;
  groq_create : completionRequest -> outcome;
  now : nat -> Z;
}.

(** [!!(key && key !== 'your-key-here')] *)
Definition present (key : option jsstring) : bool :=
  match key with
  | Some k => truthy k && negb (eqs k (js "your-key-here"))
  | None => false
  end.

(** The minimal request of the connection test. *)
Definition testRequest : completionRequest :=
  {| messages := [ {| role := js "user"; content := js "test" |} ];
     model := js "llama-3.3-70b-versatile";
     temperature := 0%Q;
     max_tokens := 1%Z |}.

Record groqService := {
  g_status : jsstring;
  g_latency : Z;
  g_configured : bool;
}.

Record serpapiService := {
  s_status : jsstring;
  s_configured : bool;
}.

(** [healthData], without the timestamp and the memory usage, which are
    readings of the runtime. *)
Record healthData := {
  h_status : jsstring;
  h_version : jsstring;
  h_model : jsstring;
  h_groq : groqService;
  h_serpapi : serpapiService;
  h_total_latency : Z;
  h_modes : Z;
  h_web_search : bool;
  h_self_improvement : bool;
  h_framework_optimization : bool;
}.

Record answer := { a_status : Z; a_data : healthData }.

(** [export async function GET(request)] *)
Definition GET (e : env) : list event * answer :=
  let startTime := now e 0 in
  let hasGroqKey := present (GROQ_API_KEY e) in
  let hasSerpApiKey := present (SERPAPI_API_KEY e) in
  let '(evs, groqStatus, groqLatency, readings) :=
    if hasGroqKey then
      let testStart := now e 1 in
      match groq_create e testRequest with
      | Resolved _ =>
          ([Create 0 testRequest], js "healthy", (now e 2 - testStart)%Z, 3)
      | Rejected error =>
          ([Create 0 testRequest],
           if statusIs error 429 then js "rate_limited" else js "error",
           (now e 2 - startTime)%Z, 3)
      end
    else ([], js "no_api_key", 0%Z, 1) in
  let totalLatency := (now e readings - startTime)%Z in
  let healthy := eqs groqStatus (js "healthy") in
  (evs,
   {| a_status := if healthy then 200%Z else 503%Z;
      a_data :=
        {| h_status := if healthy then js "healthy" else js "degraded";
           h_version := js "2.0.0";
           h_model := js "llama-3.3-70b-versatile";
           h_groq := {| g_status := groqStatus; g_latency := groqLatency;
                        g_configured := hasGroqKey |};
           h_serpapi :=
             {| s_status := if hasSerpApiKey then js "configured"
                            else js "not_configured";
                s_configured := hasSerpApiKey |};
           h_total_latency := totalLatency;
           h_modes := 7%Z;
           h_web_search := hasSerpApiKey;
           h_self_improvement := true;
           h_framework_optimization := true |} |}).

End Health.

(* ================================================================== *)
(** ** The revised rewrite route *)
(* ================================================================== *)

(** The later revision of the rewrite route: its invoker ends with a
    [throw] after the loop, and its [cleanResponse] has no handling of
    the framework mode.  The patterns and the report sections are those
    of the first revision. *)
Module Revised.

(** [callGroqWithRetry]: the same loop, then
    [throw new Error(ERROR_MESSAGES.GENERIC_ERROR)]. *)
Definition callGroqWithRetry (msgs : errorMessages)
    (create : completionRequest -> nat -> outcome)
    (messages : list chatMessage) (temperature : Q) (maxTokens : Z)
    (retries : nat) : list event * invocation :=
  let req := {| messages := messages; model := modelName;
                temperature := temperature;
                max_tokens := Z.min maxTokens maxCompletionTokens |} in
  let (evs, r) := retryLoop msgs create req retries retries 0 in
  match r with
  | Fallthrough => (evs, Thrown (GENERIC_ERROR msgs))
  | _ => (evs, r)
  end.

Definition cleanResponse (response mode : jsstring) : jsstring :=
  let cleaned := stripStage RewriteCatalogue.cat response in
  let cleaned :=
    if eqs mode (js "report-writing")
    then reportStage RewriteCatalogue.sections cleaned else cleaned in
  trim cleaned.

End Revised.

(* ================================================================== *)
(** ** The page that calls the routes ([src/app/page.tsx]) *)
(* ================================================================== *)

Module Client.

(** The state of [Home] that the two request handlers read and write.
    [rewrittenPrompt] is [None] when it holds [undefined]. *)
Record ui := {
  userPrompt : jsstring;
  rewrittenPrompt : option jsstring;
  selectedMode : jsstring;
  isLoading : bool;
  error : jsstring;
  isImproving : bool;
  enableWebAccess : bool;
  webSources : list jsstring;
  animationTrigger : Z;
}.

(** The initial values of [useState]. *)
Definition initial : ui :=
  {| userPrompt := []; rewrittenPrompt := Some [];
     selectedMode := js "question-research"; isLoading := false; error := [];
     isImproving := false; enableWebAccess := false; webSources := [];
     animationTrigger := 0%Z |}.

(** [await fetch(...)] followed by [await response.json()]: one of the
    two rejects with an [Error] of some message, or the answer arrives. *)
Inductive fetched : Type :=
| Rejects (message : jsstring)
| Resolves (resp : response).

(** [response.ok]: a status from 200 to 299. *)
Definition ok (resp : response) : bool :=
  (200 <=? statusCode resp)%Z && (statusCode resp <=? 299)%Z.

(** The properties of the parsed answer that the handlers read;
    [None] is [undefined]. *)
Definition data_error (b : responseBody) : option jsstring :=
  match b with ErrorBody msg => Some msg | _ => None end.

Definition data_rewrittenPrompt (b : responseBody) : option jsstring :=
  match b with RewriteBody r => Some (Http.rewrittenPrompt r) | _ => None end.

Definition data_webSources (b : responseBody) : option (list jsstring) :=
  match b with RewriteBody r => Some (Http.webSources r) | _ => None end.

Definition data_improvedOutput (b : responseBody) : option jsstring :=
  match b with ImproveBody r => Some (improvedOutput r) | _ => None end.

(** [data.error || fallback] *)
Definition errorOr (b : responseBody) (fallback : jsstring) : jsstring :=
  match data_error b with
  | Some msg => if truthy msg then msg else fallback
  | None => fallback
  end.

(** [handleRewrite]: the requests sent and the state when it is done. *)
Definition handleRewrite (fetch : Rewrite.requestBody -> fetched) (s : ui)
  : list Rewrite.requestBody * ui :=
  if negb (truthy (trim (userPrompt s))) then
    ([], {| userPrompt := userPrompt s; rewrittenPrompt := rewrittenPrompt s;
            selectedMode := selectedMode s; isLoading := isLoading s;
            error := js "Please enter a prompt to rewrite";
            isImproving := isImproving s;
            enableWebAccess := enableWebAccess s; webSources := webSources s;
            animationTrigger := animationTrigger s |})
  else
    let request :=
      Rewrite.BodyFields (JString (trim (userPrompt s)))
        (JString (selectedMode s)) (JBool (enableWebAccess s)) in
    let finish (rewritten : option jsstring) (err : jsstring)
               (sources : list jsstring) (trigger : Z) :=
      {| userPrompt := userPrompt s; rewrittenPrompt := rewritten;
         selectedMode := selectedMode s; isLoading := false; error := err;
         isImproving := isImproving s;
         enableWebAccess := enableWebAccess s; webSources := sources;
         animationTrigger := trigger |} in
    match fetch request with
    | Rejects message =>
        ([request], finish (Some []) message [] (animationTrigger s))
    | Resolves resp =>
        if negb (ok resp) then
          ([request],
           finish (Some []) (errorOr (body resp) (js "Failed to rewrite prompt"))
                  [] (animationTrigger s))
        else
          ([request],
           finish (data_rewrittenPrompt (body resp)) []
                  (match data_webSources (body resp) with
                   | Some (src :: srcs) => src :: srcs
                   | _ => []
                   end)
                  (animationTrigger s + 1)%Z)
    end.

(** [handleSelfImprove]; [None] when [rewrittenPrompt.trim()] is called
    on [undefined] and throws before anything is done. *)
Definition handleSelfImprove (fetch : SelfImprove.requestBody -> fetched)
    (s : ui) : option (list SelfImprove.requestBody * ui) :=
  match rewrittenPrompt s with
  | None => None
  | Some shown =>
      if negb (truthy (trim shown)) then
        Some ([], {| userPrompt := userPrompt s;
                     rewrittenPrompt := rewrittenPrompt s;
                     selectedMode := selectedMode s; isLoading := isLoading s;
                     error := js "No rewritten prompt available to improve";
                     isImproving := isImproving s;
                     enableWebAccess := enableWebAccess s;
                     webSources := webSources s;
                     animationTrigger := animationTrigger s |})
      else
        let request :=
          SelfImprove.BodyFields (JString (trim shown))
            (JString (selectedMode s)) in
        let finish (rewritten : option jsstring) (err : jsstring) (trigger : Z) :=
          {| userPrompt := userPrompt s; rewrittenPrompt := rewritten;
             selectedMode := selectedMode s; isLoading := isLoading s;
             error := err; isImproving := false;
             enableWebAccess := enableWebAccess s; webSources := webSources s;
             animationTrigger := trigger |} in
        match fetch request with
        | Rejects message =>
            Some ([request], finish (rewrittenPrompt s) message (animationTrigger s))
        | Resolves resp =>
            if negb (ok resp) then
              Some ([request],
                    finish (rewrittenPrompt s)
                           (errorOr (body resp) (js "Failed to improve prompt"))
                           (animationTrigger s))
            else
              Some ([request],
                    finish (data_improvedOutput (body resp)) []
                           (animationTrigger s + 1)%Z)
        end
  end.

(** Choosing a mode in the selector: [setSelectedMode], followed by the
    effect that resets web access away from content-generation. *)
Definition selectMode (mode : jsstring) (s : ui) : ui :=
  {| userPrompt := userPrompt s; rewrittenPrompt := rewrittenPrompt s;
     selectedMode := mode; isLoading := isLoading s; error := error s;
     isImproving := isImproving s;
     enableWebAccess :=
       if negb (eqs mode (js "content-generation")) then false
       else enableWebAccess s;
     webSources := webSources s; animationTrigger := animationTrigger s |}.

(** The web search switch, which is rendered in content-generation mode
    only. *)
Definition toggleWebAccess (s : ui) : ui :=
  if eqs (selectedMode s) (js "content-generation") then
    {| userPrompt := userPrompt s; rewrittenPrompt := rewrittenPrompt s;
       selectedMode := selectedMode s; isLoading := isLoading s;
       error := error s; isImproving := isImproving s;
       enableWebAccess := negb (enableWebAccess s);
       webSources := webSources s; animationTrigger := animationTrigger s |}
  else s.

(** Typing in the text area. *)
Definition typePrompt (text : jsstring) (s : ui) : ui :=
  {| userPrompt := text; rewrittenPrompt := rewrittenPrompt s;
     selectedMode := selectedMode s; isLoading := isLoading s;
     error := error s; isImproving := isImproving s;
     enableWebAccess := enableWebAccess s;
     webSources := webSources s; animationTrigger := animationTrigger s |}.

End Client.

(* ================================================================== *)
(** ** The animated display of the result ([DecryptedText.tsx]) *)
(* ================================================================== *)

Module DecryptedText.

(** The symbols that stand in for the characters not yet shown. *)
Definition chars : jsstring := js "!@#$%^&*()_+-=[]{}|;:,.<>?".

(** The state of the effect: the index, the text displayed, the two
    flags (the interval is running, the text is being decrypted) and the
    number of random draws made so far. *)
Record state := {
  currentIndex : nat;
  displayText : jsstring;
  isDecrypting : bool;
  running : bool;
  drawn : nat;
}.

(** Before the effect runs. *)
Definition idle : state :=
  {| currentIndex := 0; displayText := []; isDecrypting := false;
     running := false; drawn := 0 |}.

Section Effect.

(** The successive values of [Math.floor(Math.random() * chars.length)]. *)
Variable random : nat -> nat.

(** The loop that builds one frame: the characters before
    [currentIndex] are shown, the next three are random symbols, the
    others are spaces. *)
Fixpoint scramble (rest : jsstring) (i currentIndex drawn : nat)
  : jsstring * nat :=
  match rest with
  | [] => ([], drawn)
  | c :: rest' =>
      if i <? currentIndex then
        let (out, d) := scramble rest' (S i) currentIndex drawn in
        (c :: out, d)
      else if i <? (currentIndex + 3) then
        let (out, d) := scramble rest' (S i) currentIndex (S drawn) in
        (nth (random drawn) chars 0%N :: out, d)
      else
        let (out, d) := scramble rest' (S i) currentIndex drawn in
        (32%N :: out, d)
  end.

(** The body of the effect for a text: nothing for the empty text. *)
Definition start (text : jsstring) (s : state) : state :=
  if negb (truthy text) then s
  else {| currentIndex := 0; displayText := []; isDecrypting := true;
          running := true; drawn := drawn s |}.

(** One call of the interval's callback. *)
Definition tick (finalText : jsstring) (s : state) : state :=
  if negb (running s) then s
  else if List.length finalText <=? currentIndex s then
    {| currentIndex := currentIndex s; displayText := displayText s;
       isDecrypting := false; running := false; drawn := drawn s |}
  else
    let (scrambled, d) := scramble finalText 0 (currentIndex s) (drawn s) in
    {| currentIndex := S (currentIndex s); displayText := scrambled;
       isDecrypting := isDecrypting s; running := true; drawn := d |}.

Fixpoint ticks (n : nat) (finalText : jsstring) (s : state) : state :=
  match n with
  | O => s
  | S n' => ticks n' finalText (tick finalText s)
  end.

End Effect.

End DecryptedText.

(* ================================================================== *)
(** ** The theme switch of the page *)
(* ================================================================== *)

Module Theme.

(** [themeMode] is a string: what was saved may be any string. *)
Record state := {
  themeMode : jsstring;
  darkMode : bool;
}.

(** [shouldBeDarkMode], by the hour of the clock. *)
Definition shouldBeDarkMode (hour : Z) : bool :=
  (18 <=? hour)%Z || (hour <? 6)%Z.

(** [toggleThemeMode] *)
Definition toggleThemeMode (hour : Z) (s : state) : state :=
  if eqs (themeMode s) (js "light") then
    {| themeMode := js "dark"; darkMode := true |}
  else if eqs (themeMode s) (js "dark") then
    {| themeMode := js "auto"; darkMode := shouldBeDarkMode hour |}
  else if eqs (themeMode s) (js "auto") then
    {| themeMode := js "light"; darkMode := false |}
  else {| themeMode := js "light"; darkMode := false |}.

(** [updateAutoTheme], run by the interval while the mode is auto. *)
Definition updateAutoTheme (hour : Z) (s : state) : state :=
  if eqs (themeMode s) (js "auto") then
    if negb (Bool.eqb (darkMode s) (shouldBeDarkMode hour))
    then {| themeMode := themeMode s; darkMode := shouldBeDarkMode hour |}
    else s
  else s.

End Theme.

(* ================================================================== *)
(** ** Properties of the token budget *)
(* ================================================================== *)

Lemma estimateTokenCount_nonneg (text : jsstring) :
  (0 <= estimateTokenCount text)%Z.
Proof.
  unfold estimateTokenCount, charToTokenRatio.
  apply Z.div_pos; lia.
Qed.

(** The floating-point comparison is the comparison with the rational
    0.8 * maxContextTokens. *)
Lemma withinInputBudget_spec (total : Z) :
  withinInputBudget total = true <-> (10 * total <= 8 * maxContextTokens)%Z.
Proof.
  unfold withinInputBudget, maxContextTokens, double_0_8_mantissa.
  rewrite Z.leb_le.
  change (2 ^ 52)%Z with 4503599627370496%Z.
  lia.
Qed.

Lemma withinInputBudget_false (total : Z) :
  (10 * total > 8 * maxContextTokens)%Z -> withinInputBudget total = false.
Proof.
  intros H. destruct (withinInputBudget total) eqn:E; [|reflexivity].
  apply withinInputBudget_spec in E. lia.
Qed.

(* ================================================================== *)
(** ** Properties of the retry loop *)
(* ================================================================== *)

Lemma statusIs_eq (error : apiError) (n : Z) :
  statusIs error n = true <-> status error = Some n.
Proof.
  unfold statusIs. destruct (status error) as [s|].
  - rewrite Z.eqb_eq. split; congruence.
  - split; discriminate.
Qed.

Lemma statusIs_other (error : apiError) (n m : Z) :
  statusIs error n = true -> n <> m -> statusIs error m = false.
Proof.
  intros H Hne. apply statusIs_eq in H. unfold statusIs. rewrite H.
  apply Z.eqb_neq. exact Hne.
Qed.

(** C2: when every attempt is rejected with status 429, the invoker
    makes exactly three completion calls, sleeps 2000 ms after the first
    and 4000 ms after the second (the delays 1000 and 2000 doubled), and
    throws the high-demand error. *)
Theorem rate_limit_exhaustion :
  forall (msgs : errorMessages) (create : completionRequest -> nat -> outcome)
         (messages : list chatMessage) (temperature : Q) (maxTokens : Z),
    (forall req attempt, exists error,
        create req attempt = Rejected error /\ statusIs error 429 = true) ->
    let req := {| messages := messages; model := modelName;
                  temperature := temperature;
                  max_tokens := Z.min maxTokens maxCompletionTokens |} in
    callGroqWithRetry msgs create messages temperature maxTokens 3
    = ([Create 0 req; Sleep (Some 2000%Z); Create 1 req; Sleep (Some 4000%Z);
        Create 2 req],
       Thrown (RATE_LIMIT msgs)).
Proof.
  intros msgs create messages temperature maxTokens Hall req.
  unfold callGroqWithRetry. fold req.
  destruct (Hall req 0) as [e0 [H0 S0]].
  destruct (Hall req 1) as [e1 [H1 S1]].
  destruct (Hall req 2) as [e2 [H2 S2]].
  simpl. rewrite H0, S0. simpl. rewrite H1, S1. simpl. rewrite H2, S2.
  reflexivity.
Qed.

Definition always429 (_ : completionRequest) (_ : nat) : outcome :=
  Rejected {| status := Some 429%Z; code := None; message := None |}.

Lemma rate_limit_exhaustion_witness :
  callGroqWithRetry Rewrite.ERROR_MESSAGES always429 [] (4 # 10)%Q 500%Z 3
  = (let req := {| messages := []; model := modelName;
                   temperature := (4 # 10)%Q; max_tokens := 500%Z |} in
     [Create 0 req; Sleep (Some 2000%Z); Create 1 req; Sleep (Some 4000%Z);
      Create 2 req],
     Thrown (RATE_LIMIT Rewrite.ERROR_MESSAGES)).
Proof.
  apply (rate_limit_exhaustion Rewrite.ERROR_MESSAGES always429 [] (4 # 10)%Q 500%Z).
  intros req attempt. eexists. split; reflexivity.
Defined.

(** C6: at whatever attempt the provider answers with status 413, the
    loop throws the payload-too-large error at once: the trace of that
    iteration is the one completion call, with no sleep and no further
    call after it.  In particular a 413 on the first attempt ends the
    invocation after one call. *)
Theorem payload_too_large_is_terminal :
  forall (msgs : errorMessages) (create : completionRequest -> nat -> outcome)
         (req : completionRequest) (retries remaining attempt : nat)
         (error : apiError),
    create req attempt = Rejected error ->
    statusIs error 413 = true ->
    retryLoop msgs create req retries (S remaining) attempt
    = ([Create attempt req], Thrown (PAYLOAD_TOO_LARGE msgs))
    /\ (attempt = 0 -> forall messages temperature maxTokens,
          req = {| messages := messages; model := modelName;
                   temperature := temperature;
                   max_tokens := Z.min maxTokens maxCompletionTokens |} ->
          callGroqWithRetry msgs create messages temperature maxTokens 3
          = ([Create 0 req], Thrown (PAYLOAD_TOO_LARGE msgs))).
Proof.
  intros msgs create req retries remaining attempt error Hc Hs.
  assert (H429 : statusIs error 429 = false)
    by (apply (statusIs_other error 413 429 Hs); discriminate).
  split.
  - simpl. rewrite Hc, H429, Hs. reflexivity.
  - intros -> messages temperature maxTokens Hreq.
    unfold callGroqWithRetry. rewrite <- Hreq.
    simpl. rewrite Hc, H429, Hs. reflexivity.
Qed.

Definition rejects413At (n : nat) (_ : completionRequest) (attempt : nat)
  : outcome :=
  if Nat.eqb attempt n
  then Rejected {| status := Some 413%Z; code := None; message := None |}
  else Rejected {| status := Some 503%Z; code := None; message := None |}.

Lemma payload_too_large_is_terminal_witness :
  let req := {| messages := []; model := modelName;
                temperature := (4 # 10)%Q; max_tokens := 500%Z |} in
  retryLoop Rewrite.ERROR_MESSAGES (rejects413At 1) req 3 2 1
  = ([Create 1 req], Thrown (PAYLOAD_TOO_LARGE Rewrite.ERROR_MESSAGES)).
Proof.
  intros req.
  apply (payload_too_large_is_terminal Rewrite.ERROR_MESSAGES (rejects413At 1)
           req 3 1 1
           {| status := Some 413%Z; code := None; message := None |});
    reflexivity.
Defined.

(* ================================================================== *)
(** ** Properties of the rewrite route up to the token check *)
(* ================================================================== *)

Definition isSearch (ev : event) : bool :=
  match ev with Search _ => true | _ => false end.

Definition isCreate (ev : event) : bool :=
  match ev with Create _ _ => true | _ => false end.

Lemma performWebSearch_events toLowerCase e userPrompt :
  forallb isSearch (fst (Rewrite.performWebSearch toLowerCase e userPrompt)) = true.
Proof.
  unfold Rewrite.performWebSearch.
  destruct (negb (configured (Rewrite.SERPAPI_API_KEY e))); [reflexivity|].
  destruct (Rewrite.extractSearchTerms toLowerCase userPrompt) as [q|];
    [|reflexivity].
  destruct (negb (truthy q)); [reflexivity|].
  destruct (Rewrite.axios_get e q) as [|rs]; [reflexivity|].
  destruct (Nat.eqb _ 0); reflexivity.
Qed.

Lemma prepare_events toLowerCase e b evs x :
  Rewrite.prepare toLowerCase e b = (evs, x) -> forallb isSearch evs = true.
Proof.
  unfold Rewrite.prepare. destruct b as [m|u md en].
  - intros H. inversion H. reflexivity.
  - destruct (nonEmptyString u) as [up|]; [|intros H; inversion H; reflexivity].
    destruct (validMode _ _) as [mode|]; [|intros H; inversion H; reflexivity].
    destruct (_ || _); [intros H; inversion H; reflexivity|].
    destruct (lookup _ _) as [sys|]; [|intros H; inversion H; reflexivity].
    destruct (_ || _).
    + pose proof (performWebSearch_events toLowerCase e up) as Hev.
      destruct (Rewrite.performWebSearch toLowerCase e up) as [evs0 w].
      intros H. inversion H. subst. exact Hev.
    + intros H. inversion H. reflexivity.
Qed.

Lemma search_events_no_create evs :
  forallb isSearch evs = true -> forall a r, ~ In (Create a r) evs.
Proof.
  intros H a r Hin. rewrite forallb_forall in H.
  specialize (H _ Hin). discriminate.
Qed.

(** C1: [validateTokenLimits] accepts exactly the totals that are at
    most 0.8 * maxContextTokens; and when the route reaches the token
    check with system instructions, user message and web data whose
    estimates sum to more than 0.8 * 131072, the check fails, the
    response is the 413 payload-too-large error, and the trace of the
    request holds no completion call. *)
Theorem token_budget_gate :
  forall toLowerCase (e : Rewrite.env) (b : Rewrite.requestBody)
         (evs : list event) (p : Rewrite.prepared),
    Rewrite.prepare toLowerCase e b = (evs, inr p) ->
    (10 * (estimateTokenCount (Rewrite.p_systemInstructions p)
           + estimateTokenCount (Rewrite.p_userMessage p)
           + estimateTokenCount (Rewrite.p_webData p)) > 8 * 131072)%Z ->
    Rewrite.validateTokenLimits (Rewrite.p_systemInstructions p)
      (Rewrite.p_userMessage p) (Rewrite.p_webData p) = false
    /\ snd (Rewrite.POST toLowerCase e b)
       = json 413 (ErrorBody (PAYLOAD_TOO_LARGE Rewrite.ERROR_MESSAGES))
    /\ (forall attempt req,
          ~ In (Create attempt req) (fst (Rewrite.POST toLowerCase e b)))
    /\ (forall systemInstructions userMessage webData,
          Rewrite.validateTokenLimits systemInstructions userMessage webData
          = true
          <-> (10 * (estimateTokenCount systemInstructions
                     + estimateTokenCount userMessage
                     + estimateTokenCount webData)
               <= 8 * maxContextTokens)%Z).
Proof.
  intros toLowerCase e b evs p Hprep Hbig.
  assert (Hv : Rewrite.validateTokenLimits (Rewrite.p_systemInstructions p)
                 (Rewrite.p_userMessage p) (Rewrite.p_webData p) = false).
  { unfold Rewrite.validateTokenLimits.
    apply withinInputBudget_false. unfold maxContextTokens. exact Hbig. }
  assert (Hpost : Rewrite.POST toLowerCase e b
                  = (evs ++ [], json 413 (ErrorBody
                       (PAYLOAD_TOO_LARGE Rewrite.ERROR_MESSAGES)))).
  { unfold Rewrite.POST. rewrite Hprep. unfold Rewrite.complete.
    rewrite Hv. reflexivity. }
  repeat split.
  - exact Hv.
  - rewrite Hpost. reflexivity.
  - intros attempt req. rewrite Hpost. simpl. rewrite app_nil_r.
    apply search_events_no_create.
    exact (prepare_events toLowerCase e b evs _ Hprep).
  - unfold Rewrite.validateTokenLimits. apply withinInputBudget_spec.
  - unfold Rewrite.validateTokenLimits. apply withinInputBudget_spec.
Qed.

(** An environment whose provider answers every call with [content]. *)
Definition answering (content : option jsstring) : Rewrite.env :=
  {| Rewrite.GROQ_API_KEY := Some (js "gsk_live");
     Rewrite.SERPAPI_API_KEY := None;
     Rewrite.axios_get := fun _ => Rewrite.SearchThrows;
     Rewrite.groq_create := fun _ _ => Resolved {| choices := [content] |} |}.

Definition filler : jsstring := repeat 120%N (N.to_nat 420000).
Definition longPrompt : jsstring := 120%N :: filler.

Definition longRequest : Rewrite.requestBody :=
  Rewrite.BodyFields (JString longPrompt) JUndefined JUndefined.

Definition longPrepared : Rewrite.prepared :=
  {| Rewrite.p_mode := js "question-research";
     Rewrite.p_systemInstructions :=
       match lookup Rewrite.SYSTEM_INSTRUCTIONS (js "question-research") with
       | Some s => s
       | None => []
       end;
     Rewrite.p_userMessage :=
       Rewrite.buildUserMessage (js "question-research") longPrompt false [];
     Rewrite.p_webData := [];
     Rewrite.p_webSources := [];
     Rewrite.p_webAccessUsed := false |}.

Lemma token_budget_gate_witness :
  snd (Rewrite.POST asciiToLower (answering (Some (js "ok"))) longRequest)
  = json 413 (ErrorBody (PAYLOAD_TOO_LARGE Rewrite.ERROR_MESSAGES)).
Proof.
  refine (proj1 (proj2 (token_budget_gate asciiToLower
            (answering (Some (js "ok"))) longRequest [] longPrepared _ _))).
  - reflexivity.
  - vm_compute. reflexivity.
Defined.

(* ================================================================== *)
(** ** Input validation *)
(* ================================================================== *)

(** C7: a request whose text is not a non-empty string, or whose mode
    (for /rewrite: the given mode, or the default when none is given) is
    not a key of the registry, is answered with status 400 and an error
    message by both routes, and its trace is empty: neither the search
    nor the completion is called. *)
Theorem invalid_input_is_rejected :
  forall toLowerCase (e : Rewrite.env) (ei : SelfImprove.env)
         (text mode enableWebAccess : jsvalue),
    (nonEmptyString text = None
     \/ validMode Rewrite.VALID_MODES
          (withDefault mode (JString (js "question-research"))) = None ->
     exists msg,
       Rewrite.POST toLowerCase e (Rewrite.BodyFields text mode enableWebAccess)
       = ([], json 400 (ErrorBody msg)))
    /\ (nonEmptyString text = None
        \/ validMode SelfImprove.VALID_MODES mode = None ->
        exists msg,
          SelfImprove.POST ei (SelfImprove.BodyFields text mode)
          = ([], json 400 (ErrorBody msg))).
Proof.
  intros toLowerCase e ei text mode enableWebAccess. split.
  - intros H. unfold Rewrite.POST, Rewrite.prepare.
    destruct (nonEmptyString text) as [up|] eqn:Et.
    + destruct H as [H|H]; [discriminate|]. rewrite H. eexists. reflexivity.
    + eexists. reflexivity.
  - intros H. unfold SelfImprove.POST.
    destruct (nonEmptyString text) as [up|] eqn:Et.
    + destruct H as [H|H]; [discriminate|]. rewrite H.
      destruct (valueTruthy mode); eexists; reflexivity.
    + eexists. reflexivity.
Qed.

Definition improving (content : option jsstring) : SelfImprove.env :=
  {| SelfImprove.GROQ_API_KEY := Some (js "gsk_live");
     SelfImprove.groq_create :=
       fun _ _ => Resolved {| choices := [content] |} |}.

Lemma invalid_input_is_rejected_witness :
  (exists msg,
      Rewrite.POST asciiToLower (answering (Some (js "ok")))
        (Rewrite.BodyFields (JString []) (JString (js "coding-agent")) JUndefined)
      = ([], json 400 (ErrorBody msg)))
  /\ (exists msg,
         SelfImprove.POST (improving (Some (js "ok")))
           (SelfImprove.BodyFields (JString (js "draft")) (JString (js "haiku")))
         = ([], json 400 (ErrorBody msg))).
Proof.
  split.
  - apply (proj1 (invalid_input_is_rejected asciiToLower
             (answering (Some (js "ok"))) (improving (Some (js "ok")))
             (JString []) (JString (js "coding-agent")) JUndefined)).
    left. reflexivity.
  - apply (proj2 (invalid_input_is_rejected asciiToLower
             (answering (Some (js "ok"))) (improving (Some (js "ok")))
             (JString (js "draft")) (JString (js "haiku")) JUndefined)).
    right. reflexivity.
Defined.

(* ================================================================== *)
(** ** Search augmentation *)
(* ================================================================== *)

Lemma lookup_keys (table : list (jsstring * jsstring)) (key : jsstring) :
  existsb (eqs key) (map fst table) = true ->
  exists v, lookup table key = Some v.
Proof.
  unfold lookup. induction table as [|[k v] table IH]; simpl.
  - discriminate.
  - destruct (eqs key k) eqn:E; simpl.
    + intros _. exists v. reflexivity.
    + intros H. exact (IH H).
Qed.

(** The instruction text of a validated mode exists. *)
Lemma lookup_valid_mode (v : jsvalue) (mode : jsstring) :
  validMode Rewrite.VALID_MODES v = Some mode ->
  exists sys, lookup Rewrite.SYSTEM_INSTRUCTIONS mode = Some sys.
Proof.
  unfold validMode. destruct v; try discriminate.
  destruct (existsb (eqs s) Rewrite.VALID_MODES) eqn:E; [|discriminate].
  intros H. inversion H. subst. apply lookup_keys. exact E.
Qed.

Definition searchFails (e : Rewrite.env) : Prop :=
  configured (Rewrite.SERPAPI_API_KEY e) = false
  \/ (forall q, Rewrite.axios_get e q = Rewrite.SearchThrows).

Lemma performWebSearch_fails toLowerCase e userPrompt :
  searchFails e ->
  snd (Rewrite.performWebSearch toLowerCase e userPrompt) = Rewrite.noWebResult.
Proof.
  intros [Hkey|Hthrow]; unfold Rewrite.performWebSearch.
  - rewrite Hkey. reflexivity.
  - destruct (negb (configured (Rewrite.SERPAPI_API_KEY e))); [reflexivity|].
    destruct (Rewrite.extractSearchTerms toLowerCase userPrompt) as [q|];
      [|reflexivity].
    destruct (negb (truthy q)); [reflexivity|].
    rewrite Hthrow. reflexivity.
Qed.

Lemma prepare_without_web toLowerCase e b evs p :
  searchFails e ->
  Rewrite.prepare toLowerCase e b = (evs, inr p) ->
  Rewrite.p_webAccessUsed p = false /\ Rewrite.p_webSources p = []
  /\ Rewrite.p_webData p = [].
Proof.
  intros Hf. unfold Rewrite.prepare. destruct b as [m|u md en].
  - intros H. inversion H.
  - destruct (nonEmptyString u) as [up|]; [|intros H; inversion H].
    destruct (validMode _ _) as [mode|]; [|intros H; inversion H].
    destruct (_ || _); [intros H; inversion H|].
    destruct (lookup _ _) as [sys|]; [|intros H; inversion H].
    destruct (_ || _).
    + pose proof (performWebSearch_fails toLowerCase e up Hf) as Hw.
      destruct (Rewrite.performWebSearch toLowerCase e up) as [evs0 w].
      simpl in Hw. subst w. intros H. inversion H. subst. simpl. auto.
    + intros H. inversion H. subst. simpl. auto.
Qed.

(** C5: when the search credential is missing or the search transport
    throws (a timeout is a throw), [performWebSearch] returns the empty
    result; the route then goes on without web data, every success it
    returns has [webAccessUsed = false] and [webSources = []], and a valid
    request whose completion call answers with text is answered with
    status 200. *)
Theorem search_failure_is_isolated :
  forall toLowerCase (e : Rewrite.env),
    searchFails e ->
    (forall userPrompt,
        snd (Rewrite.performWebSearch toLowerCase e userPrompt)
        = Rewrite.noWebResult)
    /\ (forall b r,
           body (snd (Rewrite.POST toLowerCase e b)) = RewriteBody r ->
           webAccessUsed r = false /\ webSources r = [])
    /\ (forall userPrompt mode enableWebAccess m sys c raw,
           nonEmptyString userPrompt <> None ->
           validMode Rewrite.VALID_MODES
             (withDefault mode (JString (js "question-research"))) = Some m ->
           lookup Rewrite.SYSTEM_INSTRUCTIONS m = Some sys ->
           configured (Rewrite.GROQ_API_KEY e) = true ->
           Rewrite.GROQ_API_KEY e <> Some (js "your-key-here") ->
           (forall up, nonEmptyString userPrompt = Some up ->
              Rewrite.validateTokenLimits sys
                (Rewrite.buildUserMessage m up false []) [] = true) ->
           (forall req, Rewrite.groq_create e req 0 = Resolved c) ->
           firstContent c = Some raw -> raw <> [] ->
           snd (Rewrite.POST toLowerCase e
                  (Rewrite.BodyFields userPrompt mode enableWebAccess))
           = json 200 (RewriteBody
               {| rewrittenPrompt := Rewrite.cleanResponse raw m;
                  r_mode := m;
                  r_modeName := Rewrite.getModeDisplayName m;
                  isContentGeneration := Rewrite.isDirectContent m;
                  webAccessUsed := false;
                  webSources := [] |})).
Proof.
  intros toLowerCase e Hf. split; [|split].
  - intros userPrompt. apply performWebSearch_fails. exact Hf.
  - intros b r. unfold Rewrite.POST.
    destruct (Rewrite.prepare toLowerCase e b) as [evs [resp|p]] eqn:Hp.
    + simpl. revert Hp. unfold Rewrite.prepare.
      destruct b as [m|u md en].
      * intros H. inversion H. subst. unfold caught. simpl. discriminate.
      * destruct (nonEmptyString u) as [up|];
          [|intros H; inversion H; subst; simpl; discriminate].
        destruct (validMode _ _) as [mode|];
          [|intros H; inversion H; subst; simpl; discriminate].
        destruct (_ || _); [intros H; inversion H; subst; simpl; discriminate|].
        destruct (lookup _ _) as [sys|];
          [|intros H; inversion H; subst; unfold caught; simpl; discriminate].
        destruct (_ || _);
          [destruct (Rewrite.performWebSearch toLowerCase e up)|];
          intros H; inversion H.
    + destruct (prepare_without_web toLowerCase e b evs p Hf Hp)
        as [Hu [Hs _]].
      unfold Rewrite.complete.
      destruct (negb (Rewrite.validateTokenLimits _ _ _));
        [simpl; discriminate|].
      destruct (callGroqWithRetry _ _ _ _ _ _) as [evs' [c|msg|]];
        try (unfold caught; simpl; discriminate).
      destruct (firstContent c) as [[|ch raw]|]; try (simpl; discriminate).
      simpl. intros H. inversion H. subst r. simpl. auto.
  - intros userPrompt mode enableWebAccess m sys c raw
           Hup Hmode Hsys Hkey Hph Htok Hres Hc Hraw.
    destruct (nonEmptyString userPrompt) as [up|] eqn:Eup; [|congruence].
    specialize (Htok up eq_refl).
    destruct (Rewrite.prepare toLowerCase e
                (Rewrite.BodyFields userPrompt mode enableWebAccess))
      as [evs x] eqn:Hp.
    assert (Hx : x = inr {| Rewrite.p_mode := m;
                            Rewrite.p_systemInstructions := sys;
                            Rewrite.p_userMessage :=
                              Rewrite.buildUserMessage m up false [];
                            Rewrite.p_webData := [];
                            Rewrite.p_webSources := [];
                            Rewrite.p_webAccessUsed := false |}).
    { revert Hp. unfold Rewrite.prepare. rewrite Eup, Hmode, Hkey, Hsys.
      assert (Hne : eqs (Rewrite.orEmpty (Rewrite.GROQ_API_KEY e))
                        (js "your-key-here") = false).
      { unfold eqs. destruct (list_eq_dec _ _ _) as [E|]; [|reflexivity].
        exfalso. apply Hph. destruct (Rewrite.GROQ_API_KEY e); simpl in E.
        - congruence.
        - discriminate. }
      rewrite Hne. simpl.
      destruct (_ || _).
      - pose proof (performWebSearch_fails toLowerCase e up Hf) as Hw.
        destruct (Rewrite.performWebSearch toLowerCase e up) as [evs0 w].
        simpl in Hw. subst w. intros H. inversion H. reflexivity.
      - intros H. inversion H. reflexivity. }
    unfold Rewrite.POST. rewrite Hp, Hx. unfold Rewrite.complete.
    cbn [Rewrite.p_systemInstructions Rewrite.p_userMessage Rewrite.p_webData
         Rewrite.p_mode Rewrite.p_webAccessUsed Rewrite.p_webSources].
    rewrite Htok. simpl negb. cbv iota.
    unfold callGroqWithRetry. simpl retryLoop. rewrite Hres.
    rewrite Hc. destruct raw as [|ch raw]; [congruence|]. reflexivity.
Qed.

(** The search API is configured and its transport always throws. *)
Definition throwingSearch : Rewrite.env :=
  {| Rewrite.GROQ_API_KEY := Some (js "gsk_live");
     Rewrite.SERPAPI_API_KEY := Some (js "serp_live");
     Rewrite.axios_get := fun _ => Rewrite.SearchThrows;
     Rewrite.groq_create :=
       fun _ _ => Resolved {| choices := [Some (js "Fresh news digest")] |} |}.

Lemma search_failure_is_isolated_witness :
  snd (Rewrite.POST asciiToLower throwingSearch
         (Rewrite.BodyFields (JString (js "write a blog about tea"))
            (JString (js "content-generation")) (JBool true)))
  = json 200 (RewriteBody
      {| rewrittenPrompt := Rewrite.cleanResponse (js "Fresh news digest")
                              (js "content-generation");
         r_mode := js "content-generation";
         r_modeName := Rewrite.getModeDisplayName (js "content-generation");
         isContentGeneration := Rewrite.isDirectContent (js "content-generation");
         webAccessUsed := false;
         webSources := [] |}).
Proof.
  assert (Hf : searchFails throwingSearch) by (right; reflexivity).
  apply (proj2 (proj2 (search_failure_is_isolated asciiToLower
                         throwingSearch Hf))
           (JString (js "write a blog about tea"))
           (JString (js "content-generation")) (JBool true)
           (js "content-generation")
           (Rewrite.orEmpty
              (lookup Rewrite.SYSTEM_INSTRUCTIONS (js "content-generation")))
           {| choices := [Some (js "Fresh news digest")] |}
           (js "Fresh news digest")).
  - discriminate.
  - reflexivity.
  - reflexivity.
  - reflexivity.
  - discriminate.
  - intros up Hup. vm_compute in Hup. inversion Hup. subst up.
    vm_compute. reflexivity.
  - intros req. reflexivity.
  - reflexivity.
  - discriminate.
Defined.

(* ================================================================== *)
(** ** The web data in the token check *)
(* ================================================================== *)

Lemma buildUserMessage_with_web mode userPrompt webData :
  exists prefix,
    Rewrite.buildUserMessage mode userPrompt true webData
    = prefix ++ webData ++ nl ++ nl
      ++ Rewrite.buildUserMessage mode userPrompt false [].
Proof.
  unfold Rewrite.buildUserMessage.
  destruct (eqs mode (js "content-generation")).
  - eexists. reflexivity.
  - destruct (eqs mode (js "document-rewriting")).
    + eexists. reflexivity.
    + eexists. reflexivity.
Qed.

Lemma estimateTokenCount_mono (a b : jsstring) :
  List.length a <= List.length b ->
  (estimateTokenCount a <= estimateTokenCount b)%Z.
Proof.
  intros H. unfold estimateTokenCount, charToTokenRatio.
  apply Z.div_le_mono; lia.
Qed.

Definition snippet80k : jsstring := repeat 119%N (N.to_nat 80000).
Definition prompt320k : jsstring :=
  97%N :: 105%N :: repeat 120%N (N.to_nat 320000).

(** The search answers with one result that carries a long snippet. *)
Definition longSearch : Rewrite.env :=
  {| Rewrite.GROQ_API_KEY := Some (js "gsk_live");
     Rewrite.SERPAPI_API_KEY := Some (js "serp_live");
     Rewrite.axios_get := fun _ =>
       Rewrite.SearchResolves
         (Some [ {| Rewrite.title := Some (js "T");
                    Rewrite.snippet := Some snippet80k;
                    Rewrite.link := Some (js "https://example.org") |} ]);
     Rewrite.groq_create := fun _ _ => Resolved {| choices := [Some (js "ok")] |} |}.

Definition augmentedRequest : Rewrite.requestBody :=
  Rewrite.BodyFields (JString prompt320k) (JString (js "question-research"))
    (JBool true).

Definition augmentedPrepared : Rewrite.prepared :=
  let webData := js "T" ++ js ": " ++ snippet80k in
  {| Rewrite.p_mode := js "question-research";
     Rewrite.p_systemInstructions :=
       Rewrite.orEmpty (lookup Rewrite.SYSTEM_INSTRUCTIONS (js "question-research"));
     Rewrite.p_userMessage :=
       Rewrite.buildUserMessage (js "question-research") prompt320k true webData;
     Rewrite.p_webData := webData;
     Rewrite.p_webSources := [js "https://example.org"];
     Rewrite.p_webAccessUsed := true |}.

Lemma augmented_prepare :
  Rewrite.prepare asciiToLower longSearch augmentedRequest
  = ([Search (js "latest AI developments 2025 artificial intelligence trends")],
     inr augmentedPrepared).
Proof. reflexivity. Qed.

Lemma augmented_rejected :
  snd (Rewrite.POST asciiToLower longSearch augmentedRequest)
  = json 413 (ErrorBody (PAYLOAD_TOO_LARGE Rewrite.ERROR_MESSAGES)).
Proof. vm_compute. reflexivity. Qed.

Lemma augmented_within_budget :
  (10 * (estimateTokenCount (Rewrite.p_systemInstructions augmentedPrepared)
         + estimateTokenCount
             (Rewrite.buildUserMessage (js "question-research") prompt320k false [])
         + estimateTokenCount (Rewrite.p_webData augmentedPrepared))
   <= 8 * maxContextTokens)%Z.
Proof. vm_compute. discriminate. Qed.

Lemma prepare_message toLowerCase e b evs p :
  Rewrite.prepare toLowerCase e b = (evs, inr p) ->
  exists userPrompt,
    Rewrite.p_userMessage p
    = Rewrite.buildUserMessage (Rewrite.p_mode p) userPrompt
        (Rewrite.p_webAccessUsed p) (Rewrite.p_webData p).
Proof.
  unfold Rewrite.prepare. destruct b as [m|u md en].
  - intros H. inversion H.
  - destruct (nonEmptyString u) as [up|]; [|intros H; inversion H].
    destruct (validMode _ _) as [mode|]; [|intros H; inversion H].
    destruct (_ || _); [intros H; inversion H|].
    destruct (lookup _ _) as [sys|]; [|intros H; inversion H].
    match goal with
    | |- context [let (_, _) := ?c in _] => destruct c as [evs0 w]
    end.
    intros H. inversion H. subst. simpl. exists up. reflexivity.
Qed.

(** Once the token check is passed, the provider is called: the trace of
    the rest of the route starts with the first completion call, made
    with the user message of the route, and the answer is not the 413 of
    the token check. *)
Lemma complete_accepted e p :
  Rewrite.validateTokenLimits (Rewrite.p_systemInstructions p)
    (Rewrite.p_userMessage p) (Rewrite.p_webData p) = true ->
  (exists req evs,
      fst (Rewrite.complete e p) = Create 0 req :: evs
      /\ messages req
         = [ {| role := js "system"; content := Rewrite.p_systemInstructions p |};
             {| role := js "user"; content := Rewrite.p_userMessage p |} ])
  /\ statusCode (snd (Rewrite.complete e p)) <> 413%Z.
Proof.
  intros Hv. unfold Rewrite.complete. rewrite Hv. cbn [negb].
  unfold callGroqWithRetry.
  set (req := {| messages := _; model := modelName; temperature := _;
                 max_tokens := _ |}).
  assert (Hstart : exists evs,
             fst (retryLoop Rewrite.ERROR_MESSAGES (Rewrite.groq_create e) req
                    3 3 0) = Create 0 req :: evs).
  { cbn [retryLoop].
    destruct (Rewrite.groq_create e req 0) as [c|error];
      [eexists; reflexivity|].
    repeat match goal with
           | |- context [if ?b then _ else _] =>
               match b with
               | true => fail 1
               | false => fail 1
               | _ => destruct b
               end
           | |- context [let (_, _) := ?c in _] => destruct c
           end; eexists; reflexivity. }
  destruct Hstart as [evs0 Hstart].
  destruct (retryLoop Rewrite.ERROR_MESSAGES (Rewrite.groq_create e) req 3 3 0)
    as [evs result].
  cbn [fst] in Hstart. subst evs. split.
  - exists req, evs0. split; [|reflexivity].
    destruct result as [c|msg|]; [|reflexivity|reflexivity].
    destruct (firstContent c) as [[|x raw]|]; reflexivity.
  - destruct result as [c|msg|]; [|discriminate|discriminate].
    destruct (firstContent c) as [[|x raw]|]; discriminate.
Qed.

Lemma prepare_web_data toLowerCase e b evs p :
  Rewrite.prepare toLowerCase e b = (evs, inr p) ->
  Rewrite.p_webAccessUsed p = true -> Rewrite.p_webData p <> [].
Proof.
  unfold Rewrite.prepare. destruct b as [m|u md en].
  - intros H. inversion H.
  - destruct (nonEmptyString u) as [up|]; [|intros H; inversion H].
    destruct (validMode _ _) as [mode|]; [|intros H; inversion H].
    destruct (_ || _); [intros H; inversion H|].
    destruct (lookup _ _) as [sys|]; [|intros H; inversion H].
    match goal with
    | |- context [let (_, _) := ?c in _] => destruct c as [evs0 w]
    end.
    intros H. inversion H. subst. cbn [Rewrite.p_webAccessUsed Rewrite.p_webData].
    intros Hu. rewrite Hu. apply andb_true_iff in Hu. destruct Hu as [Ht _].
    destruct (Rewrite.data w); [discriminate Ht|discriminate].
Qed.

(** Counted once, the web data of the long request fits: the system
    instructions and the user message that holds it are within budget. *)
Lemma augmented_single_count :
  (10 * (estimateTokenCount (Rewrite.p_systemInstructions augmentedPrepared)
         + estimateTokenCount (Rewrite.p_userMessage augmentedPrepared))
   <= 8 * maxContextTokens)%Z.
Proof. vm_compute. discriminate. Qed.

(** C10: when web data is used, the user message that the route builds
    embeds the web data (a prefix, the web data, a blank line, then the
    message that would be built without web data), and the route hands
    the web data to its token check once more, as third argument.  So the
    route answers 413, without calling the provider, exactly when the
    estimates of the system instructions, of the user message with the
    web data in it, and of the web data again sum to more than 0.8 *
    maxContextTokens; otherwise the provider is called with that user
    message.  A request is therefore answered 413 although the system
    instructions and the user message that holds the web data are within
    the budget, and so are the system instructions, the message without
    web data and the web data. *)
Theorem web_data_counted_twice :
  forall toLowerCase (e : Rewrite.env) (b : Rewrite.requestBody)
         (evs : list event) (p : Rewrite.prepared),
    Rewrite.prepare toLowerCase e b = (evs, inr p) ->
    Rewrite.p_webAccessUsed p = true ->
    (exists userPrompt prefix,
        let plain :=
          Rewrite.buildUserMessage (Rewrite.p_mode p) userPrompt false [] in
        let counted :=
          (estimateTokenCount (Rewrite.p_systemInstructions p)
           + estimateTokenCount
               (prefix ++ Rewrite.p_webData p ++ nl ++ nl ++ plain)
           + estimateTokenCount (Rewrite.p_webData p))%Z in
        Rewrite.p_userMessage p
        = prefix ++ Rewrite.p_webData p ++ nl ++ nl ++ plain
        /\ Rewrite.p_webData p <> []
        /\ (estimateTokenCount (Rewrite.p_webData p)
            <= estimateTokenCount (Rewrite.p_userMessage p))%Z
        /\ ((8 * maxContextTokens < 10 * counted)%Z ->
            Rewrite.POST toLowerCase e b
            = (evs, json 413
                      (ErrorBody (PAYLOAD_TOO_LARGE Rewrite.ERROR_MESSAGES))))
        /\ ((10 * counted <= 8 * maxContextTokens)%Z ->
            statusCode (snd (Rewrite.POST toLowerCase e b)) <> 413%Z
            /\ exists req more,
                 fst (Rewrite.POST toLowerCase e b)
                 = evs ++ Create 0 req :: more
                 /\ messages req
                    = [ {| role := js "system";
                           content := Rewrite.p_systemInstructions p |};
                        {| role := js "user";
                           content := prefix ++ Rewrite.p_webData p ++ nl ++ nl
                                      ++ plain |} ]))
    /\ (exists e0 b0 evs0 p0 userPrompt0,
           Rewrite.prepare asciiToLower e0 b0 = (evs0, inr p0)
           /\ Rewrite.p_webAccessUsed p0 = true
           /\ Rewrite.p_userMessage p0
              = Rewrite.buildUserMessage (Rewrite.p_mode p0) userPrompt0 true
                  (Rewrite.p_webData p0)
           /\ snd (Rewrite.POST asciiToLower e0 b0)
              = json 413 (ErrorBody (PAYLOAD_TOO_LARGE Rewrite.ERROR_MESSAGES))
           /\ (10 * (estimateTokenCount (Rewrite.p_systemInstructions p0)
                     + estimateTokenCount (Rewrite.p_userMessage p0))
               <= 8 * maxContextTokens)%Z
           /\ (10 * (estimateTokenCount (Rewrite.p_systemInstructions p0)
                     + estimateTokenCount
                         (Rewrite.buildUserMessage (Rewrite.p_mode p0)
                            userPrompt0 false [])
                     + estimateTokenCount (Rewrite.p_webData p0))
               <= 8 * maxContextTokens)%Z).
Proof.
  intros toLowerCase e b evs p Hprep Hused. split.
  - destruct (prepare_message toLowerCase e b evs p Hprep) as [up Hmsg].
    rewrite Hused in Hmsg.
    destruct (buildUserMessage_with_web (Rewrite.p_mode p) up
                (Rewrite.p_webData p)) as [prefix Hpre].
    exists up, prefix. cbv zeta. rewrite <- Hpre, <- Hmsg.
    split; [reflexivity|].
    split; [exact (prepare_web_data toLowerCase e b evs p Hprep Hused)|].
    split.
    { rewrite Hmsg, Hpre. apply estimateTokenCount_mono.
      rewrite !length_app. simpl. lia. }
    split.
    + intros Hbig.
      assert (Hv : Rewrite.validateTokenLimits (Rewrite.p_systemInstructions p)
                     (Rewrite.p_userMessage p) (Rewrite.p_webData p) = false).
      { unfold Rewrite.validateTokenLimits.
        apply withinInputBudget_false. lia. }
      unfold Rewrite.POST. rewrite Hprep. unfold Rewrite.complete.
      rewrite Hv. cbn [negb]. rewrite app_nil_r. reflexivity.
    + intros Hfit.
      assert (Hv : Rewrite.validateTokenLimits (Rewrite.p_systemInstructions p)
                     (Rewrite.p_userMessage p) (Rewrite.p_webData p) = true).
      { unfold Rewrite.validateTokenLimits.
        apply withinInputBudget_spec. exact Hfit. }
      destruct (complete_accepted e p Hv) as [[req [more [Htr Hreq]]] Hst].
      unfold Rewrite.POST. rewrite Hprep.
      destruct (Rewrite.complete e p) as [evs' resp].
      cbn [fst snd] in *. split; [exact Hst|].
      exists req, more. subst evs'. split; [reflexivity|exact Hreq].
  - exists longSearch, augmentedRequest,
      [Search (js "latest AI developments 2025 artificial intelligence trends")],
      augmentedPrepared, prompt320k.
    split; [exact augmented_prepare|].
    split; [reflexivity|].
    split; [reflexivity|].
    split; [exact augmented_rejected|].
    split; [exact augmented_single_count|exact augmented_within_budget].
Qed.

Lemma web_data_counted_twice_witness :
  exists userPrompt prefix,
    Rewrite.p_userMessage augmentedPrepared
    = prefix ++ Rewrite.p_webData augmentedPrepared ++ nl ++ nl
      ++ Rewrite.buildUserMessage (js "question-research") userPrompt false []
    /\ Rewrite.POST asciiToLower longSearch augmentedRequest
       = ([Search (js "latest AI developments 2025 artificial intelligence trends")],
          json 413 (ErrorBody (PAYLOAD_TOO_LARGE Rewrite.ERROR_MESSAGES))).
Proof.
  destruct (proj1 (web_data_counted_twice asciiToLower longSearch
                     augmentedRequest
                     [Search (js "latest AI developments 2025 artificial intelligence trends")]
                     augmentedPrepared augmented_prepare
                     eq_refl)) as [up [prefix [H [_ [_ [Hbig _]]]]]].
  exists up, prefix. split; [exact H|].
  apply Hbig. cbv zeta. rewrite <- H. vm_compute. reflexivity.
Defined.

(* ================================================================== *)
(** ** The empty-reply check *)
(* ================================================================== *)

(** What the response returns to the caller as text is not empty. *)
Definition returnsNonEmpty (resp : response) : Prop :=
  match body resp with
  | RewriteBody r => rewrittenPrompt r <> []
  | ImproveBody r => improvedOutput r <> []
  | ErrorBody _ => True
  end.

Definition plainRequest : Rewrite.requestBody :=
  Rewrite.BodyFields (JString (js "explain tides")) JUndefined JUndefined.

(** C4, as stated, fails: a reply of one space passes the emptiness
    check, is cleaned to the empty string, and is returned with status 200. *)
Lemma blank_reply_returned_empty :
  snd (Rewrite.POST asciiToLower (answering (Some (js " "))) plainRequest)
  = json 200 (RewriteBody
      {| rewrittenPrompt := [];
         r_mode := js "question-research";
         r_modeName := js "Question/Research Mode";
         isContentGeneration := false;
         webAccessUsed := false;
         webSources := [] |})
  /\ ~ returnsNonEmpty
         (snd (Rewrite.POST asciiToLower (answering (Some (js " "))) plainRequest)).
Proof.
  assert (H : snd (Rewrite.POST asciiToLower (answering (Some (js " ")))
                     plainRequest)
              = json 200 (RewriteBody
                  {| rewrittenPrompt := [];
                     r_mode := js "question-research";
                     r_modeName := js "Question/Research Mode";
                     isContentGeneration := false;
                     webAccessUsed := false;
                     webSources := [] |}))
    by (vm_compute; reflexivity).
  split; [exact H|].
  rewrite H. unfold returnsNonEmpty. simpl. intros Hne. apply Hne. reflexivity.
Qed.

(** C4, amended: the emptiness check is made on the raw reply, before
    cleaning.  Once the invoker has returned a completion, a missing or
    empty raw reply is answered with status 500 and the generic error,
    and a non-empty raw reply is answered with status 200 carrying its
    cleaned text, in both routes. *)
Theorem empty_reply_check_precedes_cleaning :
  forall toLowerCase (e : Rewrite.env) (b : Rewrite.requestBody)
         (evs evs' : list event) (p : Rewrite.prepared) (c : completion)
         (ei : SelfImprove.env) (currentOutput mode : jsstring)
         (sys : jsstring) (evi : list event) (ci : completion),
    Rewrite.prepare toLowerCase e b = (evs, inr p) ->
    Rewrite.validateTokenLimits (Rewrite.p_systemInstructions p)
      (Rewrite.p_userMessage p) (Rewrite.p_webData p) = true ->
    callGroqWithRetry Rewrite.ERROR_MESSAGES (Rewrite.groq_create e)
      [ {| role := js "system"; content := Rewrite.p_systemInstructions p |};
        {| role := js "user"; content := Rewrite.p_userMessage p |} ]
      (if Rewrite.isDirectContent (Rewrite.p_mode p) then 8 # 10 else 4 # 10)%Q
      (if Rewrite.isDirectContent (Rewrite.p_mode p) then 3000 else 500)%Z 3
    = (evs', Returned c) ->
    currentOutput <> [] ->
    validMode SelfImprove.VALID_MODES (JString mode) = Some mode ->
    lookup SelfImprove.SYSTEM_INSTRUCTIONS mode = Some sys ->
    configured (SelfImprove.GROQ_API_KEY ei) = true ->
    SelfImprove.GROQ_API_KEY ei <> Some (js "your-key-here") ->
    SelfImprove.validateTokenLimits sys
      (SelfImprove.refinementPrompt currentOutput) = true ->
    callGroqWithRetry SelfImprove.ERROR_MESSAGES (SelfImprove.groq_create ei)
      [ {| role := js "system"; content := sys |};
        {| role := js "user";
           content := SelfImprove.refinementPrompt currentOutput |} ]
      (7 # 10)%Q 2000%Z 3
    = (evi, Returned ci) ->
    snd (Rewrite.POST toLowerCase e b)
    = match firstContent c with
      | None | Some [] =>
          json 500 (ErrorBody (GENERIC_ERROR Rewrite.ERROR_MESSAGES))
      | Some raw =>
          json 200 (RewriteBody
            {| rewrittenPrompt := Rewrite.cleanResponse raw (Rewrite.p_mode p);
               r_mode := Rewrite.p_mode p;
               r_modeName := Rewrite.getModeDisplayName (Rewrite.p_mode p);
               isContentGeneration := Rewrite.isDirectContent (Rewrite.p_mode p);
               webAccessUsed := Rewrite.p_webAccessUsed p;
               webSources := Rewrite.p_webSources p |})
      end
    /\ snd (SelfImprove.POST ei
              (SelfImprove.BodyFields (JString currentOutput) (JString mode)))
       = match firstContent ci with
         | None | Some [] =>
             json 500 (ErrorBody (GENERIC_ERROR SelfImprove.ERROR_MESSAGES))
         | Some raw =>
             json 200 (ImproveBody
               {| improvedOutput := SelfImprove.cleanResponse raw mode;
                  i_mode := mode;
                  i_modeName := SelfImprove.getModeDisplayName mode |})
         end.
Proof.
  intros toLowerCase e b evs evs' p c ei currentOutput mode sys evi ci
         Hprep Htok Hcall Hout Hmode Hsys Hkey Hph Htoki Hcalli.
  split.
  - unfold Rewrite.POST. rewrite Hprep. unfold Rewrite.complete.
    rewrite Htok. simpl negb. cbv iota. rewrite Hcall.
    destruct (firstContent c) as [[|ch raw]|]; reflexivity.
  - unfold SelfImprove.POST.
    destruct currentOutput as [|ch0 out]; [congruence|].
    cbn [nonEmptyString].
    assert (Htruthy : valueTruthy (JString mode) = true).
    { simpl. destruct mode; [|reflexivity].
      vm_compute in Hmode. discriminate. }
    rewrite Htruthy, Hmode, Hkey.
    assert (Hne : eqs (match SelfImprove.GROQ_API_KEY ei with
                       | Some k => k | None => [] end)
                      (js "your-key-here") = false).
    { unfold eqs. destruct (list_eq_dec _ _ _) as [E|]; [|reflexivity].
      exfalso. apply Hph. destruct (SelfImprove.GROQ_API_KEY ei).
      - congruence.
      - discriminate. }
    rewrite Hne. simpl orb. cbv iota. rewrite Hsys, Htoki. simpl negb.
    cbv iota. rewrite Hcalli.
    destruct (firstContent ci) as [[|ch raw]|]; reflexivity.
Qed.

Definition plainPrepared : Rewrite.prepared :=
  {| Rewrite.p_mode := js "question-research";
     Rewrite.p_systemInstructions :=
       Rewrite.orEmpty (lookup Rewrite.SYSTEM_INSTRUCTIONS (js "question-research"));
     Rewrite.p_userMessage :=
       Rewrite.buildUserMessage (js "question-research") (js "explain tides")
         false [];
     Rewrite.p_webData := [];
     Rewrite.p_webSources := [];
     Rewrite.p_webAccessUsed := false |}.

Lemma empty_reply_check_precedes_cleaning_witness :
  snd (Rewrite.POST asciiToLower (answering (Some [])) plainRequest)
  = json 500 (ErrorBody (GENERIC_ERROR Rewrite.ERROR_MESSAGES))
  /\ snd (SelfImprove.POST (improving (Some (js "Improved version: Tides follow the moon.")))
            (SelfImprove.BodyFields (JString (js "tides")) (JString (js "coding-agent"))))
     = json 200 (ImproveBody
         {| improvedOutput :=
              SelfImprove.cleanResponse
                (js "Improved version: Tides follow the moon.") (js "coding-agent");
            i_mode := js "coding-agent";
            i_modeName := SelfImprove.getModeDisplayName (js "coding-agent") |}).
Proof.
  eapply (empty_reply_check_precedes_cleaning asciiToLower
            (answering (Some [])) plainRequest [] _ plainPrepared
            {| choices := [Some []] |}
            (improving (Some (js "Improved version: Tides follow the moon.")))
            (js "tides") (js "coding-agent")
            (Rewrite.orEmpty
               (lookup SelfImprove.SYSTEM_INSTRUCTIONS (js "coding-agent")))
            _ {| choices := [Some (js "Improved version: Tides follow the moon.")] |}).
  - vm_compute. reflexivity.
  - vm_compute. reflexivity.
  - vm_compute. reflexivity.
  - discriminate.
  - vm_compute. reflexivity.
  - vm_compute. reflexivity.
  - reflexivity.
  - discriminate.
  - vm_compute. reflexivity.
  - vm_compute. reflexivity.
Defined.

(* ================================================================== *)
(** ** Quote removal *)
(* ================================================================== *)







Lemma startsWith_nil (s : jsstring) : startsWith s [] = true.
Proof. destruct s; reflexivity. Qed.

Lemma startsWith_cons (q : N) (s : jsstring) : startsWith (q :: s) [q] = true.
Proof. simpl. rewrite N.eqb_refl. apply startsWith_nil. Qed.






(* ================================================================== *)
(** ** Component labels *)
(* ================================================================== *)

Lemma eqs_true (a b : jsstring) : eqs a b = true <-> a = b.
Proof.
  unfold eqs. destruct (list_eq_dec N.eq_dec a b); split; congruence.
Qed.

Lemma eqs_refl (a : jsstring) : eqs a a = true.
Proof. apply eqs_true. reflexivity. Qed.

Lemma has_In (found : list jsstring) (c : jsstring) :
  has found c = true <-> In c found.
Proof.
  unfold has. rewrite existsb_exists. split.
  - intros [x [Hin He]]. apply eqs_true in He. subst. exact Hin.
  - intros Hin. exists c. split; [exact Hin|apply eqs_refl].
Qed.

(** The state after a literal of the pattern has been consumed. *)
Definition consumed (cs : jsstring) (st : mstate) : mstate :=
  {| ms_prev := match rev cs with [] => ms_prev st | c :: _ => Some c end;
     ms_rest := skipn (List.length cs) (ms_rest st);
     ms_pos := List.length cs + ms_pos st;
     ms_caps := ms_caps st |}.

Lemma mtch_seqs_cons fl r rs st k :
  mtch fl (seqs (r :: rs)) st k
  = mtch fl r st (fun st1 => mtch fl (seqs rs) st1 k).
Proof. destruct rs; reflexivity. Qed.

Lemma consumed_cons c cs st rest' :
  ms_rest st = c :: rest' ->
  consumed cs (advance st c rest') = consumed (c :: cs) st.
Proof.
  intros Hr. unfold consumed, advance. simpl. rewrite Hr. simpl.
  f_equal.
  - destruct (rev cs) eqn:E; simpl; reflexivity.
  - rewrite Nat.add_succ_r. reflexivity.
Qed.

(** A case-sensitive literal matches exactly when the input starts with it. *)
Lemma mtch_literal (cs : jsstring) :
  forall st k,
    mtch noFlags (seqs (map (fun c => RChars (CChar c)) cs)) st k
    = if startsWith (ms_rest st) cs then k (consumed cs st) else None.
Proof.
  induction cs as [|c cs IH]; intros st k.
  - simpl. rewrite startsWith_nil. unfold consumed. simpl.
    destruct st; reflexivity.
  - cbn [map]. rewrite mtch_seqs_cons. cbn [mtch].
    destruct (ms_rest st) as [|d rest'] eqn:Hr; [reflexivity|].
    cbn [startsWith matchChar noFlags ignoreCase].
    destruct (c =? d)%N eqn:E; [|reflexivity].
    apply N.eqb_eq in E. subst d. cbn [andb].
    rewrite IH. cbn [advance ms_rest].
    rewrite (consumed_cons c cs st rest' Hr). reflexivity.
Qed.

Lemma mtch_lit (s : string) st k :
  mtch noFlags (lit s) st k
  = if startsWith (ms_rest st) (js s) then k (consumed (js s) st) else None.
Proof. unfold lit. apply mtch_literal. Qed.

(** A pattern anchored with [^], without the [m] flag, matches nowhere
    but at the start. *)
Lemma execFrom_anchored r rest :
  forall c pos, execFrom noFlags (RSeq RBol r) (Some c) rest pos = None.
Proof.
  induction rest as [|d rest IH]; intros c pos.
  - reflexivity.
  - cbn [execFrom]. unfold matchAt. cbn [mtch atLineStart ms_prev noFlags multiline andb].
    apply IH.
Qed.

Lemma startsWith_app (s a b : jsstring) :
  startsWith s (a ++ b)
  = startsWith s a && startsWith (skipn (List.length a) s) b.
Proof.
  revert s. induction a as [|x a IH]; intros s.
  - simpl. rewrite startsWith_nil. reflexivity.
  - destruct s as [|y s]; [reflexivity|].
    simpl. rewrite IH. apply andb_assoc.
Qed.

Lemma startsWith_firstn (s p : jsstring) :
  startsWith s p = true -> firstn (List.length p) s = p.
Proof.
  revert s. induction p as [|x p IH]; intros s H.
  - reflexivity.
  - destruct s as [|y s]; [discriminate|].
    simpl in H. apply andb_true_iff in H. destruct H as [He Hs].
    apply N.eqb_eq in He. subst y. simpl. f_equal. apply IH. exact Hs.
Qed.

(** The name of the first component for which [t] starts with "name:". *)
Definition labelPrefix (t : jsstring) : option jsstring :=
  match find (fun name => startsWith t (js name ++ js ":")) componentNames with
  | Some name => Some (js name)
  | None => None
  end.

Lemma componentMatch_at_start (t : jsstring) :
  match matchAt noFlags componentRe None t 0 with
  | Some st => Some (capture 1 (ms_caps st))
  | None => None
  end = labelPrefix t.
Proof.
  unfold matchAt, componentRe, componentGroup, labelPrefix.
  unfold componentNames.
  cbn [seqs map alts mtch atLineStart ms_prev find].
  rewrite !startsWith_app.
  repeat (rewrite mtch_lit;
          cbn [ms_rest setCapture consumed ms_pos ms_caps ms_prev];
          match goal with
          | |- context [startsWith t (js ?n)] =>
              let E := fresh "E" in
              destruct (startsWith t (js n)) eqn:E; cbn [andb]
          end;
          [ rewrite mtch_lit;
            cbn [ms_rest setCapture consumed ms_pos ms_caps ms_prev];
            match goal with
            | |- context [startsWith (skipn ?k t) (js ":")] =>
                let F := fresh "F" in
                destruct (startsWith (skipn k t) (js ":")) eqn:F
            end;
            [ unfold setCapture, consumed;
              cbn [ms_caps ms_pos ms_rest capture Nat.eqb];
              rewrite Nat.add_0_r, Nat.sub_0_r;
              match goal with
              | E : startsWith t (js ?n) = true |- _ =>
                  rewrite (startsWith_firstn t (js n) E)
              end; reflexivity
            | ]
          | ]);
    reflexivity.
Qed.

Lemma componentMatch_spec (t : jsstring) : componentMatch t = labelPrefix t.
Proof.
  rewrite <- componentMatch_at_start.
  unfold componentMatch, matchGroup, exec.
  destruct t as [|c t]; cbn [execFrom].
  - destruct (matchAt noFlags componentRe None [] 0); reflexivity.
  - destruct (matchAt noFlags componentRe None (c :: t) 0); [reflexivity|].
    unfold componentRe. cbn [seqs]. rewrite execFrom_anchored. reflexivity.
Qed.

Lemma componentMatch_names (t c : jsstring) :
  componentMatch t = Some c -> In c (map js componentNames).
Proof.
  rewrite componentMatch_spec. unfold labelPrefix.
  destruct (find _ componentNames) as [name|] eqn:E; [|discriminate].
  intros H. inversion H. subst c. apply in_map.
  apply find_some in E. exact (proj1 E).
Qed.

Lemma componentMatch_truthy (t c : jsstring) :
  componentMatch t = Some c -> truthy c = true.
Proof.
  intros H. apply componentMatch_names in H. simpl in H.
  repeat (destruct H as [H|H]; [subst c; reflexivity|]). contradiction.
Qed.

(* ================================================================== *)
(** ** The line walk of the framework mode *)
(* ================================================================== *)

(** The component a line opens, if any. *)
Definition labelOf (line : jsstring) : option jsstring :=
  componentMatch (trim line).

Definition labelsOf (lines : list jsstring) : list jsstring :=
  flat_map (fun line => match labelOf line with Some c => [c] | None => [] end)
           lines.

(** The number of lines that open the component [c]. *)
Definition occurrences (c : jsstring) (lines : list jsstring) : nat :=
  List.length
    (filter (fun line => match labelOf line with
                         | Some c' => eqs c c'
                         | None => false
                         end) lines).

Lemma labelsOf_app (a b : list jsstring) :
  labelsOf (a ++ b) = labelsOf a ++ labelsOf b.
Proof. unfold labelsOf. apply flat_map_app. Qed.

Lemma walk_label line ls fl found cur c :
  labelOf line = Some c ->
  walk (line :: ls) fl found cur
  = if has found c then fl
    else walk ls (push (if 0 <? List.length fl then push fl [] else fl) line)
              (c :: found) c.
Proof.
  unfold labelOf. intros H. cbn [walk]. cbv zeta. rewrite H. reflexivity.
Qed.

Lemma walk_text line ls fl found cur :
  labelOf line = None -> truthy cur = true ->
  walk (line :: ls) fl found cur = walk ls (push fl line) found cur.
Proof.
  unfold labelOf. intros H Hc. cbn [walk]. cbv zeta. rewrite H, Hc.
  cbn [andb isSome negb].
  destruct (trim line) as [|x t] eqn:Et.
  - reflexivity.
  - destruct (_ || _); [reflexivity|]. reflexivity.
Qed.

Lemma walk_skip line ls fl cur :
  labelOf line = None -> cur = [] ->
  walk (line :: ls) fl [] cur = walk ls fl [] cur.
Proof.
  unfold labelOf. intros H Hc. subst cur. cbn [walk]. cbv zeta. rewrite H.
  cbn [truthy andb isSome negb has existsb].
  destruct (0 <? List.length (trim line)); reflexivity.
Qed.

(** Past a line whose component is already found, nothing is read. *)
Lemma walk_stops_at_duplicate pre :
  forall fl found cur dup rest c,
    labelOf dup = Some c ->
    has found c = true \/ In c (labelsOf pre) ->
    walk (pre ++ dup :: rest) fl found cur = walk pre fl found cur.
Proof.
  induction pre as [|line pre IH]; intros fl found cur dup rest c Hd Hc.
  - simpl app. rewrite (walk_label dup rest fl found cur c Hd).
    destruct Hc as [Hc|[]]. rewrite Hc. reflexivity.
  - simpl app. destruct (labelOf line) as [c1|] eqn:El.
    + rewrite !(walk_label line _ fl found cur c1 El).
      destruct (has found c1) eqn:Hf; [reflexivity|].
      apply IH with (c := c); [exact Hd|].
      destruct Hc as [Hc|Hc].
      * left. apply has_In. right. apply has_In. exact Hc.
      * unfold labelsOf in Hc. simpl in Hc. rewrite El in Hc.
        destruct Hc as [Hc|Hc].
        -- left. subst c1. apply has_In. left. reflexivity.
        -- right. exact Hc.
    + assert (Hc' : has found c = true \/ In c (labelsOf pre)).
      { destruct Hc as [Hc|Hc]; [left; exact Hc|right].
        unfold labelsOf in Hc. simpl in Hc. rewrite El in Hc. exact Hc. }
      unfold labelOf in El. cbn [walk]. cbv zeta. rewrite El.
      repeat match goal with
             | |- (if ?b then _ else _) = (if ?b then _ else _) =>
                 destruct b
             end;
        try reflexivity; apply IH with (c := c); assumption.
Qed.

(** The state of the walk is sound: nothing kept and nothing found yet,
    or the lines kept start with a label line, hold no label twice, and
    the components found are the labels of the lines kept. *)
Definition wellShaped (kept : list jsstring) : Prop :=
  kept = []
  \/ (exists line rest c, kept = line :: rest /\ labelOf line = Some c)
     /\ NoDup (labelsOf kept).

(** A blank line before each label line. *)
Definition withSeparator (line : jsstring) : list jsstring :=
  if isSome (labelOf line) then [[]; line] else [line].

(** The lines kept, with a blank line before each label line but the first. *)
Definition reseparated (kept : list jsstring) : list jsstring :=
  match kept with
  | [] => []
  | line :: rest => line :: flat_map withSeparator rest
  end.

Lemma walk_keeps_all ls :
  forall fl found cur,
    fl <> [] -> truthy cur = true -> NoDup (labelsOf ls) ->
    (forall c, In c (labelsOf ls) -> has found c = false) ->
    walk ls fl found cur = fl ++ flat_map withSeparator ls.
Proof.
  induction ls as [|line ls IH]; intros fl found cur Hfl Hcur Hnd Hnew.
  - simpl. symmetry. apply app_nil_r.
  - destruct (labelOf line) as [c|] eqn:El.
    + assert (Hlab : labelsOf (line :: ls) = c :: labelsOf ls).
      { unfold labelsOf. simpl. rewrite El. reflexivity. }
      rewrite Hlab in Hnd, Hnew. inversion Hnd as [|x xs Hnotin Hnd']. subst.
      rewrite (walk_label line ls fl found cur c El).
      rewrite (Hnew c (or_introl eq_refl)).
      assert (Hlen : (0 <? List.length fl) = true).
      { destruct fl; [congruence|reflexivity]. }
      rewrite Hlen. rewrite IH.
      * unfold push. cbn [flat_map]. unfold withSeparator at 2. rewrite El.
        cbn [isSome]. rewrite <- !app_assoc. reflexivity.
      * unfold push. intros E. apply app_eq_nil in E. destruct E. discriminate.
      * exact (componentMatch_truthy _ _ El).
      * exact Hnd'.
      * intros x Hx. destruct (has (c :: found) x) eqn:Hh; [|reflexivity].
        apply has_In in Hh. destruct Hh as [Hh|Hh].
        -- subst x. contradiction.
        -- apply has_In in Hh. rewrite (Hnew x (or_intror Hx)) in Hh.
           discriminate.
    + assert (Hlab : labelsOf (line :: ls) = labelsOf ls).
      { unfold labelsOf. simpl. rewrite El. reflexivity. }
      rewrite Hlab in Hnd, Hnew.
      rewrite (walk_text line ls fl found cur El Hcur). rewrite IH.
      * unfold push. cbn [flat_map]. unfold withSeparator at 2. rewrite El.
        cbn [isSome]. rewrite <- !app_assoc. reflexivity.
      * unfold push. intros E. apply app_eq_nil in E. destruct E. discriminate.
      * exact Hcur.
      * exact Hnd.
      * exact Hnew.
Qed.

Lemma walk_wellShaped_again kept :
  wellShaped kept -> walk kept [] [] [] = reseparated kept.
Proof.
  intros [-> | [[line [rest [c [-> Hl]]]] Hnd]]; [reflexivity|].
  assert (Hlab : labelsOf (line :: rest) = c :: labelsOf rest).
  { unfold labelsOf. simpl. rewrite Hl. reflexivity. }
  rewrite Hlab in Hnd. inversion Hnd as [|x xs Hnotin Hnd']. subst.
  rewrite (walk_label line rest [] [] [] c Hl). cbn [has existsb].
  cbn [List.length Nat.ltb Nat.leb]. unfold push. cbn [app].
  rewrite walk_keeps_all.
  - reflexivity.
  - discriminate.
  - exact (componentMatch_truthy _ _ Hl).
  - exact Hnd'.
  - intros x Hx. destruct (has [c] x) eqn:Hh; [|reflexivity].
    apply has_In in Hh. destruct Hh as [Hh|[]]. subst x. contradiction.
Qed.

(* ================================================================== *)
(** ** The passes over a structured text *)
(* ================================================================== *)

(** replaceAll: one step. *)
Lemma replaceAll_copy fl r tpl prev c rest pos :
  matchAt fl r prev (c :: rest) pos = None ->
  replaceAllFrom fl r tpl 0 prev (c :: rest) pos
  = c :: replaceAllFrom fl r tpl 0 (Some c) rest (S pos).
Proof. intros H. cbn [replaceAllFrom]. rewrite H. reflexivity. Qed.

Lemma replaceAll_end fl r tpl prev pos :
  matchAt fl r prev [] pos = None ->
  replaceAllFrom fl r tpl 0 prev [] pos = [].
Proof. intros H. cbn [replaceAllFrom]. rewrite H. reflexivity. Qed.

Lemma replaceAll_drop fl r tpl n prev c rest pos :
  replaceAllFrom fl r tpl (S n) prev (c :: rest) pos
  = replaceAllFrom fl r tpl n (Some c) rest (S pos).
Proof. reflexivity. Qed.

Lemma replaceAll_skip fl r tpl chunk :
  forall c prev rest pos,
    replaceAllFrom fl r tpl (S (List.length chunk)) prev (c :: chunk ++ rest) pos
    = replaceAllFrom fl r tpl 0 (Some (last (c :: chunk) 0%N)) rest
        (S (List.length chunk) + pos).
Proof.
  induction chunk as [|d chunk IH]; intros c prev rest pos.
  - reflexivity.
  - cbn [List.length app]. rewrite replaceAll_drop. rewrite IH.
    rewrite Nat.add_succ_r. reflexivity.
Qed.

Lemma replaceAll_match fl r tpl prev c rest pos st chunk rest' :
  matchAt fl r prev (c :: rest) pos = Some st ->
  ms_pos st - pos = S (List.length chunk) ->
  rest = chunk ++ rest' ->
  replaceAllFrom fl r tpl 0 prev (c :: rest) pos
  = expand tpl (ms_caps st)
    ++ replaceAllFrom fl r tpl 0 (Some (last (c :: chunk) 0%N)) rest'
         (S (List.length chunk) + pos).
Proof.
  intros Hm Hlen ->.
  rewrite <- (replaceAll_skip fl r tpl chunk c prev rest' pos).
  cbn [replaceAllFrom]. rewrite Hm, Hlen. reflexivity.
Qed.

(** One section of a structured reply: a component name and, after the
    colon, its text. *)
Record part := { pname : string; pbody : jsstring }.

Definition partText (s : part) : jsstring :=
  js (pname s) ++ js ":" ++ pbody s.

Ltac names H :=
  unfold componentNames in H; cbn [In] in H;
  repeat (destruct H as [H|H]; [symmetry in H|]); [..|contradiction].

(** *** Whitespace and trimming *)

Lemma dropWhile_app_stop p (s t : jsstring) :
  forall c s', s = c :: s' -> p c = false -> dropWhile p (s ++ t) = s ++ t.
Proof. intros c s' -> H. simpl. rewrite H. reflexivity. Qed.

Lemma dropWhile_all p (g t : jsstring) :
  forallb p g = true -> dropWhile p (g ++ t) = dropWhile p t.
Proof.
  induction g as [|c g IH]; intros H; [reflexivity|].
  simpl in H. apply andb_true_iff in H. destruct H as [Hc Hg].
  simpl. rewrite Hc. apply IH. exact Hg.
Qed.

Lemma last_app_ne (a b : jsstring) d :
  b <> [] -> last (a ++ b) d = last b d.
Proof.
  intros Hb. induction a as [|x a IH]; [reflexivity|].
  simpl. destruct (a ++ b) eqn:E.
  - apply app_eq_nil in E. destruct E. contradiction.
  - exact IH.
Qed.

Lemma rev_last_cons (s : jsstring) d :
  s <> [] -> exists r, rev s = last s d :: r.
Proof.
  intros Hs. destruct (exists_last Hs) as [init [x ->]].
  rewrite rev_app_distr. simpl. rewrite last_last. eexists. reflexivity.
Qed.

(** A text that neither starts nor ends with whitespace is its own trim. *)
Lemma trim_fixed (s : jsstring) c s' :
  s = c :: s' -> isSpace c = false -> isSpace (last s 0%N) = false ->
  trim s = s.
Proof.
  intros Hs Hc Hl. unfold trim, trimStart, trimEnd.
  assert (H1 : dropWhile isSpace s = s).
  { subst s. simpl. rewrite Hc. reflexivity. }
  rewrite H1.
  destruct (rev_last_cons s 0%N) as [r Hr]; [subst; discriminate|].
  rewrite Hr. simpl. rewrite Hl. rewrite <- Hr. apply rev_involutive.
Qed.

Lemma trimEnd_app_space (s g : jsstring) :
  forallb isSpace g = true -> trimEnd (s ++ g) = trimEnd s.
Proof.
  intros Hg. unfold trimEnd. rewrite rev_app_distr.
  rewrite dropWhile_all; [reflexivity|].
  rewrite forallb_forall in *. intros x Hx. apply Hg. apply in_rev. exact Hx.
Qed.

Definition lastOr (prev : option N) (chunk : jsstring) : option N :=
  match chunk with
  | [] => prev
  | _ :: _ => Some (last chunk 0%N)
  end.

Lemma lastOr_cons prev c chunk :
  lastOr (Some c) chunk = lastOr prev (c :: chunk).
Proof. destruct chunk; reflexivity. Qed.

(** A chunk none of whose characters can start a match is copied. *)
Lemma replaceAll_copy_chunk fl r tpl (P : N -> bool) :
  (forall c prev rest pos,
      P c = true -> matchAt fl r prev (c :: rest) pos = None) ->
  forall chunk prev rest pos,
    forallb P chunk = true ->
    replaceAllFrom fl r tpl 0 prev (chunk ++ rest) pos
    = chunk ++ replaceAllFrom fl r tpl 0 (lastOr prev chunk) rest
                 (List.length chunk + pos).
Proof.
  intros Hno. induction chunk as [|c chunk IH]; intros prev rest pos Hp.
  - reflexivity.
  - cbn [forallb] in Hp. apply andb_true_iff in Hp. destruct Hp as [Hc Hp].
    cbn [app]. rewrite replaceAll_copy by (apply Hno; exact Hc).
    rewrite IH by exact Hp. rewrite lastOr_cons with (prev := prev).
    cbn [List.length]. rewrite Nat.add_succ_r. reflexivity.
Qed.

(** A chunk before which, and inside which, no line starts is copied by
    a pattern anchored with [^]. *)
Lemma replaceAll_copy_inline fl r tpl :
  forall chunk p rest pos,
    isLineTerminator p = false ->
    forallb (fun c => negb (isLineTerminator c)) chunk = true ->
    replaceAllFrom fl (RSeq RBol r) tpl 0 (Some p) (chunk ++ rest) pos
    = chunk ++ replaceAllFrom fl (RSeq RBol r) tpl 0 (lastOr (Some p) chunk) rest
                 (List.length chunk + pos).
Proof.
  induction chunk as [|c chunk IH]; intros p rest pos Hp Hc.
  - reflexivity.
  - cbn [forallb] in Hc. apply andb_true_iff in Hc. destruct Hc as [Hc Hcs].
    cbn [app]. rewrite replaceAll_copy.
    + rewrite IH; [|apply negb_true_iff; exact Hc|exact Hcs].
      rewrite lastOr_cons with (prev := Some p).
      cbn [List.length]. rewrite Nat.add_succ_r. reflexivity.
    + unfold matchAt. cbn [mtch atLineStart ms_prev]. rewrite Hp.
      rewrite andb_false_r. reflexivity.
Qed.

Definition notNewline (c : N) : bool := negb (c =? 10)%N.

Lemma blankRun_nomatch c prev rest pos :
  notNewline c = true -> matchAt noFlags blankRunRe prev (c :: rest) pos = None.
Proof.
  unfold notNewline. intros H. apply negb_true_iff in H.
  unfold matchAt, blankRunRe, ch. cbn [seqs mtch ms_rest matchChar noFlags ignoreCase].
  rewrite N.eqb_sym, H. reflexivity.
Qed.

Lemma name_notNewline n :
  In n componentNames -> forallb notNewline (js n ++ js ":") = true.
Proof. intros H. names H; subst n; reflexivity. Qed.

Lemma name_head n :
  In n componentNames -> exists d t, js n = d :: t /\ notNewline d = true
                                     /\ isSpace d = false.
Proof. intros H. names H; subst n; eexists; eexists; repeat split. Qed.

(** [S (... (S pos)) - pos] for the lengths of the component labels. *)
Ltac cancel_pos pos :=
  repeat match goal with
         | |- context [?a - pos] =>
             first [ change (a - pos) with (1 + pos - pos)
                   | change (a - pos) with (2 + pos - pos)
                   | change (a - pos) with (3 + pos - pos)
                   | change (a - pos) with (4 + pos - pos)
                   | change (a - pos) with (5 + pos - pos)
                   | change (a - pos) with (6 + pos - pos)
                   | change (a - pos) with (7 + pos - pos)
                   | change (a - pos) with (8 + pos - pos)
                   | change (a - pos) with (9 + pos - pos)
                   | change (a - pos) with (10 + pos - pos) ];
             rewrite Nat.add_sub
         end.

Definition lineStart (prev : option N) : Prop :=
  prev = None \/ prev = Some 10%N.

(** At the start of a line, a component label matches as a whole. *)
Lemma component_match_name n rest prev pos :
  In n componentNames -> lineStart prev ->
  exists st,
    matchAt flagM componentRe prev (js n ++ js ":" ++ rest) pos = Some st
    /\ ms_pos st - pos = S (List.length (js n))
    /\ capture 1 (ms_caps st) = js n.
Proof.
  intros Hn Hp. names Hn; subst n; destruct Hp as [-> | ->];
    (eexists; split; [cbn -[Nat.sub]; reflexivity|];
     cbn -[Nat.sub]; cancel_pos pos; split; reflexivity).
Qed.

Lemma component_nomatch_inline p rest pos :
  isLineTerminator p = false ->
  matchAt flagM componentRe (Some p) rest pos = None.
Proof.
  intros Hp. unfold matchAt, componentRe. cbn [seqs mtch atLineStart ms_prev].
  rewrite Hp. rewrite andb_false_r. reflexivity.
Qed.

Lemma component_nomatch_end prev pos :
  matchAt flagM componentRe prev [] pos = None.
Proof.
  unfold matchAt, componentRe, componentGroup.
  cbn [seqs mtch]. destruct (atLineStart flagM _); reflexivity.
Qed.

Definition labelTemplate : list titem := [TLit nl; TGroup 1; TLit (js ":")].

Lemma last_name_colon n d t :
  js n = d :: t -> last (d :: t ++ js ":") 0%N = 58%N.
Proof.
  intros _. change (d :: t ++ js ":") with ((d :: t) ++ js ":").
  rewrite last_app_ne by discriminate. reflexivity.
Qed.

(** Greedy [\s*] before a continuation that cannot start on whitespace:
    the whole run of whitespace is consumed. *)
Lemma starK_spaces (k : mstate -> option mstate) caps :
  (forall st w r, ms_rest st = w :: r -> isSpace w = true -> k st = None) ->
  forall rest prev pos,
    exists st,
      starK isSpace k caps prev rest pos = k st
      /\ ms_rest st = dropWhile isSpace rest
      /\ ms_caps st = caps
      /\ ms_pos st + List.length (dropWhile isSpace rest)
         = pos + List.length rest.
Proof.
  intros Hk. induction rest as [|w rest IH]; intros prev pos.
  - eexists. split; [reflexivity|]. cbn. repeat split. 
  - cbn [starK dropWhile]. destruct (isSpace w) eqn:Hw.
    + destruct (IH (Some w) (S pos)) as [st [Hs [Hr [Hc Hp]]]].
      exists st. split; [|split; [exact Hr|split; [exact Hc|]]].
      * rewrite Hs. destruct (k st) eqn:E; [reflexivity|].
        eapply Hk; [reflexivity|exact Hw].
      * rewrite Hp. cbn [List.length]. lia.
    + eexists. split; [reflexivity|]. cbn. repeat split.
Qed.

Definition separatorTemplate : list titem :=
  [TGroup 1; TLit (nl ++ nl); TGroup 2].

Lemma name_starts_nonspace n w r :
  In n componentNames -> isSpace w = true -> startsWith (w :: r) (js n) = false.
Proof.
  intros Hn Hw. names Hn; subst n; cbn [js map list_ascii_of_string startsWith];
    match goal with
    | |- (?a =? w)%N && _ = false =>
        destruct (a =? w)%N eqn:E; [|reflexivity];
        apply N.eqb_eq in E; subst w; discriminate Hw
    end.
Qed.

Lemma separator_unfold comp prev c rest pos :
  matchAt noFlags (separatorRe comp) prev (c :: rest) pos
  = if negb (isSpace c)
    then starK isSpace
           (fun st2 => mtch noFlags (RGroup 2 (RSeq (lit comp) (lit ":"))) st2 Some)
           [(1, firstn (S pos - pos) (c :: rest))] (Some c) rest (S pos)
    else None.
Proof.
  unfold matchAt, separatorRe, spaces.
  cbn [seqs mtch ms_rest matchChar]. destruct (negb (isSpace c)); reflexivity.
Qed.

Lemma group2_fails_on_space comp st w r :
  In comp componentNames -> ms_rest st = w :: r -> isSpace w = true ->
  mtch noFlags (RGroup 2 (RSeq (lit comp) (lit ":"))) st Some = None.
Proof.
  intros Hc Hr Hw. cbn [mtch]. rewrite mtch_lit, Hr.
  rewrite (name_starts_nonspace comp w r Hc Hw). reflexivity.
Qed.

(** No match where whitespace stands, or where the label does not
    follow the whitespace after the character. *)
Lemma separator_nomatch comp prev c rest pos :
  In comp componentNames ->
  isSpace c = true
  \/ startsWith (dropWhile isSpace rest) (js comp ++ js ":") = false ->
  matchAt noFlags (separatorRe comp) prev (c :: rest) pos = None.
Proof.
  intros Hc H. rewrite separator_unfold.
  destruct (isSpace c) eqn:Hs; [reflexivity|]. cbn [negb].
  destruct H as [H|H]; [discriminate|].
  destruct (starK_spaces
              (fun st2 => mtch noFlags (RGroup 2 (RSeq (lit comp) (lit ":"))) st2 Some)
              [(1, firstn (S pos - pos) (c :: rest))]
              (fun st w r => group2_fails_on_space comp st w r Hc)
              rest (Some c) (S pos)) as [st [Hk [Hr _]]].
  rewrite Hk. cbn [mtch]. rewrite mtch_lit, Hr.
  rewrite startsWith_app in H.
  destruct (startsWith (dropWhile isSpace rest) (js comp)) eqn:E;
    [|reflexivity].
  cbn [andb] in H. rewrite mtch_lit. cbn [consumed ms_rest]. rewrite Hr, H.
  reflexivity.
Qed.

Lemma firstn_app_exact (a b : jsstring) :
  firstn (List.length a) (a ++ b) = a.
Proof.
  rewrite firstn_app, Nat.sub_diag, firstn_all. simpl. apply app_nil_r.
Qed.

(** A match: a character that is not whitespace, whitespace, the label. *)
Lemma separator_match comp prev c ws rest pos :
  In comp componentNames ->
  isSpace c = false -> forallb isSpace ws = true ->
  exists st,
    matchAt noFlags (separatorRe comp) prev
      (c :: ws ++ js comp ++ js ":" ++ rest) pos = Some st
    /\ ms_pos st - pos = S (List.length (ws ++ js comp ++ js ":"))
    /\ expand separatorTemplate (ms_caps st)
       = c :: nl ++ nl ++ js comp ++ js ":".
Proof.
  intros Hc Hs Hws. rewrite separator_unfold. rewrite Hs. cbn [negb].
  destruct (starK_spaces
              (fun st2 => mtch noFlags (RGroup 2 (RSeq (lit comp) (lit ":"))) st2 Some)
              [(1, firstn (S pos - pos) (c :: ws ++ js comp ++ js ":" ++ rest))]
              (fun st w r => group2_fails_on_space comp st w r Hc)
              (ws ++ js comp ++ js ":" ++ rest) (Some c) (S pos))
    as [st [Hk [Hr [Hcaps Hpos]]]].
  assert (Hdrop : dropWhile isSpace (ws ++ js comp ++ js ":" ++ rest)
                  = js comp ++ js ":" ++ rest).
  { rewrite dropWhile_all by exact Hws.
    destruct (name_head comp Hc) as [d [t [Hd [_ Hdn]]]].
    rewrite Hd. cbn [app dropWhile]. rewrite Hdn. reflexivity. }
  rewrite Hdrop in Hr, Hpos.
  rewrite Hk. cbn [mtch]. rewrite mtch_lit, Hr.
  assert (Hsw : startsWith (js comp ++ js ":" ++ rest) (js comp) = true).
  { rewrite <- (app_nil_r (js comp)) at 2. rewrite startsWith_app.
    clear. induction (js comp) as [|x l IH].
    - simpl. destruct (js ":" ++ rest); reflexivity.
    - simpl. rewrite N.eqb_refl. exact IH. }
  rewrite Hsw. rewrite mtch_lit. cbn [consumed ms_rest]. rewrite Hr.
  rewrite skipn_app, Nat.sub_diag, skipn_all. cbn [app skipn].
  match goal with
  | |- context [if startsWith ?a ?b then _ else _] =>
      replace (startsWith a b) with true by (symmetry; apply startsWith_cons)
  end.
  eexists. split; [reflexivity|].
  cbn [ms_pos ms_caps setCapture consumed List.length].
  rewrite !length_app in *. change (List.length (js ":")) with 1 in *.
  split.
  - lia.
  - unfold separatorTemplate. cbn [expand capture Nat.eqb].
    rewrite Hcaps. cbn [capture Nat.eqb].
    replace (S pos - pos) with 1 by lia. cbn [firstn].
    rewrite Hr.
    replace (1 + (List.length (js comp) + ms_pos st) - ms_pos st)
      with (List.length (js comp ++ js ":"))
      by (rewrite length_app; change (List.length (js ":")) with 1; lia).
    replace (js comp ++ js ":" ++ rest) with ((js comp ++ js ":") ++ rest)
      by (rewrite <- app_assoc; reflexivity).
    rewrite firstn_app_exact.
    rewrite app_nil_r. reflexivity.
Qed.

(** What comes after the text of a section: nothing, or whitespace. *)
Definition afterBody (X : jsstring) : Prop :=
  X = [] \/ exists w X', X = w :: X' /\ isSpace w = true.

Definition solid (c : N) : bool := negb (isSpace c).

Lemma label_solid comp :
  In comp componentNames ->
  forallb solid (js comp ++ js ":") = true /\ In 58%N (js comp ++ js ":").
Proof.
  intros H. names H; subst comp; split; try reflexivity;
    apply in_or_app; right; left; reflexivity.
Qed.

(** Whitespace is copied. *)
Lemma separator_copy_spaces comp (g : jsstring) :
  In comp componentNames ->
  forall prev pos X,
    forallb isSpace g = true ->
    replaceAllFrom noFlags (separatorRe comp) separatorTemplate 0 prev
      (g ++ X) pos
    = g ++ replaceAllFrom noFlags (separatorRe comp) separatorTemplate 0
             (lastOr prev g) X (List.length g + pos).
Proof.
  intros Hc prev pos X Hg.
  apply (replaceAll_copy_chunk noFlags (separatorRe comp) separatorTemplate
           isSpace).
  - intros c p r q Hs. apply separator_nomatch; [exact Hc|left; exact Hs].
  - exact Hg.
Qed.

Lemma removelast_last (b : jsstring) :
  b <> [] -> removelast b ++ [last b 0%N] = b.
Proof. intros H. symmetry. apply app_removelast_last. exact H. Qed.

(** Another name does not start the text of a section. *)
Lemma other_label n comp R :
  In n componentNames -> In comp componentNames -> n <> comp ->
  startsWith (js n ++ js ":" ++ R) (js comp ++ js ":") = false.
Proof.
  intros Hn Hc Hne. names Hn; subst n; names Hc; subst comp;
    first [congruence | reflexivity].
Qed.

(** *** Names and labels *)

Lemma js_injective (a b : string) : js a = js b -> a = b.
Proof.
  unfold js. intros H.
  assert (Hl : list_ascii_of_string a = list_ascii_of_string b).
  { revert H. generalize (list_ascii_of_string a) (list_ascii_of_string b).
    induction l as [|x l IH]; intros [|y l'] H; try discriminate;
      [reflexivity|].
    cbn [map] in H. inversion H as [[Hx Hl]]. f_equal.
    - rewrite <- (ascii_N_embedding x), <- (ascii_N_embedding y), Hx.
      reflexivity.
    - apply IH. exact Hl. }
  rewrite <- (string_of_list_ascii_of_string a),
          <- (string_of_list_ascii_of_string b), Hl.
  reflexivity.
Qed.

(** *** The start of the text *)

Lemma search_role (R : jsstring) :
  search flagM (seqs [RBol; lit "Role:"]) (js "Role" ++ js ":" ++ R) = 0%Z.
Proof. reflexivity. Qed.

Lemma strip_leading_newline n (R : jsstring) :
  In n componentNames ->
  replaceFirst noFlags (seqs [RBol; RPlus (CChar 10)]) [] (nl ++ js n ++ R)
  = js n ++ R.
Proof.
  intros Hn. destruct (name_head n Hn) as [d [t [Hd [Hdn _]]]].
  rewrite Hd. unfold notNewline in Hdn. apply negb_true_iff in Hdn.
  unfold replaceFirst, nl. cbn [app replaceFirstFrom].
  unfold matchAt.
  cbn [seqs mtch atLineStart ms_prev ms_rest matchChar noFlags ignoreCase
       ms_caps ms_pos].
  rewrite N.eqb_refl. cbn [starK matchChar noFlags ignoreCase].
  rewrite N.eqb_sym, Hdn. reflexivity.
Qed.

(** *** Anchored patterns *)

Lemma replaceFirstFrom_anchored fl r tpl rest :
  multiline fl = false ->
  forall c pos, replaceFirstFrom fl (RSeq RBol r) tpl (Some c) rest pos = rest.
Proof.
  intros Hfl. induction rest as [|d rest IH]; intros c pos.
  - cbn [replaceFirstFrom]. unfold matchAt. cbn [mtch atLineStart ms_prev].
    rewrite Hfl. reflexivity.
  - cbn [replaceFirstFrom]. unfold matchAt. cbn [mtch atLineStart ms_prev].
    rewrite Hfl. cbn [andb]. rewrite IH. reflexivity.
Qed.

Lemma replaceFirst_anchored_miss fl r tpl c rest :
  multiline fl = false ->
  matchAt fl (RSeq RBol r) None (c :: rest) 0 = None ->
  replaceFirst fl (RSeq RBol r) tpl (c :: rest) = c :: rest.
Proof.
  intros Hfl Hm. unfold replaceFirst. cbn [replaceFirstFrom]. rewrite Hm.
  rewrite replaceFirstFrom_anchored by exact Hfl. reflexivity.
Qed.

(* ================================================================== *)
(** ** The framework mode in the two routes *)
(* ================================================================== *)

Definition fw : jsstring := js "framework-optimization".

(** Paragraphs separated by one blank line. *)
Definition paragraphs (parts : list string) : jsstring :=
  join (nl ++ nl) (map js parts).

Definition textLines (parts : list string) : jsstring := join nl (map js parts).

(** The catalogue of one of the two routes. *)
Definition ofRoute (cat : catalogue) : Prop :=
  cat = RewriteCatalogue.cat \/ cat = ImproveCatalogue.cat.

(* ================================================================== *)
(** ** The shape of an invocation *)
(* ================================================================== *)

(** The request that [callGroqWithRetry] sends at every attempt. *)
Definition requestOf (messages : list chatMessage) (temperature : Q)
    (maxTokens : Z) : completionRequest :=
  {| messages := messages; model := modelName; temperature := temperature;
     max_tokens := Z.min maxTokens maxCompletionTokens |}.

(** The trace of [failed] rejected attempts, each followed by its sleep,
    and then one last attempt. *)
Fixpoint attempts (req : completionRequest) (from : nat)
    (sleeps : list (option Z)) : list event :=
  match sleeps with
  | [] => [Create from req]
  | ms :: sleeps' => Create from req :: Sleep ms :: attempts req (S from) sleeps'
  end.

(** How an invocation ends: with the provider's completion, or with one
    of the six messages. *)
Definition settled (msgs : errorMessages) (r : invocation) : Prop :=
  match r with
  | Returned _ => True
  | Thrown msg =>
      In msg [RATE_LIMIT msgs; PAYLOAD_TOO_LARGE msgs; NETWORK_TIMEOUT msgs;
              INVALID_API_KEY msgs; SERVICE_UNAVAILABLE msgs; GENERIC_ERROR msgs]
  | Fallthrough => False
  end.

Lemma retryLoop_shape msgs create req retries :
  forall remaining attempt,
    attempt + remaining = retries -> 1 <= remaining ->
    exists sleeps,
      List.length sleeps < remaining
      /\ fst (retryLoop msgs create req retries remaining attempt)
         = attempts req attempt sleeps
      /\ settled msgs (snd (retryLoop msgs create req retries remaining attempt)).
Proof.
  induction remaining as [|remaining IH]; intros attempt Hsum Hpos; [lia|].
  assert (Hlast : Nat.eqb attempt (retries - 1) = true -> remaining = 0).
  { intros H. apply Nat.eqb_eq in H. lia. }
  assert (Hmore : Nat.eqb attempt (retries - 1) = false -> 1 <= remaining).
  { intros H. apply Nat.eqb_neq in H. lia. }
  assert (Hnext : forall ms,
             Nat.eqb attempt (retries - 1) = false ->
             exists sleeps,
               List.length sleeps < S remaining
               /\ fst (let (evs, r) :=
                         retryLoop msgs create req retries remaining (S attempt) in
                       (Create attempt req :: Sleep ms :: evs, r))
                  = attempts req attempt sleeps
               /\ settled msgs
                    (snd (let (evs, r) :=
                            retryLoop msgs create req retries remaining (S attempt) in
                          (Create attempt req :: Sleep ms :: evs, r)))).
  { intros ms Hn.
    destruct (IH (S attempt)) as [sl [Hl [He Hs]]]; [lia|exact (Hmore Hn)|].
    destruct (retryLoop msgs create req retries remaining (S attempt)) as [evs r].
    exists (ms :: sl). cbn [fst snd] in *. split; [simpl; lia|].
    split; [|exact Hs]. cbn [attempts]. rewrite He. reflexivity. }
  assert (Hthrow : forall msg,
             In msg [RATE_LIMIT msgs; PAYLOAD_TOO_LARGE msgs; NETWORK_TIMEOUT msgs;
                     INVALID_API_KEY msgs; SERVICE_UNAVAILABLE msgs;
                     GENERIC_ERROR msgs] ->
             exists sleeps,
               List.length sleeps < S remaining
               /\ fst ([Create attempt req], Thrown msg) = attempts req attempt sleeps
               /\ settled msgs (snd ([Create attempt req], Thrown msg))).
  { intros msg Hin. exists []. split; [simpl; lia|]. split; [reflexivity|exact Hin]. }
  cbn [retryLoop].
  destruct (create req attempt) as [c|error].
  - exists []. split; [simpl; lia|]. split; [reflexivity|exact I].
  - destruct (Nat.eqb attempt (retries - 1)) eqn:El; cbn [negb];
      repeat match goal with
             | |- context [if ?b then _ else _] =>
                 match b with
                 | true => fail 1
                 | false => fail 1
                 | _ => destruct b
                 end
             end;
      first [ apply Hnext; reflexivity
            | apply Hthrow; simpl; tauto ].
Qed.

(** X1: whatever the provider does and however many attempts [retries >=
    1] are allowed, an invocation is a run of consecutive attempts
    numbered from 0, at most [retries] of them, every one but the last
    followed by one sleep, all with the same request; it ends with a
    completion or with one of the six messages, and never by leaving the
    loop. *)
Theorem invocation_is_a_bounded_run :
  forall (msgs : errorMessages) (create : completionRequest -> nat -> outcome)
         (messages : list chatMessage) (temperature : Q) (maxTokens : Z)
         (retries : nat),
    1 <= retries ->
    exists sleeps,
      List.length sleeps < retries
      /\ fst (callGroqWithRetry msgs create messages temperature maxTokens retries)
         = attempts (requestOf messages temperature maxTokens) 0 sleeps
      /\ settled msgs
           (snd (callGroqWithRetry msgs create messages temperature maxTokens
                   retries)).
Proof.
  intros msgs create messages temperature maxTokens retries Hr.
  unfold callGroqWithRetry.
  apply (retryLoop_shape msgs create (requestOf messages temperature maxTokens)
           retries retries 0); [reflexivity|exact Hr].
Qed.

(** A provider that rejects every call with the given status. *)
Definition rejecting (st : Z) (_ : completionRequest) (_ : nat) : outcome :=
  Rejected {| status := Some st; code := None; message := None |}.

Lemma invocation_is_a_bounded_run_witness :
  exists sleeps,
    List.length sleeps < 3
    /\ fst (callGroqWithRetry Rewrite.ERROR_MESSAGES (rejecting 429) []
              (4 # 10)%Q 500%Z 3)
       = attempts (requestOf [] (4 # 10)%Q 500%Z) 0 sleeps
    /\ settled Rewrite.ERROR_MESSAGES
         (snd (callGroqWithRetry Rewrite.ERROR_MESSAGES (rejecting 429) []
                 (4 # 10)%Q 500%Z 3)).
Proof.
  apply (invocation_is_a_bounded_run Rewrite.ERROR_MESSAGES (rejecting 429) []
           (4 # 10)%Q 500%Z 3).
  lia.
Defined.

(* ================================================================== *)
(** ** The time an invocation can sleep *)
(* ================================================================== *)

(** The milliseconds slept in a trace; a sleep of [NaN] counts for 0. *)
Fixpoint sleepTotal (evs : list event) : Z :=
  match evs with
  | [] => 0
  | Sleep (Some ms) :: evs' => ms + sleepTotal evs'
  | _ :: evs' => sleepTotal evs'
  end.

Definition completionCalls (evs : list event) : nat :=
  List.length (filter isCreate evs).

Ltac split_ifs :=
  repeat match goal with
         | |- context [if ?b then _ else _] =>
             match b with
             | true => fail 1
             | false => fail 1
             | _ => destruct b
             end
         end.

Lemma invocation_budget msgs create messages temperature maxTokens :
  let evs :=
    fst (callGroqWithRetry msgs create messages temperature maxTokens 3) in
  completionCalls evs <= 3
  /\ ~ In (Sleep None) evs
  /\ (sleepTotal evs <= 6000)%Z.
Proof.
  unfold callGroqWithRetry.
  set (req := {| messages := messages; model := modelName;
                 temperature := temperature;
                 max_tokens := Z.min maxTokens maxCompletionTokens |}).
  cbn [retryLoop].
  destruct (create req 0) as [c0|e0];
    [|destruct (create req 1) as [c1|e1];
      [|destruct (create req 2) as [c2|e2]]];
    cbn [Nat.eqb Nat.sub negb];
    split_ifs;
    cbn [fst completionCalls filter isCreate List.length sleepTotal delayAt
           delays nth_error option_map In];
    (split; [lia|split; [intros H; intuition discriminate|lia]]).
Qed.

(* ================================================================== *)
(** ** What an invocation returns *)
(* ================================================================== *)

Lemma retryLoop_returned msgs create req retries :
  forall remaining attempt evs c,
    retryLoop msgs create req retries remaining attempt = (evs, Returned c) ->
    exists k,
      k < remaining
      /\ create req (attempt + k) = Resolved c
      /\ (forall j, j < k -> exists error, create req (attempt + j) = Rejected error)
      /\ completionCalls evs = S k.
Proof.
  induction remaining as [|remaining IH]; intros attempt evs c H.
  - discriminate.
  - cbn [retryLoop] in H.
    assert (Hnext : forall ms,
               (let (evs0, r) :=
                  retryLoop msgs create req retries remaining (S attempt) in
                (Create attempt req :: Sleep ms :: evs0, r)) = (evs, Returned c) ->
               forall error, create req attempt = Rejected error ->
               exists k,
                 k < S remaining
                 /\ create req (attempt + k) = Resolved c
                 /\ (forall j, j < k ->
                       exists error, create req (attempt + j) = Rejected error)
                 /\ completionCalls evs = S k).
    { intros ms Hn error He.
      destruct (retryLoop msgs create req retries remaining (S attempt))
        as [evs0 r] eqn:Er.
      inversion Hn. subst evs r.
      destruct (IH (S attempt) evs0 c Er) as [k [Hk [Hc [Hj Hn']]]].
      exists (S k). split; [lia|]. split.
      - rewrite Nat.add_succ_r. exact Hc.
      - split.
        + intros j Hlt. destruct j as [|j].
          * rewrite Nat.add_0_r. exists error. exact He.
          * rewrite Nat.add_succ_r. apply Hj. lia.
        + unfold completionCalls in *. cbn [filter isCreate List.length].
          rewrite Hn'. reflexivity. }
    destruct (create req attempt) as [c0|error] eqn:Ec.
    + inversion H. subst. exists 0. split; [lia|]. split.
      * rewrite Nat.add_0_r. exact Ec.
      * split; [intros j Hj; lia|reflexivity].
    + revert H. split_ifs; intros H;
        first [ discriminate H | exact (Hnext _ H error eq_refl) ].
Qed.

(** X2: the completion that an invocation returns is the provider's
    answer to the last call made: every earlier call was rejected, and no
    call follows it.  And when the first call is answered, the invocation
    is that one call, without any sleep. *)
Theorem returned_completion_is_last_answer :
  forall (msgs : errorMessages) (create : completionRequest -> nat -> outcome)
         (messages : list chatMessage) (temperature : Q) (maxTokens : Z)
         (retries : nat),
    (forall evs c,
        callGroqWithRetry msgs create messages temperature maxTokens retries
        = (evs, Returned c) ->
        exists k,
          k < retries
          /\ create (requestOf messages temperature maxTokens) k = Resolved c
          /\ (forall j, j < k ->
                exists error,
                  create (requestOf messages temperature maxTokens) j
                  = Rejected error)
          /\ completionCalls evs = S k)
    /\ (forall c,
          1 <= retries ->
          create (requestOf messages temperature maxTokens) 0 = Resolved c ->
          callGroqWithRetry msgs create messages temperature maxTokens retries
          = ([Create 0 (requestOf messages temperature maxTokens)], Returned c)).
Proof.
  intros msgs create messages temperature maxTokens retries. split.
  - intros evs c H. unfold callGroqWithRetry in H.
    exact (retryLoop_returned msgs create
             (requestOf messages temperature maxTokens) retries retries 0 evs c H).
  - intros c Hr Hc. unfold callGroqWithRetry.
    destruct retries as [|n]; [lia|].
    cbn [retryLoop]. fold (requestOf messages temperature maxTokens).
    rewrite Hc. reflexivity.
Qed.

(** A provider that is down for the first call and answers the second. *)
Definition recovering (content : jsstring) (_ : completionRequest)
    (attempt : nat) : outcome :=
  match attempt with
  | 0 => Rejected {| status := Some 503%Z; code := None; message := None |}
  | _ => Resolved {| choices := [Some content] |}
  end.

Definition steady (content : jsstring) (_ : completionRequest) (_ : nat)
  : outcome :=
  Resolved {| choices := [Some content] |}.

Lemma returned_completion_is_last_answer_witness :
  (exists k,
      k < 3
      /\ recovering (js "ok") (requestOf [] (4 # 10)%Q 500%Z) k
         = Resolved {| choices := [Some (js "ok")] |}
      /\ (forall j, j < k ->
            exists error,
              recovering (js "ok") (requestOf [] (4 # 10)%Q 500%Z) j
              = Rejected error)
      /\ completionCalls
           [Create 0 (requestOf [] (4 # 10)%Q 500%Z); Sleep (Some 1000%Z);
            Create 1 (requestOf [] (4 # 10)%Q 500%Z)] = S k)
  /\ callGroqWithRetry Rewrite.ERROR_MESSAGES (steady (js "ok")) []
       (4 # 10)%Q 500%Z 3
     = ([Create 0 (requestOf [] (4 # 10)%Q 500%Z)],
        Returned {| choices := [Some (js "ok")] |}).
Proof.
  split.
  - apply (proj1 (returned_completion_is_last_answer Rewrite.ERROR_MESSAGES
                    (recovering (js "ok")) [] (4 # 10)%Q 500%Z 3)).
    reflexivity.
  - apply (proj2 (returned_completion_is_last_answer Rewrite.ERROR_MESSAGES
                    (steady (js "ok")) [] (4 # 10)%Q 500%Z 3)).
    + lia.
    + reflexivity.
Defined.

(* ================================================================== *)
(** ** Rejected credentials *)
(* ================================================================== *)

(** X3: a rejection with status 401 or 403 ends the invocation at once
    with the configuration error, at whatever attempt it comes, unless
    the error also counts as a timeout (its code is ECONNABORTED or its
    message mentions a timeout): the timeout test comes first in the
    handler, so such an error is retried after the plain delay when an
    attempt is left. *)
Theorem rejected_credentials_are_terminal :
  forall (msgs : errorMessages) (create : completionRequest -> nat -> outcome)
         (req : completionRequest) (retries remaining attempt : nat)
         (error : apiError),
    create req attempt = Rejected error ->
    statusIs error 401 = true \/ statusIs error 403 = true ->
    (isTimeout error = false ->
     retryLoop msgs create req retries (S remaining) attempt
     = ([Create attempt req], Thrown (INVALID_API_KEY msgs)))
    /\ (isTimeout error = true -> attempt <> retries - 1 ->
        retryLoop msgs create req retries (S remaining) attempt
        = (Create attempt req :: Sleep (delayAt attempt)
             :: fst (retryLoop msgs create req retries remaining (S attempt)),
           snd (retryLoop msgs create req retries remaining (S attempt)))).
Proof.
  intros msgs create req retries remaining attempt error Hc Hs.
  assert (H429 : statusIs error 429 = false).
  { destruct Hs as [Hs|Hs];
      [apply (statusIs_other error 401 429 Hs)
      |apply (statusIs_other error 403 429 Hs)]; discriminate. }
  assert (H413 : statusIs error 413 = false).
  { destruct Hs as [Hs|Hs];
      [apply (statusIs_other error 401 413 Hs)
      |apply (statusIs_other error 403 413 Hs)]; discriminate. }
  split.
  - intros Ht. cbn [retryLoop]. rewrite Hc, H429, H413, Ht.
    destruct Hs as [Hs|Hs]; rewrite Hs; [reflexivity|].
    rewrite orb_true_r. reflexivity.
  - intros Ht Hn. cbn [retryLoop]. rewrite Hc, H429, H413, Ht.
    apply Nat.eqb_neq in Hn. rewrite Hn. cbn [negb].
    destruct (retryLoop msgs create req retries remaining (S attempt)).
    reflexivity.
Qed.

(** A provider that rejects the credentials; on the first call the
    message also mentions a timeout. *)
Definition unauthorized (_ : completionRequest) (attempt : nat) : outcome :=
  Rejected {| status := Some 401%Z; code := None;
              message := match attempt with
                         | 0 => Some (js "timeout while checking the key")
                         | _ => Some (js "invalid key")
                         end |}.

Lemma rejected_credentials_are_terminal_witness :
  retryLoop Rewrite.ERROR_MESSAGES unauthorized (requestOf [] (4 # 10)%Q 500%Z)
    3 2 1
  = ([Create 1 (requestOf [] (4 # 10)%Q 500%Z)],
     Thrown (INVALID_API_KEY Rewrite.ERROR_MESSAGES))
  /\ callGroqWithRetry Rewrite.ERROR_MESSAGES unauthorized [] (4 # 10)%Q 500%Z 3
     = ([Create 0 (requestOf [] (4 # 10)%Q 500%Z); Sleep (Some 1000%Z);
         Create 1 (requestOf [] (4 # 10)%Q 500%Z)],
        Thrown (INVALID_API_KEY Rewrite.ERROR_MESSAGES)).
Proof.
  split.
  - apply (proj1 (rejected_credentials_are_terminal Rewrite.ERROR_MESSAGES
                    unauthorized (requestOf [] (4 # 10)%Q 500%Z) 3 1 1
                    {| status := Some 401%Z; code := None;
                       message := Some (js "invalid key") |}
                    eq_refl (or_introl eq_refl))).
    reflexivity.
  - unfold callGroqWithRetry. fold (requestOf [] (4 # 10)%Q 500%Z).
    rewrite (proj2 (rejected_credentials_are_terminal Rewrite.ERROR_MESSAGES
                      unauthorized (requestOf [] (4 # 10)%Q 500%Z) 3 2 0
                      {| status := Some 401%Z; code := None;
                         message := Some (js "timeout while checking the key") |}
                      eq_refl (or_introl eq_refl)) eq_refl
                   ltac:(simpl; lia)).
    reflexivity.
Defined.

(* ================================================================== *)
(** ** Failures that are retried *)
(* ================================================================== *)

(** The three kinds of failure that are retried with the plain delay. *)
Inductive failure : Type := TimedOut | ServerDown | Unclassified.

Definition failsAs (f : failure) (error : apiError) : Prop :=
  statusIs error 429 = false /\ statusIs error 413 = false
  /\ match f with
     | TimedOut => isTimeout error = true
     | ServerDown =>
         isTimeout error = false /\ statusIs error 401 = false
         /\ statusIs error 403 = false /\ isServerError error = true
     | Unclassified =>
         isTimeout error = false /\ statusIs error 401 = false
         /\ statusIs error 403 = false /\ isServerError error = false
     end.

Definition lastMessage (msgs : errorMessages) (f : failure) : jsstring :=
  match f with
  | TimedOut => NETWORK_TIMEOUT msgs
  | ServerDown => SERVICE_UNAVAILABLE msgs
  | Unclassified => GENERIC_ERROR msgs
  end.

(** X4: when each of the three attempts fails with a timeout, a server
    error (status 500 or more) or an error of no known kind, the
    invocation makes three calls, sleeps 1000 ms after the first and 2000
    ms after the second (the delays are not doubled as they are for
    status 429), and throws the message of the last failure's kind. *)
Theorem transient_failures_exhaust_the_attempts :
  forall (msgs : errorMessages) (create : completionRequest -> nat -> outcome)
         (messages : list chatMessage) (temperature : Q) (maxTokens : Z)
         (kind : nat -> failure),
    (forall attempt, attempt < 3 ->
       exists error,
         create (requestOf messages temperature maxTokens) attempt
         = Rejected error
         /\ failsAs (kind attempt) error) ->
    callGroqWithRetry msgs create messages temperature maxTokens 3
    = (attempts (requestOf messages temperature maxTokens) 0
         [Some 1000%Z; Some 2000%Z],
       Thrown (lastMessage msgs (kind 2))).
Proof.
  intros msgs create messages temperature maxTokens kind Hall.
  unfold callGroqWithRetry. fold (requestOf messages temperature maxTokens).
  destruct (Hall 0) as [e0 [H0 [A0 [B0 K0]]]]; [lia|].
  destruct (Hall 1) as [e1 [H1 [A1 [B1 K1]]]]; [lia|].
  destruct (Hall 2) as [e2 [H2 [A2 [B2 K2]]]]; [lia|].
  cbn [retryLoop]. rewrite H0, A0, B0, H1, A1, B1, H2, A2, B2.
  cbn [Nat.eqb Nat.sub negb].
  destruct (kind 0), (kind 1), (kind 2); cbn [failsAs lastMessage] in *;
    repeat match goal with
           | H : _ /\ _ |- _ => destruct H
           end;
    repeat match goal with
           | H : ?x = _ |- context [?x] => rewrite H
           end;
    reflexivity.
Qed.

(** A provider that times out, then is down, then answers with a status
    of no known kind. *)
Definition failing (_ : completionRequest) (attempt : nat) : outcome :=
  match attempt with
  | 0 => Rejected {| status := None; code := Some (js "ECONNABORTED");
                     message := None |}
  | 1 => Rejected {| status := Some 502%Z; code := None; message := None |}
  | _ => Rejected {| status := Some 400%Z; code := None; message := None |}
  end.

Lemma transient_failures_exhaust_the_attempts_witness :
  callGroqWithRetry Rewrite.ERROR_MESSAGES failing [] (4 # 10)%Q 500%Z 3
  = ([Create 0 (requestOf [] (4 # 10)%Q 500%Z); Sleep (Some 1000%Z);
      Create 1 (requestOf [] (4 # 10)%Q 500%Z); Sleep (Some 2000%Z);
      Create 2 (requestOf [] (4 # 10)%Q 500%Z)],
     Thrown (GENERIC_ERROR Rewrite.ERROR_MESSAGES)).
Proof.
  apply (transient_failures_exhaust_the_attempts Rewrite.ERROR_MESSAGES failing
           [] (4 # 10)%Q 500%Z
           (fun attempt => match attempt with
                           | 0 => TimedOut
                           | 1 => ServerDown
                           | _ => Unclassified
                           end)).
  intros attempt Hlt.
  destruct attempt as [|[|[|n]]]; [| | |lia];
    eexists; (split; [reflexivity|]); vm_compute; repeat split.
Defined.

(* ================================================================== *)
(** ** The token estimate *)
(* ================================================================== *)

Lemma estimateTokenCount_bounds (text : jsstring) :
  (4 * estimateTokenCount text - 3 <= Z.of_nat (List.length text)
   <= 4 * estimateTokenCount text)%Z.
Proof.
  unfold estimateTokenCount, charToTokenRatio.
  Z.div_mod_to_equations. lia.
Qed.

(* ================================================================== *)
(** ** The budget in characters *)
(* ================================================================== *)

Lemma budget_in_characters_lemma :
  forall s u w : jsstring,
    ((Z.of_nat (List.length s + List.length u + List.length w) <= 419422)%Z ->
     Rewrite.validateTokenLimits s u w = true)
    /\ ((419428 < Z.of_nat (List.length s + List.length u + List.length w))%Z ->
        Rewrite.validateTokenLimits s u w = false)
    /\ ((Z.of_nat (List.length s + List.length u) <= 419425)%Z ->
        SelfImprove.validateTokenLimits s u = true)
    /\ ((419428 < Z.of_nat (List.length s + List.length u))%Z ->
        SelfImprove.validateTokenLimits s u = false).
Proof.
  intros s u w.
  pose proof (estimateTokenCount_bounds s) as Hs.
  pose proof (estimateTokenCount_bounds u) as Hu.
  pose proof (estimateTokenCount_bounds w) as Hw.
  unfold Rewrite.validateTokenLimits, SelfImprove.validateTokenLimits.
  repeat split; intros H.
  - apply withinInputBudget_spec. unfold maxContextTokens. lia.
  - apply withinInputBudget_false. unfold maxContextTokens. lia.
  - apply withinInputBudget_spec. unfold maxContextTokens. lia.
  - apply withinInputBudget_false. unfold maxContextTokens. lia.
Qed.

(** X5: the input budget is 104857 tokens (0.8 * 131072, rounded down).
    The rewrite route accepts every request whose system instructions,
    user message and web data have at most 419422 characters together and
    rejects every one with more than 419428; the self-improve route,
    which estimates two texts, accepts up to 419425 characters and
    rejects more than 419428. *)
Theorem budget_in_characters :
  forall s u w : jsstring,
    ((Z.of_nat (List.length s + List.length u + List.length w) <= 419422)%Z ->
     Rewrite.validateTokenLimits s u w = true)
    /\ ((419428 < Z.of_nat (List.length s + List.length u + List.length w))%Z ->
        Rewrite.validateTokenLimits s u w = false)
    /\ ((Z.of_nat (List.length s + List.length u) <= 419425)%Z ->
        SelfImprove.validateTokenLimits s u = true)
    /\ ((419428 < Z.of_nat (List.length s + List.length u))%Z ->
        SelfImprove.validateTokenLimits s u = false).
Proof. exact budget_in_characters_lemma. Qed.

(** A text of 419429 characters. *)
Definition overlong : jsstring := repeat 120%N (N.to_nat 419429).

Lemma budget_in_characters_witness :
  Rewrite.validateTokenLimits (js "system") (js "user") (js "web") = true
  /\ SelfImprove.validateTokenLimits (js "system") (js "user") = true
  /\ Rewrite.validateTokenLimits [] overlong [] = false
  /\ SelfImprove.validateTokenLimits [] overlong = false.
Proof.
  split; [|split; [|split]].
  3: { apply (proj1 (proj2 (budget_in_characters [] overlong []))).
       vm_compute. reflexivity. }
  3: { apply (proj2 (proj2 (proj2 (budget_in_characters [] overlong [])))).
       vm_compute. reflexivity. }
  - apply (proj1 (budget_in_characters (js "system") (js "user") (js "web"))).
    vm_compute. discriminate.
  - apply (proj1 (proj2 (proj2 (budget_in_characters (js "system") (js "user")
                                  (js "web"))))).
    vm_compute. discriminate.
Defined.

(* ================================================================== *)
(** ** The search query *)
(* ================================================================== *)

(** The topics that [extractSearchTerms] looks for in the prompt. *)
Definition topics : list string :=
  ["ai"; "artificial intelligence"; "blog"; "article"; "technology"; "tech";
   "business"; "marketing"; "health"; "medical"]%string.

Definition mentionsTopic (prompt : jsstring) : bool :=
  existsb (fun topic => includes prompt (js topic)) topics.

Lemma app_truthy (a b : jsstring) : truthy b = true -> truthy (a ++ b) = true.
Proof. intros H. destruct a; [exact H|reflexivity]. Qed.

Lemma filter_nil_forallb {A} (f : A -> bool) (l : list A) :
  filter f l = [] <-> forallb (fun x => negb (f x)) l = true.
Proof.
  induction l as [|x l IH]; simpl.
  - tauto.
  - destruct (f x); simpl.
    + split; discriminate.
    + exact IH.
Qed.

Lemma extractSearchTerms_truthy toLowerCase userPrompt q :
  Rewrite.extractSearchTerms toLowerCase userPrompt = Some q -> truthy q = true.
Proof.
  unfold Rewrite.extractSearchTerms.
  repeat match goal with
         | |- context [if ?b then _ else _] =>
             match b with
             | true => fail 1
             | false => fail 1
             | _ => destruct b
             end
         end;
    intros H; inversion H; try reflexivity; apply app_truthy; reflexivity.
Qed.

Lemma performWebSearch_trace toLowerCase e userPrompt :
  fst (Rewrite.performWebSearch toLowerCase e userPrompt)
  = if configured (Rewrite.SERPAPI_API_KEY e)
    then match Rewrite.extractSearchTerms toLowerCase userPrompt with
         | Some q => [Search q]
         | None => []
         end
    else [].
Proof.
  unfold Rewrite.performWebSearch.
  destruct (configured (Rewrite.SERPAPI_API_KEY e)); cbn [negb]; [|reflexivity].
  destruct (Rewrite.extractSearchTerms toLowerCase userPrompt) as [q|] eqn:Eq;
    [|reflexivity].
  rewrite (extractSearchTerms_truthy toLowerCase userPrompt q Eq). cbn [negb].
  destruct (Rewrite.axios_get e q) as [|rs]; [reflexivity|].
  destruct (Nat.eqb _ 0); reflexivity.
Qed.

(** X6: the search terms drawn from a prompt are never the empty string,
    so the search is skipped only without a key or without terms; there
    are no terms exactly when the lower-cased prompt mentions none of the
    ten topics and none of its space-separated words has more than three
    characters; and a search, when made, is one call with these terms. *)
Theorem search_is_made_with_a_query :
  forall (toLowerCase : jsstring -> jsstring) (e : Rewrite.env)
         (userPrompt : jsstring),
    (forall q, Rewrite.extractSearchTerms toLowerCase userPrompt = Some q ->
               truthy q = true)
    /\ (Rewrite.extractSearchTerms toLowerCase userPrompt = None
        <-> mentionsTopic (toLowerCase userPrompt) = false
            /\ forallb (fun word => List.length word <=? 3)
                 (split 32 (toLowerCase userPrompt)) = true)
    /\ fst (Rewrite.performWebSearch toLowerCase e userPrompt)
       = if configured (Rewrite.SERPAPI_API_KEY e)
         then match Rewrite.extractSearchTerms toLowerCase userPrompt with
              | Some q => [Search q]
              | None => []
              end
         else [].
Proof.
  intros toLowerCase e userPrompt.
  split; [apply extractSearchTerms_truthy|]. split.
  - unfold Rewrite.extractSearchTerms, mentionsTopic, topics.
    cbn [existsb].
    set (p := toLowerCase userPrompt).
    destruct (includes p (js "ai")); [split; [discriminate|intros [H _]; discriminate]|].
    destruct (includes p (js "artificial intelligence"));
      [split; [discriminate|intros [H _]; discriminate]|].
    destruct (includes p (js "blog")); [split; [discriminate|intros [H _]; discriminate]|].
    destruct (includes p (js "article")); [split; [discriminate|intros [H _]; discriminate]|].
    destruct (includes p (js "technology"));
      [split; [discriminate|intros [H _]; discriminate]|].
    destruct (includes p (js "tech")); [split; [discriminate|intros [H _]; discriminate]|].
    destruct (includes p (js "business"));
      [split; [discriminate|intros [H _]; discriminate]|].
    destruct (includes p (js "marketing"));
      [split; [discriminate|intros [H _]; discriminate]|].
    destruct (includes p (js "health")); [split; [discriminate|intros [H _]; discriminate]|].
    destruct (includes p (js "medical"));
      [split; [discriminate|intros [H _]; discriminate]|].
    cbn [orb].
    destruct (filter (fun word => 3 <? List.length word) (split 32 p))
      as [|w ws] eqn:Ef.
    + cbn [List.length Nat.ltb Nat.leb]. split; [|reflexivity].
      intros _. split; [reflexivity|].
      apply filter_nil_forallb in Ef.
      rewrite forallb_forall in *. intros x Hx. specialize (Ef x Hx).
      apply negb_true_iff in Ef. apply Nat.ltb_ge in Ef.
      apply Nat.leb_le. exact Ef.
    + change (0 <? List.length (w :: ws)) with true. cbv iota.
      split; [discriminate|]. intros [_ H].
      assert (Hin : In w (filter (fun word => 3 <? List.length word) (split 32 p)))
        by (rewrite Ef; left; reflexivity).
      apply filter_In in Hin. destruct Hin as [Hin Hlen].
      rewrite forallb_forall in H. specialize (H w Hin).
      apply Nat.leb_le in H. apply Nat.ltb_lt in Hlen. lia.
  - apply performWebSearch_trace.
Qed.

(* ================================================================== *)
(** ** The result of a search *)
(* ================================================================== *)

Lemma join_truthy (sep : jsstring) (parts : list jsstring) :
  Forall (fun p => truthy p = true) parts ->
  truthy (join sep parts) = negb (Nat.eqb (List.length parts) 0).
Proof.
  intros H. destruct parts as [|p ps]; [reflexivity|].
  inversion H as [|x l Hp Hps]. subst.
  cbn [join]. destruct ps as [|p' ps'].
  - exact Hp.
  - destruct p; [discriminate|reflexivity].
Qed.

Lemma performWebSearch_consistent toLowerCase e userPrompt :
  let result := Rewrite.performWebSearch toLowerCase e userPrompt in
  truthy (Rewrite.data (snd result))
  = (0 <? List.length (Rewrite.sources (snd result)))
  /\ (Rewrite.sources (snd result) <> [] ->
      exists q, fst result = [Search q]
                /\ configured (Rewrite.SERPAPI_API_KEY e) = true).
Proof.
  cbv zeta.
  unfold Rewrite.performWebSearch.
  destruct (configured (Rewrite.SERPAPI_API_KEY e)); cbn [negb];
    [|split; [reflexivity|intros H; exfalso; apply H; reflexivity]].
  destruct (Rewrite.extractSearchTerms toLowerCase userPrompt) as [q|];
    [|split; [reflexivity|intros H; exfalso; apply H; reflexivity]].
  destruct (negb (truthy q));
    [split; [reflexivity|intros H; exfalso; apply H; reflexivity]|].
  destruct (Rewrite.axios_get e q) as [|rs];
    [split; [reflexivity|intros H; exfalso; apply H; reflexivity]|].
  destruct (Nat.eqb _ 0);
    [split; [reflexivity|intros H; exfalso; apply H; reflexivity]|].
  cbn [snd fst Rewrite.data Rewrite.sources]. split.
  - rewrite join_truthy.
    + rewrite !length_map.
      destruct (filter _ _); reflexivity.
    + apply Forall_forall. intros x Hx. apply in_map_iff in Hx.
      destruct Hx as [item [<- _]]. apply app_truthy. reflexivity.
  - intros _. exists q. split; reflexivity.
Qed.

(* ================================================================== *)
(** ** The answers of the rewrite route *)
(* ================================================================== *)

(** The request that the rewrite route sends for a prepared request. *)
Definition rewriteRequest (p : Rewrite.prepared) : completionRequest :=
  requestOf
    [ {| role := js "system"; content := Rewrite.p_systemInstructions p |};
      {| role := js "user"; content := Rewrite.p_userMessage p |} ]
    (if Rewrite.isDirectContent (Rewrite.p_mode p) then 8 # 10 else 4 # 10)%Q
    (if Rewrite.isDirectContent (Rewrite.p_mode p) then 3000 else 500)%Z.

Definition searchCalls (evs : list event) : nat :=
  List.length (filter isSearch evs).

Lemma attempts_calls req sleeps :
  forall from,
    completionCalls (attempts req from sleeps) = S (List.length sleeps)
    /\ searchCalls (attempts req from sleeps) = 0.
Proof.
  induction sleeps as [|ms sleeps IH]; intros from.
  - split; reflexivity.
  - destruct (IH (S from)) as [Hc Hs]. unfold completionCalls, searchCalls in *.
    cbn [attempts filter isCreate isSearch List.length].
    rewrite Hc, Hs. split; reflexivity.
Qed.

Lemma searches_calls evs :
  forallb isSearch evs = true ->
  completionCalls evs = 0 /\ sleepTotal evs = 0%Z
  /\ searchCalls evs = List.length evs.
Proof.
  induction evs as [|ev evs IH]; intros H.
  - repeat split.
  - cbn [forallb] in H. apply andb_true_iff in H. destruct H as [Hev H].
    destruct (IH H) as [Hc [Hs Hn]].
    destruct ev as [q|a r|ms]; try discriminate.
    unfold completionCalls, searchCalls in *.
    cbn [filter isCreate isSearch sleepTotal List.length].
    rewrite Hn. repeat split; assumption.
Qed.

Lemma calls_app a b :
  completionCalls (a ++ b) = completionCalls a + completionCalls b
  /\ searchCalls (a ++ b) = searchCalls a + searchCalls b.
Proof.
  unfold completionCalls, searchCalls. rewrite !filter_app, !length_app.
  split; reflexivity.
Qed.

Lemma sleepTotal_app a b :
  sleepTotal (a ++ b) = (sleepTotal a + sleepTotal b)%Z.
Proof.
  induction a as [|ev a IH]; [reflexivity|].
  destruct ev as [q|k r|[ms|]]; cbn [app sleepTotal]; rewrite IH; lia.
Qed.

(** What a response of the routes looks like: 200 with a result, or
    400, 413 or 500 with an error message that is not empty. *)
Definition answered (resp : response) : Prop :=
  (statusCode resp = 200%Z
   /\ exists r, body resp = RewriteBody r)
  \/ (In (statusCode resp) [400; 413; 500]%Z
      /\ exists msg, body resp = ErrorBody msg /\ truthy msg = true).

Lemma caught_answered message :
  answered (caught Rewrite.ERROR_MESSAGES message)
  /\ statusCode (caught Rewrite.ERROR_MESSAGES message) = 500%Z.
Proof.
  split; [|reflexivity]. right. split; [right; right; left; reflexivity|].
  unfold caught, json. cbn [body].
  destruct message as [|c m]; eexists; split; reflexivity.
Qed.

(** The part of the route after the token check: the trace is empty
    with status 413, or it is the run of an invocation. *)
Lemma complete_trace e p :
  answered (snd (Rewrite.complete e p))
  /\ ((fst (Rewrite.complete e p) = []
       /\ statusCode (snd (Rewrite.complete e p)) = 413%Z)
      \/ (fst (Rewrite.complete e p)
          = fst (callGroqWithRetry Rewrite.ERROR_MESSAGES (Rewrite.groq_create e)
                   [ {| role := js "system";
                        content := Rewrite.p_systemInstructions p |};
                     {| role := js "user"; content := Rewrite.p_userMessage p |} ]
                   (if Rewrite.isDirectContent (Rewrite.p_mode p)
                    then 8 # 10 else 4 # 10)%Q
                   (if Rewrite.isDirectContent (Rewrite.p_mode p)
                    then 3000 else 500)%Z 3)
          /\ In (statusCode (snd (Rewrite.complete e p))) [200; 500]%Z)).
Proof.
  unfold Rewrite.complete.
  destruct (negb (Rewrite.validateTokenLimits _ _ _)).
  - split.
    + right. split; [right; left; reflexivity|].
      eexists. split; reflexivity.
    + left. split; reflexivity.
  - destruct (callGroqWithRetry _ _ _ _ _ _) as [evs result].
    destruct result as [c|msg|].
    + destruct (firstContent c) as [[|x raw]|].
      * split; [|right; split; [reflexivity|right; left; reflexivity]].
        right. split; [right; right; left; reflexivity|].
        eexists. split; reflexivity.
      * split; [|right; split; [reflexivity|left; reflexivity]].
        left. split; [reflexivity|]. eexists. reflexivity.
      * split; [|right; split; [reflexivity|right; left; reflexivity]].
        right. split; [right; right; left; reflexivity|].
        eexists. split; reflexivity.
    + split; [apply caught_answered|].
      right. split; [reflexivity|right; left; reflexivity].
    + split; [apply caught_answered|].
      right. split; [reflexivity|right; left; reflexivity].
Qed.

Lemma prepare_answered toLowerCase e b evs resp :
  Rewrite.prepare toLowerCase e b = (evs, inl resp) ->
  evs = [] /\ answered resp /\ In (statusCode resp) [400; 500]%Z.
Proof.
  unfold Rewrite.prepare. destruct b as [m|u md en].
  - intros H. inversion H. split; [reflexivity|].
    split; [apply caught_answered|right; left; reflexivity].
  - destruct (nonEmptyString u) as [up|].
    2:{ intros H. inversion H. split; [reflexivity|]. split.
        - right. split; [left; reflexivity|]. eexists. split; reflexivity.
        - left. reflexivity. }
    destruct (validMode _ _) as [mode|].
    2:{ intros H. inversion H. split; [reflexivity|]. split.
        - right. split; [left; reflexivity|]. eexists. split; reflexivity.
        - left. reflexivity. }
    destruct (_ || _).
    { intros H. inversion H. split; [reflexivity|]. split.
      - right. split; [right; right; left; reflexivity|].
        eexists. split; reflexivity.
      - right. left. reflexivity. }
    destruct (lookup _ _) as [sys|].
    2:{ intros H. inversion H. split; [reflexivity|].
        split; [apply caught_answered|right; left; reflexivity]. }
    match goal with
    | |- context [let (_, _) := ?c in _] => destruct c as [evs0 w]
    end.
    intros H. inversion H.
Qed.

Lemma rewrite_POST_answered :
  forall (toLowerCase : jsstring -> jsstring) (e : Rewrite.env)
         (b : Rewrite.requestBody),
    let evs := fst (Rewrite.POST toLowerCase e b) in
    let resp := snd (Rewrite.POST toLowerCase e b) in
    answered resp
    /\ (statusCode resp = 400%Z -> evs = [])
    /\ (statusCode resp = 413%Z -> completionCalls evs = 0)
    /\ (statusCode resp = 200%Z -> 1 <= completionCalls evs)
    /\ (1 <= completionCalls evs -> In (statusCode resp) [200; 500]%Z).
Proof.
  intros toLowerCase e b. cbv zeta. unfold Rewrite.POST.
  destruct (Rewrite.prepare toLowerCase e b) as [evs [resp|p]] eqn:Ep.
  - destruct (prepare_answered toLowerCase e b evs resp Ep) as [-> [Ha Hs]].
    cbn [fst snd]. split; [exact Ha|].
    split; [reflexivity|]. split; [reflexivity|].
    split; [|intros H; inversion H].
    intros H. rewrite H in Hs. simpl in Hs. intuition discriminate.
  - pose proof (prepare_events toLowerCase e b evs _ Ep) as Hev.
    destruct (searches_calls evs Hev) as [Hc [_ _]].
    destruct (complete_trace e p) as [Ha Ht].
    destruct (Rewrite.complete e p) as [evs' resp]. cbn [fst snd] in *.
    destruct (calls_app evs evs') as [Hca _]. rewrite Hca, Hc.
    split; [exact Ha|].
    destruct Ht as [[-> Hs]|[He Hs]].
    + rewrite Hs. split; [discriminate|]. split; [reflexivity|].
      split; [discriminate|]. intros H. inversion H.
    + destruct (retryLoop_shape Rewrite.ERROR_MESSAGES (Rewrite.groq_create e)
                  (rewriteRequest p) 3 3 0 eq_refl (le_S _ _ (le_S _ _ (le_n 1))))
        as [sleeps [_ [Hf _]]].
      assert (Hf' : evs' = attempts (rewriteRequest p) 0 sleeps)
        by (rewrite He; exact Hf).
      destruct (attempts_calls (rewriteRequest p) sleeps 0) as [Hn _].
      rewrite Hf', Hn. simpl in Hs.
      split; [intros H; rewrite H in Hs; intuition discriminate|].
      split; [intros H; rewrite H in Hs; intuition discriminate|].
      split; [intros _; simpl; lia|].
      intros _. simpl. exact Hs.
Qed.

(** X7: every request is answered with status 200 and a result, or with
    status 400, 413 or 500 and a message that is not empty.  Status 400
    comes with an empty trace and status 413 with a trace without
    completion call: it is the route's own token check, and whatever the
    provider rejects, also with its own status 413 or 429, is answered
    with status 500. *)
Theorem rewrite_answers_with_four_statuses :
  forall (toLowerCase : jsstring -> jsstring) (e : Rewrite.env)
         (b : Rewrite.requestBody),
    let evs := fst (Rewrite.POST toLowerCase e b) in
    let resp := snd (Rewrite.POST toLowerCase e b) in
    answered resp
    /\ (statusCode resp = 400%Z -> evs = [])
    /\ (statusCode resp = 413%Z -> completionCalls evs = 0)
    /\ (statusCode resp = 200%Z -> 1 <= completionCalls evs)
    /\ (1 <= completionCalls evs -> In (statusCode resp) [200; 500]%Z).
Proof. exact rewrite_POST_answered. Qed.

(* ================================================================== *)
(** ** What a request costs *)
(* ================================================================== *)

(** The key of the completion provider as the routes test it. *)
Definition usable (key : option jsstring) : bool :=
  negb (negb (configured key)
        || eqs (match key with Some k => k | None => [] end)
               (js "your-key-here")).

(** The search step of the rewrite route. *)
Definition searchStep (toLowerCase : jsstring -> jsstring) (e : Rewrite.env)
    (enableWebAccess : jsvalue) (mode userPrompt : jsstring)
  : list event * Rewrite.webResult :=
  if valueTruthy (withDefault enableWebAccess (JBool false))
     || Rewrite.isDirectContent mode
  then Rewrite.performWebSearch toLowerCase e userPrompt
  else ([], Rewrite.noWebResult).

Definition defaultMode : jsvalue := JString (js "question-research").

(** A request reaches the token check exactly when its text is a
    non-empty string, its mode is valid and the key is usable. *)
Lemma prepare_inr toLowerCase e b evs p :
  Rewrite.prepare toLowerCase e b = (evs, inr p) ->
  exists text mode enableWebAccess userPrompt,
    b = Rewrite.BodyFields text mode enableWebAccess
    /\ nonEmptyString text = Some userPrompt
    /\ validMode Rewrite.VALID_MODES (withDefault mode defaultMode)
       = Some (Rewrite.p_mode p)
    /\ usable (Rewrite.GROQ_API_KEY e) = true
    /\ lookup Rewrite.SYSTEM_INSTRUCTIONS (Rewrite.p_mode p)
       = Some (Rewrite.p_systemInstructions p)
    /\ evs = fst (searchStep toLowerCase e enableWebAccess (Rewrite.p_mode p)
                    userPrompt)
    /\ (let found :=
          snd (searchStep toLowerCase e enableWebAccess (Rewrite.p_mode p)
                 userPrompt) in
        Rewrite.p_webAccessUsed p
        = truthy (Rewrite.data found)
          && (0 <? List.length (Rewrite.sources found))
        /\ Rewrite.p_webData p
           = (if Rewrite.p_webAccessUsed p then Rewrite.data found else [])
        /\ Rewrite.p_webSources p
           = (if Rewrite.p_webAccessUsed p then Rewrite.sources found else []))
    /\ Rewrite.p_userMessage p
       = Rewrite.buildUserMessage (Rewrite.p_mode p) userPrompt
           (Rewrite.p_webAccessUsed p) (Rewrite.p_webData p).
Proof.
  unfold Rewrite.prepare. destruct b as [m|u md en]; [discriminate|].
  destruct (nonEmptyString u) as [up|] eqn:Eu; [|discriminate].
  fold defaultMode.
  destruct (validMode _ _) as [mode|] eqn:Em; [|discriminate].
  destruct (negb (configured (Rewrite.GROQ_API_KEY e))
            || eqs (Rewrite.orEmpty (Rewrite.GROQ_API_KEY e)) (js "your-key-here"))
    eqn:Ek; [discriminate|].
  destruct (lookup _ _) as [sys|] eqn:Es; [|discriminate].
  intros H. exists u, md, en, up.
  unfold searchStep.
  match type of H with
  | context [let (_, _) := ?c in _] => destruct c as [evs0 w] eqn:Ew
  end.
  inversion H. subst evs p. cbn [Rewrite.p_mode Rewrite.p_systemInstructions
    Rewrite.p_userMessage Rewrite.p_webData Rewrite.p_webSources
    Rewrite.p_webAccessUsed fst snd].
  repeat split; try reflexivity; try assumption;
    try (rewrite Ew; reflexivity).
  unfold usable. unfold Rewrite.orEmpty in Ek. rewrite Ek. reflexivity.
Qed.

Lemma prepare_valid toLowerCase e text mode enableWebAccess userPrompt m :
  nonEmptyString text = Some userPrompt ->
  validMode Rewrite.VALID_MODES (withDefault mode defaultMode) = Some m ->
  usable (Rewrite.GROQ_API_KEY e) = true ->
  exists p,
    Rewrite.prepare toLowerCase e (Rewrite.BodyFields text mode enableWebAccess)
    = (fst (searchStep toLowerCase e enableWebAccess m userPrompt), inr p)
    /\ Rewrite.p_mode p = m.
Proof.
  intros Hu Hm Hk. unfold Rewrite.prepare. rewrite Hu. fold defaultMode.
  rewrite Hm.
  unfold usable in Hk. apply negb_true_iff in Hk.
  unfold Rewrite.orEmpty. rewrite Hk.
  destruct (lookup_keys Rewrite.SYSTEM_INSTRUCTIONS m) as [sys Hs].
  { unfold validMode in Hm. destruct (withDefault mode defaultMode); try discriminate.
    fold Rewrite.VALID_MODES.
    destruct (existsb (eqs s) Rewrite.VALID_MODES) eqn:Ex; [|discriminate].
    inversion Hm. subst. exact Ex. }
  rewrite Hs. unfold searchStep.
  match goal with
  | |- context [let (_, _) := ?c in _] => destruct c as [evs0 w]
  end.
  eexists. split; reflexivity.
Qed.

Lemma searchStep_trace toLowerCase e enableWebAccess mode userPrompt :
  fst (searchStep toLowerCase e enableWebAccess mode userPrompt)
  = if (valueTruthy (withDefault enableWebAccess (JBool false))
        || Rewrite.isDirectContent mode)
       && configured (Rewrite.SERPAPI_API_KEY e)
    then match Rewrite.extractSearchTerms toLowerCase userPrompt with
         | Some q => [Search q]
         | None => []
         end
    else [].
Proof.
  unfold searchStep. destruct (_ || _); cbn [andb]; [|reflexivity].
  apply performWebSearch_trace.
Qed.

Lemma searchStep_short toLowerCase e enableWebAccess mode userPrompt :
  forallb isSearch (fst (searchStep toLowerCase e enableWebAccess mode userPrompt))
  = true
  /\ List.length (fst (searchStep toLowerCase e enableWebAccess mode userPrompt))
     <= 1.
Proof.
  rewrite searchStep_trace. destruct (_ && _); [|split; [reflexivity|simpl; lia]].
  destruct (Rewrite.extractSearchTerms _ _); split; try reflexivity; simpl; lia.
Qed.

Lemma complete_calls e p :
  searchCalls (fst (Rewrite.complete e p)) = 0
  /\ completionCalls (fst (Rewrite.complete e p)) <= 3
  /\ ~ In (Sleep None) (fst (Rewrite.complete e p))
  /\ (sleepTotal (fst (Rewrite.complete e p)) <= 6000)%Z.
Proof.
  destruct (complete_trace e p) as [_ [[-> _]|[He _]]].
  - split; [reflexivity|split; [unfold completionCalls; simpl; lia|split; [intros []|simpl; lia]]].
  - rewrite He.
    destruct (invocation_budget Rewrite.ERROR_MESSAGES (Rewrite.groq_create e)
                [ {| role := js "system";
                     content := Rewrite.p_systemInstructions p |};
                  {| role := js "user"; content := Rewrite.p_userMessage p |} ]
                (if Rewrite.isDirectContent (Rewrite.p_mode p)
                 then 8 # 10 else 4 # 10)%Q
                (if Rewrite.isDirectContent (Rewrite.p_mode p)
                 then 3000 else 500)%Z) as [Hc [Hn Hs]].
    split; [|split; [exact Hc|split; [exact Hn|exact Hs]]].
    destruct (retryLoop_shape Rewrite.ERROR_MESSAGES (Rewrite.groq_create e)
                (rewriteRequest p) 3 3 0 eq_refl (le_S _ _ (le_S _ _ (le_n 1))))
      as [sleeps [_ [Hf _]]].
    unfold callGroqWithRetry.
    change (fst (retryLoop Rewrite.ERROR_MESSAGES (Rewrite.groq_create e)
                   (rewriteRequest p) 3 3 0) = attempts (rewriteRequest p) 0 sleeps)
      in Hf.
    unfold rewriteRequest, requestOf in Hf. rewrite Hf.
    apply attempts_calls.
Qed.

(** X8: a request to the rewrite route costs at most one search call,
    made before anything else, then at most three completion calls, and
    at most 6000 ms of sleep between them. *)
Theorem rewrite_request_is_bounded :
  forall (toLowerCase : jsstring -> jsstring) (e : Rewrite.env)
         (b : Rewrite.requestBody),
    exists searches calls,
      fst (Rewrite.POST toLowerCase e b) = searches ++ calls
      /\ forallb isSearch searches = true
      /\ List.length searches <= 1
      /\ searchCalls calls = 0
      /\ completionCalls calls <= 3
      /\ ~ In (Sleep None) calls
      /\ (sleepTotal calls <= 6000)%Z.
Proof.
  intros toLowerCase e b. unfold Rewrite.POST.
  destruct (Rewrite.prepare toLowerCase e b) as [evs [resp|p]] eqn:Ep.
  - destruct (prepare_answered toLowerCase e b evs resp Ep) as [-> _].
    exists [], []. cbn [fst].
    split; [reflexivity|]. split; [reflexivity|]. split; [simpl; lia|].
    split; [reflexivity|split; [unfold completionCalls; simpl; lia|split; [intros []|simpl; lia]]].
  - destruct (prepare_inr toLowerCase e b evs p Ep)
      as [u [md [en [up [_ [_ [_ [_ [_ [Hev _]]]]]]]]]].
    destruct (searchStep_short toLowerCase e en (Rewrite.p_mode p) up)
      as [Hs Hl].
    rewrite <- Hev in Hs, Hl.
    pose proof (complete_calls e p) as Hc.
    destruct (Rewrite.complete e p) as [evs' resp]. cbn [fst] in *.
    exists evs, evs'. split; [reflexivity|]. split; [exact Hs|].
    split; [exact Hl|exact Hc].
Qed.

(* ================================================================== *)
(** ** Requests without a usable key *)
(* ================================================================== *)

Lemma usable_false (key : option jsstring) :
  usable key = false
  <-> key = None \/ key = Some [] \/ key = Some (js "your-key-here").
Proof.
  unfold usable. rewrite negb_false_iff, orb_true_iff.
  destruct key as [[|c k]|]; cbn [configured truthy negb].
  - split; [intros _; right; left; reflexivity|intros _; left; reflexivity].
  - rewrite eqs_true. split.
    + intros [H|H]; [discriminate|]. right. right. rewrite H. reflexivity.
    + intros [H|[H|H]]; try discriminate. right. inversion H. reflexivity.
  - split; [intros _; left; reflexivity|intros _; left; reflexivity].
Qed.

(** X9: when the provider's key is missing, empty or the placeholder
    [your-key-here], neither route calls anything: the trace is empty
    whatever the request, and a request that passes the input validation
    is answered with status 500 and the configuration error. *)
Theorem unusable_key_stops_the_request :
  forall (toLowerCase : jsstring -> jsstring) (e : Rewrite.env)
         (ei : SelfImprove.env) (text mode enableWebAccess : jsvalue)
         (userPrompt m : jsstring),
    nonEmptyString text = Some userPrompt ->
    (Rewrite.GROQ_API_KEY e = None \/ Rewrite.GROQ_API_KEY e = Some []
     \/ Rewrite.GROQ_API_KEY e = Some (js "your-key-here") ->
     (forall b, fst (Rewrite.POST toLowerCase e b) = [])
     /\ (validMode Rewrite.VALID_MODES (withDefault mode defaultMode) = Some m ->
         Rewrite.POST toLowerCase e
           (Rewrite.BodyFields text mode enableWebAccess)
         = ([], json 500 (ErrorBody (INVALID_API_KEY Rewrite.ERROR_MESSAGES)))))
    /\ (SelfImprove.GROQ_API_KEY ei = None \/ SelfImprove.GROQ_API_KEY ei = Some []
        \/ SelfImprove.GROQ_API_KEY ei = Some (js "your-key-here") ->
        (forall b, fst (SelfImprove.POST ei b) = [])
        /\ (validMode SelfImprove.VALID_MODES mode = Some m ->
            SelfImprove.POST ei (SelfImprove.BodyFields text mode)
            = ([], json 500
                     (ErrorBody (INVALID_API_KEY SelfImprove.ERROR_MESSAGES))))).
Proof.
  intros toLowerCase e ei text mode enableWebAccess userPrompt m Ht. split.
  - intros Hk. apply usable_false in Hk. unfold usable in Hk.
    apply negb_false_iff in Hk. split.
    + intros b. unfold Rewrite.POST.
      destruct (Rewrite.prepare toLowerCase e b) as [evs [resp|p]] eqn:Ep.
      * destruct (prepare_answered toLowerCase e b evs resp Ep) as [-> _].
        reflexivity.
      * destruct (prepare_inr toLowerCase e b evs p Ep)
          as [u [md [en [up [_ [_ [_ [Hu _]]]]]]]].
        unfold usable in Hu. rewrite Hk in Hu. discriminate.
    + intros Hm. unfold Rewrite.POST, Rewrite.prepare.
      rewrite Ht. fold defaultMode. rewrite Hm.
      unfold Rewrite.orEmpty. rewrite Hk. reflexivity.
  - intros Hk. apply usable_false in Hk. unfold usable in Hk.
    apply negb_false_iff in Hk. split.
    + intros b. unfold SelfImprove.POST. destruct b as [msg|u md]; [reflexivity|].
      destruct (nonEmptyString u); [|reflexivity].
      destruct (if valueTruthy md then _ else _); [|reflexivity].
      rewrite Hk. reflexivity.
    + intros Hm. unfold SelfImprove.POST. rewrite Ht.
      assert (Hv : valueTruthy mode = true).
      { unfold validMode in Hm. destruct mode; try discriminate.
        destruct (existsb (eqs s) SelfImprove.VALID_MODES) eqn:Ex; [|discriminate].
        destruct s; [vm_compute in Ex; discriminate|reflexivity]. }
      rewrite Hv, Hm, Hk. reflexivity.
Qed.

(** Environments without a key, and with the placeholder. *)
Definition keyless : Rewrite.env :=
  {| Rewrite.GROQ_API_KEY := None;
     Rewrite.SERPAPI_API_KEY := Some (js "serp");
     Rewrite.axios_get := fun _ => Rewrite.SearchThrows;
     Rewrite.groq_create := steady (js "ok") |}.

Definition placeholderKey : SelfImprove.env :=
  {| SelfImprove.GROQ_API_KEY := Some (js "your-key-here");
     SelfImprove.groq_create := steady (js "ok") |}.

Lemma unusable_key_stops_the_request_witness :
  Rewrite.POST asciiToLower keyless
    (Rewrite.BodyFields (JString (js "write a blog about tea"))
       (JString (js "content-generation")) (JBool true))
  = ([], json 500 (ErrorBody (INVALID_API_KEY Rewrite.ERROR_MESSAGES)))
  /\ SelfImprove.POST placeholderKey
       (SelfImprove.BodyFields (JString (js "write a blog about tea"))
          (JString (js "content-generation")))
     = ([], json 500 (ErrorBody (INVALID_API_KEY SelfImprove.ERROR_MESSAGES))).
Proof.
  split.
  - apply (proj1 (unusable_key_stops_the_request asciiToLower keyless
                    placeholderKey (JString (js "write a blog about tea"))
                    (JString (js "content-generation")) (JBool true)
                    (js "write a blog about tea") (js "content-generation")
                    eq_refl)).
    + left. reflexivity.
    + reflexivity.
  - apply (proj2 (unusable_key_stops_the_request asciiToLower keyless
                    placeholderKey (JString (js "write a blog about tea"))
                    (JString (js "content-generation")) (JBool true)
                    (js "write a blog about tea") (js "content-generation")
                    eq_refl)).
    + right. right. reflexivity.
    + reflexivity.
Defined.

(* ================================================================== *)
(** ** When the search is made *)
(* ================================================================== *)

Lemma filter_searches evs :
  forallb isSearch evs = true -> filter isSearch evs = evs.
Proof.
  induction evs as [|ev evs IH]; [reflexivity|].
  cbn [forallb filter]. intros H. apply andb_true_iff in H. destruct H as [H1 H2].
  rewrite H1, (IH H2). reflexivity.
Qed.

Lemma filter_no_search evs : searchCalls evs = 0 -> filter isSearch evs = [].
Proof.
  unfold searchCalls. destruct (filter isSearch evs); [reflexivity|discriminate].
Qed.

(** X10: for a request that passes the input validation and the key
    check, the search API is called exactly when web access is enabled or
    the mode is content-generation or document-rewriting, the search key
    is set and the prompt yields search terms; it is then called once,
    with these terms.  The two direct modes search even when the request
    leaves web access off. *)
Theorem search_is_made_when_enabled_or_direct :
  forall (toLowerCase : jsstring -> jsstring) (e : Rewrite.env)
         (text mode enableWebAccess : jsvalue) (userPrompt m : jsstring),
    nonEmptyString text = Some userPrompt ->
    validMode Rewrite.VALID_MODES (withDefault mode defaultMode) = Some m ->
    usable (Rewrite.GROQ_API_KEY e) = true ->
    filter isSearch
      (fst (Rewrite.POST toLowerCase e
              (Rewrite.BodyFields text mode enableWebAccess)))
    = if (valueTruthy (withDefault enableWebAccess (JBool false))
          || Rewrite.isDirectContent m)
         && configured (Rewrite.SERPAPI_API_KEY e)
      then match Rewrite.extractSearchTerms toLowerCase userPrompt with
           | Some q => [Search q]
           | None => []
           end
      else [].
Proof.
  intros toLowerCase e text mode enableWebAccess userPrompt m Ht Hm Hk.
  destruct (prepare_valid toLowerCase e text mode enableWebAccess userPrompt m
              Ht Hm Hk) as [p [Hp _]].
  unfold Rewrite.POST. rewrite Hp.
  destruct (complete_calls e p) as [Hs _].
  destruct (Rewrite.complete e p) as [evs' resp]. cbn [fst] in *.
  rewrite filter_app, (filter_no_search evs' Hs), app_nil_r.
  rewrite filter_searches
    by apply (searchStep_short toLowerCase e enableWebAccess m userPrompt).
  apply searchStep_trace.
Qed.

(** An environment with both keys whose search finds one result. *)
Definition connected : Rewrite.env :=
  {| Rewrite.GROQ_API_KEY := Some (js "gsk_live");
     Rewrite.SERPAPI_API_KEY := Some (js "serp");
     Rewrite.axios_get :=
       fun _ => Rewrite.SearchResolves
                  (Some [ {| Rewrite.title := Some (js "Tea");
                             Rewrite.snippet := Some (js "A drink.");
                             Rewrite.link := Some (js "https://tea.example") |} ]);
     Rewrite.groq_create := steady (js "ok") |}.

Lemma search_is_made_when_enabled_or_direct_witness :
  filter isSearch
    (fst (Rewrite.POST asciiToLower connected
            (Rewrite.BodyFields (JString (js "Write a blog about tea"))
               (JString (js "content-generation")) JUndefined)))
  = [Search (js "tea latest news 2025 current developments")].
Proof.
  apply (search_is_made_when_enabled_or_direct asciiToLower connected
           (JString (js "Write a blog about tea"))
           (JString (js "content-generation")) JUndefined
           (js "Write a blog about tea") (js "content-generation"));
    reflexivity.
Defined.

(* ================================================================== *)
(** ** What a successful answer reports *)
(* ================================================================== *)

Lemma validMode_In modes v m :
  validMode modes v = Some m -> v = JString m /\ In m modes.
Proof.
  unfold validMode. destruct v; try discriminate.
  destruct (existsb (eqs s) modes) eqn:Ex; [|discriminate].
  intros H. inversion H. subst. split; [reflexivity|].
  apply existsb_exists in Ex. destruct Ex as [x [Hin He]].
  apply eqs_true in He. subst. exact Hin.
Qed.

(** Every mode of the rewrite route has a display name. *)
Lemma rewrite_mode_named m :
  In m Rewrite.VALID_MODES ->
  exists name,
    lookup Rewrite.displayNames m = Some name
    /\ Rewrite.getModeDisplayName m = name /\ name <> m.
Proof.
  intros H. cbn in H.
  repeat (destruct H as [H|H];
          [subst m; eexists; split; [reflexivity|];
           split; [reflexivity|vm_compute; discriminate]|]).
  contradiction.
Qed.

Lemma attempts_last req sleeps :
  forall from,
    In (Create (from + List.length sleeps) req) (attempts req from sleeps).
Proof.
  induction sleeps as [|ms sleeps IH]; intros from.
  - left. rewrite Nat.add_0_r. reflexivity.
  - cbn [attempts List.length]. right. right.
    rewrite Nat.add_succ_r. apply (IH (S from)).
Qed.

Lemma complete_success e p evs r :
  Rewrite.complete e p = (evs, json 200 (RewriteBody r)) ->
  r_mode r = Rewrite.p_mode p
  /\ r_modeName r = Rewrite.getModeDisplayName (Rewrite.p_mode p)
  /\ isContentGeneration r = Rewrite.isDirectContent (Rewrite.p_mode p)
  /\ webAccessUsed r = Rewrite.p_webAccessUsed p
  /\ webSources r = Rewrite.p_webSources p
  /\ exists k c raw,
       In (Create k (rewriteRequest p)) evs
       /\ Rewrite.groq_create e (rewriteRequest p) k = Resolved c
       /\ firstContent c = Some raw /\ raw <> []
       /\ rewrittenPrompt r = Rewrite.cleanResponse raw (Rewrite.p_mode p).
Proof.
  unfold Rewrite.complete.
  destruct (negb (Rewrite.validateTokenLimits _ _ _)); [discriminate|].
  destruct (callGroqWithRetry _ _ _ _ _ _) as [evs0 result] eqn:Ec.
  destruct result as [c|msg|]; [|discriminate|discriminate].
  destruct (firstContent c) as [[|x raw]|] eqn:Ef; [discriminate| |discriminate].
  intros H. inversion H. subst evs r. cbn [r_mode r_modeName isContentGeneration
    webAccessUsed webSources rewrittenPrompt].
  repeat (split; [reflexivity|]).
  unfold callGroqWithRetry in Ec.
  destruct (retryLoop_returned Rewrite.ERROR_MESSAGES (Rewrite.groq_create e)
              (rewriteRequest p) 3 3 0 evs0 c Ec) as [k [Hk [Hc [_ Hn]]]].
  destruct (retryLoop_shape Rewrite.ERROR_MESSAGES (Rewrite.groq_create e)
              (rewriteRequest p) 3 3 0 eq_refl (le_S _ _ (le_S _ _ (le_n 1))))
    as [sleeps [_ [Hf _]]].
  change (fst (retryLoop Rewrite.ERROR_MESSAGES (Rewrite.groq_create e)
                 (rewriteRequest p) 3 3 0)) with
    (fst (retryLoop Rewrite.ERROR_MESSAGES (Rewrite.groq_create e)
            {| messages :=
                 [ {| role := js "system";
                      content := Rewrite.p_systemInstructions p |};
                   {| role := js "user"; content := Rewrite.p_userMessage p |} ];
               model := modelName;
               temperature :=
                 (if Rewrite.isDirectContent (Rewrite.p_mode p)
                  then 8 # 10 else 4 # 10)%Q;
               max_tokens :=
                 Z.min (if Rewrite.isDirectContent (Rewrite.p_mode p)
                        then 3000 else 500)%Z maxCompletionTokens |} 3 3 0)) in Hf.
  rewrite Ec in Hf. cbn [fst] in Hf. subst evs0.
  destruct (attempts_calls (rewriteRequest p) sleeps 0) as [Hn' _].
  rewrite Hn' in Hn. inversion Hn. subst k.
  exists (List.length sleeps), c, (x :: raw).
  split; [|split; [exact Hc|split; [exact Ef|split; [discriminate|reflexivity]]]].
  apply (attempts_last (rewriteRequest p) sleeps 0).
Qed.

(** X11: a successful answer names a valid mode and its display name
    (never the bare mode key), flags the two direct modes, reports web
    access exactly when it lists sources, and then a search was made; and
    its text is the cleaning, for that mode, of the non-empty first
    choice that the provider returned on a call of this request. *)
Theorem success_reports_what_was_done :
  forall (toLowerCase : jsstring -> jsstring) (e : Rewrite.env)
         (b : Rewrite.requestBody) (evs : list event) (r : rewriteResult),
    Rewrite.POST toLowerCase e b = (evs, json 200 (RewriteBody r)) ->
    In (r_mode r) Rewrite.VALID_MODES
    /\ lookup Rewrite.displayNames (r_mode r) = Some (r_modeName r)
    /\ r_modeName r <> r_mode r
    /\ isContentGeneration r = Rewrite.isDirectContent (r_mode r)
    /\ webAccessUsed r = negb (Nat.eqb (List.length (webSources r)) 0)
    /\ (webAccessUsed r = true -> exists q, In (Search q) evs)
    /\ exists k req c raw,
         In (Create k req) evs
         /\ Rewrite.groq_create e req k = Resolved c
         /\ firstContent c = Some raw /\ raw <> []
         /\ rewrittenPrompt r = Rewrite.cleanResponse raw (r_mode r).
Proof.
  intros toLowerCase e b evs r H. unfold Rewrite.POST in H.
  destruct (Rewrite.prepare toLowerCase e b) as [evs0 [resp|p]] eqn:Ep.
  - destruct (prepare_answered toLowerCase e b evs0 resp Ep) as [_ [_ Hs]].
    inversion H. subst. simpl in Hs. intuition discriminate.
  - destruct (Rewrite.complete e p) as [evs1 resp] eqn:Ec.
    inversion H. subst evs resp. clear H.
    destruct (complete_success e p evs1 r Ec)
      as [Hm [Hn [Hd [Hw [Hs [k [c [raw [Hin [Hc [Hf [Hr Ht]]]]]]]]]]]].
    destruct (prepare_inr toLowerCase e b evs0 p Ep)
      as [u [md [en [up [_ [_ [Hv [_ [_ [Hev [[Hused [_ Hsrc]] _]]]]]]]]]]].
    destruct (validMode_In _ _ _ Hv) as [_ Hin'].
    destruct (rewrite_mode_named _ Hin') as [name [Hl [Hg Hne]]].
    rewrite Hm, Hn, Hd, Hw, Hs.
    split; [exact Hin'|]. split; [rewrite Hg; exact Hl|].
    split; [rewrite Hg; exact Hne|]. split; [reflexivity|].
    split; [|split].
    + rewrite Hsrc. destruct (Rewrite.p_webAccessUsed p) eqn:Eu; [|reflexivity].
      symmetry in Hused. apply andb_true_iff in Hused. destruct Hused as [_ Hl'].
      destruct (Rewrite.sources _); [discriminate|reflexivity].
    + intros Hu. rewrite Hu in Hused. symmetry in Hused.
      apply andb_true_iff in Hused. destruct Hused as [_ Hl'].
      unfold searchStep in Hev, Hl'.
      destruct (_ || _).
      * destruct (performWebSearch_consistent toLowerCase e up) as [_ Hq].
        destruct Hq as [q [Hq _]].
        { intros Hnil. rewrite Hnil in Hl'. discriminate. }
        exists q. apply in_or_app. left. rewrite Hev, Hq. left. reflexivity.
      * discriminate.
    + exists k, (rewriteRequest p), c, raw.
      split; [apply in_or_app; right; exact Hin|].
      split; [exact Hc|]. split; [exact Hf|]. split; [exact Hr|exact Ht].
Qed.

Lemma success_reports_what_was_done_witness :
  In (js "content-generation") Rewrite.VALID_MODES
  /\ lookup Rewrite.displayNames (js "content-generation")
     = Some (js "Content Generation Mode").
Proof.
  pose proof (success_reports_what_was_done asciiToLower connected
                (Rewrite.BodyFields (JString (js "Write a blog about tea"))
                   (JString (js "content-generation")) JUndefined)
                _ _ eq_refl) as H.
  split; [exact (proj1 H)|exact (proj1 (proj2 H))].
Defined.

(* ================================================================== *)
(** ** What the provider is sent *)
(* ================================================================== *)

Lemma attempts_In req sleeps :
  forall from k r, In (Create k r) (attempts req from sleeps) -> r = req.
Proof.
  induction sleeps as [|ms sleeps IH]; intros from k r H.
  - destruct H as [H|[]]. inversion H. reflexivity.
  - cbn [attempts] in H. destruct H as [H|[H|H]].
    + inversion H. reflexivity.
    + discriminate.
    + exact (IH _ _ _ H).
Qed.

(** The user's text stands unchanged inside the user message, whatever
    the mode and whether or not web data is put in front. *)
Lemma buildUserMessage_holds_prompt mode userPrompt used webData :
  exists before after,
    Rewrite.buildUserMessage mode userPrompt used webData
    = before ++ userPrompt ++ after.
Proof.
  unfold Rewrite.buildUserMessage.
  destruct (eqs mode (js "content-generation")).
  - destruct used.
    + exists (js "Use this current information to enhance your content: "
              ++ webData ++ nl ++ nl
              ++ js "Generate complete, publication-ready content for: "), [].
      rewrite app_nil_r. repeat rewrite <- app_assoc. reflexivity.
    + exists (js "Generate complete, publication-ready content for: "), [].
      rewrite app_nil_r. reflexivity.
  - destruct (eqs mode (js "document-rewriting")).
    + destruct used.
      * exists (js "Context for enhancement: " ++ webData ++ nl ++ nl
                ++ js "Transform this content into a professional document:"
                ++ nl ++ nl), [].
        rewrite app_nil_r. repeat rewrite <- app_assoc. reflexivity.
      * exists (js "Transform this content into a professional document:"
                ++ nl ++ nl), [].
        rewrite app_nil_r. repeat rewrite <- app_assoc. reflexivity.
    + destruct used.
      * exists (js "Context: " ++ webData ++ nl ++ nl
                ++ js "REWRITE THIS SPECIFIC PROMPT for "
                ++ Rewrite.getModeDisplayName mode ++ js ":" ++ nl ++ dquote),
               (dquote ++ nl ++ nl
                ++ js "Apply your mode's specialization to THEIR specific request. Do not create generic examples.").
        repeat rewrite <- app_assoc. reflexivity.
      * exists (js "REWRITE THIS SPECIFIC PROMPT for "
                ++ Rewrite.getModeDisplayName mode ++ js ":" ++ nl ++ dquote),
               (dquote ++ nl ++ nl
                ++ js "Apply your mode's specialization to THEIR specific request. Do not create generic examples.").
        repeat rewrite <- app_assoc. reflexivity.
Qed.

(** X12: every completion call of a request carries the same two
    messages: the system instructions of the request's mode, and a user
    message that contains the user's text unchanged; the model is
    llama-3.3-70b-versatile; the two direct modes ask for at most 3000
    tokens at temperature 0.8, the others for at most 500 at 0.4. *)
Theorem provider_receives_the_prompt :
  forall (toLowerCase : jsstring -> jsstring) (e : Rewrite.env)
         (text mode enableWebAccess : jsvalue) (userPrompt m : jsstring)
         (k : nat) (req : completionRequest),
    nonEmptyString text = Some userPrompt ->
    validMode Rewrite.VALID_MODES (withDefault mode defaultMode) = Some m ->
    In (Create k req)
       (fst (Rewrite.POST toLowerCase e
               (Rewrite.BodyFields text mode enableWebAccess))) ->
    exists systemInstructions before after,
      lookup Rewrite.SYSTEM_INSTRUCTIONS m = Some systemInstructions
      /\ messages req
         = [ {| role := js "system"; content := systemInstructions |};
             {| role := js "user";
                content := before ++ userPrompt ++ after |} ]
      /\ model req = js "llama-3.3-70b-versatile"
      /\ max_tokens req
         = (if Rewrite.isDirectContent m then 3000 else 500)%Z
      /\ temperature req
         = (if Rewrite.isDirectContent m then 8 # 10 else 4 # 10)%Q.
Proof.
  intros toLowerCase e text mode enableWebAccess userPrompt m k req Ht Hm Hin.
  unfold Rewrite.POST in Hin.
  destruct (Rewrite.prepare toLowerCase e
              (Rewrite.BodyFields text mode enableWebAccess))
    as [evs [resp|p]] eqn:Ep.
  - destruct (prepare_answered _ _ _ _ _ Ep) as [-> _]. destruct Hin.
  - destruct (prepare_inr _ _ _ _ _ Ep)
      as [u [md [en [up [Hb [Hu [Hv [_ [Hs [Hev [_ Hmsg]]]]]]]]]]].
    inversion Hb. subst u md en. clear Hb.
    rewrite Ht in Hu. inversion Hu. subst up. clear Hu.
    rewrite Hm in Hv. inversion Hv as [Hpm]. clear Hv.
    destruct (searchStep_short toLowerCase e enableWebAccess (Rewrite.p_mode p)
                userPrompt) as [Hall _].
    rewrite <- Hev in Hall.
    destruct (complete_trace e p) as [_ Htr].
    destruct (Rewrite.complete e p) as [evs' resp]. cbn [fst snd] in *.
    apply in_app_or in Hin. destruct Hin as [Hin|Hin].
    { exfalso. exact (search_events_no_create evs Hall k req Hin). }
    destruct Htr as [[-> _]|[He _]]; [destruct Hin|].
    destruct (retryLoop_shape Rewrite.ERROR_MESSAGES (Rewrite.groq_create e)
                (rewriteRequest p) 3 3 0 eq_refl (le_S _ _ (le_S _ _ (le_n 1))))
      as [sleeps [_ [Hf _]]].
    assert (Hf' : evs' = attempts (rewriteRequest p) 0 sleeps)
      by (rewrite He; exact Hf).
    rewrite Hf' in Hin. apply attempts_In in Hin. subst req.
    destruct (buildUserMessage_holds_prompt (Rewrite.p_mode p) userPrompt
                (Rewrite.p_webAccessUsed p) (Rewrite.p_webData p))
      as [before [after Hba]].
    exists (Rewrite.p_systemInstructions p), before, after.
    split; [exact Hs|].
    unfold rewriteRequest, requestOf. cbn [messages model max_tokens temperature].
    rewrite Hmsg, Hba.
    split; [reflexivity|]. split; [reflexivity|].
    split; [|reflexivity].
    destruct (Rewrite.isDirectContent (Rewrite.p_mode p)); reflexivity.
Qed.

Lemma provider_receives_the_prompt_witness :
  exists systemInstructions before after,
    lookup Rewrite.SYSTEM_INSTRUCTIONS (js "coding-agent")
    = Some systemInstructions
    /\ messages (rewriteRequest
                   {| Rewrite.p_mode := js "coding-agent";
                      Rewrite.p_systemInstructions := systemInstructions;
                      Rewrite.p_userMessage :=
                        Rewrite.buildUserMessage (js "coding-agent")
                          (js "sort a list") false [];
                      Rewrite.p_webData := [];
                      Rewrite.p_webSources := [];
                      Rewrite.p_webAccessUsed := false |})
       = [ {| role := js "system"; content := systemInstructions |};
           {| role := js "user";
              content := before ++ js "sort a list" ++ after |} ].
Proof.
  destruct (provider_receives_the_prompt asciiToLower connected
              (JString (js "sort a list")) (JString (js "coding-agent"))
              JUndefined (js "sort a list") (js "coding-agent") 0
              (rewriteRequest
                 {| Rewrite.p_mode := js "coding-agent";
                    Rewrite.p_systemInstructions :=
                      match lookup Rewrite.SYSTEM_INSTRUCTIONS (js "coding-agent")
                      with Some s => s | None => [] end;
                    Rewrite.p_userMessage :=
                      Rewrite.buildUserMessage (js "coding-agent")
                        (js "sort a list") false [];
                    Rewrite.p_webData := [];
                    Rewrite.p_webSources := [];
                    Rewrite.p_webAccessUsed := false |})
              eq_refl eq_refl (or_introl eq_refl))
    as [sys [before [after [Hs [Hm _]]]]].
  exists sys, before, after. split; [exact Hs|].
  vm_compute in Hs. inversion Hs. subst sys. exact Hm.
Defined.

(* ================================================================== *)
(** ** The self-improve route *)
(* ================================================================== *)

(** The request that the self-improve route sends. *)
Definition improveRequest (systemInstructions currentOutput : jsstring)
  : completionRequest :=
  requestOf
    [ {| role := js "system"; content := systemInstructions |};
      {| role := js "user";
         content := SelfImprove.refinementPrompt currentOutput |} ]
    (7 # 10)%Q 2000%Z.

(** The mode of a request to the self-improve route, which has no
    default: [!mode || !VALID_MODES.includes(mode)] rejects it. *)
Definition improveMode (mode : jsvalue) : option jsstring :=
  if valueTruthy mode then validMode SelfImprove.VALID_MODES mode else None.

(** The route, from the parsed body on, in terms of its invocation. *)
Lemma improve_POST ei b :
  (fst (SelfImprove.POST ei b) = []
   /\ In (statusCode (snd (SelfImprove.POST ei b))) [400; 413; 500]%Z
   /\ exists msg, body (snd (SelfImprove.POST ei b)) = ErrorBody msg
                  /\ truthy msg = true)
  \/ (exists text mode currentOutput m systemInstructions,
         b = SelfImprove.BodyFields text mode
         /\ nonEmptyString text = Some currentOutput
         /\ improveMode mode = Some m
         /\ usable (SelfImprove.GROQ_API_KEY ei) = true
         /\ lookup SelfImprove.SYSTEM_INSTRUCTIONS m = Some systemInstructions
         /\ SelfImprove.validateTokenLimits systemInstructions
              (SelfImprove.refinementPrompt currentOutput) = true
         /\ SelfImprove.POST ei b
            = (fst (retryLoop SelfImprove.ERROR_MESSAGES
                      (SelfImprove.groq_create ei)
                      (improveRequest systemInstructions currentOutput) 3 3 0),
               match snd (retryLoop SelfImprove.ERROR_MESSAGES
                            (SelfImprove.groq_create ei)
                            (improveRequest systemInstructions currentOutput)
                            3 3 0) with
               | Thrown msg => caught SelfImprove.ERROR_MESSAGES msg
               | Fallthrough => caught SelfImprove.ERROR_MESSAGES undefinedChoices
               | Returned completion =>
                   match firstContent completion with
                   | None | Some [] =>
                       json 500 (ErrorBody
                                   (GENERIC_ERROR SelfImprove.ERROR_MESSAGES))
                   | Some raw =>
                       json 200 (ImproveBody
                         {| improvedOutput := SelfImprove.cleanResponse raw m;
                            i_mode := m;
                            i_modeName := SelfImprove.getModeDisplayName m |})
                   end
               end)).
Proof.
  unfold SelfImprove.POST. destruct b as [message|text mode].
  - left. split; [reflexivity|]. split; [right; right; left; reflexivity|].
    unfold caught, json. cbn [snd body].
    destruct message; eexists; split; reflexivity.
  - destruct (nonEmptyString text) as [currentOutput|] eqn:Et.
    2:{ left. split; [reflexivity|]. split; [left; reflexivity|].
        eexists. split; reflexivity. }
    fold (improveMode mode).
    destruct (improveMode mode) as [m|] eqn:Em.
    2:{ left. split; [reflexivity|]. split; [left; reflexivity|].
        eexists. split; reflexivity. }
    fold (usable (SelfImprove.GROQ_API_KEY ei)).
    destruct (negb (configured (SelfImprove.GROQ_API_KEY ei))
              || eqs match SelfImprove.GROQ_API_KEY ei with
                     | Some k => k
                     | None => []
                     end (js "your-key-here")) eqn:Ek.
    { left. split; [reflexivity|]. split; [right; right; left; reflexivity|].
      eexists. split; reflexivity. }
    destruct (lookup SelfImprove.SYSTEM_INSTRUCTIONS m) as [sys|] eqn:Es.
    2:{ left. split; [reflexivity|]. split; [right; right; left; reflexivity|].
        eexists. split; reflexivity. }
    destruct (SelfImprove.validateTokenLimits sys
                (SelfImprove.refinementPrompt currentOutput)) eqn:Ev; cbn [negb].
    2:{ left. split; [reflexivity|]. split; [right; left; reflexivity|].
        eexists. split; reflexivity. }
    right. exists text, mode, currentOutput, m, sys.
    split; [reflexivity|]. split; [exact Et|]. split; [exact Em|].
    split; [unfold usable; rewrite Ek; reflexivity|].
    split; [exact Es|]. split; [exact Ev|].
    unfold callGroqWithRetry. fold (improveRequest sys currentOutput).
    destruct (retryLoop _ _ _ _ _ _) as [evs result]. cbn [fst snd].
    destruct result as [c|msg|]; [|reflexivity|reflexivity].
    destruct (firstContent c) as [[|x raw]|]; reflexivity.
Qed.

(** What a response of the self-improve route looks like. *)
Definition improved (resp : response) : Prop :=
  (statusCode resp = 200%Z /\ exists r, body resp = ImproveBody r)
  \/ (In (statusCode resp) [400; 413; 500]%Z
      /\ exists msg, body resp = ErrorBody msg /\ truthy msg = true).

Lemma improve_budget create req :
  let evs := fst (retryLoop SelfImprove.ERROR_MESSAGES create req 3 3 0) in
  searchCalls evs = 0 /\ 1 <= completionCalls evs <= 3
  /\ ~ In (Sleep None) evs /\ (sleepTotal evs <= 6000)%Z.
Proof.
  cbv zeta.
  destruct (retryLoop_shape SelfImprove.ERROR_MESSAGES create req 3 3 0 eq_refl
              (le_S _ _ (le_S _ _ (le_n 1)))) as [sleeps [Hl [Hf _]]].
  destruct (attempts_calls req sleeps 0) as [Hc Hs].
  rewrite Hf, Hc, Hs. split; [reflexivity|]. split; [lia|].
  destruct sleeps as [|a [|b [|c sleeps]]]; [| | |simpl in Hl; lia];
    rewrite <- Hf; clear Hf Hc Hs Hl;
    cbn [retryLoop];
    (destruct (create req 0) as [c0|e0];
      [|destruct (create req 1) as [c1|e1];
        [|destruct (create req 2) as [c2|e2]]]);
    cbn [Nat.eqb Nat.sub negb];
    split_ifs;
    cbn [fst sleepTotal delayAt delays nth_error option_map In];
    (split; [intros H; intuition discriminate|lia]).
Qed.

Lemma improve_POST_answered :
  forall (ei : SelfImprove.env) (b : SelfImprove.requestBody),
    let evs := fst (SelfImprove.POST ei b) in
    let resp := snd (SelfImprove.POST ei b) in
    improved resp
    /\ searchCalls evs = 0
    /\ completionCalls evs <= 3
    /\ ~ In (Sleep None) evs
    /\ (sleepTotal evs <= 6000)%Z
    /\ (In (statusCode resp) [400; 413]%Z -> evs = [])
    /\ (statusCode resp = 200%Z -> 1 <= completionCalls evs).
Proof.
  intros ei b. cbv zeta.
  destruct (improve_POST ei b)
    as [[He [Hs Hb]]
       |[text [mode [cur [m [sys [_ [_ [_ [_ [_ [_ Hp]]]]]]]]]]]].
  - rewrite He. split; [right; split; assumption|].
    split; [reflexivity|]. split; [unfold completionCalls; simpl; lia|].
    split; [intros []|]. split; [simpl; lia|]. split; [reflexivity|].
    intros H. rewrite H in Hs. simpl in Hs. intuition discriminate.
  - rewrite Hp. cbn [fst snd].
    destruct (improve_budget (SelfImprove.groq_create ei) (improveRequest sys cur))
      as [Hsc [Hcc [Hn Hst]]].
    split.
    + destruct (snd (retryLoop _ _ _ _ _ _)) as [c|msg|].
      * destruct (firstContent c) as [[|x raw]|].
        -- right. split; [right; right; left; reflexivity|].
           eexists. split; reflexivity.
        -- left. split; [reflexivity|]. eexists. reflexivity.
        -- right. split; [right; right; left; reflexivity|].
           eexists. split; reflexivity.
      * right. split; [right; right; left; reflexivity|].
        unfold caught, json. cbn [body].
        destruct msg; eexists; split; reflexivity.
      * right. split; [right; right; left; reflexivity|].
        eexists. split; reflexivity.
    + split; [exact Hsc|]. split; [lia|]. split; [exact Hn|].
      split; [exact Hst|]. split; [|intros _; lia].
      intros Hst'. exfalso.
      destruct (snd (retryLoop _ _ _ _ _ _)) as [c|msg|].
      * destruct (firstContent c) as [[|x raw]|]; simpl in Hst';
          intuition discriminate.
      * simpl in Hst'. intuition discriminate.
      * simpl in Hst'. intuition discriminate.
Qed.

(** X13: the self-improve route never calls the search API.  It answers
    with status 200 and a result, or with status 400, 413 or 500 and a
    message that is not empty; a request costs at most three completion
    calls and 6000 ms of sleep; with status 400 or 413 nothing was
    called, and with status 200 the provider was. *)
Theorem improve_answers_and_costs :
  forall (ei : SelfImprove.env) (b : SelfImprove.requestBody),
    let evs := fst (SelfImprove.POST ei b) in
    let resp := snd (SelfImprove.POST ei b) in
    improved resp
    /\ searchCalls evs = 0
    /\ completionCalls evs <= 3
    /\ ~ In (Sleep None) evs
    /\ (sleepTotal evs <= 6000)%Z
    /\ (In (statusCode resp) [400; 413]%Z -> evs = [])
    /\ (statusCode resp = 200%Z -> 1 <= completionCalls evs).
Proof. exact improve_POST_answered. Qed.

Lemma improve_mode_named m :
  In m SelfImprove.VALID_MODES ->
  exists name,
    lookup SelfImprove.displayNames m = Some name
    /\ SelfImprove.getModeDisplayName m = name
    /\ m <> js "context-engineering" /\ m <> js "ultimate-mode".
Proof.
  intros H. cbn in H.
  repeat (destruct H as [H|H];
          [subst m; eexists; split; [reflexivity|];
           split; [reflexivity|split; vm_compute; discriminate]|]).
  contradiction.
Qed.

Lemma nonEmptyString_Some text s :
  nonEmptyString text = Some s -> text = JString s /\ s <> [].
Proof.
  destruct text as [| | | |[|c t]|]; try discriminate.
  intros H. inversion H. split; [reflexivity|discriminate].
Qed.

(** X14: a successful answer of the self-improve route names one of the
    seven modes that have system instructions, with its display name; the
    two further modes that the table of display names lists,
    context-engineering and ultimate-mode, are never accepted.  The
    improved text is the cleaning, for that mode, of the non-empty first
    choice returned on a call whose user message is the refinement prompt
    built around the current output. *)
Theorem improvement_reports_what_was_done :
  forall (ei : SelfImprove.env) (b : SelfImprove.requestBody)
         (evs : list event) (r : improveResult),
    SelfImprove.POST ei b = (evs, json 200 (ImproveBody r)) ->
    In (i_mode r) SelfImprove.VALID_MODES
    /\ lookup SelfImprove.displayNames (i_mode r) = Some (i_modeName r)
    /\ i_mode r <> js "context-engineering"
    /\ i_mode r <> js "ultimate-mode"
    /\ lookup SelfImprove.displayNames (js "ultimate-mode")
       = Some (js "Ultimate Mode")
    /\ exists currentOutput systemInstructions k c raw,
         b = SelfImprove.BodyFields (JString currentOutput) (JString (i_mode r))
         /\ lookup SelfImprove.SYSTEM_INSTRUCTIONS (i_mode r)
            = Some systemInstructions
         /\ In (Create k (improveRequest systemInstructions currentOutput)) evs
         /\ SelfImprove.groq_create ei
              (improveRequest systemInstructions currentOutput) k
            = Resolved c
         /\ firstContent c = Some raw /\ raw <> []
         /\ improvedOutput r = SelfImprove.cleanResponse raw (i_mode r).
Proof.
  intros ei b evs r H.
  destruct (improve_POST ei b)
    as [[He [Hs Hb]]
       |[text [mode [cur [m [sys [Hbody [Ht [Hm [_ [Hsys [_ Hp]]]]]]]]]]]].
  - rewrite H in Hs. simpl in Hs. intuition discriminate.
  - rewrite H in Hp.
    destruct (retryLoop SelfImprove.ERROR_MESSAGES (SelfImprove.groq_create ei)
                (improveRequest sys cur) 3 3 0) as [evs0 result] eqn:Er.
    cbn [fst snd] in Hp.
    destruct result as [c|msg|]; [|discriminate Hp|discriminate Hp].
    destruct (firstContent c) as [[|x raw]|] eqn:Ef;
      [discriminate Hp| |discriminate Hp].
    inversion Hp. subst evs0 r. clear Hp.
    cbn [i_mode i_modeName improvedOutput].
    unfold improveMode in Hm. destruct (valueTruthy mode); [|discriminate].
    destruct (validMode_In _ _ _ Hm) as [-> Hin].
    destruct (improve_mode_named m Hin) as [name [Hl [Hg [Hn1 Hn2]]]].
    destruct (nonEmptyString_Some text cur Ht) as [-> _].
    split; [exact Hin|]. split; [rewrite Hg; exact Hl|].
    split; [exact Hn1|]. split; [exact Hn2|]. split; [reflexivity|].
    destruct (retryLoop_returned SelfImprove.ERROR_MESSAGES
                (SelfImprove.groq_create ei) (improveRequest sys cur) 3 3 0
                evs c Er) as [k [Hk [Hc [_ Hn]]]].
    destruct (retryLoop_shape SelfImprove.ERROR_MESSAGES
                (SelfImprove.groq_create ei) (improveRequest sys cur) 3 3 0
                eq_refl (le_S _ _ (le_S _ _ (le_n 1)))) as [sleeps [_ [Hf _]]].
    rewrite Er in Hf. cbn [fst] in Hf. subst evs.
    destruct (attempts_calls (improveRequest sys cur) sleeps 0) as [Hn' _].
    rewrite Hn' in Hn. inversion Hn. subst k.
    exists cur, sys, (List.length sleeps), c, (x :: raw).
    split; [exact Hbody|]. split; [exact Hsys|].
    split; [apply (attempts_last (improveRequest sys cur) sleeps 0)|].
    split; [exact Hc|]. split; [exact Ef|].
    split; [discriminate|reflexivity].
Qed.

Definition improver : SelfImprove.env :=
  {| SelfImprove.GROQ_API_KEY := Some (js "gsk_live");
     SelfImprove.groq_create := recovering (js "Here is the improved version: Better.") |}.

Lemma improvement_reports_what_was_done_witness :
  In (js "coding-agent") SelfImprove.VALID_MODES
  /\ lookup SelfImprove.displayNames (js "coding-agent")
     = Some (js "Coding Agent Mode").
Proof.
  pose proof (improvement_reports_what_was_done improver
                (SelfImprove.BodyFields (JString (js "Good."))
                   (JString (js "coding-agent")))
                _ _ eq_refl) as H.
  split; [exact (proj1 H)|exact (proj1 (proj2 H))].
Defined.

(* ================================================================== *)
(** ** The cleaned text has no blank margin *)
(* ================================================================== *)

Lemma dropWhile_tail p (s : jsstring) :
  exists a, s = a ++ dropWhile p s /\ forallb p a = true.
Proof.
  induction s as [|c s [a [IH Ha]]].
  - exists []. split; reflexivity.
  - cbn [dropWhile]. destruct (p c) eqn:Ec.
    + exists (c :: a). cbn [app forallb]. rewrite Ec, Ha.
      split; [f_equal; exact IH|reflexivity].
    + exists []. split; reflexivity.
Qed.

Lemma dropWhile_head p (s : jsstring) c t :
  dropWhile p s = c :: t -> p c = false.
Proof.
  induction s as [|d s IH]; [discriminate|].
  cbn [dropWhile]. destruct (p d) eqn:Ed.
  - exact IH.
  - intros H. inversion H. subst. exact Ed.
Qed.

(** A trimmed text is empty, or starts and ends with a character that is
    no whitespace. *)
Lemma trim_margins (s : jsstring) :
  trim s = []
  \/ exists c t, trim s = c :: t /\ isSpace c = false
                 /\ isSpace (last (trim s) 0%N) = false.
Proof.
  unfold trim, trimStart, trimEnd.
  destruct (dropWhile isSpace s) as [|c u] eqn:Eu; [left; reflexivity|].
  pose proof (dropWhile_head isSpace s c u Eu) as Hc.
  destruct (dropWhile isSpace (rev (c :: u))) as [|d v] eqn:Ev;
    [left; reflexivity|].
  pose proof (dropWhile_head isSpace _ d v Ev) as Hd.
  destruct (dropWhile_tail isSpace (rev (c :: u))) as [a [Ha _]].
  rewrite Ev in Ha.
  assert (Hr : c :: u = rev (d :: v) ++ rev a).
  { rewrite <- rev_app_distr, <- Ha, rev_involutive. reflexivity. }
  right.
  assert (Hl : last (rev (d :: v)) 0%N = d).
  { cbn [rev]. apply last_last. }
  destruct (rev (d :: v)) as [|x t] eqn:Er.
  - apply (f_equal (@List.length N)) in Er. rewrite length_rev in Er. discriminate.
  - exists x, t. cbn [app] in Hr. inversion Hr. subst x.
    split; [reflexivity|]. split; [exact Hc|]. rewrite Hl. exact Hd.
Qed.

Lemma trim_trim (s : jsstring) : trim (trim s) = trim s.
Proof.
  destruct (trim_margins s) as [H|[c [t [H [Hc Hl]]]]].
  - rewrite H. reflexivity.
  - exact (trim_fixed (trim s) c t H Hc Hl).
Qed.

(** X15: whatever the reply, the mode and the catalogue of patterns, the
    cleaned text is trimmed: it is empty, or it starts and ends with a
    character that is no whitespace, and trimming it again changes
    nothing. *)
Theorem cleaned_text_is_trimmed :
  forall (cat : catalogue) (response mode : jsstring),
    trim (cleanResponseWith cat response mode)
    = cleanResponseWith cat response mode
    /\ (cleanResponseWith cat response mode = []
        \/ exists c t,
             cleanResponseWith cat response mode = c :: t
             /\ isSpace c = false
             /\ isSpace (last (cleanResponseWith cat response mode) 0%N)
                = false).
Proof.
  intros cat response mode. unfold cleanResponseWith.
  split; [apply trim_trim|apply trim_margins].
Qed.

(* ================================================================== *)
(** ** Cleaning in the plain modes only cuts the margins *)
(* ================================================================== *)

(** [t] is one contiguous piece of [s]. *)
Definition pieceOf (t s : jsstring) : Prop :=
  exists before after, s = before ++ t ++ after.

Lemma pieceOf_refl s : pieceOf s s.
Proof. exists [], []. rewrite app_nil_r. reflexivity. Qed.

Lemma pieceOf_trans a b c : pieceOf a b -> pieceOf b c -> pieceOf a c.
Proof.
  intros [p [q ->]] [p' [q' ->]]. exists (p' ++ p), (q ++ q').
  repeat rewrite <- app_assoc. reflexivity.
Qed.

Lemma pieceOf_tail a s : pieceOf (a ++ s) (a ++ s) -> pieceOf s (a ++ s).
Proof. intros _. exists a, []. rewrite app_nil_r. reflexivity. Qed.

Lemma pieceOf_length t s : pieceOf t s -> List.length t <= List.length s.
Proof. intros [p [q ->]]. rewrite !length_app. lia. Qed.

Lemma trim_piece s : pieceOf (trim s) s.
Proof.
  unfold trim, trimStart, trimEnd.
  destruct (dropWhile_tail isSpace s) as [a [Ha _]].
  destruct (dropWhile_tail isSpace (rev (dropWhile isSpace s))) as [b [Hb _]].
  exists a, (rev b).
  rewrite <- rev_app_distr, <- Hb, rev_involutive. exact Ha.
Qed.

Lemma firstn_skipn_piece n m (s : jsstring) : pieceOf (firstn n (skipn m s)) s.
Proof.
  exists (firstn m s), (skipn n (skipn m s)).
  rewrite (firstn_skipn n (skipn m s)), (firstn_skipn m s). reflexivity.
Qed.

Lemma slice_piece s b e : pieceOf (slice s b e) s.
Proof. unfold slice. apply firstn_skipn_piece. Qed.

Lemma removeQuotes_piece s : pieceOf (removeQuotes s) s.
Proof.
  unfold removeQuotes. destruct (_ || _); [|apply pieceOf_refl].
  apply (pieceOf_trans _ (slice s 1 (-1)) _); [apply trim_piece|apply slice_piece].
Qed.

(** *** What a match consumes *)

(** [t] is what is left of [s] after some of it was read. *)
Definition tailOf (t s : jsstring) : Prop := exists a, s = a ++ t.

Lemma tailOf_refl s : tailOf s s.
Proof. exists []. reflexivity. Qed.

Lemma tailOf_cons c t s : tailOf t s -> tailOf t (c :: s).
Proof. intros [a ->]. exists (c :: a). reflexivity. Qed.

Lemma tailOf_trans a b c : tailOf a b -> tailOf b c -> tailOf a c.
Proof. intros [p ->] [q ->]. exists (q ++ p). rewrite app_assoc. reflexivity. Qed.

Lemma starK_tail test k :
  forall rest caps prev pos x,
    starK test k caps prev rest pos = Some x ->
    exists st1, k st1 = Some x /\ tailOf (ms_rest st1) rest.
Proof.
  induction rest as [|c rest IH]; intros caps prev pos x H.
  - cbn [starK] in H. eexists. split; [exact H|apply tailOf_refl].
  - cbn [starK] in H. destruct (test c).
    + destruct (starK test k caps (Some c) rest (S pos)) as [y|] eqn:Es.
      * inversion H. subst y. destruct (IH _ _ _ _ Es) as [st1 [Hk Ht]].
        exists st1. split; [exact Hk|apply tailOf_cons; exact Ht].
      * eexists. split; [exact H|apply tailOf_refl].
    + eexists. split; [exact H|apply tailOf_refl].
Qed.

Lemma repeatK_tail test k :
  forall n st x,
    repeatK test n k st = Some x ->
    exists st1, k st1 = Some x /\ tailOf (ms_rest st1) (ms_rest st).
Proof.
  induction n as [|n IH]; intros st x H.
  - exists st. split; [exact H|apply tailOf_refl].
  - cbn [repeatK] in H. destruct (ms_rest st) as [|c rest] eqn:Er; [discriminate|].
    destruct (test c); [|discriminate].
    destruct (IH _ _ H) as [st1 [Hk Ht]]. exists st1. split; [exact Hk|].
    cbn [advance ms_rest] in Ht. apply tailOf_cons. exact Ht.
Qed.

(** A match that succeeds has called its continuation, on a state whose
    input is a tail of the input it started with. *)
Lemma mtch_tail fl r :
  forall st k x,
    mtch fl r st k = Some x ->
    exists st1, k st1 = Some x /\ tailOf (ms_rest st1) (ms_rest st).
Proof.
  induction r as [cl| |r1 IH1 r2 IH2|r1 IH1 r2 IH2|r1 IH1|cl|cl|n cl|i r1 IH1| |];
    intros st k x H; cbn [mtch] in H.
  - destruct (ms_rest st) as [|c rest] eqn:Er; [discriminate|].
    destruct (matchChar fl cl c); [|discriminate].
    eexists. split; [exact H|]. cbn [advance ms_rest].
    apply tailOf_cons. apply tailOf_refl.
  - exists st. split; [exact H|apply tailOf_refl].
  - destruct (IH1 _ _ _ H) as [st1 [H1 T1]].
    destruct (IH2 _ _ _ H1) as [st2 [H2 T2]].
    exists st2. split; [exact H2|]. exact (tailOf_trans _ _ _ T2 T1).
  - destruct (mtch fl r1 st k) as [y|] eqn:E1.
    + inversion H. subst y. exact (IH1 _ _ _ E1).
    + exact (IH2 _ _ _ H).
  - destruct (mtch fl r1 st k) as [y|] eqn:E1.
    + inversion H. subst y. exact (IH1 _ _ _ E1).
    + exists st. split; [exact H|apply tailOf_refl].
  - exact (starK_tail _ _ _ _ _ _ _ H).
  - destruct (ms_rest st) as [|c rest] eqn:Er; [discriminate|].
    destruct (matchChar fl cl c); [|discriminate].
    destruct (starK_tail _ _ _ _ _ _ _ H) as [st1 [Hk Ht]].
    exists st1. split; [exact Hk|apply tailOf_cons; exact Ht].
  - exact (repeatK_tail _ _ _ _ _ H).
  - destruct (IH1 _ _ _ H) as [st1 [H1 T1]].
    eexists. split; [exact H1|exact T1].
  - destruct (atLineStart fl st); [|discriminate].
    exists st. split; [exact H|apply tailOf_refl].
  - destruct (atLineEnd fl st); [|discriminate].
    exists st. split; [exact H|apply tailOf_refl].
Qed.

Lemma matchAt_tail fl r prev rest pos st :
  matchAt fl r prev rest pos = Some st -> tailOf (ms_rest st) rest.
Proof.
  unfold matchAt. intros H. destruct (mtch_tail _ _ _ _ _ H) as [st1 [Hk Ht]].
  inversion Hk. subst st1. exact Ht.
Qed.

(** *** Patterns tied to the start or to the end *)

Definition tiedToStart (r : regex) : bool :=
  match r with
  | RSeq RBol _ => true
  | _ => false
  end.

Fixpoint tiedToEnd (r : regex) : bool :=
  match r with
  | REol => true
  | RSeq _ r2 => tiedToEnd r2
  | _ => false
  end.

Lemma mtch_tiedToEnd fl r :
  multiline fl = false -> tiedToEnd r = true ->
  forall st k x,
    mtch fl r st k = Some x ->
    exists st1, k st1 = Some x /\ ms_rest st1 = [].
Proof.
  intros Hfl. induction r as [cl| |r1 IH1 r2 IH2|r1 IH1 r2 IH2|r1 IH1|cl|cl|n cl
                             |i r1 IH1| |];
    intros Ht st k x H; try discriminate Ht.
  - cbn [mtch] in H. cbn [tiedToEnd] in Ht.
    destruct (mtch_tail _ _ _ _ _ H) as [st1 [H1 _]].
    exact (IH2 Ht _ _ _ H1).
  - cbn [mtch] in H. unfold atLineEnd in H. rewrite Hfl in H.
    destruct (ms_rest st) as [|c rest] eqn:Er; [|discriminate].
    exists st. split; [exact H|exact Er].
Qed.

(** Removing a pattern tied to the start leaves a tail of the text. *)
Lemma replaceFirst_tiedToStart r s :
  tiedToStart r = true -> tailOf (replaceFirst flagI r [] s) s.
Proof.
  destruct r as [| |r1 r2| | | | | | | |]; try discriminate.
  destruct r1; try discriminate. intros _.
  unfold replaceFirst. destruct s as [|c s].
  - cbn [replaceFirstFrom].
    destruct (matchAt flagI (RSeq RBol r2) None [] 0) as [st|] eqn:Em.
    + cbn [expand app]. exact (matchAt_tail _ _ _ _ _ _ Em).
    + apply tailOf_refl.
  - cbn [replaceFirstFrom].
    destruct (matchAt flagI (RSeq RBol r2) None (c :: s) 0) as [st|] eqn:Em.
    + cbn [expand app]. exact (matchAt_tail _ _ _ _ _ _ Em).
    + rewrite replaceFirstFrom_anchored by reflexivity. apply tailOf_refl.
Qed.

(** Removing a pattern tied to the end leaves a head of the text. *)
Lemma replaceFirstFrom_tiedToEnd r :
  tiedToEnd r = true ->
  forall rest prev pos,
    exists b, rest = replaceFirstFrom flagI r [] prev rest pos ++ b.
Proof.
  intros Ht. induction rest as [|c rest IH]; intros prev pos.
  - cbn [replaceFirstFrom].
    destruct (matchAt flagI r prev [] pos) as [st|] eqn:Em.
    + unfold matchAt in Em.
      destruct (mtch_tiedToEnd flagI r eq_refl Ht _ _ _ Em) as [st1 [Hk Hr]].
      inversion Hk. subst st1. rewrite Hr. exists []. reflexivity.
    + exists []. reflexivity.
  - cbn [replaceFirstFrom].
    destruct (matchAt flagI r prev (c :: rest) pos) as [st|] eqn:Em.
    + unfold matchAt in Em.
      destruct (mtch_tiedToEnd flagI r eq_refl Ht _ _ _ Em) as [st1 [Hk Hr]].
      inversion Hk. subst st1. rewrite Hr. exists (c :: rest). reflexivity.
    + destruct (IH (Some c) (S pos)) as [b Hb]. exists b.
      cbn [app]. f_equal. exact Hb.
Qed.

Lemma removePatterns_start patterns :
  forallb tiedToStart patterns = true ->
  forall s, tailOf (removePatterns patterns s) s.
Proof.
  unfold removePatterns.
  induction patterns as [|r patterns IH]; intros H s.
  - apply tailOf_refl.
  - cbn [forallb] in H. apply andb_true_iff in H. destruct H as [Hr Hp].
    cbn [fold_left].
    apply (tailOf_trans _ (replaceFirst flagI r [] s) _);
      [apply IH; exact Hp|apply replaceFirst_tiedToStart; exact Hr].
Qed.

Lemma removePatterns_end patterns :
  forallb tiedToEnd patterns = true ->
  forall s, exists b, s = removePatterns patterns s ++ b.
Proof.
  unfold removePatterns.
  induction patterns as [|r patterns IH]; intros H s.
  - exists []. rewrite app_nil_r. reflexivity.
  - cbn [forallb] in H. apply andb_true_iff in H. destruct H as [Hr Hp].
    cbn [fold_left].
    destruct (IH Hp (replaceFirst flagI r [] s)) as [b Hb].
    destruct (replaceFirstFrom_tiedToEnd r Hr s None 0) as [b' Hb'].
    fold (replaceFirst flagI r [] s) in Hb'.
    exists (b ++ b'). rewrite app_assoc, <- Hb. exact Hb'.
Qed.

Lemma stripStage_piece cat s :
  forallb tiedToStart (prefixPatterns cat) = true ->
  forallb tiedToEnd (suffixPatterns cat) = true ->
  pieceOf (stripStage cat s) s.
Proof.
  intros Hp Hs. unfold stripStage.
  apply (pieceOf_trans _ _ _ (removeQuotes_piece _)).
  destruct (removePatterns_end _ Hs (removePatterns (prefixPatterns cat) (trim s)))
    as [b Hb].
  destruct (removePatterns_start _ Hp (trim s)) as [a Ha].
  apply (pieceOf_trans _ (trim s) _); [|apply trim_piece].
  exists a, b. rewrite <- Hb. exact Ha.
Qed.

Lemma routes_tied cat :
  ofRoute cat ->
  forallb tiedToStart (prefixPatterns cat) = true
  /\ forallb tiedToEnd (suffixPatterns cat) = true.
Proof. intros [-> | ->]; split; reflexivity. Qed.

(** X16: in every mode but framework-optimization and report-writing, the
    cleaned text of either route is one contiguous piece of the reply:
    cleaning cuts text off the two ends and changes nothing between, so
    it never makes a reply longer. *)
Theorem plain_cleaning_keeps_one_piece :
  forall (cat : catalogue) (response mode : jsstring),
    ofRoute cat ->
    mode <> js "framework-optimization" -> mode <> js "report-writing" ->
    (exists before after,
        response = before ++ cleanResponseWith cat response mode ++ after)
    /\ List.length (cleanResponseWith cat response mode)
       <= List.length response.
Proof.
  intros cat response mode Hcat Hf Hr.
  assert (Hp : pieceOf (cleanResponseWith cat response mode) response).
  { unfold cleanResponseWith.
    destruct (eqs mode (js "framework-optimization")) eqn:Ef;
      [apply eqs_true in Ef; contradiction|].
    destruct (eqs mode (js "report-writing")) eqn:Er;
      [apply eqs_true in Er; contradiction|].
    destruct (routes_tied cat Hcat) as [H1 H2].
    apply (pieceOf_trans _ _ _ (trim_piece _)).
    apply stripStage_piece; assumption. }
  split; [exact Hp|apply pieceOf_length; exact Hp].
Qed.

Lemma plain_cleaning_keeps_one_piece_witness :
  exists before after,
    js "Here is the rewritten prompt: Explain tea. I hope this helps!"
    = before
      ++ Rewrite.cleanResponse
           (js "Here is the rewritten prompt: Explain tea. I hope this helps!")
           (js "coding-agent")
      ++ after.
Proof.
  apply (proj1 (plain_cleaning_keeps_one_piece RewriteCatalogue.cat
                  (js "Here is the rewritten prompt: Explain tea. I hope this helps!")
                  (js "coding-agent") (or_introl eq_refl)
                  ltac:(vm_compute; discriminate)
                  ltac:(vm_compute; discriminate))).
Defined.

(* ================================================================== *)
(** ** Replies that are cleaned to nothing *)
(* ================================================================== *)

Lemma trim_blank (s : jsstring) : forallb isSpace s = true -> trim s = [].
Proof.
  intros H. unfold trim, trimStart.
  rewrite <- (app_nil_r s), (dropWhile_all isSpace s [] H). reflexivity.
Qed.

(** X17: a reply of nothing but whitespace is cleaned to the empty text,
    in every mode and by both routes. *)
Theorem blank_reply_is_cleaned_to_nothing :
  forall (cat : catalogue) (response mode : jsstring),
    ofRoute cat -> forallb isSpace response = true ->
    cleanResponseWith cat response mode = [].
Proof.
  intros cat response mode Hcat Hb.
  unfold cleanResponseWith, stripStage. rewrite (trim_blank response Hb).
  destruct Hcat as [-> | ->];
    destruct (eqs mode (js "framework-optimization"));
    destruct (eqs mode (js "report-writing"));
    vm_compute; reflexivity.
Qed.

Lemma blank_reply_is_cleaned_to_nothing_witness :
  SelfImprove.cleanResponse [32; 10; 9; 160; 32]%N (js "report-writing") = [].
Proof.
  apply (blank_reply_is_cleaned_to_nothing ImproveCatalogue.cat
           [32; 10; 9; 160; 32]%N (js "report-writing") (or_intror eq_refl)).
  reflexivity.
Defined.

(** *** Texts without a label *)

Lemma startsWith_spec (s p : jsstring) :
  startsWith s p = true <-> exists b, s = p ++ b.
Proof.
  revert s. induction p as [|a p IH]; intros s.
  - rewrite startsWith_nil. split; [intros _; exists s; reflexivity|reflexivity].
  - destruct s as [|c s]; cbn [startsWith].
    + split; [discriminate|intros [b H]; discriminate].
    + rewrite andb_true_iff, N.eqb_eq, IH. split.
      * intros [-> [b ->]]. exists b. reflexivity.
      * intros [b H]. inversion H. split; [reflexivity|exists b; reflexivity].
Qed.

Lemma includes_spec (s p : jsstring) :
  includes s p = true <-> pieceOf p s.
Proof.
  induction s as [|c s IH].
  - cbn [includes]. rewrite orb_false_r, startsWith_spec. split.
    + intros [b H]. exists [], b. exact H.
    + intros [a [b H]]. destruct a; [exists b; exact H|discriminate].
  - cbn [includes]. rewrite orb_true_iff, IH, startsWith_spec. split.
    + intros [[b H]|[a [b H]]].
      * exists [], b. exact H.
      * exists (c :: a), b. rewrite H. reflexivity.
    + intros [a [b H]]. destruct a as [|x a].
      * left. exists b. exact H.
      * right. inversion H. exists a, b. reflexivity.
Qed.

(** No component name followed by a colon stands anywhere in the text. *)
Definition unlabelled (s : jsstring) : Prop :=
  forall name, In name componentNames -> includes s (js name ++ js ":") = false.

Lemma unlabelled_piece t s : pieceOf t s -> unlabelled s -> unlabelled t.
Proof.
  intros Hp Hs name Hin. specialize (Hs name Hin).
  destruct (includes t (js name ++ js ":")) eqn:E; [|reflexivity].
  apply includes_spec in E.
  assert (H : includes s (js name ++ js ":") = true)
    by (apply includes_spec; exact (pieceOf_trans _ _ _ E Hp)).
  congruence.
Qed.

Lemma unlabelled_labelOf line : unlabelled line -> labelOf line = None.
Proof.
  intros H. unfold labelOf. rewrite componentMatch_spec. unfold labelPrefix.
  destruct (find _ componentNames) as [name|] eqn:E; [|reflexivity].
  apply find_some in E. destruct E as [Hin Hs].
  pose proof (unlabelled_piece _ _ (trim_piece line) H name Hin) as Hn.
  apply startsWith_spec in Hs. destruct Hs as [b Hb].
  assert (Hi : includes (trim line) (js name ++ js ":") = true).
  { apply includes_spec. exists [], b. exact Hb. }
  congruence.
Qed.

Lemma split_pieces (s : jsstring) :
  forall line, In line (split 10 s) -> pieceOf line s.
Proof.
  induction s as [|c s IH]; intros line H.
  - destruct H as [<-|[]]. apply pieceOf_refl.
  - cbn [split] in H. destruct (c =? 10)%N.
    + destruct H as [<-|H].
      * exists [], (c :: s). reflexivity.
      * destruct (IH line H) as [a [b ->]]. exists (c :: a), b. reflexivity.
    + destruct (split 10 s) as [|w ws] eqn:Es.
      * destruct H as [<-|[]]. exists [], s. reflexivity.
      * destruct H as [<-|H].
        -- destruct (IH w (or_introl eq_refl)) as [a [b Hab]].
           (* the first line of [s] starts [s] *)
           assert (Hw : exists b', s = w ++ b').
           { clear -Es. revert w ws Es. induction s as [|d s IHs]; intros w ws Es.
             - inversion Es. exists []. reflexivity.
             - cbn [split] in Es. destruct (d =? 10)%N.
               + inversion Es. exists (d :: s). reflexivity.
               + destruct (split 10 s) as [|w' ws'] eqn:Es'.
                 * inversion Es. exists s. reflexivity.
                 * inversion Es. destruct (IHs w' ws' eq_refl) as [b' ->].
                   exists b'. reflexivity. }
           destruct Hw as [b' ->]. exists [], b'. reflexivity.
        -- destruct (IH line (or_intror H)) as [a [b ->]].
           exists (c :: a), b. reflexivity.
Qed.

Lemma walk_unlabelled lines :
  Forall (fun line => labelOf line = None) lines -> walk lines [] [] [] = [].
Proof.
  induction lines as [|line lines IH]; intros H; [reflexivity|].
  inversion H as [|x l Hl Hls]. subst.
  rewrite (walk_skip line lines [] [] Hl eq_refl). exact (IH Hls).
Qed.

Lemma frameworkStage_unlabelled s : unlabelled s -> frameworkStage s = [].
Proof.
  intros H. unfold frameworkStage.
  set (cleaned1 := if (0 <? _)%Z then _ else s).
  assert (H1 : unlabelled cleaned1).
  { subst cleaned1. destruct (0 <? _)%Z; [|exact H].
    apply (unlabelled_piece _ s); [|exact H].
    unfold substring. exists (firstn (Z.to_nat (search flagM (seqs [RBol; lit "Role:"]) s)) s), [].
    rewrite app_nil_r, firstn_skipn. reflexivity. }
  rewrite walk_unlabelled.
  - vm_compute. reflexivity.
  - apply Forall_forall. intros line Hin. apply unlabelled_labelOf.
    exact (unlabelled_piece _ _ (split_pieces _ _ Hin) H1).
Qed.

(** X18: in framework-optimization mode a reply in which none of the six
    component names is followed by a colon is cleaned to the empty text,
    by both routes: the line walk keeps a line only after a label. *)
Theorem reply_without_labels_is_cleaned_to_nothing :
  forall (cat : catalogue) (response : jsstring),
    ofRoute cat ->
    (forall name, In name componentNames ->
                  includes response (js name ++ js ":") = false) ->
    cleanResponseWith cat response (js "framework-optimization") = [].
Proof.
  intros cat response Hcat Hu.
  destruct (routes_tied cat Hcat) as [Hp Hs].
  pose proof (unlabelled_piece _ _ (stripStage_piece cat response Hp Hs) Hu) as H.
  unfold cleanResponseWith.
  change (eqs (js "framework-optimization") (js "framework-optimization"))
    with true.
  change (eqs (js "framework-optimization") (js "report-writing")) with false.
  cbv iota. rewrite (frameworkStage_unlabelled _ H). reflexivity.
Qed.

Lemma reply_without_labels_is_cleaned_to_nothing_witness :
  Rewrite.cleanResponse
    (js "You are a tea expert. Explain how to brew green tea, step by step.")
    (js "framework-optimization")
  = [].
Proof.
  apply (reply_without_labels_is_cleaned_to_nothing RewriteCatalogue.cat
           (js "You are a tea expert. Explain how to brew green tea, step by step.")
           (or_introl eq_refl)).
  intros name Hin. simpl in Hin.
  repeat (destruct Hin as [<-|Hin]; [vm_compute; reflexivity|]).
  contradiction.
Defined.

(* ================================================================== *)
(** ** Blank lines in a cleaned report *)
(* ================================================================== *)

(** No three line feeds in a row, [run] of them standing just before. *)
Fixpoint calmFrom (run : nat) (s : jsstring) : bool :=
  match s with
  | [] => true
  | c :: t =>
      if (c =? 10)%N then (run <? 2) && calmFrom (S run) t else calmFrom 0 t
  end.

(** The text is empty or starts with a character that is no line feed. *)
Definition fresh (s : jsstring) : bool :=
  match s with
  | [] => true
  | d :: _ => notNewline d
  end.

Lemma calmFrom_fresh run s : fresh s = true -> calmFrom run s = calmFrom 0 s.
Proof.
  destruct s as [|d t]; [reflexivity|]. cbn [fresh calmFrom]. unfold notNewline.
  intros H. apply negb_true_iff in H. rewrite H. reflexivity.
Qed.

Lemma calmFrom_includes s :
  forall run,
    calmFrom run s = true ->
    includes s (nl ++ nl ++ nl) = false
    /\ (1 <= run -> startsWith s (nl ++ nl) = false)
    /\ (2 <= run -> startsWith s nl = false).
Proof.
  induction s as [|c t IH]; intros run H.
  - repeat split.
  - cbn [calmFrom] in H. destruct (c =? 10)%N eqn:Ec.
    + apply andb_true_iff in H. destruct H as [Hr Ht].
      apply Nat.ltb_lt in Hr. apply N.eqb_eq in Ec. subst c.
      destruct (IH (S run) Ht) as [Hi [H1 H2]].
      assert (H1' : startsWith t (nl ++ nl) = false) by (apply H1; lia).
      split; [|split].
      * cbn [includes]. rewrite Hi, orb_false_r.
        change (startsWith (10%N :: t) (nl ++ nl ++ nl))
          with ((10 =? 10)%N && startsWith t (nl ++ nl)).
        rewrite H1'. reflexivity.
      * intros Hrun.
        change (startsWith (10%N :: t) (nl ++ nl))
          with ((10 =? 10)%N && startsWith t nl).
        rewrite H2 by lia. reflexivity.
      * intros Hrun. lia.
    + destruct (IH 0 H) as [Hi _].
      assert (Hs : forall p, startsWith (c :: t) (10%N :: p) = false).
      { intros p. cbn [startsWith]. rewrite N.eqb_sym, Ec. reflexivity. }
      split; [|split].
      * cbn [includes]. rewrite Hi, orb_false_r. apply Hs.
      * intros _. apply Hs.
      * intros _. apply Hs.
Qed.

Lemma calm_run j u :
  j <= 2 -> fresh u = true -> calmFrom 0 u = true ->
  calmFrom 0 (repeat 10%N j ++ u) = true.
Proof.
  intros Hj Hf Hc. destruct j as [|[|[|j]]]; [| | |lia];
    cbn [repeat app calmFrom N.eqb Pos.eqb Nat.ltb Nat.leb andb];
    rewrite ?(calmFrom_fresh _ u Hf); exact Hc.
Qed.

(** Every text is a run of line feeds followed by a fresh text. *)
Lemma leading_newlines (s : jsstring) :
  exists k rest, s = repeat 10%N k ++ rest /\ fresh rest = true.
Proof.
  induction s as [|c s [k [rest [IH Hf]]]].
  - exists 0, []. split; reflexivity.
  - destruct (c =? 10)%N eqn:Ec.
    + apply N.eqb_eq in Ec. subst c. exists (S k), rest.
      split; [cbn [repeat app]; rewrite IH; reflexivity|exact Hf].
    + exists 0, (c :: s). split; [reflexivity|].
      cbn [fresh]. unfold notNewline. rewrite Ec. reflexivity.
Qed.

Lemma starK_newlines k :
  forall rest caps prev pos K,
    fresh rest = true ->
    starK (matchChar noFlags (CChar 10)) K caps prev (repeat 10%N k ++ rest) pos
    = match K {| ms_prev := lastOr prev (repeat 10%N k); ms_rest := rest;
                 ms_pos := k + pos; ms_caps := caps |} with
      | Some x => Some x
      | None =>
          starK (matchChar noFlags (CChar 10)) K caps prev
                (repeat 10%N k ++ rest) pos
      end.
Proof.
  induction k as [|k IH]; intros rest caps prev pos K Hf.
  - cbn [repeat app lastOr Nat.add].
    destruct rest as [|d t].
    + cbn [starK]. destruct (K _); reflexivity.
    + cbn [starK matchChar noFlags ignoreCase]. cbn [fresh] in Hf.
      unfold notNewline in Hf. apply negb_true_iff in Hf.
      rewrite N.eqb_sym, Hf. destruct (K _); reflexivity.
  - cbn [repeat app]. cbn [starK matchChar noFlags ignoreCase N.eqb Pos.eqb].
    rewrite (IH rest caps (Some 10%N) (S pos) K Hf).
    replace (lastOr (Some 10%N) (repeat 10%N k))
      with (lastOr prev (10%N :: repeat 10%N k))
      by (symmetry; apply lastOr_cons).
    replace (k + S pos) with (S k + pos) by lia.
    destruct (K _) as [x|]; [reflexivity|].
    destruct (starK _ K caps (Some 10%N) (repeat 10%N k ++ rest) (S pos));
      reflexivity.
Qed.

(** A run of three line feeds or more is matched whole. *)
Lemma blankRun_match_run k rest prev pos :
  fresh rest = true ->
  exists st,
    matchAt noFlags blankRunRe prev
      (10%N :: 10%N :: 10%N :: repeat 10%N k ++ rest) pos = Some st
    /\ ms_pos st - pos = 3 + k /\ ms_caps st = [].
Proof.
  intros Hf. unfold matchAt, blankRunRe, ch.
  cbn [seqs mtch ms_rest matchChar noFlags ignoreCase advance ms_pos ms_caps
       ms_prev N.eqb Pos.eqb].
  rewrite (starK_newlines k rest [] (Some 10%N) (S (S (S pos))) Some Hf).
  eexists. split; [reflexivity|]. cbn [ms_pos ms_caps]. split; [lia|reflexivity].
Qed.

Lemma blankRun_short1 rest prev pos :
  fresh rest = true ->
  matchAt noFlags blankRunRe prev (10%N :: rest) pos = None.
Proof.
  intros Hf. unfold matchAt, blankRunRe, ch.
  destruct rest as [|d t]; [reflexivity|].
  cbn [fresh] in Hf. unfold notNewline in Hf. apply negb_true_iff in Hf.
  cbn [seqs mtch ms_rest matchChar noFlags ignoreCase advance].
  rewrite !N.eqb_refl. rewrite (N.eqb_sym 10%N d), Hf. reflexivity.
Qed.

Lemma blankRun_short2 rest prev pos :
  fresh rest = true ->
  matchAt noFlags blankRunRe prev (10%N :: 10%N :: rest) pos = None.
Proof.
  intros Hf. unfold matchAt, blankRunRe, ch.
  destruct rest as [|d t]; [reflexivity|].
  cbn [fresh] in Hf. unfold notNewline in Hf. apply negb_true_iff in Hf.
  cbn [seqs mtch ms_rest matchChar noFlags ignoreCase advance].
  rewrite !N.eqb_refl. rewrite (N.eqb_sym 10%N d), Hf. reflexivity.
Qed.

Lemma last_repeat k : last (10%N :: repeat 10%N k) 0%N = 10%N.
Proof.
  induction k as [|k IH]; [reflexivity|].
  cbn [repeat]. cbn [repeat] in IH. exact IH.
Qed.

(** The collapse of blank lines leaves no three line feeds in a row. *)
Lemma collapse_calm :
  forall n s prev pos,
    List.length s <= n ->
    calmFrom 0 (replaceAllFrom noFlags blankRunRe [TLit (nl ++ nl)] 0 prev s pos)
    = true
    /\ (fresh s = true ->
        fresh (replaceAllFrom noFlags blankRunRe [TLit (nl ++ nl)] 0 prev s pos)
        = true).
Proof.
  induction n as [|n IH]; intros s prev pos Hn.
  - destruct s; [|simpl in Hn; lia]. split; reflexivity.
  - destruct s as [|c t]; [split; reflexivity|].
    cbn [List.length] in Hn.
    destruct (c =? 10)%N eqn:Ec.
    + apply N.eqb_eq in Ec. subst c. split; [|discriminate].
      destruct (leading_newlines t) as [k [rest [-> Hf]]].
      rewrite length_app, repeat_length in Hn.
      destruct (IH rest (Some 10%N) (S k + pos) ltac:(lia)) as [Hc Hfr].
      destruct k as [|[|k]].
      * cbn [repeat app]. rewrite replaceAll_copy by (apply blankRun_short1; exact Hf).
        destruct rest as [|d u].
        -- reflexivity.
        -- cbn [fresh] in Hf.
           rewrite replaceAll_copy by (apply blankRun_nomatch; exact Hf).
           destruct (IH u (Some d) (S (S pos)) ltac:(simpl in Hn; lia)) as [Hu _].
           cbn [calmFrom N.eqb Pos.eqb Nat.ltb Nat.leb andb].
           unfold notNewline in Hf. apply negb_true_iff in Hf. rewrite Hf.
           exact Hu.
      * cbn [repeat app].
        rewrite replaceAll_copy by (apply blankRun_short2; exact Hf).
        rewrite replaceAll_copy by (apply blankRun_short1; exact Hf).
        destruct rest as [|d u].
        -- reflexivity.
        -- cbn [fresh] in Hf.
           rewrite replaceAll_copy by (apply blankRun_nomatch; exact Hf).
           destruct (IH u (Some d) (S (S (S pos))) ltac:(simpl in Hn; lia))
             as [Hu _].
           cbn [calmFrom N.eqb Pos.eqb Nat.ltb Nat.leb andb].
           unfold notNewline in Hf. apply negb_true_iff in Hf. rewrite Hf.
           exact Hu.
      * destruct (blankRun_match_run k rest prev pos Hf) as [st [Hm [Hp Hcaps]]].
        cbn [repeat app].
        rewrite (replaceAll_match noFlags blankRunRe [TLit (nl ++ nl)] prev 10%N
                   (10%N :: 10%N :: repeat 10%N k ++ rest) pos st
                   (10%N :: 10%N :: repeat 10%N k) rest Hm).
        -- cbn [expand].
           destruct (IH rest
                       (Some (last (10%N :: 10%N :: 10%N :: repeat 10%N k) 0%N))
                       (S (List.length (10%N :: 10%N :: repeat 10%N k)) + pos)
                       ltac:(lia)) as [Hc' Hf'].
           match goal with
           | |- calmFrom 0 (_ ++ ?X) = true =>
               exact (calm_run 2 X (le_n 2) (Hf' Hf) Hc')
           end.
        -- rewrite Hp. cbn [List.length]. rewrite repeat_length. lia.
        -- reflexivity.
    + assert (Hd : notNewline c = true) by (unfold notNewline; rewrite Ec; reflexivity).
      rewrite replaceAll_copy by (apply blankRun_nomatch; exact Hd).
      destruct (IH t (Some c) (S pos) ltac:(lia)) as [Hc _].
      split.
      * cbn [calmFrom]. rewrite Ec. exact Hc.
      * intros _. exact Hd.
Qed.

(** X19: in report-writing mode the cleaned text never has three line
    feeds in a row, whatever the reply and the catalogue of patterns:
    blank lines are collapsed last, and trimming only cuts the ends. *)
Theorem cleaned_report_has_no_double_blank_line :
  forall (cat : catalogue) (response : jsstring),
    includes (cleanResponseWith cat response (js "report-writing"))
             (nl ++ nl ++ nl)
    = false.
Proof.
  intros cat response. unfold cleanResponseWith.
  change (eqs (js "report-writing") (js "framework-optimization")) with false.
  change (eqs (js "report-writing") (js "report-writing")) with true.
  cbv iota. unfold reportStage, collapseBlankLines, replaceAll.
  match goal with
  | |- includes (trim ?out) _ = false =>
      pose proof (proj1 (collapse_calm (List.length
                    (replaceAll noFlags inlineBulletRe
                       [TGroup 1; TLit (nl ++ js "- ")]
                       (fold_left separateSection (reportSections cat)
                          (stripStage cat response)))) _ None 0 (le_n _))) as H;
      destruct (includes (trim out) (nl ++ nl ++ nl)) eqn:E; [|reflexivity]
  end.
  apply includes_spec in E.
  pose proof (pieceOf_trans _ _ _ E (trim_piece _)) as E'.
  apply includes_spec in E'.
  apply calmFrom_includes in H. destruct H as [H _].
  unfold replaceAll in H. congruence.
Qed.

(* ================================================================== *)
(** ** Properties of the health endpoint *)
(* ================================================================== *)

(** The clock never runs backwards. *)
Definition monotone (now : nat -> Z) : Prop :=
  forall i j, i <= j -> (now i <= now j)%Z.

(** X20: the health check tests the provider with at most one call, made
    exactly when the key is set and is not the placeholder, and never
    retried.  It answers 200 and "healthy" exactly when that call is
    answered, and 503 and "degraded" otherwise.  With a clock that never
    runs backwards the two latencies are not negative and the provider's
    is at most the total one; after a failed call the provider's latency
    is counted from the start of the request, not from the call. *)
Theorem health_reports_the_test_call :
  forall e : Health.env,
    let evs := fst (Health.GET e) in
    let answer := snd (Health.GET e) in
    let data := Health.a_data answer in
    evs = (if Health.present (Health.GROQ_API_KEY e)
           then [Create 0 Health.testRequest] else [])
    /\ (Health.a_status answer = 200%Z
        <-> Health.present (Health.GROQ_API_KEY e) = true
            /\ exists c, Health.groq_create e Health.testRequest = Resolved c)
    /\ (Health.a_status answer = 200%Z \/ Health.a_status answer = 503%Z)
    /\ (Health.h_status data = js "healthy" <-> Health.a_status answer = 200%Z)
    /\ (Health.h_status data = js "degraded" <-> Health.a_status answer = 503%Z)
    /\ (monotone (Health.now e) ->
        (0 <= Health.g_latency (Health.h_groq data)
         <= Health.h_total_latency data)%Z)
    /\ (forall error,
          Health.present (Health.GROQ_API_KEY e) = true ->
          Health.groq_create e Health.testRequest = Rejected error ->
          Health.g_latency (Health.h_groq data)
          = (Health.now e 2 - Health.now e 0)%Z
          /\ Health.g_status (Health.h_groq data)
             = (if statusIs error 429 then js "rate_limited" else js "error")).
Proof.
  intros e. cbv zeta. unfold Health.GET.
  destruct (Health.present (Health.GROQ_API_KEY e)) eqn:Ek.
  - destruct (Health.groq_create e Health.testRequest) as [c|error] eqn:Ec.
    + cbn. split; [reflexivity|].
      split; [split; [intros _; split; [reflexivity|exists c; reflexivity]
                     |reflexivity]|].
      split; [left; reflexivity|].
      split; [split; reflexivity|].
      split; [split; discriminate|].
      split; [|intros error _ He; discriminate].
      intros H. pose proof (H 1 2 ltac:(lia)). pose proof (H 0 1 ltac:(lia)).
      pose proof (H 2 3 ltac:(lia)). lia.
    + destruct (statusIs error 429) eqn:Es; cbn;
        (split; [reflexivity|]);
        (split; [split; [discriminate|intros [_ [c Hc]]; discriminate]|]);
        (split; [right; reflexivity|]);
        (split; [split; discriminate|]);
        (split; [split; reflexivity|]);
        (split;
         [intros H; pose proof (H 0 2 ltac:(lia)); pose proof (H 2 3 ltac:(lia)); lia|]);
        intros error' _ He; inversion He; subst error'; rewrite Es;
        split; reflexivity.
  - cbn. split; [reflexivity|].
    split; [split; [discriminate|intros [H _]; discriminate]|].
    split; [right; reflexivity|].
    split; [split; discriminate|].
    split; [split; reflexivity|].
    split; [intros H; pose proof (H 0 1 ltac:(lia)); lia|].
    intros error H. discriminate.
Qed.

Lemma present_usable key : Health.present key = usable key.
Proof.
  unfold Health.present, usable, configured.
  destruct key as [[|c k]|]; cbn [truthy negb orb andb]; reflexivity.
Qed.

Lemma attempts_nonempty req from sleeps : attempts req from sleeps <> [].
Proof. destruct sleeps; discriminate. Qed.

(** X21: the health check and the rewrite route read the same keys.  They
    agree on the provider's key: the health check reports it as not
    configured exactly when the route answers a valid request with the
    configuration error and calls nothing.  They differ on the search
    key: the health check takes the placeholder [your-key-here] for no
    key, while the route searches with it. *)
Theorem health_and_route_read_the_same_keys :
  forall (he : Health.env) (toLowerCase : jsstring -> jsstring)
         (e : Rewrite.env) (text mode enableWebAccess : jsvalue)
         (userPrompt m : jsstring),
    Health.GROQ_API_KEY he = Rewrite.GROQ_API_KEY e ->
    Health.SERPAPI_API_KEY he = Rewrite.SERPAPI_API_KEY e ->
    nonEmptyString text = Some userPrompt ->
    validMode Rewrite.VALID_MODES (withDefault mode defaultMode) = Some m ->
    let data := Health.a_data (snd (Health.GET he)) in
    (Health.g_configured (Health.h_groq data) = false
     <-> Rewrite.POST toLowerCase e
           (Rewrite.BodyFields text mode enableWebAccess)
         = ([], json 500 (ErrorBody (INVALID_API_KEY Rewrite.ERROR_MESSAGES))))
    /\ (Health.h_web_search data = true ->
        configured (Rewrite.SERPAPI_API_KEY e) = true)
    /\ (Rewrite.SERPAPI_API_KEY e = Some (js "your-key-here") ->
        Health.h_web_search data = false
        /\ Health.s_status (Health.h_serpapi data) = js "not_configured"
        /\ forall q,
             Rewrite.extractSearchTerms toLowerCase userPrompt = Some q ->
             fst (Rewrite.performWebSearch toLowerCase e userPrompt)
             = [Search q]).
Proof.
  intros he toLowerCase e text mode enableWebAccess userPrompt m Hg Hs Ht Hm.
  cbv zeta.
  assert (Hc : Health.g_configured
                 (Health.h_groq (Health.a_data (snd (Health.GET he))))
               = usable (Rewrite.GROQ_API_KEY e)).
  { rewrite <- Hg, <- present_usable. unfold Health.GET.
    destruct (Health.present (Health.GROQ_API_KEY he));
      [destruct (Health.groq_create he Health.testRequest)|]; reflexivity. }
  assert (Hw : Health.h_serpapi (Health.a_data (snd (Health.GET he)))
               = {| Health.s_status :=
                      if Health.present (Rewrite.SERPAPI_API_KEY e)
                      then js "configured" else js "not_configured";
                    Health.s_configured :=
                      Health.present (Rewrite.SERPAPI_API_KEY e) |}
               /\ Health.h_web_search (Health.a_data (snd (Health.GET he)))
                  = Health.present (Rewrite.SERPAPI_API_KEY e)).
  { rewrite <- Hs. unfold Health.GET.
    destruct (Health.present (Health.GROQ_API_KEY he));
      [destruct (Health.groq_create he Health.testRequest)|]; split; reflexivity. }
  destruct Hw as [Hw1 Hw2]. rewrite Hc, Hw1, Hw2.
  split; [|split].
  - split.
    + intros Hu. unfold Rewrite.POST, Rewrite.prepare.
      rewrite Ht. fold defaultMode. rewrite Hm.
      unfold usable in Hu. apply negb_false_iff in Hu.
      unfold Rewrite.orEmpty. rewrite Hu. reflexivity.
    + intros Hp. destruct (usable (Rewrite.GROQ_API_KEY e)) eqn:Eu; [|reflexivity].
      exfalso.
      destruct (prepare_valid toLowerCase e text mode enableWebAccess userPrompt m
                  Ht Hm Eu) as [p [Hpr _]].
      unfold Rewrite.POST in Hp. rewrite Hpr in Hp.
      destruct (complete_trace e p) as [_ Htr].
      destruct (Rewrite.complete e p) as [evs' resp]. cbn [fst snd] in Htr.
      inversion Hp as [[Hev Hresp]].
      apply app_eq_nil in Hev. destruct Hev as [_ Hev]. subst evs' resp.
      destruct Htr as [[_ Hst]|[He _]]; [discriminate Hst|].
      destruct (retryLoop_shape Rewrite.ERROR_MESSAGES (Rewrite.groq_create e)
                  (rewriteRequest p) 3 3 0 eq_refl (le_S _ _ (le_S _ _ (le_n 1))))
        as [sleeps [_ [Hf _]]].
      assert (Hf' : [] = attempts (rewriteRequest p) 0 sleeps)
        by (rewrite He; exact Hf).
      symmetry in Hf'. exact (attempts_nonempty _ _ _ Hf').
  - unfold Health.present, configured.
    destruct (Rewrite.SERPAPI_API_KEY e) as [k|]; [|discriminate].
    intros H. apply andb_true_iff in H. exact (proj1 H).
  - intros Hk. rewrite Hk. split; [reflexivity|]. split; [reflexivity|].
    intros q Hq. rewrite performWebSearch_trace, Hk, Hq. reflexivity.
Qed.

Definition placeholderSearch : Rewrite.env :=
  {| Rewrite.GROQ_API_KEY := Some (js "gsk_live");
     Rewrite.SERPAPI_API_KEY := Some (js "your-key-here");
     Rewrite.axios_get := fun _ => Rewrite.SearchThrows;
     Rewrite.groq_create := steady (js "ok") |}.

Definition checking : Health.env :=
  {| Health.GROQ_API_KEY := Some (js "gsk_live");
     Health.SERPAPI_API_KEY := Some (js "your-key-here");
     Health.groq_create := fun _ => Resolved {| choices := [Some (js "ok")] |};
     Health.now := fun i => Z.of_nat i |}.

Lemma health_and_route_read_the_same_keys_witness :
  Health.h_web_search (Health.a_data (snd (Health.GET checking))) = false
  /\ fst (Rewrite.performWebSearch asciiToLower placeholderSearch
            (js "Write a blog about tea"))
     = [Search (js "tea latest news 2025 current developments")].
Proof.
  pose proof (health_and_route_read_the_same_keys checking asciiToLower
                placeholderSearch (JString (js "Write a blog about tea"))
                JUndefined (JBool true) (js "Write a blog about tea")
                (js "question-research") eq_refl eq_refl eq_refl eq_refl) as H.
  destruct H as [_ [_ H]]. specialize (H eq_refl). destruct H as [H1 [_ H2]].
  split; [exact H1|]. apply H2. reflexivity.
Defined.

(* ================================================================== *)
(** ** Properties of the revised route *)
(* ================================================================== *)

(** X22: the revised invoker never leaves the loop without a result: with
    no attempt allowed it throws the generic error without calling the
    provider, and with one attempt or more it does what the first
    revision does, so that its closing [throw] is never reached. *)
Theorem revised_invoker_always_settles :
  forall (msgs : errorMessages) (create : completionRequest -> nat -> outcome)
         (messages : list chatMessage) (temperature : Q) (maxTokens : Z)
         (retries : nat),
    snd (Revised.callGroqWithRetry msgs create messages temperature maxTokens
           retries) <> Fallthrough
    /\ Revised.callGroqWithRetry msgs create messages temperature maxTokens 0
       = ([], Thrown (GENERIC_ERROR msgs))
    /\ (1 <= retries ->
        Revised.callGroqWithRetry msgs create messages temperature maxTokens
          retries
        = callGroqWithRetry msgs create messages temperature maxTokens retries).
Proof.
  intros msgs create messages temperature maxTokens retries.
  unfold Revised.callGroqWithRetry, callGroqWithRetry.
  split; [|split].
  - destruct (retryLoop _ _ _ _ _ _) as [evs r].
    destruct r; cbn [snd]; discriminate.
  - reflexivity.
  - intros Hr.
    destruct (retryLoop_shape msgs create (requestOf messages temperature maxTokens)
                retries retries 0 eq_refl Hr) as [sleeps [_ [_ Hs]]].
    unfold requestOf in Hs.
    destruct (retryLoop _ _ _ _ _ _) as [evs r]. cbn [snd] in Hs.
    destruct r; [reflexivity|reflexivity|destruct Hs].
Qed.

Lemma revised_invoker_always_settles_witness :
  Revised.callGroqWithRetry Rewrite.ERROR_MESSAGES failing [] (4 # 10)%Q 500%Z 3
  = callGroqWithRetry Rewrite.ERROR_MESSAGES failing [] (4 # 10)%Q 500%Z 3.
Proof.
  apply (proj2 (proj2 (revised_invoker_always_settles Rewrite.ERROR_MESSAGES
                         failing [] (4 # 10)%Q 500%Z 3))).
  lia.
Defined.

(** X23: the revised cleaning agrees with the first revision in every
    mode but framework-optimization, where it cleans as in a plain mode:
    there too the cleaned text is one contiguous piece of the reply, and
    a reply without labels is no longer cleaned to nothing. *)
Theorem revised_cleaning_leaves_the_framework_alone :
  forall (response mode : jsstring),
    (mode <> js "framework-optimization" ->
     Revised.cleanResponse response mode = Rewrite.cleanResponse response mode)
    /\ (mode <> js "report-writing" ->
        (exists before after,
            response = before ++ Revised.cleanResponse response mode ++ after)
        /\ Revised.cleanResponse response mode
           = Rewrite.cleanResponse response (js "question-research"))
    /\ ((forall name, In name componentNames ->
                      includes response (js name ++ js ":") = false) ->
        Rewrite.cleanResponse response (js "framework-optimization") = []
        /\ Revised.cleanResponse response (js "framework-optimization")
           = Rewrite.cleanResponse response (js "question-research")).
Proof.
  intros response mode.
  assert (Hplain : forall m, eqs m (js "report-writing") = false ->
                     Revised.cleanResponse response m
                     = Rewrite.cleanResponse response (js "question-research")).
  { intros m Hm. unfold Revised.cleanResponse, Rewrite.cleanResponse,
      cleanResponseWith. rewrite Hm. reflexivity. }
  split; [|split].
  - intros Hf. unfold Revised.cleanResponse, Rewrite.cleanResponse,
      cleanResponseWith.
    destruct (eqs mode (js "framework-optimization")) eqn:Ef;
      [apply eqs_true in Ef; contradiction|].
    reflexivity.
  - intros Hr.
    assert (Er : eqs mode (js "report-writing") = false).
    { destruct (eqs mode (js "report-writing")) eqn:Er; [|reflexivity].
      apply eqs_true in Er. contradiction. }
    split; [|exact (Hplain mode Er)].
    rewrite (Hplain mode Er). unfold Rewrite.cleanResponse, cleanResponseWith.
    change (eqs (js "question-research") (js "framework-optimization"))
      with false.
    change (eqs (js "question-research") (js "report-writing")) with false.
    cbv iota.
    apply (pieceOf_trans _ _ _ (trim_piece _)).
    apply stripStage_piece; reflexivity.
  - intros Hu. split.
    + destruct (routes_tied RewriteCatalogue.cat (or_introl eq_refl)) as [Hp Hs].
      pose proof (unlabelled_piece _ _
                    (stripStage_piece RewriteCatalogue.cat response Hp Hs) Hu)
        as H.
      unfold Rewrite.cleanResponse, cleanResponseWith.
      change (eqs (js "framework-optimization") (js "framework-optimization"))
        with true.
      change (eqs (js "framework-optimization") (js "report-writing"))
        with false.
      cbv iota. rewrite (frameworkStage_unlabelled _ H). reflexivity.
    + apply Hplain. reflexivity.
Qed.

Lemma revised_cleaning_leaves_the_framework_alone_witness :
  Rewrite.cleanResponse (js "Explain how to brew green tea.")
    (js "framework-optimization") = []
  /\ Revised.cleanResponse (js "Explain how to brew green tea.")
       (js "framework-optimization")
     = js "Explain how to brew green tea.".
Proof.
  destruct (proj2 (proj2 (revised_cleaning_leaves_the_framework_alone
                            (js "Explain how to brew green tea.")
                            (js "framework-optimization")))) as [H1 H2].
  - intros name Hin. simpl in Hin.
    repeat (destruct Hin as [<-|Hin]; [vm_compute; reflexivity|]).
    contradiction.
  - split; [exact H1|]. rewrite H2. vm_compute. reflexivity.
Defined.

(* ================================================================== *)
(** ** Properties of the page *)
(* ================================================================== *)

(** The page, talking to the rewrite route in an environment. *)
Definition rewriteServer (toLowerCase : jsstring -> jsstring) (e : Rewrite.env)
    (b : Rewrite.requestBody) : Client.fetched :=
  Client.Resolves (snd (Rewrite.POST toLowerCase e b)).

Definition improveServer (ei : SelfImprove.env) (b : SelfImprove.requestBody)
  : Client.fetched :=
  Client.Resolves (snd (SelfImprove.POST ei b)).

(** What the user can do to the state, with any server behind it. *)
Inductive reachable (fetch : Rewrite.requestBody -> Client.fetched)
  : Client.ui -> Prop :=
| reach_initial : reachable fetch Client.initial
| reach_type s text :
    reachable fetch s -> reachable fetch (Client.typePrompt text s)
| reach_select s mode :
    reachable fetch s -> reachable fetch (Client.selectMode mode s)
| reach_toggle s :
    reachable fetch s -> reachable fetch (Client.toggleWebAccess s)
| reach_rewrite s :
    reachable fetch s -> reachable fetch (snd (Client.handleRewrite fetch s)).

Lemma reachable_switch fetch s :
  reachable fetch s ->
  Client.enableWebAccess s = true ->
  Client.selectedMode s = js "content-generation".
Proof.
  induction 1 as [|s text H IH|s mode H IH|s H IH|s H IH]; intros He.
  - discriminate.
  - exact (IH He).
  - cbn [Client.selectMode Client.enableWebAccess Client.selectedMode] in *.
    destruct (eqs mode (js "content-generation")) eqn:Em; [|discriminate].
    apply eqs_true in Em. exact Em.
  - unfold Client.toggleWebAccess in *.
    destruct (eqs (Client.selectedMode s) (js "content-generation")) eqn:Em.
    + cbn [Client.selectedMode]. apply eqs_true in Em. exact Em.
    + exact (IH He).
  - unfold Client.handleRewrite in *.
    destruct (negb (truthy (trim (Client.userPrompt s)))); [exact (IH He)|].
    destruct (fetch _) as [msg|resp]; [exact (IH He)|].
    destruct (negb (Client.ok resp)); exact (IH He).
Qed.

(** X24: the web search switch of the page changes nothing: it can be on
    in content-generation mode only, where the route searches anyway, so
    in every state the page can reach the route gives the request that
    [handleRewrite] sends the trace and the answer it would give with the
    switch off. *)
Theorem web_search_switch_changes_nothing :
  forall (toLowerCase : jsstring -> jsstring) (e : Rewrite.env)
         (fetch : Rewrite.requestBody -> Client.fetched) (s : Client.ui),
    reachable fetch s ->
    (Client.enableWebAccess s = true ->
     Client.selectedMode s = js "content-generation")
    /\ forall request,
         In request (fst (Client.handleRewrite fetch s)) ->
         request
         = Rewrite.BodyFields (JString (trim (Client.userPrompt s)))
             (JString (Client.selectedMode s))
             (JBool (Client.enableWebAccess s))
         /\ Rewrite.POST toLowerCase e request
            = Rewrite.POST toLowerCase e
                (Rewrite.BodyFields (JString (trim (Client.userPrompt s)))
                   (JString (Client.selectedMode s)) (JBool false)).
Proof.
  intros toLowerCase e fetch s Hr.
  pose proof (reachable_switch fetch s Hr) as Hinv.
  split; [exact Hinv|].
  intros request Hin.
  assert (Hreq : request
                 = Rewrite.BodyFields (JString (trim (Client.userPrompt s)))
                     (JString (Client.selectedMode s))
                     (JBool (Client.enableWebAccess s))).
  { unfold Client.handleRewrite in Hin.
    destruct (negb (truthy (trim (Client.userPrompt s)))); [destruct Hin|].
    destruct (fetch _) as [msg|resp].
    - destruct Hin as [<-|[]]. reflexivity.
    - destruct (negb (Client.ok resp)); destruct Hin as [<-|[]]; reflexivity. }
  split; [exact Hreq|]. rewrite Hreq.
  destruct (Client.enableWebAccess s) eqn:Ew; [|reflexivity].
  rewrite (Hinv eq_refl).
  unfold Rewrite.POST, Rewrite.prepare.
  destruct (nonEmptyString (JString (trim (Client.userPrompt s)))) as [up|];
    [|reflexivity].
  reflexivity.
Qed.

Lemma web_search_switch_changes_nothing_witness :
  Rewrite.POST asciiToLower connected
    (Rewrite.BodyFields (JString (js "tea")) (JString (js "content-generation"))
       (JBool true))
  = Rewrite.POST asciiToLower connected
      (Rewrite.BodyFields (JString (js "tea")) (JString (js "content-generation"))
         (JBool false)).
Proof.
  pose (s := Client.toggleWebAccess
               (Client.selectMode (js "content-generation")
                  (Client.typePrompt (js " tea ") Client.initial))).
  assert (Hr : reachable (rewriteServer asciiToLower connected) s).
  { apply reach_toggle, reach_select, reach_type, reach_initial. }
  destruct (web_search_switch_changes_nothing asciiToLower connected
              (rewriteServer asciiToLower connected) s Hr) as [_ H].
  destruct (H (Rewrite.BodyFields (JString (js "tea"))
                 (JString (js "content-generation")) (JBool true))
              (or_introl eq_refl)) as [_ H2].
  exact H2.
Defined.

Lemma ok_status resp :
  In (statusCode resp) [400; 413; 500]%Z -> Client.ok resp = false.
Proof.
  unfold Client.ok. intros [H|[H|[H|[]]]]; rewrite <- H; reflexivity.
Qed.

(** The messages with which the rewrite route answers a request whose
    text is a non-empty string. *)
Definition routeMessages : list jsstring :=
  [ js "Invalid mode. Valid modes are: " ++ join (js ", ") Rewrite.VALID_MODES;
    js "Cannot read properties of undefined (reading 'length')";
    RATE_LIMIT Rewrite.ERROR_MESSAGES; PAYLOAD_TOO_LARGE Rewrite.ERROR_MESSAGES;
    NETWORK_TIMEOUT Rewrite.ERROR_MESSAGES; INVALID_API_KEY Rewrite.ERROR_MESSAGES;
    SERVICE_UNAVAILABLE Rewrite.ERROR_MESSAGES;
    GENERIC_ERROR Rewrite.ERROR_MESSAGES ].

Lemma complete_messages e p msg :
  body (snd (Rewrite.complete e p)) = ErrorBody msg -> In msg routeMessages.
Proof.
  unfold Rewrite.complete.
  destruct (negb (Rewrite.validateTokenLimits _ _ _)).
  { intros H. inversion H. simpl. tauto. }
  unfold callGroqWithRetry.
  destruct (retryLoop_shape Rewrite.ERROR_MESSAGES (Rewrite.groq_create e)
              (rewriteRequest p) 3 3 0 eq_refl (le_S _ _ (le_S _ _ (le_n 1))))
    as [sleeps [_ [_ Hs]]].
  unfold rewriteRequest, requestOf in Hs.
  destruct (retryLoop _ _ _ _ _ _) as [evs result]. cbn [snd] in Hs.
  destruct result as [c|thrown|]; [| |destruct Hs].
  - destruct (firstContent c) as [[|x raw]|]; intros H; inversion H;
      simpl; tauto.
  - cbn [settled In] in Hs. intros H.
    repeat (destruct Hs as [Hs|Hs];
            [subst thrown; inversion H; simpl; tauto|]).
    destruct Hs.
Qed.

Lemma route_messages toLowerCase e text mode enableWebAccess userPrompt msg :
  nonEmptyString text = Some userPrompt ->
  body (snd (Rewrite.POST toLowerCase e
               (Rewrite.BodyFields text mode enableWebAccess)))
  = ErrorBody msg ->
  In msg routeMessages.
Proof.
  intros Ht. unfold Rewrite.POST.
  destruct (Rewrite.prepare toLowerCase e
              (Rewrite.BodyFields text mode enableWebAccess))
    as [evs [resp|p]] eqn:Ep.
  - unfold Rewrite.prepare in Ep. rewrite Ht in Ep.
    destruct (validMode _ _) as [m|].
    2:{ inversion Ep. intros H. inversion H. simpl. tauto. }
    destruct (_ || _).
    { inversion Ep. intros H. inversion H. simpl. tauto. }
    destruct (lookup _ _) as [sys|].
    2:{ inversion Ep. intros H. inversion H. simpl. tauto. }
    match type of Ep with
    | context [let (_, _) := ?c in _] => destruct c as [evs0 w]
    end.
    inversion Ep.
  - pose proof (complete_messages e p msg) as H.
    destruct (Rewrite.complete e p) as [evs' resp]. exact H.
Qed.

Lemma routeMessages_other msg :
  In msg routeMessages ->
  msg <> js "userPrompt is required and must be a string".
Proof.
  intros H. simpl in H.
  repeat (destruct H as [H|H]; [subst msg; vm_compute; discriminate|]).
  destruct H.
Qed.

(** X25: when the page sends a prompt to the rewrite route, it ends with
    loading off and one of two states: the route answered 200 and the
    page holds the cleaned text and the sources of the answer, with no
    error; or the page shows the route's own message, which is never
    empty, with the text and the sources cleared.  The fallback message
    of the page is never needed, the text never becomes [undefined], and
    a prompt of only whitespace is refused by the page without a request. *)
Theorem page_shows_what_the_route_answers :
  forall (toLowerCase : jsstring -> jsstring) (e : Rewrite.env) (s : Client.ui),
    let requests := fst (Client.handleRewrite (rewriteServer toLowerCase e) s) in
    let s' := snd (Client.handleRewrite (rewriteServer toLowerCase e) s) in
    (trim (Client.userPrompt s) = [] ->
     requests = []
     /\ Client.error s' = js "Please enter a prompt to rewrite"
     /\ Client.rewrittenPrompt s' = Client.rewrittenPrompt s)
    /\ (trim (Client.userPrompt s) <> [] ->
        let request :=
          Rewrite.BodyFields (JString (trim (Client.userPrompt s)))
            (JString (Client.selectedMode s))
            (JBool (Client.enableWebAccess s)) in
        let resp := snd (Rewrite.POST toLowerCase e request) in
        requests = [request]
        /\ Client.isLoading s' = false
        /\ ((statusCode resp = 200%Z
             /\ Client.error s' = []
             /\ exists r,
                  body resp = RewriteBody r
                  /\ Client.rewrittenPrompt s' = Some (rewrittenPrompt r)
                  /\ Client.webSources s' = webSources r
                  /\ Client.animationTrigger s'
                     = (Client.animationTrigger s + 1)%Z)
            \/ (In (statusCode resp) [400; 413; 500]%Z
                /\ body resp = ErrorBody (Client.error s')
                /\ Client.error s' <> []
                /\ Client.error s'
                   <> js "userPrompt is required and must be a string"
                /\ Client.rewrittenPrompt s' = Some []
                /\ Client.webSources s' = []
                /\ Client.animationTrigger s' = Client.animationTrigger s))).
Proof.
  intros toLowerCase e s. cbv zeta. unfold Client.handleRewrite.
  destruct (trim (Client.userPrompt s)) as [|c t] eqn:Et.
  - cbn [truthy negb fst snd Client.error Client.rewrittenPrompt].
    split; [intros _; repeat split|intros H; contradiction].
  - cbn [truthy negb]. split; [discriminate|]. intros _.
    unfold rewriteServer.
    set (request := Rewrite.BodyFields (JString (c :: t))
                      (JString (Client.selectedMode s))
                      (JBool (Client.enableWebAccess s))).
    destruct (rewrite_POST_answered toLowerCase e request) as [Ha _].
    assert (Hne : forall msg,
               body (snd (Rewrite.POST toLowerCase e request)) = ErrorBody msg ->
               msg <> js "userPrompt is required and must be a string").
    { intros msg Hb. apply routeMessages_other.
      exact (route_messages toLowerCase e (JString (c :: t))
               (JString (Client.selectedMode s))
               (JBool (Client.enableWebAccess s)) (c :: t) msg eq_refl Hb). }
    destruct Ha as [[Hs [r Hb]]|[Hs [msg [Hb Hm]]]].
    + assert (Hok : Client.ok (snd (Rewrite.POST toLowerCase e request)) = true)
        by (unfold Client.ok; rewrite Hs; reflexivity).
      rewrite Hok. cbn [negb fst snd Client.isLoading Client.error
        Client.rewrittenPrompt Client.webSources Client.animationTrigger].
      split; [reflexivity|]. split; [reflexivity|]. left.
      split; [exact Hs|]. split; [reflexivity|]. exists r.
      rewrite Hb. cbn [Client.data_rewrittenPrompt Client.data_webSources].
      split; [reflexivity|]. split; [reflexivity|].
      split; [destruct (webSources r); reflexivity|reflexivity].
    + rewrite (ok_status _ Hs). cbn [negb fst snd Client.isLoading Client.error
        Client.rewrittenPrompt Client.webSources Client.animationTrigger].
      split; [reflexivity|]. split; [reflexivity|]. right.
      split; [exact Hs|].
      unfold Client.errorOr. rewrite Hb. cbn [Client.data_error]. rewrite Hm.
      split; [reflexivity|]. split; [destruct msg; [discriminate|discriminate]|].
      split; [exact (Hne msg Hb)|]. repeat split.
Qed.

(** X26: when the page asks the self-improve route to improve the text it
    shows, a text of only whitespace is refused by the page without a
    request; otherwise the trimmed text is sent with the selected mode,
    and the page ends with improving off and either the improved text of
    a 200 answer and no error, or the route's message, which is never
    empty, and the text it showed before: a failed improvement keeps the
    text, where a failed rewrite clears it. *)
Theorem failed_improvement_keeps_the_text :
  forall (ei : SelfImprove.env) (s : Client.ui) (shown : jsstring),
    Client.rewrittenPrompt s = Some shown ->
    exists requests s',
      Client.handleSelfImprove (improveServer ei) s = Some (requests, s')
      /\ (trim shown = [] ->
          requests = []
          /\ Client.error s' = js "No rewritten prompt available to improve"
          /\ Client.rewrittenPrompt s' = Some shown)
      /\ (trim shown <> [] ->
          let request :=
            SelfImprove.BodyFields (JString (trim shown))
              (JString (Client.selectedMode s)) in
          let resp := snd (SelfImprove.POST ei request) in
          requests = [request]
          /\ Client.isImproving s' = false
          /\ ((statusCode resp = 200%Z
               /\ Client.error s' = []
               /\ exists r,
                    body resp = ImproveBody r
                    /\ Client.rewrittenPrompt s' = Some (improvedOutput r))
              \/ (In (statusCode resp) [400; 413; 500]%Z
                  /\ body resp = ErrorBody (Client.error s')
                  /\ Client.error s' <> []
                  /\ Client.rewrittenPrompt s' = Some shown))).
Proof.
  intros ei s shown Hshown. unfold Client.handleSelfImprove. rewrite Hshown.
  destruct (trim shown) as [|c t] eqn:Et.
  - cbn [truthy negb]. eexists. eexists. split; [reflexivity|].
    split; [intros _; repeat split; exact Hshown|intros H; contradiction].
  - cbn [truthy negb]. unfold improveServer.
    set (request := SelfImprove.BodyFields (JString (c :: t))
                      (JString (Client.selectedMode s))).
    destruct (improve_POST_answered ei request) as [Ha _].
    destruct Ha as [[Hs [r Hb]]|[Hs [msg [Hb Hm]]]].
    + assert (Hok : Client.ok (snd (SelfImprove.POST ei request)) = true)
        by (unfold Client.ok; rewrite Hs; reflexivity).
      rewrite Hok. cbn [negb]. eexists. eexists. split; [reflexivity|].
      split; [discriminate|]. intros _.
      cbn [Client.isImproving Client.error Client.rewrittenPrompt].
      split; [reflexivity|]. split; [reflexivity|]. left.
      split; [exact Hs|]. split; [reflexivity|]. exists r.
      rewrite Hb. split; reflexivity.
    + rewrite (ok_status _ Hs). cbn [negb]. eexists. eexists.
      split; [reflexivity|]. split; [discriminate|]. intros _.
      cbn [Client.isImproving Client.error Client.rewrittenPrompt].
      split; [reflexivity|]. split; [reflexivity|]. right.
      split; [exact Hs|].
      unfold Client.errorOr. rewrite Hb. cbn [Client.data_error]. rewrite Hm.
      split; [reflexivity|]. split; [destruct msg; discriminate|reflexivity].
Qed.

Definition shownText : Client.ui :=
  {| Client.userPrompt := js "sort a list";
     Client.rewrittenPrompt := Some (js "Sort the list in ascending order.");
     Client.selectedMode := js "ultimate-mode";
     Client.isLoading := false; Client.error := [];
     Client.isImproving := false; Client.enableWebAccess := false;
     Client.webSources := []; Client.animationTrigger := 1%Z |}.

Lemma failed_improvement_keeps_the_text_witness :
  exists requests s',
    Client.handleSelfImprove (improveServer improver) shownText
    = Some (requests, s')
    /\ Client.rewrittenPrompt s'
       = Some (js "Sort the list in ascending order.")
    /\ Client.error s' <> [].
Proof.
  destruct (failed_improvement_keeps_the_text improver shownText
              (js "Sort the list in ascending order.") eq_refl)
    as [requests [s' [H [_ H2]]]].
  exists requests, s'. split; [exact H|].
  destruct (H2 ltac:(vm_compute; discriminate)) as [_ [_ [[Hs _]|[_ [_ [Hm Hk]]]]]].
  - vm_compute in Hs. discriminate.
  - split; [exact Hk|exact Hm].
Defined.

(* ================================================================== *)
(** ** Properties of the theme switch *)
(* ================================================================== *)

(** The dark flag is the one of the mode, at the given hour. *)
Definition themed (hour : Z) (s : Theme.state) : Prop :=
  (Theme.themeMode s = js "light" /\ Theme.darkMode s = false)
  \/ (Theme.themeMode s = js "dark" /\ Theme.darkMode s = true)
  \/ (Theme.themeMode s = js "auto"
      /\ Theme.darkMode s = Theme.shouldBeDarkMode hour).

(** X27: whatever mode was saved, one click on the theme switch gives one
    of the three modes with the dark flag that belongs to it, and the
    update of the auto mode keeps it so.  From one of the three modes,
    three clicks lead back to the mode, and at a fixed hour back to the
    same state. *)
Theorem theme_switch_cycles :
  forall (hour : Z) (s : Theme.state),
    themed hour (Theme.toggleThemeMode hour s)
    /\ (themed hour s -> themed hour (Theme.updateAutoTheme hour s))
    /\ (themed hour s ->
        forall h1 h2 h3,
          Theme.themeMode
            (Theme.toggleThemeMode h3
               (Theme.toggleThemeMode h2 (Theme.toggleThemeMode h1 s)))
          = Theme.themeMode s)
    /\ (themed hour s ->
        Theme.toggleThemeMode hour
          (Theme.toggleThemeMode hour (Theme.toggleThemeMode hour s))
        = s).
Proof.
  intros hour s. split; [|split; [|split]].
  - unfold Theme.toggleThemeMode.
    destruct (eqs (Theme.themeMode s) (js "light"));
      [right; left; split; reflexivity|].
    destruct (eqs (Theme.themeMode s) (js "dark"));
      [right; right; split; reflexivity|].
    destruct (eqs (Theme.themeMode s) (js "auto"));
      left; split; reflexivity.
  - intros H. unfold Theme.updateAutoTheme.
    destruct (eqs (Theme.themeMode s) (js "auto")) eqn:Ea; [|exact H].
    destruct (negb _); [|exact H].
    right. right. apply eqs_true in Ea. split; [exact Ea|reflexivity].
  - intros H h1 h2 h3. destruct s as [m d]. cbn [Theme.themeMode] in *.
    destruct H as [[Hm _]|[[Hm _]|[Hm _]]]; cbn [Theme.themeMode] in Hm;
      subst m; reflexivity.
  - intros H. destruct s as [m d].
    destruct H as [[Hm Hd]|[[Hm Hd]|[Hm Hd]]];
      cbn [Theme.themeMode Theme.darkMode] in Hm, Hd; subst m d; reflexivity.
Qed.

Lemma theme_switch_cycles_witness :
  Theme.toggleThemeMode 21
    (Theme.toggleThemeMode 21
       (Theme.toggleThemeMode 21
          {| Theme.themeMode := js "auto"; Theme.darkMode := true |}))
  = {| Theme.themeMode := js "auto"; Theme.darkMode := true |}.
Proof.
  apply (proj2 (proj2 (proj2 (theme_switch_cycles 21
           {| Theme.themeMode := js "auto"; Theme.darkMode := true |})))).
  right. right. split; reflexivity.
Defined.

(* ================================================================== *)
(** ** How long a prompt may be *)
(* ================================================================== *)











(* ================================================================== *)
(** ** The catalogued prefixes are removed *)
(* ================================================================== *)

(** *** Continuations that cannot fail *)

Definition andThen (o : option mstate) (k : mstate -> option mstate)
  : option mstate :=
  match o with
  | Some st => k st
  | None => None
  end.

Lemma starK_ext test k k' :
  (forall st, k st = k' st) ->
  forall rest caps prev pos,
    starK test k caps prev rest pos = starK test k' caps prev rest pos.
Proof.
  intros H. induction rest as [|c rest IH]; intros caps prev pos.
  - cbn [starK]. apply H.
  - cbn [starK]. rewrite IH, H. reflexivity.
Qed.

Lemma repeatK_ext test k k' :
  (forall st, k st = k' st) ->
  forall n st, repeatK test n k st = repeatK test n k' st.
Proof.
  intros H. induction n as [|n IH]; intros st.
  - apply H.
  - cbn [repeatK]. destruct (ms_rest st); [reflexivity|].
    destruct (test n0); [apply IH|reflexivity].
Qed.

Lemma mtch_ext fl r :
  forall st k k', (forall s, k s = k' s) -> mtch fl r st k = mtch fl r st k'.
Proof.
  induction r as [cl| |r1 IH1 r2 IH2|r1 IH1 r2 IH2|r1 IH1|cl|cl|n cl|i r1 IH1| |];
    intros st k k' H; cbn [mtch].
  - destruct (ms_rest st); [reflexivity|]. destruct (matchChar fl cl n);
      [apply H|reflexivity].
  - apply H.
  - apply IH1. intros s. apply IH2. exact H.
  - rewrite (IH1 st k k' H), (IH2 st k k' H). reflexivity.
  - rewrite (IH1 st k k' H), H. reflexivity.
  - apply starK_ext. exact H.
  - destruct (ms_rest st); [reflexivity|]. destruct (matchChar fl cl n);
      [apply starK_ext; exact H|reflexivity].
  - apply repeatK_ext. exact H.
  - apply IH1. intros s. apply H.
  - rewrite H. reflexivity.
  - rewrite H. reflexivity.
Qed.

Lemma starK_andThen test k1 k2 :
  (forall st, k2 st <> None) ->
  forall rest caps prev pos,
    starK test (fun st => andThen (k1 st) k2) caps prev rest pos
    = andThen (starK test k1 caps prev rest pos) k2.
Proof.
  intros Hk. induction rest as [|c rest IH]; intros caps prev pos.
  - reflexivity.
  - cbn [starK]. destruct (test c); [|reflexivity].
    rewrite IH. destruct (starK test k1 caps (Some c) rest (S pos)) as [s|].
    + cbn [andThen]. destruct (k2 s) eqn:E; [reflexivity|].
      exfalso. exact (Hk s E).
    + reflexivity.
Qed.

Lemma repeatK_andThen test k1 k2 :
  forall n st,
    repeatK test n (fun s => andThen (k1 s) k2) st
    = andThen (repeatK test n k1 st) k2.
Proof.
  induction n as [|n IH]; intros st.
  - reflexivity.
  - cbn [repeatK]. destruct (ms_rest st); [reflexivity|].
    destruct (test n0); [apply IH|reflexivity].
Qed.

(** Before a continuation that cannot fail there is no backtracking: the
    match is the first match of the pattern, then the continuation. *)
Lemma mtch_andThen fl r :
  forall st k1 k2,
    (forall s, k2 s <> None) ->
    mtch fl r st (fun s => andThen (k1 s) k2) = andThen (mtch fl r st k1) k2.
Proof.
  induction r as [cl| |r1 IH1 r2 IH2|r1 IH1 r2 IH2|r1 IH1|cl|cl|n cl|i r1 IH1| |];
    intros st k1 k2 Hk; cbn [mtch].
  - destruct (ms_rest st); [reflexivity|]. destruct (matchChar fl cl n); reflexivity.
  - reflexivity.
  - rewrite <- (IH1 st (fun s1 => mtch fl r2 s1 k1) k2 Hk).
    apply mtch_ext. intros s. apply IH2. exact Hk.
  - rewrite (IH1 st k1 k2 Hk), (IH2 st k1 k2 Hk).
    destruct (mtch fl r1 st k1) as [s|]; [|reflexivity].
    cbn [andThen]. destruct (k2 s) eqn:E; [reflexivity|].
    exfalso. exact (Hk s E).
  - rewrite (IH1 st k1 k2 Hk).
    destruct (mtch fl r1 st k1) as [s|]; [|reflexivity].
    cbn [andThen]. destruct (k2 s) eqn:E; [reflexivity|].
    exfalso. exact (Hk s E).
  - apply starK_andThen. exact Hk.
  - destruct (ms_rest st); [reflexivity|]. destruct (matchChar fl cl n);
      [apply starK_andThen; exact Hk|reflexivity].
  - apply repeatK_andThen.
  - apply (IH1 st (fun s1 => k1 (setCapture i st s1)) k2 Hk).
  - destruct (atLineStart fl st); reflexivity.
  - destruct (atLineEnd fl st); reflexivity.
Qed.

Lemma mtch_then fl r st k :
  (forall s, k s <> None) ->
  mtch fl r st k = andThen (mtch fl r st Some) k.
Proof.
  intros Hk. rewrite <- (mtch_andThen fl r st Some k Hk).
  apply mtch_ext. intros s. reflexivity.
Qed.

(** *** The end of a prefix pattern: [:?\s*] *)

Definition tailRe : regex := RSeq optColon spaces.

Lemma starK_greedy test caps :
  forall rest prev pos,
    exists st,
      starK test Some caps prev rest pos = Some st
      /\ ms_rest st = dropWhile test rest /\ ms_caps st = caps.
Proof.
  induction rest as [|c rest IH]; intros prev pos.
  - eexists. split; [reflexivity|split; reflexivity].
  - cbn [starK dropWhile]. destruct (test c).
    + destruct (IH (Some c) (S pos)) as [st [Hs [Hr Hc]]].
      exists st. rewrite Hs. split; [reflexivity|split; assumption].
    + eexists. split; [reflexivity|split; reflexivity].
Qed.

Lemma tail_total st : mtch flagI tailRe st Some <> None.
Proof.
  unfold tailRe, optColon, spaces, lit. cbn [js map list_ascii_of_string seqs mtch].
  destruct (ms_rest st) as [|c rest] eqn:Er.
  - destruct (starK_greedy (matchChar flagI CSpace) (ms_caps st) [] (ms_prev st)
                (ms_pos st)) as [s [Hs _]].
    rewrite Hs. discriminate.
  - destruct (matchChar flagI (CChar (N_of_ascii ":")) c).
    + destruct (starK_greedy (matchChar flagI CSpace)
                  (ms_caps (advance st c rest)) (ms_rest (advance st c rest))
                  (ms_prev (advance st c rest)) (ms_pos (advance st c rest)))
        as [s [Hs _]].
      rewrite Hs. discriminate.
    + destruct (starK_greedy (matchChar flagI CSpace) (ms_caps st) (c :: rest)
                  (ms_prev st) (ms_pos st)) as [s [Hs _]].
      rewrite Hs. discriminate.
Qed.

(** What stands between a prefix and the text: a colon and any
    whitespace, or whitespace alone. *)
Definition separates (sep : jsstring) : Prop :=
  exists ws,
    forallb isSpace ws = true
    /\ (sep = js ":" ++ ws \/ (sep = ws /\ ws <> [])).

Lemma dropWhile_spaces ws c b :
  forallb isSpace ws = true -> isSpace c = false ->
  dropWhile isSpace (ws ++ c :: b) = c :: b.
Proof.
  intros Hw Hc. rewrite (dropWhile_all isSpace ws (c :: b) Hw).
  cbn [dropWhile]. rewrite Hc. reflexivity.
Qed.

Lemma tail_consumes sep c b prev pos caps :
  separates sep -> isSpace c = false ->
  exists st,
    mtch flagI tailRe
      {| ms_prev := prev; ms_rest := sep ++ c :: b; ms_pos := pos;
         ms_caps := caps |} Some = Some st
    /\ ms_rest st = c :: b.
Proof.
  intros [ws [Hw Hs]] Hc.
  unfold tailRe, optColon, spaces, lit. cbn [js map list_ascii_of_string seqs mtch].
  destruct Hs as [->|[-> Hne]].
  - cbn [js map list_ascii_of_string app ms_rest matchChar flagI ignoreCase].
    change (canonicalize (N_of_ascii ":") =? canonicalize (N_of_ascii ":"))%N
      with true. cbv iota.
    cbn [advance ms_caps ms_rest ms_prev ms_pos].
    destruct (starK_greedy (matchChar flagI CSpace) caps (ws ++ c :: b)
                (Some (N_of_ascii ":")) (S pos)) as [st [Hst [Hr _]]].
    rewrite Hst. exists st. split; [reflexivity|].
    rewrite Hr. apply dropWhile_spaces; assumption.
  - destruct ws as [|w ws]; [contradiction|].
    cbn [app ms_rest ms_caps ms_prev ms_pos].
    cbn [forallb] in Hw. apply andb_true_iff in Hw. destruct Hw as [Hw0 Hw].
    assert (Hcol : matchChar flagI (CChar (N_of_ascii ":")) w = false).
    { cbn [matchChar flagI ignoreCase].
      destruct (canonicalize (N_of_ascii ":") =? canonicalize w)%N eqn:E;
        [|reflexivity].
      apply N.eqb_eq in E. unfold canonicalize in E.
      destruct ((97 <=? w) && (w <=? 122))%N eqn:Ew.
      - apply andb_true_iff in Ew. destruct Ew as [E1 E2].
        apply N.leb_le in E1. apply N.leb_le in E2.
        change (N_of_ascii ":") with 58%N in E. cbn in E. lia.
      - change (N_of_ascii ":") with 58%N in E. cbn in E. subst w.
        discriminate Hw0. }
    rewrite Hcol.
    destruct (starK_greedy (matchChar flagI CSpace) caps (w :: ws ++ c :: b)
                prev pos) as [st [Hst [Hr _]]].
    rewrite Hst. exists st. split; [reflexivity|].
    rewrite Hr. cbn [dropWhile matchChar]. rewrite Hw0.
    apply dropWhile_spaces; assumption.
Qed.

(** *** A prefix pattern as a head and the common end *)

Lemma mtch_seqs_app fl items tailItems :
  tailItems <> [] ->
  forall st k,
    mtch fl (seqs (items ++ tailItems)) st k
    = mtch fl (seqs items) st (fun s => mtch fl (seqs tailItems) s k).
Proof.
  intros Hne. induction items as [|r items IH]; intros st k.
  - reflexivity.
  - cbn [app]. rewrite mtch_seqs_cons.
    destruct items as [|r' items].
    + cbn [app seqs]. destruct tailItems; [contradiction|]. reflexivity.
    + rewrite mtch_seqs_cons. apply mtch_ext. intros s. apply IH.
Qed.

(** A prefix pattern: [^], the items of its head, then [:?\s*]. *)
Definition prefixRe (items : list regex) : regex :=
  seqs (RBol :: items ++ [optColon; spaces]).

Lemma prefixRe_start items prev rest pos :
  items <> [] ->
  matchAt flagI (prefixRe items) prev rest pos
  = if atLineStart flagI {| ms_prev := prev; ms_rest := rest; ms_pos := pos;
                            ms_caps := [] |}
    then andThen (mtch flagI (seqs items)
                    {| ms_prev := prev; ms_rest := rest; ms_pos := pos;
                       ms_caps := [] |} Some)
                 (fun s => mtch flagI tailRe s Some)
    else None.
Proof.
  intros Hne. unfold matchAt, prefixRe.
  destruct items as [|r items]; [contradiction|].
  change (seqs (RBol :: (r :: items) ++ [optColon; spaces]))
    with (RSeq RBol (seqs ((r :: items) ++ [optColon; spaces]))).
  cbn [mtch]. destruct (atLineStart flagI _); [|reflexivity].
  rewrite (mtch_seqs_app flagI (r :: items) [optColon; spaces]) by discriminate.
  apply mtch_then. intros s. apply tail_total.
Qed.

(** A head that does not match the start of the text: the pattern
    removes nothing. *)
Lemma prefixRe_miss items c rest :
  items <> [] ->
  mtch flagI (seqs items)
    {| ms_prev := None; ms_rest := c :: rest; ms_pos := 0; ms_caps := [] |} Some
  = None ->
  replaceFirst flagI (prefixRe items) [] (c :: rest) = c :: rest.
Proof.
  intros Hne Hm.
  assert (H : matchAt flagI (prefixRe items) None (c :: rest) 0 = None).
  { rewrite prefixRe_start by exact Hne. cbn [atLineStart ms_prev]. rewrite Hm.
    reflexivity. }
  destruct items as [|r items]; [contradiction|].
  apply (replaceFirst_anchored_miss flagI
           (seqs ((r :: items) ++ [optColon; spaces])) [] c rest eq_refl H).
Qed.

(** A head that matches the start of the text up to a separator: the
    pattern removes the head and the separator. *)
Lemma prefixRe_hit items text sep c b st :
  items <> [] ->
  separates sep -> isSpace c = false ->
  mtch flagI (seqs items)
    {| ms_prev := None; ms_rest := text ++ sep ++ c :: b; ms_pos := 0;
       ms_caps := [] |} Some
  = Some st ->
  ms_rest st = sep ++ c :: b ->
  replaceFirst flagI (prefixRe items) [] (text ++ sep ++ c :: b) = c :: b.
Proof.
  intros Hne Hsep Hc Hm Hr.
  destruct st as [prev rest pos caps]. cbn [ms_rest] in Hr. subst rest.
  destruct (tail_consumes sep c b prev pos caps Hsep Hc) as [st' [Ht Hr']].
  unfold replaceFirst.
  assert (H : matchAt flagI (prefixRe items) None (text ++ sep ++ c :: b) 0
              = Some st').
  { rewrite prefixRe_start by exact Hne. cbn [atLineStart ms_prev]. rewrite Hm.
    cbn [andThen]. exact Ht. }
  destruct (text ++ sep ++ c :: b) as [|x xs]; cbn [replaceFirstFrom];
    rewrite H; cbn [expand app]; exact Hr'.
Qed.

(** *** The two catalogues *)

Definition rewriteHeads : list (list regex) :=
  [ [lit "Here is the rewritten prompt"];
    [lit "The rewritten prompt is"];
    [lit "Rewritten prompt"];
    [lit "Here's the rewritten prompt"];
    [lit "Here's a rewritten version"];
    [lit "Rewritten version"];
    [lit "Here is a"; ROpt (lit "n"); lit " "; improvedAlt];
    [lit "The "; improvedAlt; lit " prompt"] ].

Definition improveHeads : list (list regex) :=
  [ [lit "Here is the improved version"];
    [lit "The improved version is"];
    [lit "Improved version"];
    [lit "Here's the improved version"];
    [lit "Here's an improved version"];
    [lit "Enhanced version"];
    [lit "Here is a"; ROpt (lit "n"); lit " "; enhancedAlt];
    [lit "The "; enhancedAlt; lit " version"] ].

Lemma rewrite_prefixes_heads :
  RewriteCatalogue.prefixes = map prefixRe rewriteHeads.
Proof. reflexivity. Qed.

Lemma improve_prefixes_heads :
  ImproveCatalogue.prefixes = map prefixRe improveHeads.
Proof. reflexivity. Qed.

(** Texts the prefix patterns of the rewrite route are written for.  The
    text [The rewritten prompt] of the last pattern is left out: followed
    by [ is] it is the text of the second pattern. *)
Definition rewritePrefixTexts : list string :=
  [ "Here is the rewritten prompt"; "The rewritten prompt is";
    "Rewritten prompt"; "Here's the rewritten prompt";
    "Here's a rewritten version"; "Rewritten version";
    "Here is an improved"; "Here is an optimized"; "Here is a rewritten";
    "The improved prompt"; "The optimized prompt" ]%string.

(** The same for the self-improve route. *)
Definition improvePrefixTexts : list string :=
  [ "Here is the improved version"; "The improved version is";
    "Improved version"; "Here's the improved version";
    "Here's an improved version"; "Enhanced version";
    "Here is an enhanced"; "Here is an improved"; "Here is an optimized";
    "The enhanced version"; "The optimized version" ]%string.

(** No pattern of the list changes the text. *)
Definition keeps (patterns : list regex) (text : jsstring) : bool :=
  forallb (fun p => eqs (replaceFirst flagI p [] text) text) patterns.

Lemma removePatterns_keeps patterns text :
  keeps patterns text = true -> removePatterns patterns text = text.
Proof.
  unfold keeps, removePatterns. induction patterns as [|p ps IH]; intros H.
  - reflexivity.
  - cbn [forallb] in H. apply andb_true_iff in H. destruct H as [Hp Hps].
    apply eqs_true in Hp. cbn [fold_left]. rewrite Hp. exact (IH Hps).
Qed.

Lemma keeps_app before after text :
  keeps (before ++ after) text = true -> keeps after text = true.
Proof.
  unfold keeps. rewrite forallb_app. intros H.
  apply andb_true_iff in H. exact (proj2 H).
Qed.

Lemma removePatterns_prefix before items after x text sep c b :
  Forall (fun h => h <> []
                   /\ mtch flagI (seqs h)
                        {| ms_prev := None;
                           ms_rest := (x :: text) ++ sep ++ c :: b;
                           ms_pos := 0; ms_caps := [] |} Some = None) before ->
  items <> [] ->
  (exists st,
      mtch flagI (seqs items)
        {| ms_prev := None; ms_rest := (x :: text) ++ sep ++ c :: b;
           ms_pos := 0; ms_caps := [] |} Some = Some st
      /\ ms_rest st = sep ++ c :: b) ->
  separates sep -> isSpace c = false ->
  keeps (map prefixRe (before ++ items :: after)) (c :: b) = true ->
  removePatterns (map prefixRe (before ++ items :: after))
    ((x :: text) ++ sep ++ c :: b) = c :: b.
Proof.
  intros Hb Hne [st [Hm Hr]] Hsep Hc Hk.
  rewrite map_app in *. cbn [map] in *.
  unfold removePatterns. rewrite fold_left_app.
  assert (Hbefore :
            fold_left (fun cleaned pattern => replaceFirst flagI pattern [] cleaned)
              (map prefixRe before) ((x :: text) ++ sep ++ c :: b)
            = (x :: text) ++ sep ++ c :: b).
  { clear Hk. induction Hb as [|h hs [Hh Hmiss] _ IH]; [reflexivity|].
    cbn [map fold_left]. cbn [app] in *.
    rewrite (prefixRe_miss h x (text ++ sep ++ c :: b) Hh Hmiss). exact IH. }
  rewrite Hbefore. cbn [fold_left].
  rewrite (prefixRe_hit items (x :: text) sep c b st Hne Hsep Hc Hm Hr).
  apply keeps_app in Hk. cbn [keeps forallb] in Hk.
  apply andb_true_iff in Hk. destruct Hk as [_ Hk].
  exact (removePatterns_keeps (map prefixRe after) (c :: b) Hk).
Qed.

Ltac prefix_at k heads :=
  let hs := eval unfold rewriteHeads, improveHeads in heads in
  let bf := eval cbv [firstn] in (firstn k hs) in
  let it := eval cbv [nth] in (nth k hs []) in
  let af := eval cbv [skipn] in (skipn (S k) hs) in
  apply (removePatterns_prefix bf it af);
  [ repeat constructor; solve [discriminate | vm_compute; reflexivity]
  | discriminate
  | eexists; split; [vm_compute; reflexivity|reflexivity]
  | assumption
  | assumption
  | assumption ].

Ltac prefix_any heads :=
  first [ prefix_at 0 heads | prefix_at 1 heads | prefix_at 2 heads
        | prefix_at 3 heads | prefix_at 4 heads | prefix_at 5 heads
        | prefix_at 6 heads | prefix_at 7 heads ].

Lemma rewrite_prefix_removed P sep c b :
  In P rewritePrefixTexts ->
  separates sep -> isSpace c = false ->
  keeps RewriteCatalogue.prefixes (c :: b) = true ->
  removePatterns RewriteCatalogue.prefixes (js P ++ sep ++ c :: b) = c :: b.
Proof.
  intros Hin Hsep Hc Hk. rewrite rewrite_prefixes_heads in *.
  unfold rewritePrefixTexts in Hin. cbn [In] in Hin.
  repeat (destruct Hin as [<-|Hin]; [prefix_any rewriteHeads|]).
  contradiction.
Qed.

Lemma improve_prefix_removed P sep c b :
  In P improvePrefixTexts ->
  separates sep -> isSpace c = false ->
  keeps ImproveCatalogue.prefixes (c :: b) = true ->
  removePatterns ImproveCatalogue.prefixes (js P ++ sep ++ c :: b) = c :: b.
Proof.
  intros Hin Hsep Hc Hk. rewrite improve_prefixes_heads in *.
  unfold improvePrefixTexts in Hin. cbn [In] in Hin.
  repeat (destruct Hin as [<-|Hin]; [prefix_any improveHeads|]).
  contradiction.
Qed.

Lemma prefix_text_starts P :
  In P (rewritePrefixTexts ++ improvePrefixTexts) ->
  exists x xs, js P = x :: xs /\ isSpace x = false.
Proof.
  intros Hin. unfold rewritePrefixTexts, improvePrefixTexts in Hin.
  cbn [In app] in Hin.
  repeat (destruct Hin as [<-|Hin];
          [eexists; eexists; split; reflexivity|]).
  contradiction.
Qed.

Lemma last_app_cons (s : jsstring) c t d :
  last (s ++ c :: t) d = last (c :: t) d.
Proof.
  induction s as [|x s IH]; [reflexivity|].
  rewrite <- IH. cbn [app]. destruct (s ++ c :: t) eqn:E.
  - destruct s; discriminate.
  - reflexivity.
Qed.

(** The reply with the prefix is trimmed already when the text is. *)
Lemma prefixed_trimmed P sep c t :
  In P (rewritePrefixTexts ++ improvePrefixTexts) ->
  isSpace (last (c :: t) 0%N) = false ->
  trim (js P ++ sep ++ c :: t) = js P ++ sep ++ c :: t.
Proof.
  intros Hin Hl. destruct (prefix_text_starts P Hin) as [x [xs [Hx Hs]]].
  rewrite Hx. cbn [app].
  apply (trim_fixed (x :: xs ++ sep ++ c :: t) x (xs ++ sep ++ c :: t) eq_refl Hs).
  change (x :: xs ++ sep ++ c :: t) with ((x :: xs) ++ sep ++ c :: t).
  rewrite app_assoc, last_app_cons. exact Hl.
Qed.

(** The routes with the texts their prefix patterns are written for. *)
Definition prefixTable : list (catalogue * list string) :=
  [ (RewriteCatalogue.cat, rewritePrefixTexts);
    (ImproveCatalogue.cat, improvePrefixTexts) ].

Lemma prefix_removed cat texts P sep body mode :
  In (cat, texts) prefixTable -> In P texts ->
  separates sep ->
  body <> [] -> trim body = body ->
  keeps (prefixPatterns cat) body = true ->
  cleanResponseWith cat (js P ++ sep ++ body) mode
  = cleanResponseWith cat body mode.
Proof.
  intros Hcat HP Hsep Hne Ht Hk.
  destruct (trim_margins body) as [He|[c [t [Hb [Hc Hl]]]]];
    [rewrite Ht in He; contradiction|].
  rewrite Ht in Hb, Hl. subst body.
  assert (Hin : In P (rewritePrefixTexts ++ improvePrefixTexts)).
  { apply in_or_app. unfold prefixTable in Hcat. cbn [In] in Hcat.
    destruct Hcat as [Hcat|[Hcat|[]]]; inversion Hcat; subst; tauto. }
  unfold cleanResponseWith, stripStage.
  rewrite (prefixed_trimmed P sep c t Hin Hl), Ht.
  assert (Hrm : removePatterns (prefixPatterns cat) (js P ++ sep ++ c :: t)
                = c :: t).
  { unfold prefixTable in Hcat. cbn [In] in Hcat.
    destruct Hcat as [Hcat|[Hcat|[]]]; inversion Hcat; subst.
    - exact (rewrite_prefix_removed P sep c t HP Hsep Hc Hk).
    - exact (improve_prefix_removed P sep c t HP Hsep Hc Hk). }
  rewrite Hrm, (removePatterns_keeps (prefixPatterns cat) (c :: t) Hk).
  reflexivity.
Qed.

(** X29: a reply that opens with one of the texts the prefix patterns are
    written for, then a colon and any whitespace or whitespace alone,
    then a trimmed text that no prefix pattern changes, is cleaned as
    that text alone is: the opening is removed, in either route and any
    mode. *)
Theorem catalogued_prefix_is_removed cat texts P sep body mode :
  In (cat, texts) prefixTable -> In P texts ->
  separates sep ->
  body <> [] -> trim body = body ->
  keeps (prefixPatterns cat) body = true ->
  cleanResponseWith cat (js P ++ sep ++ body) mode
  = cleanResponseWith cat body mode.
Proof. exact (prefix_removed cat texts P sep body mode). Qed.

Lemma catalogued_prefix_is_removed_witness :
  cleanResponseWith RewriteCatalogue.cat
    (js "Here is the rewritten prompt" ++ js ": " ++ js "Write a poem")
    (js "general")
  = cleanResponseWith RewriteCatalogue.cat (js "Write a poem") (js "general").
Proof.
  apply (catalogued_prefix_is_removed RewriteCatalogue.cat rewritePrefixTexts
           "Here is the rewritten prompt" (js ": ") (js "Write a poem")
           (js "general")).
  - left. reflexivity.
  - left. reflexivity.
  - exists (js " "). split; [reflexivity|left; reflexivity].
  - discriminate.
  - vm_compute. reflexivity.
  - vm_compute. reflexivity.
Defined.

(* ================================================================== *)
(** ** Properties of the animated display *)
(* ================================================================== *)

Import DecryptedText.

Lemma scramble_shown random rest :
  forall i cur d,
    i <= cur ->
    fst (scramble random rest i cur d)
    = firstn (cur - i) rest
      ++ fst (scramble random (skipn (cur - i) rest) cur cur d).
Proof.
  induction rest as [|c rest IH]; intros i cur d Hi.
  - cbn [scramble]. rewrite firstn_nil, skipn_nil. reflexivity.
  - destruct (Nat.eq_dec i cur) as [->|Hne].
    + rewrite Nat.sub_diag. reflexivity.
    + cbn [scramble].
      assert (Hlt : (i <? cur) = true) by (apply Nat.ltb_lt; lia).
      rewrite Hlt.
      replace (cur - i) with (S (cur - S i)) by lia. cbn [firstn skipn app].
      specialize (IH (S i) cur d ltac:(lia)).
      destruct (scramble random rest (S i) cur d) as [out d'].
      cbn [fst] in *. rewrite IH. reflexivity.
Qed.

Lemma ticks_plus random text a :
  forall b s,
    ticks random (a + b) text s = ticks random b text (ticks random a text s).
Proof.
  induction a as [|a IH]; intros b s; [reflexivity|].
  cbn [Nat.add ticks]. apply IH.
Qed.

(** While the index is within the text, the effect is running. *)
Lemma ticks_running random text s0 :
  text <> [] ->
  forall k,
    k <= List.length text ->
    let s := ticks random k text (start text s0) in
    currentIndex s = k /\ running s = true /\ isDecrypting s = true
    /\ (1 <= k ->
        exists d, displayText s = fst (scramble random text 0 (k - 1) d)).
Proof.
  intros Hne. induction k as [|k IH]; intros Hk; cbv zeta.
  - unfold start. destruct text; [contradiction|].
    cbn [truthy negb ticks currentIndex running isDecrypting].
    repeat split. intros H. lia.
  - replace (S k) with (k + 1) by lia. rewrite ticks_plus.
    destruct (IH ltac:(lia)) as [Hi [Hr [Hd _]]].
    set (s := ticks random k text (start text s0)) in *.
    cbn [ticks]. unfold tick. rewrite Hr. cbn [negb].
    assert (Hlt : (List.length text <=? currentIndex s) = false)
      by (apply Nat.leb_gt; lia).
    rewrite Hlt, Hi.
    destruct (scramble random text 0 k (drawn s)) as [scr d] eqn:Es.
    cbn [currentIndex running isDecrypting displayText].
    split; [lia|]. split; [reflexivity|]. split; [exact Hd|].
    intros _. exists (drawn s). replace (k + 1 - 1) with k by lia.
    rewrite Es. reflexivity.
Qed.

(** X30: for a text that is not empty, the animation stops after one tick
    more than the text has characters and is left unchanged by further
    ticks; the text it then displays, which is the one that is rendered,
    is the text with its last character replaced by a random symbol.  So
    the complete text is displayed only when it ends with one of the
    symbols and the last draw picked that symbol. *)
Theorem decryption_ends_one_character_short :
  forall (random : nat -> nat) (text : jsstring) (s0 : state) (more : nat),
    text <> [] ->
    let final :=
      ticks random (S (List.length text) + more) text (start text s0) in
    isDecrypting final = false
    /\ running final = false
    /\ exists symbol,
         displayText final = removelast text ++ [symbol]
         /\ ((forall n, random n < List.length chars) -> In symbol chars)
         /\ (displayText final = text <-> last text 0%N = symbol).
Proof.
  intros random text s0 more Hne. cbv zeta.
  set (n := List.length text).
  assert (Hn : 1 <= n).
  { unfold n. destruct text; [contradiction|simpl; lia]. }
  destruct (ticks_running random text s0 Hne n (le_n _)) as [Hi [Hr [Hd Hf]]].
  destruct (Hf Hn) as [d Hdisp]. clear Hf.
  (* the frame of the last index *)
  assert (Hframe : forall d0,
             fst (scramble random text 0 (n - 1) d0)
             = removelast text ++ [nth (random d0) chars 0%N]).
  { intros d0.
    destruct (exists_last Hne) as [init [x Hx]].
    assert (Hlen : n - 1 = List.length init).
    { unfold n. rewrite Hx, length_app. simpl. lia. }
    assert (Hfst := scramble_shown random text 0 (n - 1) d0 ltac:(lia)).
    rewrite Nat.sub_0_r in Hfst.
    rewrite Hx, List.removelast_last.
    rewrite Hx in Hfst. rewrite Hlen in *.
    rewrite firstn_app, firstn_all, Nat.sub_diag, firstn_O, app_nil_r in Hfst.
    rewrite skipn_app, skipn_all, Nat.sub_diag in Hfst. cbn [skipn app] in Hfst.
    cbn [scramble] in Hfst. rewrite Nat.ltb_irrefl in Hfst.
    assert (Hlt : (List.length init <? List.length init + 3) = true)
      by (apply Nat.ltb_lt; lia).
    rewrite Hlt in Hfst. cbn [fst] in Hfst. exact Hfst. }
  rewrite Hframe in Hdisp.
  (* the tick that stops the interval, and the ticks after it *)
  replace (S n + more) with (n + (1 + more)) by lia. rewrite ticks_plus.
  set (s := ticks random n text (start text s0)) in *.
  assert (Hstop : tick random text s
                  = {| currentIndex := currentIndex s;
                       displayText := displayText s; isDecrypting := false;
                       running := false; drawn := drawn s |}).
  { unfold tick. rewrite Hr. cbn [negb].
    assert (Hle : (List.length text <=? currentIndex s) = true)
      by (apply Nat.leb_le; fold n; lia).
    rewrite Hle. reflexivity. }
  assert (Hstay : forall m st, running st = false -> ticks random m text st = st).
  { induction m as [|m IHm]; intros st Hst; [reflexivity|].
    cbn [ticks]. unfold tick at 1. rewrite Hst. cbn [negb]. exact (IHm st Hst). }
  cbn [Nat.add ticks]. rewrite Hstop, Hstay by reflexivity.
  cbn [isDecrypting running displayText drawn].
  split; [reflexivity|]. split; [reflexivity|].
  exists (nth (random d) chars 0%N).
  split; [exact Hdisp|]. split.
  - (* the symbol is drawn from the table *)
    intros Hb. apply nth_In. apply Hb.
  - rewrite Hdisp. destruct (exists_last Hne) as [init [x Hx]].
    rewrite Hx, List.removelast_last, last_last. split.
    + intros H. apply app_inv_head in H. inversion H. reflexivity.
    + intros ->. reflexivity.
Qed.

Lemma decryption_ends_one_character_short_witness :
  exists symbol,
    displayText (ticks (fun _ => 0) 3 (js "Hi") (start (js "Hi") idle))
    = js "H" ++ [symbol]
    /\ (displayText (ticks (fun _ => 0) 3 (js "Hi") (start (js "Hi") idle))
        = js "Hi" <-> 105%N = symbol).
Proof.
  destruct (decryption_ends_one_character_short (fun _ => 0) (js "Hi") idle 0
              ltac:(vm_compute; discriminate))
    as [_ [_ [symbol [Hd [_ Hiff]]]]].
  exists symbol. split; [exact Hd|exact Hiff].
Defined.

(* ================================================================== *)
(** ** Replies made of sections *)
(* ================================================================== *)

(** *** Lines and texts *)

(** Rewriting with an equation whatever name the type of texts goes by. *)
Ltac flat_rewrite E :=
  let H := fresh in
  pose proof E as H; unfold jsstring in *; rewrite H; clear H.

Lemma split_nonempty (s : jsstring) : split 10 s <> [].
Proof.
  destruct s as [|c s]; [discriminate|]. cbn [split].
  destruct (c =? 10)%N; [discriminate|].
  destruct (split 10 s); discriminate.
Qed.

(** The lines of a text cut at a line feed are the lines of the two
    halves. *)
Lemma split_newline (a b : jsstring) :
  split 10 (a ++ 10%N :: b) = split 10 a ++ split 10 b.
Proof.
  induction a as [|c a IH]; [reflexivity|].
  cbn [app split]. destruct (c =? 10)%N.
  - rewrite IH. reflexivity.
  - rewrite IH. pose proof (split_nonempty a) as Hne.
    destruct (split 10 a) as [|w ws]; [contradiction|]. reflexivity.
Qed.

(** A text without line feed only prolongs the first line. *)
Lemma split_inline (p X : jsstring) :
  forallb notNewline p = true ->
  split 10 (p ++ X)
  = match split 10 X with
    | [] => [p]
    | w :: ws => (p ++ w) :: ws
    end.
Proof.
  induction p as [|c p IH]; intros H.
  - cbn [app]. pose proof (split_nonempty X) as Hne.
    destruct (split 10 X); [contradiction|reflexivity].
  - cbn [forallb] in H. apply andb_true_iff in H. destruct H as [Hc H].
    unfold notNewline in Hc. apply negb_true_iff in Hc.
    cbn [app split]. rewrite Hc, (IH H).
    destruct (split 10 X); reflexivity.
Qed.

Lemma join_split (s : jsstring) : join nl (split 10 s) = s.
Proof.
  induction s as [|c s IH]; [reflexivity|].
  cbn [split]. destruct (c =? 10)%N eqn:Ec.
  - apply N.eqb_eq in Ec. subst c.
    pose proof (split_nonempty s) as Hne.
    destruct (split 10 s) as [|w ws]; [contradiction|].
    change (join nl ([] :: w :: ws)) with ([] ++ nl ++ join nl (w :: ws)).
    rewrite IH. reflexivity.
  - pose proof (split_nonempty s) as Hne.
    destruct (split 10 s) as [|w ws]; [contradiction|].
    destruct ws as [|w' ws].
    + cbn [join] in *. rewrite IH. reflexivity.
    + change (join nl ((c :: w) :: w' :: ws))
        with (c :: w ++ nl ++ join nl (w' :: ws)).
      change (join nl (w :: w' :: ws)) with (w ++ nl ++ join nl (w' :: ws)) in IH.
      rewrite IH. reflexivity.
Qed.

Lemma join_cons (sep p : list N) (ps : list (list N)) :
  ps <> [] -> join sep (p :: ps) = p ++ sep ++ join sep ps.
Proof. destruct ps; [contradiction|reflexivity]. Qed.

Lemma join_app (sep : list N) (xs ys : list (list N)) :
  xs <> [] -> ys <> [] ->
  join sep (xs ++ ys) = join sep xs ++ sep ++ join sep ys.
Proof.
  induction xs as [|x xs IH]; intros Hx Hy; [contradiction|].
  destruct xs as [|x' xs].
  - cbn [app]. rewrite join_cons by exact Hy. reflexivity.
  - change ((x :: x' :: xs) ++ ys) with (x :: (x' :: xs) ++ ys).
    rewrite join_cons by discriminate.
    rewrite IH by (discriminate || exact Hy).
    rewrite (join_cons sep x (x' :: xs)) by discriminate.
    rewrite <- !app_assoc. reflexivity.
Qed.

(** The lines of chunks joined by line feeds are the lines of the
    chunks. *)
Lemma split_join (cs : list (list N)) :
  cs <> [] -> split 10 (join nl cs) = flat_map (split 10) cs.
Proof.
  induction cs as [|c cs IH]; intros H; [contradiction|].
  destruct cs as [|c' cs].
  - cbn [join flat_map]. rewrite app_nil_r. reflexivity.
  - rewrite join_cons by discriminate. unfold nl at 1. cbn [app].
    rewrite split_newline, IH by discriminate. reflexivity.
Qed.

(** *** The collapse of blank lines, character by character *)

(** [run] line feeds stand just before; of a run of line feeds the first
    two are kept. *)
Fixpoint squeeze (run : nat) (s : jsstring) : jsstring :=
  match s with
  | [] => []
  | c :: t =>
      if (c =? 10)%N
      then if run <? 2 then c :: squeeze (S run) t else squeeze (S run) t
      else c :: squeeze 0 t
  end.

Lemma squeeze_fresh run s : fresh s = true -> squeeze run s = squeeze 0 s.
Proof.
  destruct s as [|d t]; [reflexivity|]. cbn [fresh squeeze]. unfold notNewline.
  intros H. apply negb_true_iff in H. rewrite H. reflexivity.
Qed.

Lemma squeeze_run k rest :
  fresh rest = true ->
  forall run,
    squeeze run (repeat 10%N k ++ rest)
    = repeat 10%N (Nat.min k (2 - run)) ++ squeeze 0 rest.
Proof.
  intros Hf. induction k as [|k IH]; intros run.
  - cbn [repeat app Nat.min]. apply squeeze_fresh. exact Hf.
  - cbn [repeat app squeeze N.eqb Pos.eqb]. rewrite IH.
    destruct (run <? 2) eqn:E.
    + apply Nat.ltb_lt in E.
      replace (Nat.min (S k) (2 - run)) with (S (Nat.min k (2 - S run))) by lia.
      reflexivity.
    + apply Nat.ltb_ge in E.
      replace (Nat.min (S k) (2 - run)) with 0 by lia.
      replace (Nat.min k (2 - S run)) with 0 by lia. reflexivity.
Qed.

(** The pass [/\n\n\n+/g] of the routes is [squeeze]. *)
Lemma collapse_squeeze :
  forall n s prev pos,
    List.length s <= n ->
    replaceAllFrom noFlags blankRunRe [TLit (nl ++ nl)] 0 prev s pos
    = squeeze 0 s.
Proof.
  induction n as [|n IH]; intros s prev pos Hn.
  - destruct s; [reflexivity|simpl in Hn; lia].
  - destruct s as [|c t]; [reflexivity|].
    cbn [List.length] in Hn.
    destruct (c =? 10)%N eqn:Ec.
    + apply N.eqb_eq in Ec. subst c.
      destruct (leading_newlines t) as [k [rest [-> Hf]]].
      rewrite length_app, repeat_length in Hn.
      change (10%N :: repeat 10%N k ++ rest) with (repeat 10%N (S k) ++ rest).
      rewrite (squeeze_run (S k) rest Hf 0).
      destruct k as [|[|k]].
      * cbn [repeat app Nat.min Nat.sub].
        rewrite replaceAll_copy by (apply blankRun_short1; exact Hf).
        rewrite IH by lia. reflexivity.
      * cbn [repeat app Nat.min Nat.sub].
        rewrite replaceAll_copy by (apply blankRun_short2; exact Hf).
        rewrite replaceAll_copy by (apply blankRun_short1; exact Hf).
        rewrite IH by lia. reflexivity.
      * destruct (blankRun_match_run k rest prev pos Hf) as [st [Hm [Hp Hcaps]]].
        cbn [repeat app].
        rewrite (replaceAll_match noFlags blankRunRe [TLit (nl ++ nl)] prev 10%N
                   (10%N :: 10%N :: repeat 10%N k ++ rest) pos st
                   (10%N :: 10%N :: repeat 10%N k) rest Hm).
        -- cbn [expand]. rewrite IH by lia. rewrite app_nil_r.
           replace (Nat.min (S (S (S k))) (2 - 0)) with 2 by lia. reflexivity.
        -- rewrite Hp. cbn [List.length]. rewrite repeat_length. lia.
        -- reflexivity.
    + assert (Hd : notNewline c = true) by (unfold notNewline; rewrite Ec; reflexivity).
      rewrite replaceAll_copy by (apply blankRun_nomatch; exact Hd).
      rewrite IH by lia. cbn [squeeze]. rewrite Ec. reflexivity.
Qed.

Lemma collapseBlankLines_squeeze (s : jsstring) :
  collapseBlankLines s = squeeze 0 s.
Proof.
  unfold collapseBlankLines, replaceAll.
  apply (collapse_squeeze (List.length s)). apply le_n.
Qed.

Lemma squeeze_app_fresh a b :
  fresh b = true ->
  forall run, squeeze run (a ++ b) = squeeze run a ++ squeeze 0 b.
Proof.
  intros Hf. induction a as [|c a IH]; intros run.
  - apply squeeze_fresh. exact Hf.
  - cbn [app squeeze]. rewrite !IH.
    destruct (c =? 10)%N; [destruct (run <? 2)|]; reflexivity.
Qed.

Lemma squeeze_app_solid a c b :
  notNewline c = true ->
  forall run, squeeze run ((a ++ [c]) ++ b) = squeeze run (a ++ [c]) ++ squeeze 0 b.
Proof.
  intros Hc. induction a as [|d a IH]; intros run.
  - cbn [app squeeze]. unfold notNewline in Hc. apply negb_true_iff in Hc.
    rewrite Hc. reflexivity.
  - cbn [app squeeze]. cbn [app] in IH. rewrite !IH.
    destruct (d =? 10)%N; [destruct (run <? 2)|]; reflexivity.
Qed.

Lemma squeeze_spaces g :
  forallb isSpace g = true -> forall run, forallb isSpace (squeeze run g) = true.
Proof.
  induction g as [|c g IH]; intros H run; [reflexivity|].
  cbn [forallb] in H. apply andb_true_iff in H. destruct H as [Hc H].
  cbn [squeeze].
  destruct (c =? 10)%N; [destruct (run <? 2)|]; cbn [forallb];
    rewrite ?Hc, ?IH; auto.
Qed.

Lemma squeeze_newline g :
  In 10%N g -> forall run, run < 2 \/ fresh g = true -> In 10%N (squeeze run g).
Proof.
  induction g as [|c g IH]; intros H run Hr; [destruct H|].
  cbn [squeeze]. destruct (c =? 10)%N eqn:Ec.
  - apply N.eqb_eq in Ec. subst c.
    destruct Hr as [Hr|Hr]; [|discriminate Hr].
    apply Nat.ltb_lt in Hr. rewrite Hr. left. reflexivity.
  - destruct H as [H|H]; [subst c; discriminate Ec|].
    right. apply IH; [exact H|left; lia].
Qed.

Lemma squeeze_two run s : 2 <= run -> squeeze run s = squeeze 2 s.
Proof.
  revert run. induction s as [|c t IH]; intros run H; [reflexivity|].
  cbn [squeeze]. destruct (c =? 10)%N; [|reflexivity].
  replace (run <? 2) with false by (symmetry; apply Nat.ltb_ge; lia).
  cbn [Nat.ltb Nat.leb]. rewrite (IH (S run)), (IH 3) by lia. reflexivity.
Qed.

Lemma squeeze_idem s : forall run, squeeze run (squeeze run s) = squeeze run s.
Proof.
  induction s as [|c t IH]; intros run; [reflexivity|].
  cbn [squeeze]. destruct (c =? 10)%N eqn:Ec.
  - destruct (run <? 2) eqn:Er.
    + cbn [squeeze]. rewrite Ec, Er, IH. reflexivity.
    + apply Nat.ltb_ge in Er.
      rewrite (squeeze_two (S run) t) by lia.
      rewrite (squeeze_two run) by lia.
      apply IH.
  - cbn [squeeze]. rewrite Ec, IH. reflexivity.
Qed.

(** A text without line feed that stands in the squeezed text stands in
    the text itself. *)
Lemma squeeze_starts p :
  forallb notNewline p = true ->
  forall s, startsWith (squeeze 0 s) p = true -> startsWith s p = true.
Proof.
  induction p as [|a p IH]; intros Hp s H; [apply startsWith_nil|].
  cbn [forallb] in Hp. apply andb_true_iff in Hp. destruct Hp as [Ha Hp].
  unfold notNewline in Ha. apply negb_true_iff in Ha.
  destruct s as [|c t]; [discriminate H|].
  cbn [squeeze] in H. destruct (c =? 10)%N eqn:Ec.
  - cbn [Nat.ltb Nat.leb startsWith] in H. apply andb_true_iff in H.
    destruct H as [H _]. apply N.eqb_eq in H. subst a.
    rewrite Ec in Ha. discriminate.
  - cbn [startsWith] in *. apply andb_true_iff in H. destruct H as [H1 H2].
    rewrite H1. exact (IH Hp t H2).
Qed.

Lemma squeeze_includes p :
  p <> [] -> forallb notNewline p = true ->
  forall s run, includes (squeeze run s) p = true -> includes s p = true.
Proof.
  intros Hne Hp. induction s as [|c t IH]; intros run H.
  - destruct p; [contradiction|discriminate H].
  - destruct p as [|a p]; [contradiction|].
    assert (Ha : (a =? 10)%N = false).
    { cbn [forallb] in Hp. apply andb_true_iff in Hp. destruct Hp as [Ha _].
      unfold notNewline in Ha. apply negb_true_iff in Ha. exact Ha. }
    cbn [squeeze] in H. cbn [includes].
    destruct (c =? 10)%N eqn:Ec.
    + apply N.eqb_eq in Ec. subst c.
      assert (Ht : includes (squeeze (S run) t) (a :: p) = true).
      { destruct (run <? 2); [|exact H].
        cbn [includes startsWith] in H. rewrite Ha in H. exact H. }
      rewrite (IH (S run) Ht). apply orb_true_r.
    + cbn [includes] in H. apply orb_true_iff in H. destruct H as [H|H].
      * cbn [startsWith] in H. apply andb_true_iff in H. destruct H as [H1 H2].
        cbn [forallb] in Hp. apply andb_true_iff in Hp.
        cbn [startsWith]. rewrite H1, (squeeze_starts p (proj2 Hp) t H2).
        reflexivity.
      * rewrite (IH 0 H). apply orb_true_r.
Qed.

(** *** Sections, gaps and the texts made of them *)

(** No component name followed by a colon stands in the text. *)
Definition labelFree (b : jsstring) : bool :=
  forallb (fun n => negb (includes b (js n ++ js ":"))) componentNames.

(** The text is empty or ends with a character that is no whitespace. *)
Definition solidEnd (b : jsstring) : bool :=
  match b with
  | [] => true
  | _ :: _ => negb (isSpace (last b 0%N))
  end.

(** A section: a component name, a colon, and a text that may run over
    several lines but holds no label and does not end with whitespace
    (the whitespace after it belongs to the gap that follows). *)
Definition section (s : part) : Prop :=
  In (pname s) componentNames
  /\ labelFree (pbody s) = true /\ solidEnd (pbody s) = true.

(** A gap between two sections: whitespace with a line feed in it, so
    that the next label starts a line, indented or not. *)
Definition isBreak (g : jsstring) : Prop :=
  forallb isSpace g = true /\ In 10%N g.

(** The sections after the first, each behind its gap. *)
Definition gapped (others : list (jsstring * part)) : jsstring :=
  flat_map (fun gs => fst gs ++ partText (snd gs)) others.

Definition framed (first : part) (others : list (jsstring * part)) : jsstring :=
  partText first ++ gapped others.

Definition namesOf (first : part) (others : list (jsstring * part))
  : list string :=
  map pname (first :: map snd others).

(** The sections of a reply up to the first repeated label: every
    label starts a line, no label stands inside the text of a section, no
    label comes twice, and the "Role" section, if there is one, is the
    first. *)
Definition sectioned (first : part) (others : list (jsstring * part)) : Prop :=
  section first
  /\ Forall (fun gs => isBreak (fst gs) /\ section (snd gs)) others
  /\ NoDup (namesOf first others)
  /\ ~ In "Role"%string (map (fun gs => pname (snd gs)) others).

(** What follows the sections: a line that starts, indented or not, with
    a label already seen, and then anything. *)
Definition repeated (first : part) (others : list (jsstring * part))
    (rest : jsstring) : Prop :=
  exists gap n tail,
    rest = gap ++ js n ++ js ":" ++ tail
    /\ isBreak gap /\ In n (namesOf first others).

(** The reply ends with the sections, or a label is repeated. *)
Definition ending (first : part) (others : list (jsstring * part))
    (rest : jsstring) : Prop :=
  forallb isSpace rest = true \/ repeated first others rest.

Lemma labelFree_unlabelled b : labelFree b = true <-> unlabelled b.
Proof.
  unfold labelFree, unlabelled. rewrite forallb_forall. split.
  - intros H n Hn. apply negb_true_iff. exact (H n Hn).
  - intros H n Hn. apply negb_true_iff. exact (H n Hn).
Qed.

Lemma gapped_cons g s others :
  gapped ((g, s) :: others) = g ++ partText s ++ gapped others.
Proof. unfold gapped. cbn [flat_map fst snd]. rewrite <- app_assoc. reflexivity. Qed.

(** *** A gap cut at its last line feed *)

Fixpoint cut (g : jsstring) : option (jsstring * jsstring) :=
  match g with
  | [] => None
  | c :: t =>
      match cut t with
      | Some av => Some (c :: fst av, snd av)
      | None => if (c =? 10)%N then Some ([], t) else None
      end
  end.

(** The gap up to its last line feed, and the indentation after it. *)
Definition upto (g : jsstring) : jsstring :=
  match cut g with Some av => fst av | None => [] end.

Definition indent (g : jsstring) : jsstring :=
  match cut g with Some av => snd av | None => g end.

(** The gap with one more line feed before the indentation. *)
Definition widen (g : jsstring) : jsstring :=
  upto g ++ nl ++ nl ++ indent g.

Lemma cut_none g : cut g = None -> forallb notNewline g = true.
Proof.
  induction g as [|c t IH]; [reflexivity|]. cbn [cut].
  destruct (cut t) as [av|]; [discriminate|].
  destruct (c =? 10)%N eqn:Ec; [discriminate|]. intros _.
  cbn [forallb]. unfold notNewline at 1. rewrite Ec. apply IH. reflexivity.
Qed.

Lemma cut_some g a v :
  cut g = Some (a, v) -> g = a ++ 10%N :: v /\ forallb notNewline v = true.
Proof.
  revert a v. induction g as [|c t IH]; intros a v H; [discriminate|].
  cbn [cut] in H. destruct (cut t) as [[a' v']|] eqn:Et.
  - cbn [fst snd] in H. injection H as <- <-.
    destruct (IH a' v' eq_refl) as [-> Hv].
    split; [reflexivity|exact Hv].
  - destruct (c =? 10)%N eqn:Ec; [|discriminate]. inversion H. subst.
    apply N.eqb_eq in Ec. subst c. split; [reflexivity|].
    apply cut_none. exact Et.
Qed.

Lemma break_cut g :
  isBreak g ->
  g = upto g ++ 10%N :: indent g
  /\ forallb isSpace (upto g) = true
  /\ forallb isSpace (indent g) = true
  /\ forallb notNewline (indent g) = true.
Proof.
  intros [Hs Hn]. unfold upto, indent.
  destruct (cut g) as [[a v]|] eqn:E.
  - destruct (cut_some g a v E) as [Hg Hv]. cbn [fst snd].
    rewrite Hg in Hs. rewrite forallb_app in Hs.
    apply andb_true_iff in Hs. destruct Hs as [Ha Hv'].
    cbn [forallb] in Hv'. apply andb_true_iff in Hv'.
    repeat split; try assumption. exact (proj2 Hv').
  - exfalso. pose proof (cut_none g E) as H. rewrite forallb_forall in H.
    specialize (H 10%N Hn). discriminate.
Qed.

Lemma widen_break g : isBreak g -> isBreak (widen g).
Proof.
  intros H. destruct (break_cut g H) as [_ [Ha [Hv _]]]. unfold widen. split.
  - rewrite !forallb_app, Ha, Hv. reflexivity.
  - apply in_or_app. right. left. reflexivity.
Qed.

(** *** Label lines *)

Lemma piece_before_spaces (p b a : jsstring) :
  p <> [] -> forallb solid p = true -> forallb isSpace a = true ->
  pieceOf p (b ++ a) -> pieceOf p b.
Proof.
  intros Hne Hp Ha [x [y H]].
  assert (Hclash : forall c, In c p -> In c a -> False).
  { intros c Hcp Hca. rewrite forallb_forall in Hp, Ha.
    specialize (Hp c Hcp). specialize (Ha c Hca). unfold solid in Hp.
    rewrite Ha in Hp. discriminate. }
  apply app_eq_app in H. destruct H as [l [[Hb Hy]|[Hx Hy]]].
  - symmetry in Hy. apply app_eq_app in Hy.
    destruct Hy as [l' [[Hl Hy]|[Hl Hy]]].
    + exists x, l'. rewrite Hb, Hl. reflexivity.
    + destruct l' as [|c l'].
      * exists x, []. rewrite Hb, Hl, !app_nil_r. reflexivity.
      * exfalso. apply (Hclash c).
        -- rewrite Hl. apply in_or_app. right. left. reflexivity.
        -- rewrite Hy. left. reflexivity.
  - exfalso. destruct p as [|c p]; [contradiction|].
    apply (Hclash c); [left; reflexivity|].
    rewrite Hy. apply in_or_app. right. left. reflexivity.
Qed.

Lemma unlabelled_app_spaces (b a : jsstring) :
  unlabelled b -> forallb isSpace a = true -> unlabelled (b ++ a).
Proof.
  intros Hb Ha n Hn. specialize (Hb n Hn).
  destruct (includes (b ++ a) (js n ++ js ":")) eqn:E; [|reflexivity].
  apply includes_spec in E.
  apply (piece_before_spaces _ b a) in E.
  - apply includes_spec in E. congruence.
  - destruct (name_head n Hn) as [d [t [Hd _]]]. rewrite Hd. discriminate.
  - exact (proj1 (label_solid n Hn)).
  - exact Ha.
Qed.

Lemma trimEnd_keeps (p : jsstring) :
  p <> [] -> isSpace (last p 0%N) = false ->
  forall x, exists x', trimEnd (p ++ x) = p ++ x'.
Proof.
  intros Hne Hl x. induction x as [|c x IH] using rev_ind.
  - exists []. rewrite app_nil_r. unfold trimEnd.
    destruct (rev_last_cons p 0%N Hne) as [r Hr]. rewrite Hr.
    cbn [dropWhile]. rewrite Hl. rewrite <- Hr. apply rev_involutive.
  - destruct (isSpace c) eqn:Ec.
    + destruct IH as [x' IH]. exists x'. rewrite app_assoc.
      rewrite trimEnd_app_space; [exact IH|]. cbn [forallb]. rewrite Ec.
      reflexivity.
    + exists (x ++ [c]). unfold trimEnd. rewrite app_assoc, rev_app_distr.
      cbn [rev app dropWhile]. rewrite Ec.
      change (c :: rev (p ++ x)) with (rev [c] ++ rev (p ++ x)).
      rewrite <- rev_app_distr, rev_involutive. reflexivity.
Qed.

(** A line that starts, after any indentation, with a label has that
    label. *)
Lemma label_line (v : jsstring) n (x : jsstring) :
  forallb isSpace v = true -> In n componentNames ->
  labelOf (v ++ js n ++ js ":" ++ x) = Some (js n).
Proof.
  intros Hv Hn. unfold labelOf, trim, trimStart.
  rewrite (dropWhile_all isSpace v _ Hv).
  destruct (name_head n Hn) as [d [t [Hd [_ Hs]]]].
  assert (Hdrop : dropWhile isSpace (js n ++ js ":" ++ x) = js n ++ js ":" ++ x).
  { rewrite Hd. cbn [app dropWhile]. rewrite Hs. reflexivity. }
  rewrite Hdrop.
  destruct (trimEnd_keeps (js n ++ js ":")) with (x := x) as [x' Hx].
  - rewrite Hd. discriminate.
  - rewrite (last_app_ne (js n) (js ":") 0%N) by discriminate. reflexivity.
  - rewrite <- app_assoc in Hx. rewrite Hx.
    rewrite componentMatch_spec. unfold labelPrefix.
    destruct x' as [|c x']; names Hn; subst n; reflexivity.
Qed.

Lemma section_unlabelled s : section s -> unlabelled (pbody s).
Proof. intros [_ [H _]]. apply labelFree_unlabelled. exact H. Qed.

(** The lines of a chunk: the first has the label [n], the others have
    none. *)
Definition labelled (n : string) (chunk : jsstring) : Prop :=
  exists line more,
    split 10 chunk = line :: more
    /\ labelOf line = Some (js n)
    /\ Forall (fun l => labelOf l = None) more.

Lemma chunk_labelled (v : jsstring) s (fin : jsstring) :
  forallb isSpace v = true -> forallb notNewline v = true ->
  section s -> forallb isSpace fin = true ->
  labelled (pname s) (v ++ partText s ++ fin).
Proof.
  intros Hv Hvn Hs Hf. unfold labelled, partText.
  pose proof Hs as [Hn _].
  assert (Hp : forallb notNewline (v ++ js (pname s) ++ js ":") = true).
  { rewrite forallb_app, Hvn. apply name_notNewline. exact Hn. }
  replace (v ++ (js (pname s) ++ js ":" ++ pbody s) ++ fin)
    with ((v ++ js (pname s) ++ js ":") ++ pbody s ++ fin)
    by (rewrite <- !app_assoc; reflexivity).
  rewrite (split_inline _ _ Hp).
  pose proof (split_nonempty (pbody s ++ fin)) as Hne.
  destruct (split 10 (pbody s ++ fin)) as [|w ws] eqn:Es; [contradiction|].
  exists ((v ++ js (pname s) ++ js ":") ++ w), ws.
  split; [reflexivity|]. split.
  - rewrite <- !app_assoc. apply label_line; assumption.
  - apply Forall_forall. intros l Hl. apply unlabelled_labelOf.
    apply (unlabelled_piece l (pbody s ++ fin)).
    + apply split_pieces. rewrite Es. right. exact Hl.
    + apply unlabelled_app_spaces; [apply section_unlabelled; exact Hs|exact Hf].
Qed.

(** *** The chunks of a text made of sections *)

(** The text cut at the last line feed of every gap: each chunk is the
    indentation of a label line, a section, and the whitespace after it
    up to that line feed. *)
Fixpoint chunksOf (v : jsstring) (s : part) (others : list (jsstring * part))
    (fin : jsstring) : list jsstring :=
  match others with
  | [] => [v ++ partText s ++ fin]
  | gs :: more =>
      (v ++ partText s ++ upto (fst gs))
        :: chunksOf (indent (fst gs)) (snd gs) more fin
  end.

Lemma chunksOf_nonempty v s others fin : chunksOf v s others fin <> [].
Proof. destruct others; discriminate. Qed.

Lemma join_chunksOf others fin :
  Forall (fun gs => isBreak (fst gs) /\ section (snd gs)) others ->
  forall v s,
    join nl (chunksOf v s others fin) = v ++ partText s ++ gapped others ++ fin.
Proof.
  induction 1 as [|[g s'] more [Hg _] _ IH]; intros v s.
  - cbn [chunksOf join gapped flat_map app]. reflexivity.
  - cbn [chunksOf fst snd]. rewrite join_cons by apply chunksOf_nonempty.
    rewrite IH, gapped_cons.
    destruct (break_cut g Hg) as [Hcut _].
    replace (g ++ partText s' ++ gapped more)
      with ((upto g ++ 10%N :: indent g) ++ partText s' ++ gapped more)
      by (rewrite <- Hcut; reflexivity).
    unfold nl. rewrite <- !app_assoc. reflexivity.
Qed.

Lemma chunks_labelled others fin :
  Forall (fun gs => isBreak (fst gs) /\ section (snd gs)) others ->
  forallb isSpace fin = true ->
  forall v s,
    forallb isSpace v = true -> forallb notNewline v = true -> section s ->
    Forall2 labelled (pname s :: map (fun gs => pname (snd gs)) others)
            (chunksOf v s others fin).
Proof.
  intros Ho Hf. induction Ho as [|[g s'] more [Hg Hs'] _ IH]; intros v s Hv Hvn Hs.
  - cbn [chunksOf map]. constructor; [|constructor].
    apply chunk_labelled; assumption.
  - cbn [chunksOf map fst snd].
    destruct (break_cut g Hg) as [_ [Ha [Hi Hin]]].
    constructor.
    + apply chunk_labelled; assumption.
    + apply IH; assumption.
Qed.

Lemma labelled_labels ns cs :
  Forall2 labelled ns cs ->
  labelsOf (flat_map (split 10) cs) = map js ns.
Proof.
  induction 1 as [|n c ns cs [line [more [Hc [Hl Hm]]]] _ IH]; [reflexivity|].
  cbn [flat_map map]. rewrite labelsOf_app, IH, Hc.
  unfold labelsOf at 1. cbn [flat_map]. rewrite Hl.
  replace (flat_map _ more) with (@nil jsstring); [reflexivity|].
  clear -Hm. induction Hm as [|l more Hl _ IH]; [reflexivity|].
  cbn [flat_map]. rewrite Hl, <- IH. reflexivity.
Qed.

Lemma unlabelled_lines_separator more :
  Forall (fun l => labelOf l = None) more -> flat_map withSeparator more = more.
Proof.
  induction 1 as [|l more Hl _ IH]; [reflexivity|].
  cbn [flat_map]. unfold withSeparator at 1. rewrite Hl, IH. reflexivity.
Qed.

Lemma labelled_separated ns cs :
  Forall2 labelled ns cs ->
  flat_map withSeparator (flat_map (split 10) cs)
  = flat_map (fun c => [] :: split 10 c) cs.
Proof.
  induction 1 as [|n c ns cs [line [more [Hc [Hl Hm]]]] _ IH]; [reflexivity|].
  cbn [flat_map]. rewrite flat_map_app, IH, Hc. cbn [flat_map].
  unfold withSeparator at 1. rewrite Hl. cbn [isSome app].
  rewrite (unlabelled_lines_separator more Hm). reflexivity.
Qed.

Lemma NoDup_js (ns : list string) : NoDup ns -> NoDup (map js ns).
Proof.
  induction 1 as [|n ns Hn _ IH]; [constructor|].
  cbn [map]. constructor; [|exact IH].
  intros Hin. apply in_map_iff in Hin. destruct Hin as [m [Hm Hin]].
  apply js_injective in Hm. subst m. exact (Hn Hin).
Qed.

(** The walk over the lines of the chunks keeps every line and puts an
    empty line before each chunk but the first. *)
Lemma walk_chunks ns c0 cs :
  Forall2 labelled ns (c0 :: cs) -> NoDup ns ->
  walk (flat_map (split 10) (c0 :: cs)) [] [] []
  = split 10 c0 ++ flat_map (fun c => [] :: split 10 c) cs.
Proof.
  intros Hl Hnd.
  rewrite walk_wellShaped_again.
  - inversion Hl as [|n c ns' cs' [line [more [Hc [Hline Hm]]]] Hrest]. subst.
    cbn [flat_map]. rewrite Hc. cbn [app reseparated].
    rewrite flat_map_app, (unlabelled_lines_separator more Hm).
    rewrite (labelled_separated ns' cs Hrest). reflexivity.
  - right. split.
    + inversion Hl as [|n c ns' cs' [line [more [Hc [Hline Hm]]]] Hrest]. subst.
      cbn [flat_map]. rewrite Hc. cbn [app].
      eexists. eexists. eexists. split; [reflexivity|exact Hline].
    + rewrite (labelled_labels ns (c0 :: cs) Hl). apply NoDup_js. exact Hnd.
Qed.

Lemma join_blank (cs : list (list N)) :
  forall L : list (list N), L <> [] ->
    join nl (L ++ flat_map (fun c => [] :: split 10 c) cs)
    = join nl L ++ flat_map (fun c => nl ++ nl ++ c) cs.
Proof.
  induction cs as [|c cs IH]; intros L HL.
  - cbn [flat_map]. rewrite !app_nil_r. reflexivity.
  - cbn [flat_map].
    replace (L ++ ([] :: split 10 c) ++ flat_map (fun c1 => [] :: split 10 c1) cs)
      with ((L ++ [] :: split 10 c)
            ++ flat_map (fun c1 => [] :: split 10 c1) cs)
      by (rewrite <- app_assoc; reflexivity).
    rewrite IH by (destruct L; discriminate).
    rewrite (join_app nl L ([] :: split 10 c)) by (assumption || discriminate).
    rewrite (join_cons nl [] (split 10 c)) by apply split_nonempty.
    rewrite join_split. cbn [app]. rewrite <- !app_assoc. reflexivity.
Qed.

Definition widened (others : list (jsstring * part)) : list (jsstring * part) :=
  map (fun gs => (widen (fst gs), snd gs)) others.

Lemma chunks_text others fin :
  Forall (fun gs => isBreak (fst gs) /\ section (snd gs)) others ->
  forall v s,
    match chunksOf v s others fin with
    | [] => []
    | c0 :: cs => c0 ++ flat_map (fun c => nl ++ nl ++ c) cs
    end
    = v ++ partText s ++ gapped (widened others) ++ fin.
Proof.
  induction 1 as [|[g s'] more [Hg _] _ IH]; intros v s.
  - cbn [chunksOf flat_map widened map gapped app]. rewrite app_nil_r.
    reflexivity.
  - cbn [chunksOf fst snd widened map]. fold (widened more).
    rewrite gapped_cons. specialize (IH (indent g) s').
    pose proof (chunksOf_nonempty (indent g) s' more fin) as Hne.
    destruct (chunksOf (indent g) s' more fin) as [|c1 cs]; [contradiction|].
    cbn [flat_map]. rewrite <- !app_assoc.
    rewrite IH. unfold widen. rewrite <- !app_assoc. reflexivity.
Qed.

Lemma namesOf_chunks first others :
  namesOf first others
  = pname first :: map (fun gs => pname (snd gs)) others.
Proof. unfold namesOf. cbn [map]. rewrite map_map. reflexivity. Qed.

(** The lines kept by the walk over the whitespace-ended sections, joined
    again: the sections, with one more line feed in every gap.  The first
    label may be indented by [v]. *)
Lemma walk_sections v first others fin :
  forallb isSpace v = true -> forallb notNewline v = true ->
  sectioned first others -> forallb isSpace fin = true ->
  split 10 (v ++ framed first others ++ fin)
  = flat_map (split 10) (chunksOf v first others fin)
  /\ labelsOf (split 10 (v ++ framed first others ++ fin))
     = map js (namesOf first others)
  /\ join nl (walk (split 10 (v ++ framed first others ++ fin)) [] [] [])
     = v ++ framed first (widened others) ++ fin.
Proof.
  intros Hv Hvn [Hs [Ho [Hnd _]]] Hf.
  assert (Ht : v ++ framed first others ++ fin
               = join nl (chunksOf v first others fin)).
  { rewrite (join_chunksOf others fin Ho). unfold framed.
    rewrite <- !app_assoc. reflexivity. }
  assert (Hsplit : split 10 (v ++ framed first others ++ fin)
                   = flat_map (split 10) (chunksOf v first others fin)).
  { rewrite Ht. apply split_join. apply chunksOf_nonempty. }
  pose proof (chunks_labelled others fin Ho Hf v first Hv Hvn Hs) as Hl.
  rewrite <- namesOf_chunks in Hl.
  split; [exact Hsplit|]. split.
  - rewrite Hsplit. apply (labelled_labels _ _ Hl).
  - rewrite Hsplit.
    pose proof (chunks_text others fin Ho v first) as Htext.
    pose proof (chunksOf_nonempty v first others fin) as Hne.
    destruct (chunksOf v first others fin) as [|c0 cs]; [contradiction|].
    rewrite (walk_chunks _ c0 cs Hl Hnd).
    flat_rewrite (join_blank cs (split 10 c0) (split_nonempty c0)).
    rewrite join_split. rewrite Htext. unfold framed.
    rewrite <- !app_assoc. reflexivity.
Qed.

Lemma walk_framed v first others rest :
  forallb isSpace v = true -> forallb notNewline v = true ->
  sectioned first others -> ending first others rest ->
  exists fin,
    forallb isSpace fin = true
    /\ join nl (walk (split 10 (v ++ framed first others ++ rest)) [] [] [])
       = v ++ framed first (widened others) ++ fin.
Proof.
  intros Hv Hvn Hsec [Hr|[gap [n [tail [-> [Hg Hn]]]]]].
  - exists rest. split; [exact Hr|].
    exact (proj2 (proj2 (walk_sections v first others rest Hv Hvn Hsec Hr))).
  - destruct (break_cut gap Hg) as [Hcut [Ha [Hi Hin']]].
    exists (upto gap). split; [exact Ha|].
    destruct (walk_sections v first others (upto gap) Hv Hvn Hsec Ha)
      as [_ [Hlabels Hjoin]].
    assert (Hin : In n componentNames).
    { destruct Hsec as [[Hf _] [Ho _]]. unfold namesOf in Hn.
      cbn [map] in Hn. destruct Hn as [<-|Hn]; [exact Hf|].
      rewrite map_map in Hn. apply in_map_iff in Hn.
      destruct Hn as [gs [<- Hgs]]. rewrite Forall_forall in Ho.
      exact (proj1 (proj2 (Ho gs Hgs))). }
    replace (v ++ framed first others ++ gap ++ js n ++ js ":" ++ tail)
      with ((v ++ framed first others ++ upto gap)
            ++ 10%N :: (indent gap ++ js n ++ js ":") ++ tail)
      by (rewrite Hcut at 3; rewrite <- !app_assoc; reflexivity).
    rewrite split_newline.
    rewrite (split_inline (indent gap ++ js n ++ js ":") tail)
      by (rewrite forallb_app, Hin'; apply name_notNewline; exact Hin).
    assert (Hstop : forall w ws,
               walk (split 10 (v ++ framed first others ++ upto gap)
                     ++ ((indent gap ++ js n ++ js ":") ++ w) :: ws) [] [] []
               = walk (split 10 (v ++ framed first others ++ upto gap)) [] [] []).
    { intros w ws.
      apply (walk_stops_at_duplicate _ [] [] [] _ ws (js n)).
      - rewrite <- !app_assoc. apply label_line; assumption.
      - right. rewrite Hlabels. apply in_map. exact Hn. }
    destruct (split 10 tail) as [|w ws].
    + rewrite <- (app_nil_r (indent gap ++ js n ++ js ":")).
      rewrite Hstop. exact Hjoin.
    + rewrite Hstop. exact Hjoin.
Qed.

(** *** The collapse of blank lines on a text made of sections *)

(** The section with the blank lines of its text collapsed. *)
Definition tidied (s : part) : part :=
  {| pname := pname s; pbody := collapseBlankLines (pbody s) |}.

Definition collapsed (others : list (jsstring * part))
  : list (jsstring * part) :=
  map (fun gs => (collapseBlankLines (fst gs), tidied (snd gs))) others.

Lemma solidEnd_snoc (b : jsstring) :
  b <> [] -> solidEnd b = true ->
  exists init x, b = init ++ [x] /\ isSpace x = false.
Proof.
  intros Hne Hs. destruct (exists_last Hne) as [init [x ->]].
  exists init, x. split; [reflexivity|].
  unfold solidEnd in Hs. destruct (init ++ [x]) eqn:E.
  - destruct init; discriminate.
  - rewrite <- E in Hs. rewrite last_last in Hs.
    apply negb_true_iff in Hs. exact Hs.
Qed.

Lemma solid_notNewline x : isSpace x = false -> notNewline x = true.
Proof.
  intros H. unfold notNewline. destruct (x =? 10)%N eqn:E; [|reflexivity].
  apply N.eqb_eq in E. subst x. discriminate H.
Qed.

Lemma squeeze_solidEnd (b : jsstring) :
  solidEnd b = true -> solidEnd (squeeze 0 b) = true.
Proof.
  intros Hs. destruct b as [|c b]; [reflexivity|].
  destruct (solidEnd_snoc (c :: b)) as [init [x [E Hx]]];
    [discriminate|exact Hs|].
  rewrite E.
  rewrite (squeeze_app_fresh init [x]) by (apply solid_notNewline; exact Hx).
  cbn [squeeze]. pose proof (solid_notNewline x Hx) as Hn.
  unfold notNewline in Hn. apply negb_true_iff in Hn. rewrite Hn.
  unfold solidEnd. destruct (squeeze 0 init ++ [x]) eqn:E'.
  - destruct (squeeze 0 init); discriminate.
  - rewrite <- E'. rewrite last_last. rewrite Hx. reflexivity.
Qed.

Lemma squeeze_unlabelled (b : jsstring) :
  unlabelled b -> unlabelled (squeeze 0 b).
Proof.
  intros H n Hn. specialize (H n Hn).
  destruct (includes (squeeze 0 b) (js n ++ js ":")) eqn:E; [|reflexivity].
  apply squeeze_includes in E.
  - congruence.
  - destruct (name_head n Hn) as [d [t [Hd _]]]. rewrite Hd. discriminate.
  - apply name_notNewline. exact Hn.
Qed.

Lemma tidied_section s : section s -> section (tidied s).
Proof.
  intros [Hn [Hl Hs]]. unfold tidied, section. cbn [pname pbody].
  rewrite collapseBlankLines_squeeze. split; [exact Hn|]. split.
  - apply labelFree_unlabelled. apply squeeze_unlabelled.
    apply labelFree_unlabelled. exact Hl.
  - apply squeeze_solidEnd. exact Hs.
Qed.

Lemma collapse_break g : isBreak g -> isBreak (collapseBlankLines g).
Proof.
  intros [Hs Hn]. rewrite collapseBlankLines_squeeze. split.
  - apply squeeze_spaces. exact Hs.
  - apply squeeze_newline; [exact Hn|left; lia].
Qed.

Lemma collapse_spaces g :
  forallb isSpace g = true -> forallb isSpace (collapseBlankLines g) = true.
Proof. intros H. rewrite collapseBlankLines_squeeze. apply squeeze_spaces. exact H. Qed.

Lemma partText_fresh s X : In (pname s) componentNames -> fresh (partText s ++ X) = true.
Proof.
  intros Hn. destruct (name_head _ Hn) as [d [t [Hd [Hdn _]]]].
  unfold partText. rewrite Hd. exact Hdn.
Qed.

Lemma squeeze_partText s X :
  section s ->
  squeeze 0 (partText s ++ X) = partText (tidied s) ++ squeeze 0 X.
Proof.
  intros [Hn [_ Hs]]. unfold partText, tidied. cbn [pname pbody].
  rewrite collapseBlankLines_squeeze.
  replace ((js (pname s) ++ js ":" ++ pbody s) ++ X)
    with ((js (pname s) ++ [58%N]) ++ pbody s ++ X)
    by (rewrite <- !app_assoc; reflexivity).
  rewrite squeeze_app_solid by reflexivity.
  rewrite (squeeze_app_fresh (js (pname s)) [58%N]) by reflexivity.
  assert (Hname : squeeze 0 (js (pname s)) = js (pname s)).
  { names Hn; rewrite Hn; reflexivity. }
  rewrite Hname. cbn [squeeze N.eqb Pos.eqb].
  assert (Hbody : squeeze 0 (pbody s ++ X) = squeeze 0 (pbody s) ++ squeeze 0 X).
  { destruct (pbody s) as [|c b] eqn:Eb; [reflexivity|].
    destruct (solidEnd_snoc (c :: b)) as [init [x [E Hx]]];
      [discriminate|exact Hs|].
    rewrite E. apply squeeze_app_solid. apply solid_notNewline. exact Hx. }
  rewrite Hbody. rewrite <- !app_assoc. reflexivity.
Qed.

Lemma squeeze_gapped others fin :
  Forall (fun gs => isBreak (fst gs) /\ section (snd gs)) others ->
  squeeze 0 (gapped others ++ fin) = gapped (collapsed others) ++ squeeze 0 fin.
Proof.
  induction 1 as [|[g s] more [_ Hs] _ IH]; [reflexivity|].
  cbn [collapsed map fst snd]. fold (collapsed more).
  cbn [snd] in Hs.
  rewrite !gapped_cons, <- !app_assoc.
  rewrite (squeeze_app_fresh g (partText s ++ gapped more ++ fin))
    by (apply partText_fresh; exact (proj1 Hs)).
  rewrite (squeeze_partText s _ Hs), IH.
  rewrite collapseBlankLines_squeeze. reflexivity.
Qed.

Lemma collapse_framed first others fin :
  section first ->
  Forall (fun gs => isBreak (fst gs) /\ section (snd gs)) others ->
  collapseBlankLines (framed first others ++ fin)
  = framed (tidied first) (collapsed others) ++ collapseBlankLines fin.
Proof.
  intros Hf Ho. rewrite !collapseBlankLines_squeeze. unfold framed.
  rewrite <- !app_assoc. rewrite (squeeze_partText first _ Hf).
  rewrite (squeeze_gapped others fin Ho). reflexivity.
Qed.

Lemma collapsed_sections others :
  Forall (fun gs => isBreak (fst gs) /\ section (snd gs)) others ->
  Forall (fun gs => isBreak (fst gs) /\ section (snd gs)) (collapsed others).
Proof.
  induction 1 as [|[g s] more [Hg Hs] _ IH]; [constructor|].
  cbn [collapsed map fst snd]. constructor; [|exact IH]. split.
  - apply collapse_break. exact Hg.
  - apply tidied_section. exact Hs.
Qed.

Lemma widened_sections others :
  Forall (fun gs => isBreak (fst gs) /\ section (snd gs)) others ->
  Forall (fun gs => isBreak (fst gs) /\ section (snd gs)) (widened others).
Proof.
  induction 1 as [|[g s] more [Hg Hs] _ IH]; [constructor|].
  cbn [widened map fst snd]. constructor; [|exact IH]. split.
  - apply widen_break. exact Hg.
  - exact Hs.
Qed.

(** *** Copying what no match starts in *)

Lemma replaceAll_copy_when fl r tpl (rest : jsstring) :
  forall chunk prev pos,
    (forall a c b, chunk = a ++ c :: b ->
       forall prev' pos', matchAt fl r prev' (c :: b ++ rest) pos' = None) ->
    replaceAllFrom fl r tpl 0 prev (chunk ++ rest) pos
    = chunk ++ replaceAllFrom fl r tpl 0 (lastOr prev chunk) rest
                 (List.length chunk + pos).
Proof.
  induction chunk as [|c chunk IH]; intros prev pos H; [reflexivity|].
  cbn [app]. rewrite replaceAll_copy by (apply (H [] c chunk); reflexivity).
  rewrite IH.
  - rewrite (lastOr_cons prev c chunk).
    cbn [List.length]. rewrite Nat.add_succ_r. reflexivity.
  - intros a d b E. apply (H (c :: a) d b). rewrite E. reflexivity.
Qed.

(** A text that is empty or starts with whitespace cannot complete a
    solid text that starts before it. *)
Lemma nothing_ahead (p R X : jsstring) :
  p <> [] -> forallb solid p = true ->
  includes R p = false -> afterBody X ->
  forall a sfx, R = a ++ sfx -> sfx <> [] -> startsWith (sfx ++ X) p = false.
Proof.
  intros Hne Hp Hfree HX a sfx HR Hs.
  destruct (startsWith (sfx ++ X) p) eqn:E; [|reflexivity]. exfalso.
  apply startsWith_spec in E. destruct E as [y E].
  apply app_eq_app in E. destruct E as [l [[Hsfx Hy]|[Hpl HXl]]].
  - assert (Hin : includes R p = true).
    { apply includes_spec. exists a, l. rewrite HR, Hsfx. reflexivity. }
    congruence.
  - destruct l as [|d l].
    + assert (Hin : includes R p = true).
      { apply includes_spec. exists a, []. rewrite HR, Hpl, !app_nil_r.
        reflexivity. }
      congruence.
    + destruct HX as [-> | [w [X' [-> Hw]]]]; [discriminate HXl|].
      inversion HXl. subst w.
      rewrite forallb_forall in Hp.
      assert (Hd : solid d = true).
      { apply Hp. rewrite Hpl. apply in_or_app. right. left. reflexivity. }
      unfold solid in Hd. rewrite Hw in Hd. discriminate.
Qed.

Lemma afterBody_spaces g X :
  forallb isSpace g = true -> g <> [] -> afterBody (g ++ X).
Proof.
  intros Hg Hne. destruct g as [|w g]; [contradiction|]. right.
  cbn [forallb] in Hg. apply andb_true_iff in Hg.
  exists w, (g ++ X). split; [reflexivity|exact (proj1 Hg)].
Qed.

Lemma break_nonempty g : isBreak g -> g <> [].
Proof. intros [_ H] ->. destruct H. Qed.

Lemma afterBody_gapped others fin :
  Forall (fun gs => isBreak (fst gs) /\ section (snd gs)) others ->
  forallb isSpace fin = true ->
  afterBody (gapped others ++ fin).
Proof.
  intros Ho Hf. destruct Ho as [|[g s] more [Hg _] _].
  - cbn [gapped flat_map app]. destruct fin as [|w fin]; [left; reflexivity|].
    right. cbn [forallb] in Hf. apply andb_true_iff in Hf.
    exists w, fin. split; [reflexivity|exact (proj1 Hf)].
  - rewrite gapped_cons, <- app_assoc.
    apply afterBody_spaces; [exact (proj1 Hg)|apply break_nonempty; exact Hg].
Qed.

(** *** The pass that puts a line feed before the labels *)

Fixpoint anchorFree (r : regex) : bool :=
  match r with
  | RBol | REol => false
  | RSeq r1 r2 | RAlt r1 r2 => anchorFree r1 && anchorFree r2
  | ROpt r1 | RGroup _ r1 => anchorFree r1
  | _ => true
  end.

(** Without [^] and [$] the [m] flag changes nothing. *)
Lemma mtch_multiline r :
  anchorFree r = true ->
  forall st k, mtch flagM r st k = mtch noFlags r st k.
Proof.
  induction r as [cl| |r1 IH1 r2 IH2|r1 IH1 r2 IH2|r1 IH1|cl|cl|n cl|i r1 IH1| |];
    intros H st k; cbn [anchorFree] in H; try discriminate H;
    try reflexivity; cbn [mtch].
  - apply andb_true_iff in H. destruct H as [H1 H2].
    rewrite (IH1 H1).
    apply mtch_ext. intros s. apply (IH2 H2).
  - apply andb_true_iff in H. destruct H as [H1 H2].
    rewrite (IH1 H1), (IH2 H2). reflexivity.
  - rewrite (IH1 H). reflexivity.
  - apply (IH1 H).
Qed.

Lemma label_nomatch (t : jsstring) prev pos caps :
  (forall n, In n componentNames -> startsWith t (js n ++ js ":") = false) ->
  mtch noFlags (RSeq componentGroup (lit ":"))
    {| ms_prev := prev; ms_rest := t; ms_pos := pos; ms_caps := caps |} Some
  = None.
Proof.
  intros H. unfold componentGroup, componentNames.
  cbn [seqs map alts mtch].
  repeat (rewrite mtch_lit;
          cbn [ms_rest setCapture consumed ms_pos ms_caps ms_prev];
          match goal with
          | |- context [startsWith t (js ?n)] =>
              let E := fresh "E" in
              let F := fresh "F" in
              destruct (startsWith t (js n)) eqn:E;
              [ rewrite mtch_lit;
                cbn [ms_rest setCapture consumed ms_pos ms_caps ms_prev];
                assert (F : startsWith t (js n ++ js ":") = false)
                  by (apply H; unfold componentNames; cbn [In]; tauto);
                rewrite startsWith_app, E in F; cbn [andb] in F;
                rewrite F
              | ]
          end);
    reflexivity.
Qed.

Lemma component_nomatch (t : jsstring) prev pos :
  (forall n, In n componentNames -> startsWith t (js n ++ js ":") = false) ->
  matchAt flagM componentRe prev t pos = None.
Proof.
  intros H. unfold matchAt, componentRe. cbn [seqs mtch].
  destruct (atLineStart flagM _); [|reflexivity].
  rewrite mtch_multiline by reflexivity.
  apply label_nomatch. exact H.
Qed.

Lemma space_starts_no_label w (r : jsstring) n :
  In n componentNames -> isSpace w = true ->
  startsWith (w :: r) (js n ++ js ":") = false.
Proof.
  intros Hn Hw. rewrite startsWith_app.
  rewrite (name_starts_nonspace n w r Hn Hw). reflexivity.
Qed.

Lemma component_nomatch_space w (r : jsstring) prev pos :
  isSpace w = true -> matchAt flagM componentRe prev (w :: r) pos = None.
Proof.
  intros Hw. apply component_nomatch. intros n Hn.
  apply space_starts_no_label; assumption.
Qed.

Lemma label_pieces n :
  In n componentNames ->
  js n ++ js ":" <> [] /\ forallb solid (js n ++ js ":") = true.
Proof.
  intros Hn. split; [|exact (proj1 (label_solid n Hn))].
  destruct (name_head n Hn) as [d [t [Hd _]]]. rewrite Hd. discriminate.
Qed.

(** The label pass copies a text without label that is followed by
    nothing or by whitespace. *)
Lemma labelpass_copy (R X : jsstring) prev pos :
  unlabelled R -> afterBody X ->
  replaceAllFrom flagM componentRe labelTemplate 0 prev (R ++ X) pos
  = R ++ replaceAllFrom flagM componentRe labelTemplate 0 (lastOr prev R) X
           (List.length R + pos).
Proof.
  intros HR HX. apply replaceAll_copy_when.
  intros a c b E prev' pos'. apply component_nomatch. intros n Hn.
  destruct (label_pieces n Hn) as [Hne Hsolid].
  change (c :: b ++ X) with ((c :: b) ++ X).
  apply (nothing_ahead _ R X Hne Hsolid (HR n Hn) HX a (c :: b) E).
  discriminate.
Qed.

Lemma labelpass_spaces (g X : jsstring) prev pos :
  forallb isSpace g = true ->
  replaceAllFrom flagM componentRe labelTemplate 0 prev (g ++ X) pos
  = g ++ replaceAllFrom flagM componentRe labelTemplate 0 (lastOr prev g) X
           (List.length g + pos).
Proof.
  intros Hg.
  apply (replaceAll_copy_chunk flagM componentRe labelTemplate isSpace);
    [|exact Hg].
  intros c prev' rest' pos' Hc. apply component_nomatch_space. exact Hc.
Qed.

(** At the start of a line, whatever line terminator ends the line
    before, a component label matches as a whole. *)
Lemma component_match_after p n (rest : jsstring) pos :
  In n componentNames -> isLineTerminator p = true ->
  exists st,
    matchAt flagM componentRe (Some p) (js n ++ js ":" ++ rest) pos = Some st
    /\ ms_pos st - pos = S (List.length (js n))
    /\ capture 1 (ms_caps st) = js n.
Proof.
  intros Hn Hp.
  assert (Hcases : p = 10%N \/ p = 13%N \/ p = 8232%N \/ p = 8233%N).
  { unfold isLineTerminator in Hp.
    repeat (apply orb_true_iff in Hp; destruct Hp as [Hp|Hp]);
      apply N.eqb_eq in Hp; tauto. }
  names Hn; subst n; destruct Hcases as [-> | [-> | [-> | ->]]];
    (eexists; split; [cbn -[Nat.sub]; reflexivity|];
     cbn -[Nat.sub]; cancel_pos pos; split; reflexivity).
Qed.

(** The gap after the label pass: one more line feed when the label
    stood right after a line terminator. *)
Definition lineFed (g : jsstring) : jsstring :=
  if isLineTerminator (last g 0%N) then g ++ nl else g.

Definition fed (others : list (jsstring * part)) : list (jsstring * part) :=
  map (fun gs => (lineFed (fst gs), snd gs)) others.

Lemma lineFed_break g : isBreak g -> isBreak (lineFed g).
Proof.
  intros [Hs Hn]. unfold lineFed. destruct (isLineTerminator _); [|split; assumption].
  split.
  - rewrite forallb_app, Hs. reflexivity.
  - apply in_or_app. left. exact Hn.
Qed.

Lemma name_inline n :
  In n componentNames ->
  forallb (fun c => negb (isLineTerminator c)) (js n ++ js ":") = true.
Proof. intros H. names H; subst n; reflexivity. Qed.

Lemma lastOr_nonempty prev (g : jsstring) :
  g <> [] -> lastOr prev g = Some (last g 0%N).
Proof. destruct g; [contradiction|reflexivity]. Qed.

(** The label pass over a gap and the label behind it: the gap is copied,
    and the label gets a line feed before it when it stands right after a
    line terminator. *)
Lemma labelpass_step (g : jsstring) n (r out : jsstring) :
  forallb isSpace g = true -> g <> [] -> In n componentNames ->
  (forall prev pos,
      replaceAllFrom flagM componentRe labelTemplate 0 prev r pos = out) ->
  forall prev pos,
    replaceAllFrom flagM componentRe labelTemplate 0 prev
      (g ++ js n ++ js ":" ++ r) pos
    = lineFed g ++ js n ++ js ":" ++ out.
Proof.
  intros Hg Hne Hn Hr prev pos.
  rewrite labelpass_spaces by exact Hg.
  rewrite (lastOr_nonempty _ g Hne).
  unfold lineFed.
  destruct (isLineTerminator (last g 0%N)) eqn:E; rewrite <- ?app_assoc;
    f_equal.
  - match goal with
    | |- context [replaceAllFrom _ _ ?tpl _ ?pv (js n ++ js ":" ++ r) ?ps] =>
        destruct (component_match_after (last g 0%N) n r ps Hn E)
          as [st [Hm [Hlen Hcap]]];
        destruct (name_head n Hn) as [d [t [Hd _]]];
        assert (Hm' : matchAt flagM componentRe pv (d :: t ++ js ":" ++ r) ps
                      = Some st)
          by (rewrite <- Hm, Hd; reflexivity);
        assert (Hlen' : ms_pos st - ps = S (List.length (t ++ js ":")))
          by (rewrite Hlen, Hd, length_app; simpl; lia);
        rewrite Hd; cbn [app];
        rewrite (replaceAll_match flagM componentRe tpl pv d
                   (t ++ js ":" ++ r) ps st (t ++ js ":") r Hm' Hlen'
                   (app_assoc _ _ _))
    end.
    change (expand labelTemplate (ms_caps st))
      with (nl ++ capture 1 (ms_caps st) ++ js ":" ++ []).
    rewrite Hcap. rewrite Hr.
    rewrite Hd. rewrite <- !app_assoc. cbn [app]. reflexivity.
  - match goal with
    | |- context [replaceAllFrom _ _ ?tpl _ (Some ?p) (js n ++ js ":" ++ r) ?ps] =>
        replace (js n ++ js ":" ++ r) with ((js n ++ js ":") ++ r)
          by (rewrite <- app_assoc; reflexivity);
        change componentRe with (RSeq RBol (RSeq componentGroup (lit ":")));
        rewrite (replaceAll_copy_inline flagM
                   (RSeq componentGroup (lit ":")) tpl (js n ++ js ":") p r ps
                   E (name_inline n Hn));
        change (RSeq RBol (RSeq componentGroup (lit ":"))) with componentRe
    end.
    rewrite Hr. rewrite <- !app_assoc. reflexivity.
Qed.

(** The label pass on the sections after the first: bodies and gaps are
    copied, and a label that stands right after a line terminator gets a
    line feed before it. *)
Lemma labelpass_gapped others fin :
  Forall (fun gs => isBreak (fst gs) /\ section (snd gs)) others ->
  forallb isSpace fin = true ->
  forall (R : jsstring) prev pos,
    unlabelled R ->
    replaceAllFrom flagM componentRe labelTemplate 0 prev
      (R ++ gapped others ++ fin) pos
    = R ++ gapped (fed others) ++ fin.
Proof.
  intros Ho Hf. induction Ho as [|[g s] more [Hg Hs] Hmore IH];
    intros R prev pos HR.
  - cbn [gapped fed map flat_map app].
    rewrite labelpass_copy;
      [|exact HR
       |destruct fin as [|w fin]; [left; reflexivity|right];
        cbn [forallb] in Hf; apply andb_true_iff in Hf;
        exists w, fin; split; [reflexivity|exact (proj1 Hf)]].
    rewrite <- (app_nil_r fin) at 1. rewrite labelpass_spaces by exact Hf.
    rewrite replaceAll_end by apply component_nomatch_end.
    rewrite app_nil_r. reflexivity.
  - cbn [fst snd] in Hg, Hs. cbn [fed map fst snd]. fold (fed more).
    rewrite labelpass_copy;
      [|exact HR|apply afterBody_gapped; [constructor; [split|]|]; assumption].
    rewrite !gapped_cons, <- !app_assoc. f_equal.
    unfold partText. rewrite <- !app_assoc.
    apply (labelpass_step g (pname s) _ _ (proj1 Hg) (break_nonempty g Hg)
             (proj1 Hs)).
    intros prev' pos'. apply IH. apply section_unlabelled. exact Hs.
Qed.

Lemma labelpass_framed first others fin :
  section first ->
  Forall (fun gs => isBreak (fst gs) /\ section (snd gs)) others ->
  forallb isSpace fin = true ->
  replaceAll flagM componentRe [TLit nl; TGroup 1; TLit (js ":")]
    (framed first others ++ fin)
  = nl ++ framed first (fed others) ++ fin.
Proof.
  intros Hf Ho Hfin. pose proof Hf as [Hn _].
  unfold replaceAll, framed, partText. rewrite <- !app_assoc.
  match goal with
  | |- replaceAllFrom _ _ ?tpl _ ?pv (js ?n ++ js ":" ++ ?r) ?ps = _ =>
      destruct (component_match_name n r pv ps Hn (or_introl eq_refl))
        as [st [Hm [Hlen Hcap]]];
      destruct (name_head n Hn) as [d [t [Hd _]]];
      assert (Hm' : matchAt flagM componentRe pv (d :: t ++ js ":" ++ r) ps
                    = Some st)
        by (rewrite <- Hm, Hd; reflexivity);
      assert (Hlen' : ms_pos st - ps = S (List.length (t ++ js ":")))
        by (rewrite Hlen, Hd, length_app; simpl; lia);
      rewrite Hd; cbn [app];
      rewrite (replaceAll_match flagM componentRe tpl pv d
                 (t ++ js ":" ++ r) ps st (t ++ js ":") r Hm' Hlen'
                 (app_assoc _ _ _))
  end.
  cbn [expand]. rewrite Hcap.
  rewrite (last_name_colon (pname first) d t Hd).
  change [TLit nl; TGroup 1; TLit (js ":")] with labelTemplate.
  rewrite (labelpass_gapped others fin Ho Hfin)
    by (apply section_unlabelled; exact Hf).
  rewrite Hd, app_nil_r. rewrite <- ?app_assoc. cbn [app].
  rewrite <- ?app_assoc. reflexivity.
Qed.

Lemma fed_sections others :
  Forall (fun gs => isBreak (fst gs) /\ section (snd gs)) others ->
  Forall (fun gs => isBreak (fst gs) /\ section (snd gs)) (fed others).
Proof.
  induction 1 as [|[g s] more [Hg Hs] _ IH]; [constructor|].
  cbn [fed map fst snd]. constructor; [|exact IH]. split.
  - apply lineFed_break. exact Hg.
  - exact Hs.
Qed.

(** *** The passes that separate the components *)

Lemma dropWhile_reach (b : jsstring) x (X : jsstring) :
  isSpace x = false ->
  exists b1 b2, b = b1 ++ b2 /\ dropWhile isSpace (b ++ x :: X) = b2 ++ x :: X.
Proof.
  intros Hx. induction b as [|c b [b1 [b2 [Hb Hd]]]].
  - exists [], []. split; [reflexivity|]. cbn [app dropWhile]. rewrite Hx.
    reflexivity.
  - cbn [app dropWhile]. destruct (isSpace c).
    + exists (c :: b1), b2. split; [rewrite Hb; reflexivity|exact Hd].
    + exists [], (c :: b). split; reflexivity.
Qed.

Lemma includes_tl (R p : jsstring) :
  includes R p = false -> includes (tl R) p = false.
Proof.
  destruct R as [|c R]; [intros H; exact H|].
  cbn [includes tl]. intros H. apply orb_false_iff in H. exact (proj2 H).
Qed.

(** The separator pass copies a text in which the label stands at most
    at the very start, up to its last character, when nothing or
    whitespace follows. *)
Lemma separator_copy_free comp (init : jsstring) x (X : jsstring) prev pos :
  In comp componentNames ->
  includes (tl (init ++ [x])) (js comp ++ js ":") = false ->
  isSpace x = false -> afterBody X ->
  replaceAllFrom noFlags (separatorRe comp) separatorTemplate 0 prev
    (init ++ x :: X) pos
  = init ++ replaceAllFrom noFlags (separatorRe comp) separatorTemplate 0
              (lastOr prev init) (x :: X) (List.length init + pos).
Proof.
  intros Hc Hfree Hx HX. apply replaceAll_copy_when.
  intros a c b E prev' pos'. apply separator_nomatch; [exact Hc|].
  destruct (isSpace c) eqn:Ec; [left; reflexivity|right].
  destruct (dropWhile_reach b x X Hx) as [b1 [b2 [Hb Hd]]]. rewrite Hd.
  destruct (label_pieces comp Hc) as [Hne Hsolid].
  replace (b2 ++ x :: X) with ((b2 ++ [x]) ++ X)
    by (rewrite <- app_assoc; reflexivity).
  apply (nothing_ahead _ (tl (init ++ [x])) X Hne Hsolid Hfree HX
           (tl (a ++ [c]) ++ b1)).
  - rewrite E, Hb. destruct a as [|a0 a]; cbn [app tl];
      rewrite <- !app_assoc; cbn [app]; rewrite <- ?app_assoc; reflexivity.
  - destruct b2; discriminate.
Qed.

Lemma separator_none_end comp prev pos :
  matchAt noFlags (separatorRe comp) prev [] pos = None.
Proof. reflexivity. Qed.

(** No first letter of a component stands further in a label. *)
Lemma label_inner n comp :
  In n componentNames -> In comp componentNames ->
  forallb (fun c => negb (c =? hd 0%N (js comp))%N) (tl (js n ++ js ":")) = true.
Proof. intros Hn Hc. names Hn; subst n; names Hc; subst comp; reflexivity. Qed.

(** Past its first character, the text of a section holds no label. *)
Lemma partText_tl_free n comp (b : jsstring) :
  In n componentNames -> In comp componentNames -> unlabelled b ->
  includes (tl (js n ++ js ":" ++ b)) (js comp ++ js ":") = false.
Proof.
  intros Hn Hc Hb.
  destruct (includes (tl (js n ++ js ":" ++ b)) (js comp ++ js ":")) eqn:E;
    [|reflexivity].
  exfalso. apply includes_spec in E. destruct E as [a [c E]].
  pose proof (label_inner n comp Hn Hc) as Hi.
  destruct (name_head n Hn) as [d [t [Hd _]]].
  rewrite Hd in E, Hi. cbn [app tl] in E, Hi.
  rewrite app_assoc in E. symmetry in E.
  apply app_eq_app in E. destruct E as [l [[Ha Hl]|[Hnl Hl]]].
  - specialize (Hb comp Hc).
    assert (Hin : includes b (js comp ++ js ":") = true).
    { apply includes_spec. exists l, c. rewrite Hl. reflexivity. }
    congruence.
  - destruct l as [|e l].
    + cbn [app] in Hl. specialize (Hb comp Hc).
      assert (Hin : includes b (js comp ++ js ":") = true).
      { apply includes_spec. exists [], c. rewrite <- Hl.
        rewrite <- app_assoc. reflexivity. }
      congruence.
    + rewrite Hnl in Hi. rewrite forallb_app in Hi.
      apply andb_true_iff in Hi. destruct Hi as [_ Hi]. cbn [forallb] in Hi.
      apply andb_true_iff in Hi. destruct Hi as [Hi _].
      destruct (name_head comp Hc) as [e' [t' [He _]]].
      rewrite He in Hl, Hi. cbn [app hd] in Hl, Hi.
      inversion Hl. subst e'. rewrite N.eqb_refl in Hi. discriminate.
Qed.

(** The text of a section holds the label of no other component. *)
Lemma partText_free n comp (b : jsstring) :
  In n componentNames -> In comp componentNames -> n <> comp ->
  unlabelled b ->
  includes (js n ++ js ":" ++ b) (js comp ++ js ":") = false.
Proof.
  intros Hn Hc Hne Hb.
  pose proof (partText_tl_free n comp b Hn Hc Hb) as Ht.
  pose proof (other_label n comp b Hn Hc Hne) as Ho.
  destruct (name_head n Hn) as [d [t [Hd _]]].
  rewrite Hd in *. cbn [app tl includes] in *. rewrite Ht.
  cbn [app] in Ho. rewrite Ho. reflexivity.
Qed.

(** The gaps after the separator pass of one component: one blank line
    before the section of that component. *)
Definition respaced (comp : string) (others : list (jsstring * part))
  : list (jsstring * part) :=
  map (fun gs => if String.eqb (pname (snd gs)) comp
                 then (nl ++ nl, snd gs) else gs) others.

Lemma partText_solid s :
  section s ->
  exists init x, partText s = init ++ [x] /\ isSpace x = false.
Proof.
  intros [Hn [_ Hs]]. unfold partText.
  destruct (pbody s) as [|c b] eqn:Eb.
  - exists (js (pname s)), 58%N. rewrite app_nil_r. split; reflexivity.
  - destruct (solidEnd_snoc (c :: b)) as [init [x [E Hx]]];
      [discriminate|exact Hs|].
    exists (js (pname s) ++ js ":" ++ init), x. rewrite E.
    rewrite <- !app_assoc. split; [reflexivity|exact Hx].
Qed.

Lemma partText_solidEnd s : section s -> solidEnd (partText s) = true.
Proof.
  intros Hs. destruct (partText_solid s Hs) as [init [x [E Hx]]]. rewrite E.
  unfold solidEnd. destruct (init ++ [x]) eqn:E'.
  - destruct init; discriminate.
  - rewrite <- E', last_last, Hx. reflexivity.
Qed.

Lemma partText_nonempty s : section s -> partText s <> [].
Proof.
  intros Hs E. destruct (partText_solid s Hs) as [init [x [E' _]]].
  rewrite E in E'. destruct init; discriminate.
Qed.

Lemma separator_gapped comp others fin :
  In comp componentNames ->
  Forall (fun gs => isBreak (fst gs) /\ section (snd gs)) others ->
  NoDup (map (fun gs => pname (snd gs)) others) ->
  forallb isSpace fin = true ->
  forall (R : jsstring) prev pos,
    includes (tl R) (js comp ++ js ":") = false -> solidEnd R = true ->
    (R = [] -> ~ In comp (map (fun gs => pname (snd gs)) others)) ->
    replaceAllFrom noFlags (separatorRe comp) separatorTemplate 0 prev
      (R ++ gapped others ++ fin) pos
    = R ++ gapped (respaced comp others) ++ fin.
Proof.
  intros Hc Ho Hnd Hf.
  induction Ho as [|[g s] more [Hg Hs] Hmore IH]; intros R prev pos HR Hend Hempty.
  - cbn [gapped respaced map flat_map app].
    assert (Hfin : forall prev' pos',
               replaceAllFrom noFlags (separatorRe comp) separatorTemplate 0
                 prev' fin pos' = fin).
    { intros prev' pos'. rewrite <- (app_nil_r fin) at 1.
      rewrite (separator_copy_spaces comp fin Hc) by exact Hf.
      rewrite replaceAll_end by apply separator_none_end. apply app_nil_r. }
    destruct R as [|c R]; [apply Hfin|].
    destruct (solidEnd_snoc (c :: R)) as [init [x [E Hx]]];
      [discriminate|exact Hend|].
    rewrite E in *. rewrite <- !app_assoc. cbn [app].
    rewrite separator_copy_free;
      [|exact Hc|exact HR|exact Hx
       |destruct fin as [|w fin]; [left; reflexivity|right];
        cbn [forallb] in Hf; apply andb_true_iff in Hf;
        exists w, fin; split; [reflexivity|exact (proj1 Hf)]].
    rewrite replaceAll_copy.
    + rewrite Hfin. reflexivity.
    + apply separator_nomatch; [exact Hc|right].
      rewrite <- (app_nil_r fin), (dropWhile_all isSpace fin [] Hf).
      destruct (name_head comp Hc) as [d [t [Hd _]]]. rewrite Hd. reflexivity.
  - cbn [fst snd] in Hg, Hs. cbn [map] in Hnd, Hempty.
    inversion Hnd as [|x xs Hnotin Hnd']. subst.
    cbn [respaced map fst snd]. fold (respaced comp more).
    pose proof Hs as [Hn [Hl Hse]].
    assert (Hbody : unlabelled (pbody s)) by (apply section_unlabelled; exact Hs).
    (* from the start of the gap on *)
    assert (Hgap : forall prev' pos',
               pname s <> comp ->
               replaceAllFrom noFlags (separatorRe comp) separatorTemplate 0
                 prev' (g ++ partText s ++ gapped more ++ fin) pos'
               = g ++ partText s ++ gapped (respaced comp more) ++ fin).
    { intros prev' pos' Hne.
      rewrite (separator_copy_spaces comp g Hc) by exact (proj1 Hg).
      rewrite IH; [reflexivity|exact Hnd'| | |].
      - unfold partText. apply partText_tl_free; assumption.
      - apply partText_solidEnd. exact Hs.
      - intros E. exfalso. exact (partText_nonempty s Hs E). }
    rewrite !gapped_cons.
    destruct (String.eqb (pname s) comp) eqn:Ecomp.
    + (* the section of the component *)
      apply String.eqb_eq in Ecomp.
      destruct R as [|c R].
      { exfalso. apply (Hempty eq_refl). left. exact Ecomp. }
      destruct (solidEnd_snoc (c :: R)) as [init [x [E Hx]]];
        [discriminate|exact Hend|].
      rewrite E in *. rewrite <- !app_assoc. cbn [app fst snd].
      rewrite separator_copy_free;
        [|exact Hc|exact HR|exact Hx
         |apply afterBody_spaces;
          [exact (proj1 Hg)|apply break_nonempty; exact Hg]].
      unfold partText at 1. rewrite Ecomp. rewrite <- !app_assoc.
      destruct (separator_match comp (lastOr prev init) x g
                  (pbody s ++ gapped more ++ fin)
                  (List.length init + pos) Hc Hx (proj1 Hg))
        as [st [Hm [Hlen Hexp]]].
      rewrite (replaceAll_match noFlags (separatorRe comp) separatorTemplate
                 (lastOr prev init) x
                 (g ++ js comp ++ js ":" ++ pbody s ++ gapped more ++ fin)
                 (List.length init + pos) st (g ++ js comp ++ js ":")
                 (pbody s ++ gapped more ++ fin) Hm Hlen)
        by (rewrite <- !app_assoc; reflexivity).
      rewrite Hexp.
      rewrite IH;
        [|exact Hnd'|apply includes_tl; exact (Hbody comp Hc)|exact Hse
         |intros _; rewrite <- Ecomp; exact Hnotin].
      rewrite gapped_cons. cbn [fst snd]. unfold partText. rewrite Ecomp.
      cbn [app]. rewrite <- !app_assoc. reflexivity.
    + (* the section of another component *)
      apply String.eqb_neq in Ecomp.
      rewrite gapped_cons. cbn [fst snd]. rewrite <- !app_assoc.
      destruct R as [|c R]; [cbn [app]; apply Hgap; exact Ecomp|].
      destruct (solidEnd_snoc (c :: R)) as [init [x [E Hx]]];
        [discriminate|exact Hend|].
      rewrite E in *. rewrite <- !app_assoc. cbn [app].
      rewrite separator_copy_free;
        [|exact Hc|exact HR|exact Hx
         |apply afterBody_spaces;
          [exact (proj1 Hg)|apply break_nonempty; exact Hg]].
      rewrite replaceAll_copy.
      * rewrite Hgap by exact Ecomp. reflexivity.
      * apply separator_nomatch; [exact Hc|right].
        rewrite (dropWhile_all isSpace g _ (proj1 Hg)).
        destruct (name_head _ Hn) as [d [t [Hd [_ Hds]]]].
        unfold partText. rewrite <- !app_assoc.
        assert (Hdrop : dropWhile isSpace
                          (js (pname s) ++ js ":" ++ pbody s ++ gapped more ++ fin)
                        = js (pname s) ++ js ":" ++ pbody s ++ gapped more ++ fin).
        { rewrite Hd. cbn [app dropWhile]. rewrite Hds. reflexivity. }
        rewrite Hdrop. apply other_label; assumption.
Qed.

Lemma framed_solid first others :
  section first ->
  Forall (fun gs => isBreak (fst gs) /\ section (snd gs)) others ->
  exists init x, framed first others = init ++ [x] /\ isSpace x = false.
Proof.
  intros Hf Ho. unfold framed. revert first Hf.
  induction Ho as [|[g s] more [Hg Hs] _ IH]; intros first Hf.
  - cbn [gapped flat_map]. rewrite app_nil_r. apply partText_solid. exact Hf.
  - rewrite gapped_cons. cbn [fst snd].
    destruct (IH s Hs) as [init [x [E Hx]]].
    exists (partText first ++ g ++ init), x. split; [|exact Hx].
    rewrite E, <- !app_assoc. reflexivity.
Qed.

Lemma separator_framed comp (w : jsstring) first others fin :
  In comp componentNames -> forallb isSpace w = true -> section first ->
  Forall (fun gs => isBreak (fst gs) /\ section (snd gs)) others ->
  NoDup (map (fun gs => pname (snd gs)) others) ->
  forallb isSpace fin = true ->
  separateComponent (w ++ framed first others ++ fin) comp
  = w ++ framed first (respaced comp others) ++ fin.
Proof.
  intros Hc Hw Hf Ho Hnd Hfin.
  unfold separateComponent, replaceAll, framed.
  fold separatorTemplate. rewrite <- !app_assoc.
  rewrite (separator_copy_spaces comp w Hc) by exact Hw. f_equal.
  apply separator_gapped; try assumption.
  - unfold partText. apply partText_tl_free;
      [exact (proj1 Hf)|exact Hc|apply section_unlabelled; exact Hf].
  - apply partText_solidEnd. exact Hf.
  - intros E. exfalso. exact (partText_nonempty first Hf E).
Qed.

Lemma respaced_sections comp others :
  Forall (fun gs => isBreak (fst gs) /\ section (snd gs)) others ->
  Forall (fun gs => isBreak (fst gs) /\ section (snd gs)) (respaced comp others).
Proof.
  induction 1 as [|[g s] more [Hg Hs] _ IH]; [constructor|].
  cbn [respaced map fst snd]. constructor; [|exact IH].
  destruct (String.eqb (pname s) comp); [|split; assumption].
  split; [|exact Hs]. split; [reflexivity|left; reflexivity].
Qed.

Lemma respaced_names comp others :
  map (fun gs => pname (snd gs)) (respaced comp others)
  = map (fun gs => pname (snd gs)) others.
Proof.
  induction others as [|[g s] more IH]; [reflexivity|].
  cbn [respaced map fst snd]. fold (respaced comp more). rewrite IH.
  destruct (String.eqb (pname s) comp); reflexivity.
Qed.

Lemma separate_fold (w : jsstring) first fin comps :
  (forall c, In c comps -> In c componentNames) ->
  forallb isSpace w = true -> section first -> forallb isSpace fin = true ->
  forall others,
    Forall (fun gs => isBreak (fst gs) /\ section (snd gs)) others ->
    NoDup (map (fun gs => pname (snd gs)) others) ->
    fold_left separateComponent comps (w ++ framed first others ++ fin)
    = w ++ framed first (fold_left (fun o c => respaced c o) comps others)
        ++ fin.
Proof.
  intros Hcs Hw Hf Hfin. induction comps as [|c comps IH]; intros others Ho Hnd.
  - reflexivity.
  - cbn [fold_left].
    rewrite (separator_framed c w first others fin
               (Hcs c (or_introl eq_refl)) Hw Hf Ho Hnd Hfin).
    apply IH.
    + intros c' Hc'. apply Hcs. right. exact Hc'.
    + apply respaced_sections. exact Ho.
    + rewrite respaced_names. exact Hnd.
Qed.

(** One blank line in every gap. *)
Definition blanked (others : list (jsstring * part)) : list (jsstring * part) :=
  map (fun gs => (nl ++ nl, snd gs)) others.

Lemma respaced_all others :
  Forall (fun gs => In (pname (snd gs)) (tl componentNames)) others ->
  fold_left (fun o c => respaced c o) (tl componentNames) others = blanked others.
Proof.
  cbn [tl componentNames fold_left].
  induction 1 as [|[g [n b]] more Hn _ IH]; [reflexivity|].
  cbn [respaced map fst snd pname] in *. fold (respaced "Context" more).
  fold (respaced "Task" (respaced "Context" more)).
  fold (respaced "Format" (respaced "Task" (respaced "Context" more))).
  fold (respaced "Rules" (respaced "Format" (respaced "Task" (respaced "Context" more)))).
  fold (respaced "Examples"
          (respaced "Rules" (respaced "Format" (respaced "Task" (respaced "Context" more))))).
  rewrite IH.
  destruct Hn as [<-|[<-|[<-|[<-|[<-|[]]]]]]; reflexivity.
Qed.

Lemma later_not_role others :
  ~ In "Role"%string (map (fun gs => pname (snd gs)) others) ->
  Forall (fun gs => isBreak (fst gs) /\ section (snd gs)) others ->
  Forall (fun gs => In (pname (snd gs)) (tl componentNames)) others.
Proof.
  intros Hnotin Ho.
  induction Ho as [|[g s] more [_ [Hn _]] _ IH]; [constructor|].
  cbn [map fst snd] in *. constructor.
  - destruct Hn as [E|Hn]; [|exact Hn].
    exfalso. apply Hnotin. left. symmetry. exact E.
  - apply IH. intros Hin. apply Hnotin. right. exact Hin.
Qed.

(** *** What stands before the first section *)

(** Lines without label, and then the indentation of the first label: the
    last line of the text is whitespace and no line before it has a
    label. *)
Definition preamble (pre : jsstring) : Prop :=
  Forall (fun line => labelOf line = None) (removelast (split 10 pre))
  /\ forallb isSpace (last (split 10 pre) []) = true.

(** The lines of a text that goes on: its lines but the last, and then
    the lines of its last line with what follows. *)
Lemma split_app_last (pre t : jsstring) :
  split 10 (pre ++ t)
  = removelast (split 10 pre) ++ split 10 (last (split 10 pre) [] ++ t).
Proof.
  induction pre as [|c pre IH]; [reflexivity|].
  pose proof (split_nonempty pre) as Hne.
  cbn [app split]. destruct (c =? 10)%N eqn:Ec.
  - rewrite IH. destruct (split 10 pre) as [|w ws]; [contradiction|].
    reflexivity.
  - rewrite IH. destruct (split 10 pre) as [|w ws]; [contradiction|].
    destruct ws as [|w' ws].
    + cbn [removelast last app split]. rewrite Ec. reflexivity.
    + change (removelast (w :: w' :: ws)) with (w :: removelast (w' :: ws)).
      change (removelast ((c :: w) :: w' :: ws))
        with ((c :: w) :: removelast (w' :: ws)).
      reflexivity.
Qed.

Lemma last_line_inline (pre : jsstring) :
  forallb notNewline (last (split 10 pre) []) = true.
Proof.
  induction pre as [|c pre IH]; [reflexivity|].
  pose proof (split_nonempty pre) as Hne.
  cbn [split]. destruct (c =? 10)%N eqn:E.
  - destruct (split 10 pre) as [|w ws]; [contradiction|]. exact IH.
  - destruct (split 10 pre) as [|w ws]; [contradiction|].
    destruct ws as [|w' ws].
    + cbn [last] in *. cbn [forallb]. unfold notNewline at 1. rewrite E.
      exact IH.
    + exact IH.
Qed.

Lemma walk_junk junk lines :
  Forall (fun line => labelOf line = None) junk ->
  walk (junk ++ lines) [] [] [] = walk lines [] [] [].
Proof.
  induction 1 as [|line junk Hl _ IH]; [reflexivity|].
  cbn [app]. rewrite (walk_skip line (junk ++ lines) [] [] Hl eq_refl).
  exact IH.
Qed.

Lemma walk_preamble pre (t : jsstring) :
  preamble pre ->
  walk (split 10 (pre ++ t)) [] [] []
  = walk (split 10 (last (split 10 pre) [] ++ t)) [] [] [].
Proof.
  intros [Hj _]. rewrite split_app_last. apply walk_junk. exact Hj.
Qed.

(** The whitespace before the first label after the label pass and the
    removal of leading line feeds. *)
Definition lead (v : jsstring) : jsstring :=
  match v with
  | [] => []
  | _ :: _ => lineFed v
  end.

Lemma lead_spaces v : forallb isSpace v = true -> forallb isSpace (lead v) = true.
Proof.
  intros Hv. destruct v as [|c v]; [reflexivity|].
  unfold lead, lineFed. destruct (isLineTerminator _); [|exact Hv].
  rewrite forallb_app, Hv. reflexivity.
Qed.

Lemma squeeze_indent (v X : jsstring) :
  forallb notNewline v = true -> squeeze 0 (v ++ X) = v ++ squeeze 0 X.
Proof.
  induction v as [|c v IH]; intros Hv; [reflexivity|].
  cbn [forallb] in Hv. apply andb_true_iff in Hv. destruct Hv as [Hc Hv].
  cbn [app squeeze]. unfold notNewline in Hc. apply negb_true_iff in Hc.
  rewrite Hc, (IH Hv). reflexivity.
Qed.

(** The label pass, and the removal of leading line feeds, when the
    first label is indented by [v]. *)
Lemma labelpass_indented v first others fin :
  forallb isSpace v = true -> forallb notNewline v = true ->
  section first ->
  Forall (fun gs => isBreak (fst gs) /\ section (snd gs)) others ->
  forallb isSpace fin = true ->
  replaceFirst noFlags (seqs [RBol; RPlus (CChar 10)]) []
    (replaceAll flagM componentRe [TLit nl; TGroup 1; TLit (js ":")]
       (v ++ framed first others ++ fin))
  = lead v ++ framed first (fed others) ++ fin.
Proof.
  intros Hv Hvn Hf Ho Hfin. destruct v as [|c v].
  - cbn [app lead]. rewrite (labelpass_framed first others fin Hf Ho Hfin).
    unfold framed, partText. rewrite <- !app_assoc.
    apply strip_leading_newline. exact (proj1 Hf).
  - assert (Hpass : replaceAll flagM componentRe
                      [TLit nl; TGroup 1; TLit (js ":")]
                      ((c :: v) ++ framed first others ++ fin)
                    = lineFed (c :: v) ++ framed first (fed others) ++ fin).
    { unfold replaceAll, framed, partText. rewrite <- !app_assoc.
      apply (labelpass_step (c :: v) (pname first) _ _ Hv); [discriminate
        |exact (proj1 Hf)|].
      intros prev pos. apply (labelpass_gapped others fin Ho Hfin).
      apply section_unlabelled. exact Hf. }
    rewrite Hpass. unfold lead.
    cbn [forallb] in Hvn. apply andb_true_iff in Hvn. destruct Hvn as [Hc _].
    unfold notNewline in Hc. apply negb_true_iff in Hc.
    assert (Hstart : exists rest,
               lineFed (c :: v) ++ framed first (fed others) ++ fin
               = c :: rest).
    { unfold lineFed. destruct (isLineTerminator _); eexists; reflexivity. }
    destruct Hstart as [rest Hstart]. rewrite Hstart.
    change (seqs [RBol; RPlus (CChar 10)]) with (RSeq RBol (RPlus (CChar 10))).
    apply replaceFirst_anchored_miss; [reflexivity|].
    unfold matchAt.
    cbn [mtch atLineStart ms_prev ms_rest matchChar noFlags ignoreCase
         ms_caps ms_pos].
    rewrite N.eqb_sym, Hc. reflexivity.
Qed.

(** *** The whole stage, and cleaning *)

(** The text that the walk reads: the text from the first line-initial
    "Role:" on, when there is one after the start. *)
Definition fromRole (cleaned : jsstring) : jsstring :=
  let firstRoleIndex := search flagM (seqs [RBol; lit "Role:"]) cleaned in
  if (0 <? firstRoleIndex)%Z
  then substring cleaned (Z.to_nat firstRoleIndex) else cleaned.

(** The framework stage is the walk over the lines of that text, then
    the passes on the lines kept, joined. *)
Lemma frameworkStage_reads (t : jsstring) :
  frameworkStage t
  = fold_left separateComponent (tl componentNames)
      (replaceFirst noFlags (seqs [RBol; RPlus (CChar 10)]) []
         (replaceAll flagM componentRe [TLit nl; TGroup 1; TLit (js ":")]
            (collapseBlankLines
               (join nl (walk (split 10 (fromRole t)) [] [] []))))).
Proof. reflexivity. Qed.

Lemma trim_framed (w : jsstring) first others fin :
  forallb isSpace w = true -> section first ->
  Forall (fun gs => isBreak (fst gs) /\ section (snd gs)) others ->
  forallb isSpace fin = true ->
  trim (w ++ framed first others ++ fin) = framed first others.
Proof.
  intros Hw Hf Ho Hfin.
  destruct (framed_solid first others Hf Ho) as [init [x [E Hx]]].
  destruct (name_head _ (proj1 Hf)) as [d [t [Hd [_ Hds]]]].
  assert (Hc : framed first others
               = d :: t ++ js ":" ++ pbody first ++ gapped others).
  { unfold framed, partText. rewrite Hd. rewrite <- !app_assoc. reflexivity. }
  assert (Hl : isSpace (last (framed first others) 0%N) = false).
  { rewrite E, last_last. exact Hx. }
  pose proof (trim_fixed (framed first others) d _ Hc Hds Hl) as Ht.
  unfold trim, trimStart in *.
  rewrite (dropWhile_all isSpace w _ Hw).
  assert (Hdrop : forall X, dropWhile isSpace (framed first others ++ X)
                            = framed first others ++ X).
  { intros X. rewrite Hc. cbn [app dropWhile]. rewrite Hds. reflexivity. }
  rewrite Hdrop. rewrite trimEnd_app_space by exact Hfin.
  rewrite <- (app_nil_r (framed first others)) in Ht at 1.
  rewrite Hdrop, app_nil_r in Ht. exact Ht.
Qed.

(** The sections as cleaning leaves them: every run of three or more
    line feeds inside a text reduced to two, one blank line between two
    sections. *)
Definition neat (others : list (jsstring * part)) : list (jsstring * part) :=
  map (fun gs => (nl ++ nl, tidied (snd gs))) others.

Lemma names_kept (f : jsstring -> jsstring) others :
  map (fun gs => pname (snd gs)) (map (fun gs => (f (fst gs), snd gs)) others)
  = map (fun gs => pname (snd gs)) others.
Proof. rewrite map_map. reflexivity. Qed.

Lemma collapsed_names others :
  map (fun gs => pname (snd gs)) (collapsed others)
  = map (fun gs => pname (snd gs)) others.
Proof. unfold collapsed. rewrite map_map. reflexivity. Qed.

Lemma neat_sections others :
  Forall (fun gs => isBreak (fst gs) /\ section (snd gs)) others ->
  Forall (fun gs => isBreak (fst gs) /\ section (snd gs)) (neat others).
Proof.
  induction 1 as [|[g s] more [Hg Hs] _ IH]; [constructor|].
  cbn [neat map fst snd]. constructor; [|exact IH]. split.
  - split; [reflexivity|left; reflexivity].
  - apply tidied_section. exact Hs.
Qed.

Lemma neat_others_names others :
  map (fun gs => pname (snd gs)) (neat others)
  = map (fun gs => pname (snd gs)) others.
Proof. unfold neat. rewrite map_map. reflexivity. Qed.

Lemma neat_names first others :
  namesOf (tidied first) (neat others) = namesOf first others.
Proof.
  rewrite !namesOf_chunks, neat_others_names. reflexivity.
Qed.

Lemma neat_sectioned first others :
  sectioned first others -> sectioned (tidied first) (neat others).
Proof.
  intros [Hf [Ho [Hnd Hrole]]]. split; [|split; [|split]].
  - apply tidied_section. exact Hf.
  - apply neat_sections. exact Ho.
  - rewrite neat_names. exact Hnd.
  - rewrite neat_others_names. exact Hrole.
Qed.

Lemma frameworkStage_framed t pre first others rest :
  fromRole t = pre ++ framed first others ++ rest ->
  preamble pre ->
  sectioned first others -> ending first others rest ->
  exists w fin,
    forallb isSpace w = true /\ forallb isSpace fin = true
    /\ frameworkStage t = w ++ framed (tidied first) (neat others) ++ fin.
Proof.
  intros Ht Hpre Hsec Hend. pose proof Hsec as [Hf [Ho [Hnd Hrole]]].
  set (v := last (split 10 pre) []).
  assert (Hv : forallb isSpace v = true) by exact (proj2 Hpre).
  assert (Hvn : forallb notNewline v = true) by apply last_line_inline.
  destruct (walk_framed v first others rest Hv Hvn Hsec Hend)
    as [fin [Hfin Hw]].
  exists (lead v), (collapseBlankLines fin).
  split; [apply lead_spaces; exact Hv|].
  split; [apply collapse_spaces; exact Hfin|].
  rewrite frameworkStage_reads.
  rewrite Ht, (walk_preamble pre _ Hpre). fold v. rewrite Hw.
  rewrite collapseBlankLines_squeeze, (squeeze_indent v _ Hvn).
  rewrite <- collapseBlankLines_squeeze.
  rewrite (collapse_framed first (widened others) fin Hf
             (widened_sections others Ho)).
  rewrite (labelpass_indented v (tidied first) (collapsed (widened others))
             (collapseBlankLines fin) Hv Hvn (tidied_section first Hf)
             (collapsed_sections _ (widened_sections others Ho))
             (collapse_spaces fin Hfin)).
  assert (Hsecs : Forall (fun gs => isBreak (fst gs) /\ section (snd gs))
                    (fed (collapsed (widened others)))).
  { apply fed_sections, collapsed_sections, widened_sections. exact Ho. }
  assert (Hnames : map (fun gs => pname (snd gs))
                     (fed (collapsed (widened others)))
                   = map (fun gs => pname (snd gs)) others).
  { unfold fed, widened. rewrite names_kept, collapsed_names, names_kept.
    reflexivity. }
  rewrite (separate_fold (lead v) (tidied first) (collapseBlankLines fin)
             (tl componentNames)).
  - rewrite respaced_all.
    + unfold blanked, fed, collapsed, widened, neat. rewrite !map_map.
      reflexivity.
    + apply later_not_role; [|exact Hsecs]. rewrite Hnames. exact Hrole.
  - intros c Hc. right. exact Hc.
  - apply lead_spaces. exact Hv.
  - apply tidied_section. exact Hf.
  - apply collapse_spaces. exact Hfin.
  - exact Hsecs.
  - rewrite Hnames. rewrite namesOf_chunks in Hnd.
    inversion Hnd; assumption.
Qed.

(** Cleaning, when the text that the walk reads is made of sections. *)
Lemma clean_sectioned cat raw pre first others rest :
  fromRole (stripStage cat raw) = pre ++ framed first others ++ rest ->
  preamble pre ->
  sectioned first others -> ending first others rest ->
  cleanResponseWith cat raw fw = framed (tidied first) (neat others).
Proof.
  intros Hstrip Hpre Hsec Hend.
  destruct (frameworkStage_framed _ pre first others rest Hstrip Hpre
              Hsec Hend) as [w [fin [Hw [Hfin Hstage]]]].
  unfold cleanResponseWith. cbv zeta.
  change (eqs fw (js "framework-optimization")) with true.
  change (eqs fw (js "report-writing")) with false.
  cbv iota. rewrite Hstage.
  destruct (neat_sectioned first others Hsec) as [Hf [Ho _]].
  apply trim_framed; assumption.
Qed.

Lemma sectioned_labels first others :
  sectioned first others ->
  labelsOf (split 10 (framed first others)) = map js (namesOf first others).
Proof.
  intros Hsec.
  pose proof (proj1 (proj2 (walk_sections [] first others [] eq_refl eq_refl
                              Hsec eq_refl))) as H.
  cbn [app] in H. rewrite app_nil_r in H. exact H.
Qed.

(** What cleaning gives when the text that the walk reads is made of
    sections: the sections, tidied and one blank line apart. *)
Lemma clean_sectioned_labels cat raw pre first others rest :
  fromRole (stripStage cat raw) = pre ++ framed first others ++ rest ->
  preamble pre ->
  sectioned first others -> ending first others rest ->
  cleanResponseWith cat raw fw = framed (tidied first) (neat others)
  /\ labelsOf (split 10 (cleanResponseWith cat raw fw))
     = map js (namesOf first others)
  /\ Forall section (tidied first :: map snd (neat others)).
Proof.
  intros Hstrip Hpre Hsec Hend.
  pose proof (clean_sectioned cat raw pre first others rest Hstrip Hpre
                Hsec Hend) as H.
  pose proof (neat_sectioned first others Hsec) as Hneat.
  split; [exact H|]. split.
  - rewrite H, (sectioned_labels _ _ Hneat). rewrite neat_names. reflexivity.
  - destruct Hneat as [Hf [Ho _]]. constructor; [exact Hf|].
    clear -Ho. induction Ho as [|gs more [_ Hs] _ IH]; [constructor|].
    cbn [map]. constructor; assumption.
Qed.

(** *** Cleaning a cleaned text *)

(** No prefix pattern of either route matches a text that starts with a
    label. *)
Lemma prefixes_miss_label n (R : jsstring) :
  In n componentNames ->
  removePatterns RewriteCatalogue.prefixes (js n ++ js ":" ++ R)
  = js n ++ js ":" ++ R
  /\ removePatterns ImproveCatalogue.prefixes (js n ++ js ":" ++ R)
     = js n ++ js ":" ++ R.
Proof.
  intros Hn.
  assert (H : exists c t, js n ++ js ":" ++ R = c :: t
                          /\ removePatterns RewriteCatalogue.prefixes (c :: t)
                             = c :: t
                          /\ removePatterns ImproveCatalogue.prefixes (c :: t)
                             = c :: t).
  { names Hn; subst n;
      match goal with
      | |- exists c t, ?x = _ /\ _ =>
          let y := eval cbv in x in
          match y with
          | ?c :: ?t => exists c, t; split; [reflexivity|]
          end
      end;
      (split; unfold removePatterns, RewriteCatalogue.prefixes,
                ImproveCatalogue.prefixes; cbn [fold_left];
       repeat (match goal with
               | |- context [replaceFirst flagI (seqs (RBol :: ?rs)) []
                               (?c :: ?t)] =>
                   change (seqs (RBol :: rs)) with (RSeq RBol (seqs rs));
                   rewrite (replaceFirst_anchored_miss flagI (seqs rs) []
                              c t eq_refl eq_refl)
               end);
       reflexivity). }
  destruct H as [c [t [E [H1 H2]]]]. rewrite E. split; assumption.
Qed.

Definition sparesLabels (cat : catalogue) : Prop :=
  forall n R, In n componentNames ->
    removePatterns (prefixPatterns cat) (js n ++ js ":" ++ R)
    = js n ++ js ":" ++ R.

Lemma ofRoute_sparesLabels cat : ofRoute cat -> sparesLabels cat.
Proof.
  intros [-> | ->] n R Hn.
  - exact (proj1 (prefixes_miss_label n R Hn)).
  - exact (proj2 (prefixes_miss_label n R Hn)).
Qed.

Lemma removeQuotes_label n (R : jsstring) :
  In n componentNames ->
  removeQuotes (js n ++ js ":" ++ R) = js n ++ js ":" ++ R.
Proof. intros Hn. names Hn; subst n; reflexivity. Qed.

(** A pattern that finds no match at any place of a text. *)
Lemma execFrom_none fl r (s : jsstring) :
  (forall a sfx prev pos, s = a ++ sfx -> matchAt fl r prev sfx pos = None) ->
  forall prev pos, execFrom fl r prev s pos = None.
Proof.
  induction s as [|c s IH]; intros H prev pos.
  - cbn [execFrom]. rewrite (H [] [] prev pos eq_refl). reflexivity.
  - cbn [execFrom]. rewrite (H [] (c :: s) prev pos eq_refl).
    apply IH. intros a sfx prev' pos' E. apply (H (c :: a)).
    rewrite E. reflexivity.
Qed.

Lemma role_nomatch (t : jsstring) prev pos :
  startsWith t (js "Role" ++ js ":") = false ->
  matchAt flagM (seqs [RBol; lit "Role:"]) prev t pos = None.
Proof.
  intros H. unfold matchAt. cbn [seqs mtch].
  destruct (atLineStart flagM _); [|reflexivity].
  rewrite mtch_multiline by reflexivity.
  rewrite mtch_lit. cbn [ms_rest].
  change (js "Role:") with (js "Role" ++ js ":"). rewrite H. reflexivity.
Qed.

Lemma search_none (s : jsstring) :
  includes s (js "Role" ++ js ":") = false ->
  search flagM (seqs [RBol; lit "Role:"]) s = (-1)%Z.
Proof.
  intros H. unfold search, exec. rewrite execFrom_none; [reflexivity|].
  intros a sfx prev pos E. apply role_nomatch.
  destruct (startsWith sfx (js "Role" ++ js ":")) eqn:Es; [|reflexivity].
  exfalso. apply startsWith_spec in Es. destruct Es as [b Eb].
  assert (Hin : includes s (js "Role" ++ js ":") = true).
  { apply includes_spec. exists a, b. rewrite E, Eb. reflexivity. }
  congruence.
Qed.

Lemma includes_app_free (p R X : jsstring) :
  p <> [] -> forallb solid p = true ->
  includes R p = false -> afterBody X -> includes X p = false ->
  includes (R ++ X) p = false.
Proof.
  intros Hne Hp HR HX HXp. induction R as [|c R IH]; [exact HXp|].
  cbn [app includes]. apply orb_false_iff. split.
  - apply (nothing_ahead p (c :: R) X Hne Hp HR HX [] (c :: R) eq_refl).
    discriminate.
  - apply IH. cbn [includes] in HR. apply orb_false_iff in HR.
    exact (proj2 HR).
Qed.

Lemma includes_spaces (p g X : jsstring) :
  p <> [] -> forallb solid p = true -> forallb isSpace g = true ->
  includes X p = false -> includes (g ++ X) p = false.
Proof.
  intros Hne Hp Hg HX. induction g as [|w g IH]; [exact HX|].
  cbn [forallb] in Hg. apply andb_true_iff in Hg. destruct Hg as [Hw Hg].
  cbn [app includes]. apply orb_false_iff. split; [|exact (IH Hg)].
  destruct p as [|d p]; [contradiction|].
  cbn [forallb] in Hp. apply andb_true_iff in Hp. destruct Hp as [Hd _].
  cbn [startsWith]. destruct (d =? w)%N eqn:E; [|reflexivity].
  apply N.eqb_eq in E. subst w. unfold solid in Hd. rewrite Hw in Hd.
  discriminate.
Qed.

(** A text of sections holds no label but those of its sections. *)
Lemma framed_free comp first others :
  In comp componentNames ->
  section first ->
  Forall (fun gs => isBreak (fst gs) /\ section (snd gs)) others ->
  ~ In comp (namesOf first others) ->
  includes (framed first others) (js comp ++ js ":") = false.
Proof.
  intros Hc Hf Ho Hnotin. rewrite namesOf_chunks in Hnotin.
  destruct (label_pieces comp Hc) as [Hne Hsolid].
  unfold framed. revert first Hf Hnotin.
  induction Ho as [|[g s] more [Hg Hs] Hmore IH]; intros first Hf Hnotin.
  - cbn [gapped flat_map]. rewrite app_nil_r. unfold partText.
    apply partText_free;
      [exact (proj1 Hf)|exact Hc
      |intros E; apply Hnotin; left; exact E
      |apply section_unlabelled; exact Hf].
  - apply includes_app_free; [exact Hne|exact Hsolid| | |].
    + unfold partText. apply partText_free;
        [exact (proj1 Hf)|exact Hc
        |intros E; apply Hnotin; left; exact E
        |apply section_unlabelled; exact Hf].
    + rewrite gapped_cons. cbn [fst snd].
      apply afterBody_spaces; [exact (proj1 Hg)|apply break_nonempty; exact Hg].
    + rewrite gapped_cons. cbn [fst snd].
      apply includes_spaces; [exact Hne|exact Hsolid|exact (proj1 Hg)|].
      apply IH; [exact Hs|]. intros Hin. apply Hnotin. right. exact Hin.
Qed.

(** No cut before the walk on a text of sections. *)
Lemma fromRole_framed first others :
  sectioned first others ->
  fromRole (framed first others) = framed first others.
Proof.
  intros [Hf [Ho [Hnd Hrole]]]. unfold fromRole. cbv zeta.
  destruct (String.eqb (pname first) "Role") eqn:E.
  - apply String.eqb_eq in E.
    assert (Hs : search flagM (seqs [RBol; lit "Role:"]) (framed first others)
                 = 0%Z).
    { unfold framed, partText. rewrite E, <- !app_assoc. apply search_role. }
    rewrite Hs. reflexivity.
  - apply String.eqb_neq in E. rewrite search_none; [reflexivity|].
    apply framed_free; [left; reflexivity|exact Hf|exact Ho|].
    rewrite namesOf_chunks. intros [H|H]; [exact (E H)|exact (Hrole H)].
Qed.

(** A text of sections is left as it is by the first three stages, if no
    suffix pattern matches it. *)
Lemma strip_sectioned cat first others :
  ofRoute cat -> section first ->
  Forall (fun gs => isBreak (fst gs) /\ section (snd gs)) others ->
  removePatterns (suffixPatterns cat) (framed first others)
  = framed first others ->
  stripStage cat (framed first others) = framed first others.
Proof.
  intros Hcat Hf Ho Hsuf. unfold stripStage. cbv zeta.
  pose proof (trim_framed [] first others [] eq_refl Hf Ho eq_refl) as Ht.
  cbn [app] in Ht. rewrite app_nil_r in Ht. rewrite Ht.
  assert (Hl : framed first others
               = js (pname first) ++ js ":" ++ pbody first ++ gapped others).
  { unfold framed, partText. rewrite <- !app_assoc. reflexivity. }
  assert (Hpre : removePatterns (prefixPatterns cat) (framed first others)
                 = framed first others).
  { rewrite Hl. apply (ofRoute_sparesLabels cat Hcat). exact (proj1 Hf). }
  rewrite Hpre, Hsuf, Hl. apply removeQuotes_label. exact (proj1 Hf).
Qed.

Lemma preamble_nil : preamble [].
Proof. split; [constructor|reflexivity]. Qed.

(** A text in the form that cleaning gives: sections one blank line
    apart, without a run of three line feeds in them. *)
Definition orderly (first : part) (others : list (jsstring * part)) : Prop :=
  sectioned first others
  /\ collapseBlankLines (pbody first) = pbody first
  /\ Forall (fun gs => fst gs = nl ++ nl
                       /\ collapseBlankLines (pbody (snd gs)) = pbody (snd gs))
            others.

Lemma tidied_fixed s : collapseBlankLines (pbody s) = pbody s -> tidied s = s.
Proof. destruct s as [n b]. unfold tidied. cbn [pname pbody]. intros ->. reflexivity. Qed.

Lemma neat_orderly first others :
  sectioned first others -> orderly (tidied first) (neat others).
Proof.
  intros Hsec. split; [apply neat_sectioned; exact Hsec|]. split.
  - cbn [tidied pbody]. rewrite !collapseBlankLines_squeeze. apply squeeze_idem.
  - unfold neat. apply Forall_forall. intros gs Hin.
    apply in_map_iff in Hin. destruct Hin as [gs' [<- _]]. cbn [fst snd].
    split; [reflexivity|]. cbn [tidied pbody].
    rewrite !collapseBlankLines_squeeze. apply squeeze_idem.
Qed.

Lemma orderly_neat first others :
  orderly first others -> tidied first = first /\ neat others = others.
Proof.
  intros [_ [Hf Ho]]. split; [apply tidied_fixed; exact Hf|].
  unfold neat. induction Ho as [|[g s] more [Hg Hs] _ IH]; [reflexivity|].
  cbn [map fst snd] in *. rewrite IH, (tidied_fixed s Hs), Hg. reflexivity.
Qed.

(** Cleaning leaves an orderly text as it is, if no suffix pattern matches
    it. *)
Lemma clean_orderly cat first others :
  ofRoute cat -> orderly first others ->
  removePatterns (suffixPatterns cat) (framed first others)
  = framed first others ->
  cleanResponseWith cat (framed first others) fw = framed first others.
Proof.
  intros Hcat Hord Hsuf. pose proof Hord as [Hsec _].
  pose proof Hsec as [Hf [Ho _]].
  pose proof (strip_sectioned cat _ _ Hcat Hf Ho Hsuf) as Hs.
  assert (Hcut : fromRole (stripStage cat (framed first others))
                 = [] ++ framed first others ++ []).
  { rewrite Hs, (fromRole_framed _ _ Hsec), app_nil_r. reflexivity. }
  rewrite (clean_sectioned cat _ [] first others [] Hcut preamble_nil Hsec
             (or_introl eq_refl)).
  destruct (orderly_neat first others Hord) as [-> ->]. reflexivity.
Qed.

(** Cleaning gives the empty text back. *)
Lemma clean_empty cat : ofRoute cat -> cleanResponseWith cat [] fw = [].
Proof. intros [-> | ->]; reflexivity. Qed.

(** *** Checking that a text is made of sections *)

Fixpoint distinct (names : list string) : bool :=
  match names with
  | [] => true
  | n :: names' => negb (existsb (String.eqb n) names') && distinct names'
  end.

Definition sectionb (s : part) : bool :=
  existsb (String.eqb (pname s)) componentNames
  && labelFree (pbody s) && solidEnd (pbody s).

Definition isBreakb (g : jsstring) : bool :=
  forallb isSpace g && existsb (N.eqb 10) g.

Definition sectionedb (first : part) (others : list (jsstring * part)) : bool :=
  sectionb first
  && forallb (fun gs => isBreakb (fst gs) && sectionb (snd gs)) others
  && distinct (namesOf first others)
  && negb (existsb (String.eqb "Role") (map (fun gs => pname (snd gs)) others)).

Lemma existsb_eqb n (names : list string) :
  existsb (String.eqb n) names = true <-> In n names.
Proof.
  rewrite existsb_exists. split.
  - intros [m [Hin E]]. apply String.eqb_eq in E. subst m. exact Hin.
  - intros Hin. exists n. split; [exact Hin|apply String.eqb_refl].
Qed.

Lemma distinct_NoDup names : distinct names = true -> NoDup names.
Proof.
  induction names as [|n names IH]; intros H; [constructor|].
  cbn [distinct] in H. apply andb_true_iff in H. destruct H as [Hn Hd].
  constructor; [|exact (IH Hd)].
  intros Hin. apply existsb_eqb in Hin. rewrite Hin in Hn. discriminate.
Qed.

Lemma sectionb_section s : sectionb s = true -> section s.
Proof.
  unfold sectionb. intros H. apply andb_true_iff in H. destruct H as [H Hs].
  apply andb_true_iff in H. destruct H as [Hn Hl].
  split; [apply existsb_eqb; exact Hn|split; assumption].
Qed.

Lemma isBreakb_isBreak g : isBreakb g = true -> isBreak g.
Proof.
  unfold isBreakb. intros H. apply andb_true_iff in H. destruct H as [Hs Hn].
  split; [exact Hs|]. apply existsb_exists in Hn.
  destruct Hn as [c [Hin E]]. apply N.eqb_eq in E. subst c. exact Hin.
Qed.

Lemma sectionedb_sectioned first others :
  sectionedb first others = true -> sectioned first others.
Proof.
  unfold sectionedb. intros H.
  apply andb_true_iff in H. destruct H as [H Hrole].
  apply andb_true_iff in H. destruct H as [H Hd].
  apply andb_true_iff in H. destruct H as [Hf Ho].
  split; [apply sectionb_section; exact Hf|]. split; [|split].
  - apply Forall_forall. intros gs Hin.
    rewrite forallb_forall in Ho. specialize (Ho gs Hin).
    apply andb_true_iff in Ho. destruct Ho as [Hg Hs].
    split; [apply isBreakb_isBreak; exact Hg|apply sectionb_section; exact Hs].
  - apply distinct_NoDup. exact Hd.
  - intros Hin. apply existsb_eqb in Hin. rewrite Hin in Hrole. discriminate.
Qed.

Definition orderlyb (first : part) (others : list (jsstring * part)) : bool :=
  sectionedb first others
  && eqs (collapseBlankLines (pbody first)) (pbody first)
  && forallb (fun gs => eqs (fst gs) (nl ++ nl)
                        && eqs (collapseBlankLines (pbody (snd gs)))
                               (pbody (snd gs))) others.

Lemma orderlyb_orderly first others :
  orderlyb first others = true -> orderly first others.
Proof.
  unfold orderlyb. intros H.
  apply andb_true_iff in H. destruct H as [H Ho].
  apply andb_true_iff in H. destruct H as [Hsec Hf].
  split; [apply sectionedb_sectioned; exact Hsec|]. split.
  - apply eqs_true. exact Hf.
  - apply Forall_forall. intros gs Hin.
    rewrite forallb_forall in Ho. specialize (Ho gs Hin).
    apply andb_true_iff in Ho. destruct Ho as [Hg Hs].
    split; apply eqs_true; assumption.
Qed.

(** *** Label lines *)

Lemma has_absent (found : list jsstring) c : ~ In c found -> has found c = false.
Proof.
  intros H. destruct (has found c) eqn:E; [|reflexivity].
  exfalso. apply H. apply has_In. exact E.
Qed.

(** When no label comes twice, each label of the lines opens one line. *)
Lemma occurrences_once (lines : list jsstring) :
  NoDup (labelsOf lines) ->
  forall c, occurrences c lines = if has (labelsOf lines) c then 1 else 0.
Proof.
  induction lines as [|line lines IH]; intros Hnd c; [reflexivity|].
  unfold labelsOf, occurrences in *. cbn [flat_map filter] in *.
  destruct (labelOf line) as [c'|] eqn:El.
  - cbn [app] in *. inversion Hnd as [|x xs Hnotin Hnd']. subst.
    cbn [has existsb]. fold (has (flat_map
      (fun line => match labelOf line with Some c => [c] | None => [] end)
      lines) c).
    destruct (eqs c c') eqn:E.
    + apply eqs_true in E. subst c'. cbn [List.length orb].
      rewrite (IH Hnd' c). rewrite (has_absent _ c Hnotin). reflexivity.
    + cbn [orb]. exact (IH Hnd' c).
  - cbn [app] in *. exact (IH Hnd c).
Qed.

Lemma unlabelled_no_labels (lines : list jsstring) :
  Forall (fun line => labelOf line = None) lines -> labelsOf lines = [].
Proof.
  induction 1 as [|l ls Hl _ IH]; [reflexivity|].
  unfold labelsOf in *. cbn [flat_map]. rewrite Hl, IH. reflexivity.
Qed.

(** The labels of the lines before the repeated label are those of the
    sections. *)
Lemma preamble_labels pre first others :
  preamble pre -> sectioned first others ->
  labelsOf (split 10 (pre ++ framed first others))
  = map js (namesOf first others).
Proof.
  intros [Hj Hv] Hsec. rewrite split_app_last, labelsOf_app.
  rewrite (unlabelled_no_labels _ Hj). cbn [app].
  pose proof (proj1 (proj2 (walk_sections (last (split 10 pre) []) first
                              others [] Hv (last_line_inline pre) Hsec
                              eq_refl))) as H.
  rewrite app_nil_r in H. exact H.
Qed.

(* ================================================================== *)
(** ** Duplicated labels *)
(* ================================================================== *)

(** C3 as stated, for a raw reply [raw]: if [dup] is the first line
    whose label already occurs in the lines [pre] before it, the output
    holds one label line for each label of [pre] and no other. *)
Definition duplicateClaim (raw : jsstring) : Prop :=
  forall pre dup rest c,
    split 10 raw = pre ++ dup :: rest ->
    NoDup (labelsOf pre) -> labelOf dup = Some c -> In c (labelsOf pre) ->
    forall c', In c' (map js componentNames) ->
      occurrences c' (split 10 (Rewrite.cleanResponse raw fw))
      = if has (labelsOf pre) c' then 1 else 0.

Lemma NoDup_two (a b : jsstring) : a <> b -> NoDup [a; b].
Proof.
  intros H. constructor.
  - intros [E|[]]. congruence.
  - constructor; [intros []|constructor].
Qed.

(** C3, as stated, fails.  A label before the first line-initial "Role:"
    belongs to the preamble that is cut off, so it is absent from the
    output; and the final spacing pass puts a label that stands inside a
    line at the start of a line of its own, so a label can occur twice. *)
Lemma duplicate_claim_fails :
  ~ duplicateClaim (textLines ["Context: X"; "Role: A"; "Role: B"]%string)
  /\ ~ duplicateClaim (textLines ["Role: A"; "-Task: B"; "Task: C"; "Task: D"]%string).
Proof.
  split.
  - intros H.
    specialize (H [js "Context: X"; js "Role: A"] (js "Role: B") []
                  (js "Role") eq_refl).
    assert (Hnd : NoDup (labelsOf [js "Context: X"; js "Role: A"])).
    { apply NoDup_two. vm_compute. discriminate. }
    specialize (H Hnd eq_refl).
    assert (Hin : In (js "Role") (labelsOf [js "Context: X"; js "Role: A"])).
    { right. left. reflexivity. }
    specialize (H Hin (js "Context")).
    assert (Hc : In (js "Context") (map js componentNames)).
    { right. left. reflexivity. }
    specialize (H Hc). vm_compute in H. discriminate.
  - intros H.
    specialize (H [js "Role: A"; js "-Task: B"; js "Task: C"] (js "Task: D") []
                  (js "Task") eq_refl).
    assert (Hnd : NoDup (labelsOf [js "Role: A"; js "-Task: B"; js "Task: C"])).
    { apply NoDup_two. vm_compute. discriminate. }
    specialize (H Hnd eq_refl).
    assert (Hin : In (js "Task")
                    (labelsOf [js "Role: A"; js "-Task: B"; js "Task: C"])).
    { right. left. reflexivity. }
    specialize (H Hin (js "Task")).
    assert (Hc : In (js "Task") (map js componentNames)).
    { right. right. left. reflexivity. }
    specialize (H Hc). vm_compute in H. discriminate.
Qed.

(** C3, amended.  Take the text that the line walk reads (the reply
    after the first three stages, from the first line-initial "Role:" on
    when there is one after the start), and let it be: lines without
    label, then sections that each start a line, indented or not, with a
    label, hold no label inside their text, carry no label twice and
    have "Role", if it is among them, first, then a line that starts
    with one of their labels again, and anything after it.  Then the
    labels of the lines before the repeated one are those of the
    sections; cleaning returns exactly these sections, every run of three
    or more line feeds inside each reduced to two and one blank line
    between two of them, whatever follows the repeated label; so each of
    these labels opens exactly one line of the output and no other label
    opens any.  In particular the reply
    "Role: A\n\nContext: B\n\nRole: A2\n\nContext: B2" is cleaned to
    "Role: A\n\nContext: B", in both routes. *)
Theorem duplicate_label_discards_rest :
  (forall (cat : catalogue) (raw pre : jsstring) (first : part)
          (others : list (jsstring * part)) (gap : jsstring) (n : string)
          (tail : jsstring),
      fromRole (stripStage cat raw)
      = pre ++ framed first others ++ gap ++ js n ++ js ":" ++ tail ->
      preamble pre -> sectioned first others ->
      isBreak gap -> In n (namesOf first others) ->
      labelsOf (split 10 (pre ++ framed first others))
      = map js (namesOf first others)
      /\ cleanResponseWith cat raw fw = framed (tidied first) (neat others)
      /\ (forall c,
             occurrences c (split 10 (cleanResponseWith cat raw fw))
             = if has (map js (namesOf first others)) c then 1 else 0))
  /\ Rewrite.cleanResponse
       (paragraphs ["Role: A"; "Context: B"; "Role: A2"; "Context: B2"]%string)
       fw
     = paragraphs ["Role: A"; "Context: B"]%string
  /\ SelfImprove.cleanResponse
       (paragraphs ["Role: A"; "Context: B"; "Role: A2"; "Context: B2"]%string)
       fw
     = paragraphs ["Role: A"; "Context: B"]%string.
Proof.
  split; [|split; vm_compute; reflexivity].
  intros cat raw pre first others gap n tail Hcut Hpre Hsec Hgap Hn.
  assert (Hend : ending first others (gap ++ js n ++ js ":" ++ tail)).
  { right. exists gap, n, tail. split; [reflexivity|split; assumption]. }
  destruct (clean_sectioned_labels cat raw pre first others _ Hcut Hpre
              Hsec Hend) as [Hout [Hlabels _]].
  split; [|split; [exact Hout|]].
  - apply preamble_labels; assumption.
  - intros c. rewrite <- Hlabels. apply occurrences_once.
    rewrite Hlabels. apply NoDup_js. exact (proj1 (proj2 (proj2 Hsec))).
Qed.

Definition sectionOf (name body : string) : part :=
  {| pname := name; pbody := js body |}.

(** A reply with a colon in a section, and a reply without "Role" whose
    sections are indented and run over several lines, behind a line
    without label. *)
Lemma duplicate_label_discards_rest_witness :
  Rewrite.cleanResponse
    (paragraphs ["Role: You are an expert: be nice"; "Context: B";
                 "Role: A2"]%string) fw
  = paragraphs ["Role: You are an expert: be nice"; "Context: B"]%string
  /\ SelfImprove.cleanResponse
       (textLines ["Notes"; "  Context: A"; "  more"; ""; ""; ""; "end";
                   "  Task:"; "Context: again Task: x"]%string) fw
     = textLines ["Context: A"; "  more"; ""; "end"; ""; "Task:"]%string.
Proof.
  split.
  - refine (proj1 (proj2 (proj1 duplicate_label_discards_rest
              RewriteCatalogue.cat
              (paragraphs ["Role: You are an expert: be nice"; "Context: B";
                           "Role: A2"]%string)
              [] (sectionOf "Role" " You are an expert: be nice")
              [(nl ++ nl, sectionOf "Context" " B")]
              (nl ++ nl) "Role"%string (js " A2") _ _ _ _ _))).
    + vm_compute. reflexivity.
    + split; [constructor|reflexivity].
    + apply sectionedb_sectioned. vm_compute. reflexivity.
    + apply isBreakb_isBreak. vm_compute. reflexivity.
    + left. reflexivity.
  - refine (proj1 (proj2 (proj1 duplicate_label_discards_rest
              ImproveCatalogue.cat
              (textLines ["Notes"; "  Context: A"; "  more"; ""; ""; "";
                          "end"; "  Task:"; "Context: again Task: x"]%string)
              (textLines ["Notes"; "  "]%string)
              {| pname := "Context";
                 pbody := textLines [" A"; "  more"; ""; ""; ""; "end"]%string |}
              [(nl ++ js "  ", sectionOf "Task" "")]
              nl "Context"%string (js " again Task: x") _ _ _ _ _))).
    + vm_compute. reflexivity.
    + split; [constructor; [reflexivity|constructor]|reflexivity].
    + apply sectionedb_sectioned. vm_compute. reflexivity.
    + apply isBreakb_isBreak. vm_compute. reflexivity.
    + left. reflexivity.
Defined.

(* ================================================================== *)
(** ** Cleaning twice *)
(* ================================================================== *)

(** The text holds no label twice. *)
Definition oneEachLabel (x : jsstring) : Prop := NoDup (labelsOf (split 10 x)).

Definition helpsTwice : jsstring :=
  js "Role: A I hope this helps! I hope this helps!".

(** ["Role: A\nTask: B Task: C"] *)
Definition taskTwice : jsstring :=
  textLines ["Role: A"; "Task: B Task: C"]%string.

(** C9, as stated, fails in two ways.  Each suffix pattern is removed
    once per cleaning, so a text that ends with the same closing phrase
    twice loses one on the first cleaning and the other on the second.
    And a label that stands inside a line is put at the start of a line
    of its own by the first cleaning, where the second cleaning finds a
    label repeated and drops it with what follows; no suffix pattern
    matches that text, before or after the first cleaning. *)
Lemma cleaning_not_idempotent :
  (oneEachLabel helpsTwice
   /\ Rewrite.cleanResponse helpsTwice fw = js "Role: A I hope this helps!"
   /\ Rewrite.cleanResponse (Rewrite.cleanResponse helpsTwice fw) fw
      = js "Role: A"
   /\ Rewrite.cleanResponse (Rewrite.cleanResponse helpsTwice fw) fw
      <> Rewrite.cleanResponse helpsTwice fw)
  /\ (oneEachLabel taskTwice
      /\ removePatterns RewriteCatalogue.suffixes taskTwice = taskTwice
      /\ removePatterns RewriteCatalogue.suffixes
           (Rewrite.cleanResponse taskTwice fw)
         = Rewrite.cleanResponse taskTwice fw
      /\ Rewrite.cleanResponse taskTwice fw
         = paragraphs ["Role: A"; "Task: B"; "Task: C"]%string
      /\ Rewrite.cleanResponse (Rewrite.cleanResponse taskTwice fw) fw
         = paragraphs ["Role: A"; "Task: B"]%string
      /\ Rewrite.cleanResponse (Rewrite.cleanResponse taskTwice fw) fw
         <> Rewrite.cleanResponse taskTwice fw).
Proof.
  split.
  - split; [|split; [|split]].
    + unfold oneEachLabel. vm_compute. constructor; [intros []|constructor].
    + vm_compute. reflexivity.
    + vm_compute. reflexivity.
    + vm_compute. discriminate.
  - split; [|split; [|split; [|split; [|split]]]].
    + unfold oneEachLabel. vm_compute.
      constructor; [intros [H|[]]; discriminate H|].
      constructor; [intros []|constructor].
    + vm_compute. reflexivity.
    + vm_compute. reflexivity.
    + vm_compute. reflexivity.
    + vm_compute. reflexivity.
    + vm_compute. discriminate.
Qed.

(** C9, amended.  When the cleaned text is empty, or is made of
    sections that each start a line with a label, hold no label inside
    their text, carry no label twice and have "Role", if it is among
    them, first, one blank line apart and without a run of three line
    feeds, and no suffix pattern matches it, cleaning it again returns
    it unchanged, in both routes.  The cleaned text is made of such
    sections, and holds no label twice, whenever the text that the line
    walk reads is: lines without label, then sections that each start a
    line, indented or not, with a label, hold no label inside their
    text, carry no label twice and have "Role", if it is among them,
    first, followed by nothing but whitespace or by a line that repeats
    one of their labels and anything after it. *)
Theorem cleaning_sectioned_idempotent :
  (forall (cat : catalogue) (x : jsstring) (first : part)
          (others : list (jsstring * part)),
      ofRoute cat ->
      cleanResponseWith cat x fw = [] \/
      (cleanResponseWith cat x fw = framed first others
       /\ orderly first others
       /\ removePatterns (suffixPatterns cat) (cleanResponseWith cat x fw)
          = cleanResponseWith cat x fw) ->
      cleanResponseWith cat (cleanResponseWith cat x fw) fw
      = cleanResponseWith cat x fw)
  /\ (forall (cat : catalogue) (x pre : jsstring) (first : part)
             (others : list (jsstring * part)) (rest : jsstring),
         fromRole (stripStage cat x) = pre ++ framed first others ++ rest ->
         preamble pre -> sectioned first others ->
         ending first others rest ->
         cleanResponseWith cat x fw = framed (tidied first) (neat others)
         /\ orderly (tidied first) (neat others)
         /\ oneEachLabel (cleanResponseWith cat x fw)).
Proof.
  split.
  - intros cat x first others Hcat [Hempty|[Hout [Hord Hsuf]]].
    + rewrite Hempty. apply clean_empty. exact Hcat.
    + rewrite Hout in *. apply clean_orderly; assumption.
  - intros cat x pre first others rest Hcut Hpre Hsec Hend.
    destruct (clean_sectioned_labels cat x pre first others rest Hcut Hpre
                Hsec Hend) as [Hout [Hlabels _]].
    split; [exact Hout|]. split; [apply neat_orderly; exact Hsec|].
    unfold oneEachLabel. rewrite Hlabels. apply NoDup_js.
    exact (proj1 (proj2 (proj2 Hsec))).
Qed.

(** A reply on one line, whose labels cleaning puts on lines of their
    own; and a reply behind a preamble, with a list, blank lines and
    trailing whitespace. *)
Lemma cleaning_sectioned_idempotent_witness :
  Rewrite.cleanResponse
    (Rewrite.cleanResponse (js "Role: A Context: B Task: C") fw) fw
  = Rewrite.cleanResponse (js "Role: A Context: B Task: C") fw
  /\ SelfImprove.cleanResponse
       (textLines ["Here you go"; "Role: A"; "- item"; ""; ""; "";
                   "Task: B"; ""]%string) fw
     = textLines ["Role: A"; "- item"; ""; "Task: B"]%string.
Proof.
  split.
  - refine (proj1 cleaning_sectioned_idempotent RewriteCatalogue.cat
              (js "Role: A Context: B Task: C")
              (sectionOf "Role" " A")
              [(nl ++ nl, sectionOf "Context" " B");
               (nl ++ nl, sectionOf "Task" " C")] _ _).
    + left. reflexivity.
    + right. split; [vm_compute; reflexivity|]. split.
      * apply orderlyb_orderly. vm_compute. reflexivity.
      * vm_compute. reflexivity.
  - refine (proj1 (proj2 cleaning_sectioned_idempotent ImproveCatalogue.cat
              (textLines ["Here you go"; "Role: A"; "- item"; ""; ""; "";
                          "Task: B"; ""]%string)
              [] {| pname := "Role"; pbody := textLines [" A"; "- item"]%string |}
              [(nl ++ nl ++ nl ++ nl, sectionOf "Task" " B")] [] _ _ _ _)).
    + vm_compute. reflexivity.
    + split; [constructor|reflexivity].
    + apply sectionedb_sectioned. vm_compute. reflexivity.
    + left. reflexivity.
Defined.
